(** * A shallow embedding of the vim-trainer editing engine (vim-engine.ts)

    The engine interprets key events against a multi-line text buffer.
    JavaScript numbers are modelled as [Z], JavaScript strings as lists of
    code units below 256 ([list ascii]), arrays as lists.  A computation that
    throws a TypeError, or that would leave a hole in the array of lines,
    is [None] in the monad [M]. *)

From Stdlib Require Import ZArith List Ascii Bool Lia.
From Stdlib Require String DecimalString DecimalPos DecimalFacts.
Import ListNotations String.StringSyntax.
Local Open Scope string_scope.
Local Open Scope list_scope.
Local Open Scope Z_scope.

Definition jstring := list ascii.

#[warnings="-uniform-inheritance"]
Coercion String.list_ascii_of_string : String.string >-> list.

(** ** The error monad *)

Definition M (A : Type) := option A.
Definition ret {A} (a : A) : M A := Some a.
Definition bind {A B} (m : M A) (k : A -> M B) : M B :=
  match m with Some a => k a | None => None end.

Notation "x <- m ;; k" := (bind m (fun x => k))
  (at level 61, m at next level, right associativity).

(** ** JavaScript primitives used by the engine *)

Module JS.

(** [s.length] *)
Definition len (s : jstring) : Z := Z.of_nat (length s).

Definition clamp (lo hi x : Z) : Z := Z.max lo (Z.min x hi).

Fixpoint eqb (a b : jstring) : bool :=
  match a, b with
  | [], [] => true
  | x :: a', y :: b' => Ascii.eqb x y && eqb a' b'
  | _, _ => false
  end.

(** [s.substring(a, b)]: both ends clamped to [0, length], swapped if
    out of order. *)
Definition substring (s : jstring) (a b : Z) : jstring :=
  let a' := clamp 0 (len s) a in
  let b' := clamp 0 (len s) b in
  let from := Z.min a' b' in
  let to := Z.max a' b' in
  firstn (Z.to_nat (to - from)) (skipn (Z.to_nat from) s).

(** [s.substring(a)] *)
Definition substringFrom (s : jstring) (a : Z) : jstring :=
  substring s a (len s).

(** [s.slice(a, b)]: negative indices count from the end. *)
Definition slice (s : jstring) (a b : Z) : jstring :=
  let n := len s in
  let from := if a <? 0 then Z.max (n + a) 0 else Z.min a n in
  let to := if b <? 0 then Z.max (n + b) 0 else Z.min b n in
  firstn (Z.to_nat (Z.max (to - from) 0)) (skipn (Z.to_nat from) s).

(** [s.slice(a)] *)
Definition sliceFrom (s : jstring) (a : Z) : jstring := slice s a (len s).

(** [s[i]]: [None] is [undefined]. *)
Definition charAt (s : jstring) (i : Z) : option ascii :=
  if i <? 0 then None else nth_error s (Z.to_nat i).

(** [s[i]] as a one-character string. *)
Definition charStr (s : jstring) (i : Z) : option jstring :=
  option_map (fun c => [c]) (charAt s i).

Definition code (c : ascii) : Z := Z.of_nat (nat_of_ascii c).

Definition is_digit (c : ascii) : bool := (48 <=? code c) && (code c <=? 57).

(** The class [\w]: letters, digits and underscore. *)
Definition is_word (c : ascii) : bool :=
  let n := code c in
  ((97 <=? n) && (n <=? 122)) || ((65 <=? n) && (n <=? 90))
  || is_digit c || (n =? 95).

(** The class [\s] below 256: tab, line feed, vertical tab, form feed,
    carriage return, space and no-break space. *)
Definition is_space (c : ascii) : bool :=
  let n := code c in
  ((9 <=? n) && (n <=? 13)) || (n =? 32) || (n =? 160).

(** [/\w/.test(s[i])] and [/\s/.test(s[i])]: the argument is converted to a
    string first, so [undefined] is tested as the text "undefined". *)
Definition test_w (c : option ascii) : bool :=
  match c with Some c => is_word c | None => true end.

Definition test_s (c : option ascii) : bool :=
  match c with Some c => is_space c | None => false end.

Fixpoint prefixb (p s : jstring) : bool :=
  match p, s with
  | [], _ => true
  | x :: p', y :: s' => Ascii.eqb x y && prefixb p' s'
  | _ :: _, [] => false
  end.

(** First position at which [p] occurs in [s]. *)
Fixpoint find (p s : jstring) : option nat :=
  if prefixb p s then Some 0%nat
  else match s with
       | [] => None
       | _ :: s' => option_map S (find p s')
       end.

(** [s.indexOf(p, from)]; the result [-1] means no occurrence. *)
Definition indexOf (s p : jstring) (from : Z) : Z :=
  let start := clamp 0 (len s) from in
  match find p (skipn (Z.to_nat start) s) with
  | Some k => start + Z.of_nat k
  | None => -1
  end.

(** Last position [i + k] with [k <= limit] at which [p] occurs in [s],
    where [i] is the position of [s] itself. *)
Fixpoint rfind (p s : jstring) (i limit : nat) : option nat :=
  let here := if (i <=? limit)%nat && prefixb p s then Some i else None in
  match s with
  | [] => here
  | _ :: s' =>
      match rfind p s' (S i) limit with
      | Some k => Some k
      | None => here
      end
  end.

(** [s.lastIndexOf(p, from)]: a negative [from] is treated as 0. *)
Definition lastIndexOf (s p : jstring) (from : Z) : Z :=
  let start := clamp 0 (len s) from in
  match rfind p s 0 (Z.to_nat start) with
  | Some k => Z.of_nat k
  | None => -1
  end.

Definition includes (s p : jstring) : bool :=
  match find p s with Some _ => true | None => false end.

Definition startsWith (s p : jstring) : bool := prefixb p s.

Definition endsWith (s p : jstring) : bool :=
  (length p <=? length s)%nat
  && eqb (skipn (length s - length p) s) p.

(** [s.search(/\S/)] *)
Fixpoint search_S (s : jstring) : Z :=
  match s with
  | [] => -1
  | c :: s' =>
      if is_space c then
        (let r := search_S s' in if r =? -1 then -1 else r + 1)
      else 0
  end.

(** [s.trimStart()] *)
Fixpoint trimStart (s : jstring) : jstring :=
  match s with
  | c :: s' => if is_space c then trimStart s' else s
  | [] => []
  end.

(** [s.toLowerCase()] on code units below 256: A-Z and the Latin-1 capitals
    (192-222 except the multiplication sign 215). *)
Definition lower (c : ascii) : ascii :=
  let n := code c in
  if ((65 <=? n) && (n <=? 90))
     || ((192 <=? n) && (n <=? 222) && negb (n =? 215))
  then ascii_of_nat (nat_of_ascii c + 32) else c.

Definition toLowerCase (s : jstring) : jstring := map lower s.

(** [a.join(sep)] on an array of strings *)
Fixpoint join (sep : jstring) (l : list jstring) : jstring :=
  match l with
  | [] => []
  | [x] => x
  | x :: rest => x ++ sep ++ join sep rest
  end.

(** The scan of [s.split(sep)] for a non-empty separator: [acc] is the
    piece being collected; every match of [sep] at the scan position closes
    the piece and the scan resumes after the match. *)
Fixpoint split_scan (fuel : nat) (sep s acc : jstring) : list jstring :=
  match fuel with
  | O => [acc ++ s]
  | S fuel' =>
      if prefixb sep s then
        acc :: split_scan fuel' sep (skipn (length sep) s) []
      else
        match s with
        | [] => [acc]
        | c :: s' => split_scan fuel' sep s' (acc ++ [c])
        end
  end.

(** [s.split(sep)]: an empty separator splits into code units. *)
Definition split (s sep : jstring) : list jstring :=
  match sep with
  | [] => map (fun c => [c]) s
  | _ => split_scan (S (length s)) sep s []
  end.

(** The replacement text of [String.prototype.replace] with a string
    pattern (GetSubstitution without captures): [$$] is a dollar sign,
    [$&] the match, [$`] the text before it, [$'] the text after it; every
    other dollar sign stands for itself. *)
Fixpoint getSubstitution (matched before after repl : jstring) : jstring :=
  match repl with
  | [] => []
  | c :: r' =>
      if Ascii.eqb c "$" then
        match r' with
        | [] => [c]
        | d :: r'' =>
            if Ascii.eqb d "$" then
              "$"%char :: getSubstitution matched before after r''
            else if Ascii.eqb d "&" then
              matched ++ getSubstitution matched before after r''
            else if Ascii.eqb d "`" then
              before ++ getSubstitution matched before after r''
            else if Ascii.eqb d "'" then
              after ++ getSubstitution matched before after r''
            else c :: getSubstitution matched before after r'
        end
      else c :: getSubstitution matched before after r'
  end.

(** [s.replace(p, repl)] with a string pattern: the first occurrence only. *)
Definition replace (s p repl : jstring) : jstring :=
  match find p s with
  | None => s
  | Some k =>
      let before := firstn k s in
      let after := skipn (k + length p) s in
      before ++ getSubstitution p before after repl ++ after
  end.

(** [/^\d+$/.test(s)] *)
Definition test_digits (s : jstring) : bool :=
  negb (Nat.eqb (length s) 0) && forallb is_digit s.

(** [parseInt(s)] on a string of decimal digits; [None] is NaN.  The engine
    applies it to the count buffer, which only ever receives digit keys, and
    to a command that passed [test_digits]. *)
Definition parseInt (s : jstring) : option Z :=
  match s with
  | [] => None
  | _ =>
      if forallb is_digit s
      then Some (fold_left (fun acc c => 10 * acc + (code c - 48)) s 0)
      else None
  end.

(** [n.toString()] for an integer: its decimal digits. *)
Definition toString (n : Z) : jstring :=
  String.list_ascii_of_string
    (DecimalString.NilZero.string_of_int (Z.to_int n)).

(** [a[i]] on an array: [None] is [undefined]. *)
Definition aget {A} (l : list A) (i : Z) : option A :=
  if i <? 0 then None else nth_error l (Z.to_nat i).

(** [a[i] = v] inside the array. *)
Fixpoint aset {A} (l : list A) (i : nat) (v : A) : list A :=
  match l, i with
  | [], _ => []
  | _ :: l', O => v :: l'
  | x :: l', S i' => x :: aset l' i' v
  end.

(** The start index of [splice] and [slice]: negative counts from the end. *)
Definition relIndex (n i : Z) : Z :=
  if i <? 0 then Z.max (n + i) 0 else Z.min i n.

(** [a.splice(start, deleteCount, ...items)]: the array left behind and
    the removed elements. *)
Definition splice {A} (l : list A) (start deleteCount : Z) (items : list A)
  : list A * list A :=
  let n := Z.of_nat (length l) in
  let st := relIndex n start in
  let dc := clamp 0 (n - st) deleteCount in
  (firstn (Z.to_nat st) l ++ items ++ skipn (Z.to_nat (st + dc)) l,
   firstn (Z.to_nat dc) (skipn (Z.to_nat st) l)).

(** [a.slice(from, to)] *)
Definition aslice {A} (l : list A) (from to : Z) : list A :=
  let n := Z.of_nat (length l) in
  let f := relIndex n from in
  let t := relIndex n to in
  firstn (Z.to_nat (Z.max (t - f) 0)) (skipn (Z.to_nat f) l).

End JS.

(** ** The data model (types.ts) *)

Inductive VimMode := normal | insert | visual | command.

Record CursorPosition := mkCursor { line : Z; col : Z }.

Record Selection := mkSelection {
  sel_start : CursorPosition;
  sel_end : CursorPosition
}.

(** [registers] is a JavaScript object used as a map from register names to
    texts; the engine only ever uses the unnamed register.  A register can
    come to hold [undefined] (the character read at a column outside the
    line), which is [None] here. *)
Record EditorState := mkState {
  lines : list jstring;
  cursor : CursorPosition;
  mode : VimMode;
  selection : option Selection;
  commandBuffer : jstring;
  registers : list (jstring * option jstring);
  lastSearch : jstring;
  message : jstring
}.

(** The private fields of the engine next to its state; [commandTimeout]
    records whether the decay timer of a pending prefix is armed. *)
Record VimEngine := mkEngine {
  state : EditorState;
  countBuffer : jstring;
  commandTimeout : bool
}.

(** A key event as the engine reads it. *)
Record KeyboardEvent := mkEvent {
  key : jstring;
  ctrlKey : bool;
  shiftKey : bool
}.

Inductive PastePosition := before | after.

Definition mode_eqb (a b : VimMode) : bool :=
  match a, b with
  | normal, normal | insert, insert | visual, visual | command, command => true
  | _, _ => false
  end.

(** Field updates ([this.state.f = v]). *)
Definition set_lines (v : list jstring) (s : EditorState) : EditorState :=
  mkState v (cursor s) (mode s) (selection s) (commandBuffer s)
          (registers s) (lastSearch s) (message s).
Definition set_cursor (v : CursorPosition) (s : EditorState) : EditorState :=
  mkState (lines s) v (mode s) (selection s) (commandBuffer s)
          (registers s) (lastSearch s) (message s).
Definition set_mode (v : VimMode) (s : EditorState) : EditorState :=
  mkState (lines s) (cursor s) v (selection s) (commandBuffer s)
          (registers s) (lastSearch s) (message s).
Definition set_selection (v : option Selection) (s : EditorState) : EditorState :=
  mkState (lines s) (cursor s) (mode s) v (commandBuffer s)
          (registers s) (lastSearch s) (message s).
Definition set_commandBuffer (v : jstring) (s : EditorState) : EditorState :=
  mkState (lines s) (cursor s) (mode s) (selection s) v
          (registers s) (lastSearch s) (message s).
Definition set_registers (v : list (jstring * option jstring))
  (s : EditorState) : EditorState :=
  mkState (lines s) (cursor s) (mode s) (selection s) (commandBuffer s)
          v (lastSearch s) (message s).
Definition set_lastSearch (v : jstring) (s : EditorState) : EditorState :=
  mkState (lines s) (cursor s) (mode s) (selection s) (commandBuffer s)
          (registers s) v (message s).
Definition set_message (v : jstring) (s : EditorState) : EditorState :=
  mkState (lines s) (cursor s) (mode s) (selection s) (commandBuffer s)
          (registers s) (lastSearch s) v.

Definition set_line (v : Z) (s : EditorState) : EditorState :=
  set_cursor (mkCursor v (col (cursor s))) s.
Definition set_col (v : Z) (s : EditorState) : EditorState :=
  set_cursor (mkCursor (line (cursor s)) v) s.

(** The name of the unnamed register: a single double-quote character. *)
Definition unnamed : jstring := ["034"%char].

(** The newline character and the one-character string of it. *)
Definition nl : jstring := ["010"%char].

Fixpoint reg_get (r : list (jstring * option jstring)) (name : jstring)
  : option jstring :=
  match r with
  | [] => None
  | (k, v) :: r' => if JS.eqb k name then v else reg_get r' name
  end.

Fixpoint reg_set (r : list (jstring * option jstring)) (name : jstring)
  (v : option jstring) : list (jstring * option jstring) :=
  match r with
  | [] => [(name, v)]
  | (k, w) :: r' =>
      if JS.eqb k name then (k, v) :: r' else (k, w) :: reg_set r' name v
  end.

(** [this.state.registers[unnamed] = text] *)
Definition set_register (text : option jstring) (s : EditorState)
  : EditorState :=
  set_registers (reg_set (registers s) unnamed text) s.

Definition alen {A} (l : list A) : Z := Z.of_nat (length l).

(** Control structures: [for (let i = 0; i < count; i++)], bounded [while]
    loops over a column, and [switch] on the key. *)
Definition times {A} (count : Z) (body : A -> A) (a : A) : A :=
  Nat.iter (Z.to_nat count) body a.

Fixpoint timesM_nat {A} (n : nat) (body : A -> M A) (a : A) : M A :=
  match n with
  | O => ret a
  | S n' => a' <- body a ;; timesM_nat n' body a'
  end.

Definition timesM {A} (count : Z) (body : A -> M A) (a : A) : M A :=
  timesM_nat (Z.to_nat count) body a.

Fixpoint while_up (fuel : nat) (cond : Z -> bool) (c : Z) : Z :=
  match fuel with
  | O => c
  | S fuel' => if cond c then while_up fuel' cond (c + 1) else c
  end.

Fixpoint while_down (fuel : nat) (cond : Z -> bool) (c : Z) : Z :=
  match fuel with
  | O => c
  | S fuel' => if cond c then while_down fuel' cond (c - 1) else c
  end.

(** [while (c < bound && cond(c)) c++]: the loop leaves after at most
    [bound - c] rounds. *)
Definition loop_up (bound : Z) (cond : Z -> bool) (c : Z) : Z :=
  while_up (Z.to_nat (bound - c)) (fun k => (k <? bound) && cond k) c.

(** [while (c > 0 && cond(c)) c--] *)
Definition loop_down (cond : Z -> bool) (c : Z) : Z :=
  while_down (Z.to_nat c) (fun k => (0 <? k) && cond k) c.

Fixpoint switch {A} (k : jstring) (cases : list (list jstring * A))
  (default : A) : A :=
  match cases with
  | [] => default
  | (labels, body) :: rest =>
      if existsb (JS.eqb k) labels then body else switch k rest default
  end.

(** A list of [case] labels. *)
Definition case_ (l : list String.string) : list jstring :=
  map String.list_ascii_of_string l.

(** ** The engine (vim-engine.ts)

    [notifyChange] only hands a snapshot to the subscriber and
    [preventDefault] only concerns the browser; neither changes the engine
    and both are left out. *)

Definition clampCursor (s : EditorState) (c : CursorPosition) : CursorPosition :=
  let ln := Z.max 0 (Z.min (line c) (alen (lines s) - 1)) in
  let lineLength :=
    match JS.aget (lines s) ln with Some l => JS.len l | None => 0 end in
  let maxCol :=
    if mode_eqb (mode s) insert then lineLength
    else Z.max 0 (lineLength - 1) in
  let cl := Z.max 0 (Z.min (col c) maxCol) in
  mkCursor ln cl.

(** [setCursor]: the cursor setter offered to the caller. *)
Definition setCursor (s : EditorState) (c : CursorPosition) : EditorState :=
  set_cursor (clampCursor s c) s.

(** [setContent]: the content loader offered to the caller. *)
Definition setContent (s : EditorState) (ls : list jstring) : EditorState :=
  set_commandBuffer []
    (set_selection None
       (set_mode normal (set_cursor (mkCursor 0 0) (set_lines ls s)))).

Definition getCurrentLine (s : EditorState) : jstring :=
  match JS.aget (lines s) (line (cursor s)) with
  | Some l => l
  | None => []
  end.

(** [this.state.lines[i] = text]; a write outside the array would leave a
    hole or a stray property behind. *)
Definition setLineAt (i : Z) (text : jstring) (s : EditorState)
  : M EditorState :=
  if (0 <=? i) && (i <? alen (lines s))
  then ret (set_lines (JS.aset (lines s) (Z.to_nat i) text) s)
  else None.

Definition setCurrentLine (text : jstring) (s : EditorState) : M EditorState :=
  setLineAt (line (cursor s)) text s.

Definition moveWordForward (s : EditorState) : EditorState :=
  let ln := getCurrentLine s in
  let c := col (cursor s) in
  let c := loop_up (JS.len ln) (fun k => JS.test_w (JS.charAt ln k)) c in
  let c := loop_up (JS.len ln) (fun k => JS.test_s (JS.charAt ln k)) c in
  if (JS.len ln <=? c) && (line (cursor s) <? alen (lines s) - 1) then
    let s := set_line (line (cursor s) + 1) s in
    let s := set_col 0 s in
    let newLine := getCurrentLine s in
    set_col (loop_up (JS.len newLine)
               (fun k => JS.test_s (JS.charAt newLine k)) (col (cursor s))) s
  else
    set_col (Z.min c (Z.max 0 (JS.len ln - 1))) s.

Definition moveWordBackward (s : EditorState) : EditorState :=
  let ln := getCurrentLine s in
  let c := col (cursor s) in
  let c := if 0 <? c then c - 1 else c in
  let c := loop_down (fun k => JS.test_s (JS.charAt ln k)) c in
  let c := loop_down (fun k => JS.test_w (JS.charAt ln (k - 1))) c in
  set_col c s.

Definition moveToEndOfWord (s : EditorState) : EditorState :=
  let ln := getCurrentLine s in
  let c := col (cursor s) in
  let c := if c <? JS.len ln - 1 then c + 1 else c in
  let c := loop_up (JS.len ln) (fun k => JS.test_s (JS.charAt ln k)) c in
  let c := loop_up (JS.len ln - 1)
             (fun k => JS.test_w (JS.charAt ln (k + 1))) c in
  set_col (Z.min c (Z.max 0 (JS.len ln - 1))) s.

Definition insertText (text : jstring) (s : EditorState) : M EditorState :=
  let ln := getCurrentLine s in
  let c := col (cursor s) in
  s <- setCurrentLine (JS.substring ln 0 c ++ text ++ JS.substringFrom ln c) s ;;
  ret (set_col (col (cursor s) + JS.len text) s).

Definition insertNewline (s : EditorState) : M EditorState :=
  let ln := getCurrentLine s in
  let c := col (cursor s) in
  s <- setCurrentLine (JS.substring ln 0 c) s ;;
  let s := set_lines (fst (JS.splice (lines s) (line (cursor s) + 1) 0
                             [JS.substringFrom ln c])) s in
  let s := set_line (line (cursor s) + 1) s in
  ret (set_col 0 s).

Definition backspace (s : EditorState) : M EditorState :=
  let c := col (cursor s) in
  if 0 <? c then
    let ln := getCurrentLine s in
    s <- setCurrentLine (JS.substring ln 0 (c - 1) ++ JS.substringFrom ln c) s ;;
    ret (set_col (col (cursor s) - 1) s)
  else if 0 <? line (cursor s) then
    let currentLine := getCurrentLine s in
    let prevLine := JS.aget (lines s) (line (cursor s) - 1) in
    let s := set_lines (fst (JS.splice (lines s) (line (cursor s)) 1 [])) s in
    let s := set_line (line (cursor s) - 1) s in
    prev <- prevLine ;;
    let s := set_col (JS.len prev) s in
    setCurrentLine (prev ++ currentLine) s
  else ret s.

Definition deleteChar (s : EditorState) : M EditorState :=
  let ln := getCurrentLine s in
  let c := col (cursor s) in
  if c <? JS.len ln then
    let s := set_register (JS.charStr ln c) s in
    s <- setCurrentLine (JS.substring ln 0 c ++ JS.substringFrom ln (c + 1)) s ;;
    ret (set_cursor (clampCursor s (cursor s)) s)
  else ret s.

Definition deleteCharBefore (s : EditorState) : M EditorState :=
  let c := col (cursor s) in
  if 0 <? c then
    let ln := getCurrentLine s in
    let s := set_register (JS.charStr ln (c - 1)) s in
    s <- setCurrentLine (JS.substring ln 0 (c - 1) ++ JS.substringFrom ln c) s ;;
    ret (set_col (col (cursor s) - 1) s)
  else ret s.

Definition deleteLine (count : Z) (s : EditorState) : EditorState :=
  let startLine := line (cursor s) in
  let endLine := Z.min (startLine + count) (alen (lines s)) in
  let '(rest, deleted) :=
    JS.splice (lines s) startLine (endLine - startLine) [] in
  let s := set_lines rest s in
  let s := set_register (Some (JS.join nl deleted ++ nl)) s in
  let s := if alen (lines s) =? 0 then set_lines [[]] s else s in
  let s := set_line (Z.min (line (cursor s)) (alen (lines s) - 1)) s in
  set_cursor (clampCursor s (cursor s)) s.

Definition yankLine (count : Z) (s : EditorState) : EditorState :=
  let startLine := line (cursor s) in
  let endLine := Z.min (startLine + count) (alen (lines s)) in
  let yanked := JS.aslice (lines s) startLine endLine in
  let s := set_register (Some (JS.join nl yanked ++ nl)) s in
  set_message (JS.toString count ++ " line(s) yanked") s.

Definition changeLine (s : EditorState) : M EditorState :=
  s <- setCurrentLine [] s ;;
  ret (set_mode insert (set_col 0 s)).

Definition deleteWord (count : Z) (s : EditorState) : M EditorState :=
  s <- timesM count (fun s =>
         let ln := getCurrentLine s in
         let startCol := col (cursor s) in
         let endCol := loop_up (JS.len ln)
                         (fun k => JS.test_w (JS.charAt ln k)) startCol in
         let endCol := loop_up (JS.len ln)
                         (fun k => JS.test_s (JS.charAt ln k)) endCol in
         if startCol <? endCol then
           let s := set_register (Some (JS.substring ln startCol endCol)) s in
           setCurrentLine (JS.substring ln 0 startCol
                             ++ JS.substringFrom ln endCol) s
         else ret s) s ;;
  ret (set_cursor (clampCursor s (cursor s)) s).

Definition changeWord (s : EditorState) : M EditorState :=
  let ln := getCurrentLine s in
  let startCol := col (cursor s) in
  let endCol := loop_up (JS.len ln)
                  (fun k => JS.test_w (JS.charAt ln k)) startCol in
  let s := set_register (Some (JS.substring ln startCol endCol)) s in
  s <- setCurrentLine (JS.substring ln 0 startCol
                         ++ JS.substringFrom ln endCol) s ;;
  ret (set_mode insert s).

Definition deleteToEnd (s : EditorState) : M EditorState :=
  let ln := getCurrentLine s in
  let c := col (cursor s) in
  let s := set_register (Some (JS.substringFrom ln c)) s in
  s <- setCurrentLine (JS.substring ln 0 c) s ;;
  ret (set_cursor (clampCursor s (cursor s)) s).

Definition deleteInQuotes (quote : jstring) (s : EditorState) : M EditorState :=
  let ln := getCurrentLine s in
  let c := col (cursor s) in
  let start := JS.lastIndexOf ln quote c in
  let end_ := JS.indexOf ln quote (c + 1) in
  let '(start, end_) :=
    if (start =? -1) || (end_ =? -1) then
      let start := JS.indexOf ln quote 0 in
      (start, JS.indexOf ln quote (start + 1))
    else (start, end_) in
  if negb (start =? -1) && negb (end_ =? -1) && (start <? end_) then
    let s := set_register (Some (JS.substring ln (start + 1) end_)) s in
    s <- setCurrentLine (JS.substring ln 0 (start + 1)
                           ++ JS.substringFrom ln end_) s ;;
    ret (set_col (start + 1) s)
  else ret s.

Definition changeInQuotes (quote : jstring) (s : EditorState) : M EditorState :=
  s <- deleteInQuotes quote s ;;
  ret (set_mode insert s).

Definition paste (position : PastePosition) (s : EditorState) : M EditorState :=
  match reg_get (registers s) unnamed with
  | None | Some [] => ret s
  | Some text =>
      if JS.endsWith text nl then
        let ls := JS.split (JS.slice text 0 (-1)) nl in
        let insertLine :=
          match position with
          | after => line (cursor s) + 1
          | before => line (cursor s)
          end in
        let s := set_lines (fst (JS.splice (lines s) insertLine 0 ls)) s in
        let s := set_line insertLine s in
        ret (set_col 0 s)
      else
        let ln := getCurrentLine s in
        let c :=
          match position with
          | after => col (cursor s) + 1
          | before => col (cursor s)
          end in
        s <- setCurrentLine (JS.substring ln 0 c ++ text
                               ++ JS.substringFrom ln c) s ;;
        ret (set_col (c + JS.len text - 1) s)
  end.

Definition joinLines (s : EditorState) : M EditorState :=
  if line (cursor s) <? alen (lines s) - 1 then
    let currentLine := getCurrentLine s in
    next <- JS.aget (lines s) (line (cursor s) + 1) ;;
    let nextLine := JS.trimStart next in
    s <- setCurrentLine (currentLine ++ " " ++ nextLine) s ;;
    ret (set_lines (fst (JS.splice (lines s) (line (cursor s) + 1) 1 [])) s)
  else ret s.

Definition updateSelection (s : EditorState) : EditorState :=
  match selection s with
  | Some sel => set_selection (Some (mkSelection (sel_start sel) (cursor s))) s
  | None => s
  end.

Definition normalizeSelection (sel : Selection) : Selection :=
  if (line (sel_end sel) <? line (sel_start sel))
     || ((line (sel_start sel) =? line (sel_end sel))
         && (col (sel_end sel) <? col (sel_start sel)))
  then mkSelection (sel_end sel) (sel_start sel)
  else sel.

(** The indices [a, a+1, ..., b-1] of a [for] loop. *)
Definition range (a b : Z) : list Z :=
  map (fun k => a + Z.of_nat k) (seq 0 (Z.to_nat (b - a))).

(** The text a selection that spans several lines covers; an array element
    that is missing is concatenated as the text "undefined". *)
Definition yankedText (ls : list jstring) (startLine endLine : jstring)
  (start end_ : CursorPosition) : jstring :=
  let yanked := JS.substringFrom startLine (col start) in
  let yanked :=
    fold_left (fun y i =>
                 y ++ nl ++ match JS.aget ls i with
                            | Some l => l
                            | None => "undefined"
                            end)
              (range (line start + 1) (line end_)) yanked in
  yanked ++ nl ++ JS.substring endLine 0 (col end_ + 1).

Definition deleteSelection (s : EditorState) : M EditorState :=
  match selection s with
  | None => ret s
  | Some sel =>
      let n := normalizeSelection sel in
      let start := sel_start n in
      let end_ := sel_end n in
      s <- (if line start =? line end_ then
              ln <- JS.aget (lines s) (line start) ;;
              let s := set_register
                         (Some (JS.substring ln (col start) (col end_ + 1)))
                         s in
              setLineAt (line start)
                (JS.substring ln 0 (col start)
                   ++ JS.substringFrom ln (col end_ + 1)) s
            else
              startLine <- JS.aget (lines s) (line start) ;;
              endLine <- JS.aget (lines s) (line end_) ;;
              let s := set_register
                         (Some (yankedText (lines s) startLine endLine
                                  start end_)) s in
              s <- setLineAt (line start)
                     (JS.substring startLine 0 (col start)
                        ++ JS.substringFrom endLine (col end_ + 1)) s ;;
              ret (set_lines (fst (JS.splice (lines s) (line start + 1)
                                     (line end_ - line start) [])) s)) ;;
      let s := set_cursor start s in
      let s := set_selection None s in
      ret (set_cursor (clampCursor s (cursor s)) s)
  end.

Definition yankSelection (s : EditorState) : M EditorState :=
  match selection s with
  | None => ret s
  | Some sel =>
      let n := normalizeSelection sel in
      let start := sel_start n in
      let end_ := sel_end n in
      if line start =? line end_ then
        ln <- JS.aget (lines s) (line start) ;;
        ret (set_register
               (Some (JS.substring ln (col start) (col end_ + 1))) s)
      else
        startLine <- JS.aget (lines s) (line start) ;;
        endLine <- JS.aget (lines s) (line end_) ;;
        ret (set_register
               (Some (yankedText (lines s) startLine endLine start end_)) s)
  end.

(** The loop of [searchNext]: [n] counts the rounds that remain and [i] is
    the loop variable; a hit returns from the function. *)
Fixpoint searchNext_loop (n : nat) (i : Z) (pattern : jstring)
  (startLine startCol : Z) (s : EditorState) : M EditorState :=
  match n with
  | O => ret s
  | S n' =>
      let lineIdx := Z.rem (startLine + i) (alen (lines s)) in
      l <- JS.aget (lines s) lineIdx ;;
      let ln := JS.toLowerCase l in
      let searchStart := if i =? 0 then startCol else 0 in
      let idx := JS.indexOf ln pattern searchStart in
      if negb (idx =? -1) then ret (set_cursor (mkCursor lineIdx idx) s)
      else searchNext_loop n' (i + 1) pattern startLine startCol s
  end.

Definition searchNext (s : EditorState) : M EditorState :=
  match lastSearch s with
  | [] => ret s
  | _ =>
      let pattern := JS.toLowerCase (lastSearch s) in
      let startLine := line (cursor s) in
      let startCol := col (cursor s) + 1 in
      searchNext_loop (length (lines s)) 0 pattern startLine startCol s
  end.

Fixpoint searchPrev_loop (n : nat) (i : Z) (pattern : jstring)
  (startLine startCol : Z) (s : EditorState) : M EditorState :=
  match n with
  | O => ret s
  | S n' =>
      let lineIdx :=
        Z.rem (startLine - i + alen (lines s)) (alen (lines s)) in
      l <- JS.aget (lines s) lineIdx ;;
      let ln := JS.toLowerCase l in
      let searchEnd := if i =? 0 then startCol else JS.len ln in
      let idx := JS.lastIndexOf ln pattern searchEnd in
      if negb (idx =? -1) then ret (set_cursor (mkCursor lineIdx idx) s)
      else searchPrev_loop n' (i + 1) pattern startLine startCol s
  end.

Definition searchPrev (s : EditorState) : M EditorState :=
  match lastSearch s with
  | [] => ret s
  | _ =>
      let pattern := JS.toLowerCase (lastSearch s) in
      let startLine := line (cursor s) in
      let startCol := col (cursor s) - 1 in
      searchPrev_loop (length (lines s)) 0 pattern startLine startCol s
  end.

Definition searchWordUnderCursor (s : EditorState) : M EditorState :=
  let ln := getCurrentLine s in
  let c := col (cursor s) in
  let start := loop_down (fun k => JS.test_w (JS.charAt ln (k - 1))) c in
  let end_ := loop_up (JS.len ln) (fun k => JS.test_w (JS.charAt ln k)) c in
  let word := JS.substring ln start end_ in
  match word with
  | [] => ret s
  | _ => searchNext (set_lastSearch word s)
  end.

Definition executeSubstitution (cmd : jstring) (s : EditorState)
  : M EditorState :=
  let parts := JS.split cmd "/" in
  if 3 <=? alen parts then
    search <- JS.aget parts 1 ;;
    replace <- JS.aget parts 2 ;;
    let flags := match JS.aget parts 3 with Some f => f | None => [] end in
    let ln := getCurrentLine s in
    if JS.includes flags "g"
    then setCurrentLine (JS.join replace (JS.split ln search)) s
    else setCurrentLine (JS.replace ln search replace) s
  else ret s.

Definition executeCommand (s : EditorState) : M EditorState :=
  let cmd := commandBuffer s in
  s <- (if JS.startsWith cmd "/" then
          let pattern := JS.sliceFrom cmd 1 in
          match pattern with
          | [] => ret s
          | _ => searchNext (set_lastSearch pattern s)
          end
        else if JS.startsWith cmd ":" then
          let command := JS.sliceFrom cmd 1 in
          if JS.eqb command "w" || JS.eqb command "write" then
            ret (set_message "File saved (simulated)" s)
          else if JS.eqb command "q" || JS.eqb command "quit" then
            ret (set_message "Would quit (simulated)" s)
          else if JS.eqb command "wq" || JS.eqb command "x" then
            ret (set_message "Saved and quit (simulated)" s)
          else if JS.test_digits command then
            match JS.parseInt command with
            | Some n =>
                let lineNum := n - 1 in
                let s := set_line (Z.max 0 (Z.min lineNum
                                              (alen (lines s) - 1))) s in
                ret (set_cursor (clampCursor s (cursor s)) s)
            | None => None
            end
          else if JS.startsWith command "s/" then
            executeSubstitution command s
          else ret s
        else ret s) ;;
  ret (set_commandBuffer [] (set_mode normal s)).

Definition handleCommandMode (s : EditorState) (k : jstring)
  : M (EditorState * bool) :=
  s <- switch k
         [ (case_ ["Escape"],
            ret (set_commandBuffer [] (set_mode normal s)));
           (case_ ["Enter"], executeCommand s);
           (case_ ["Backspace"],
            if 1 <? JS.len (commandBuffer s)
            then ret (set_commandBuffer (JS.slice (commandBuffer s) 0 (-1)) s)
            else ret (set_commandBuffer [] (set_mode normal s))) ]
         (if JS.len k =? 1
          then ret (set_commandBuffer (commandBuffer s ++ k) s)
          else ret s) ;;
  ret (s, true).

(** A [case] body that ends in [break]: the event is consumed. *)
Definition break_ (m : M EditorState) : M (EditorState * bool) :=
  s <- m ;; ret (s, true).

Definition handleVisualMode (s : EditorState) (k : jstring)
  : M (EditorState * bool) :=
  switch k
    [ (case_ ["Escape"],
       break_ (ret (set_selection None (set_mode normal s))));
      (case_ ["h"; "ArrowLeft"],
       break_ (ret (updateSelection
                      (set_col (Z.max 0 (col (cursor s) - 1)) s))));
      (case_ ["j"; "ArrowDown"],
       let s := set_line (Z.min (alen (lines s) - 1)
                            (line (cursor s) + 1)) s in
       let s := set_cursor (clampCursor s (cursor s)) s in
       break_ (ret (updateSelection s)));
      (case_ ["k"; "ArrowUp"],
       let s := set_line (Z.max 0 (line (cursor s) - 1)) s in
       let s := set_cursor (clampCursor s (cursor s)) s in
       break_ (ret (updateSelection s)));
      (case_ ["l"; "ArrowRight"],
       let maxCol := JS.len (getCurrentLine s) in
       break_ (ret (updateSelection
                      (set_col (Z.min maxCol (col (cursor s) + 1)) s))));
      (case_ ["w"], break_ (ret (updateSelection (moveWordForward s))));
      (case_ ["b"], break_ (ret (updateSelection (moveWordBackward s))));
      (case_ ["e"], break_ (ret (updateSelection (moveToEndOfWord s))));
      (case_ ["0"], break_ (ret (updateSelection (set_col 0 s))));
      (case_ ["$"],
       break_ (ret (updateSelection
                      (set_col (JS.len (getCurrentLine s)) s))));
      (case_ ["d"; "x"],
       break_ (s <- deleteSelection s ;; ret (set_mode normal s)));
      (case_ ["y"],
       break_ (s <- yankSelection s ;;
               ret (set_selection None (set_mode normal s))));
      (case_ ["c"],
       break_ (s <- deleteSelection s ;; ret (set_mode insert s))) ]
    (ret (s, false)).

Definition handleInsertMode (s : EditorState) (k : jstring) (ctrl : bool)
  : M (EditorState * bool) :=
  switch k
    [ (case_ ["Escape"],
       let s := set_mode normal s in
       break_ (ret (set_col (Z.max 0 (col (cursor s) - 1)) s)));
      (case_ ["Backspace"], break_ (backspace s));
      (case_ ["Delete"], break_ (deleteChar s));
      (case_ ["Enter"], break_ (insertNewline s));
      (case_ ["Tab"], break_ (insertText "  " s));
      (case_ ["ArrowLeft"],
       break_ (ret (set_col (Z.max 0 (col (cursor s) - 1)) s)));
      (case_ ["ArrowRight"],
       break_ (ret (set_col (Z.min (JS.len (getCurrentLine s))
                               (col (cursor s) + 1)) s)));
      (case_ ["ArrowUp"],
       let s := set_line (Z.max 0 (line (cursor s) - 1)) s in
       break_ (ret (set_cursor (clampCursor s (cursor s)) s)));
      (case_ ["ArrowDown"],
       let s := set_line (Z.min (alen (lines s) - 1)
                            (line (cursor s) + 1)) s in
       break_ (ret (set_cursor (clampCursor s (cursor s)) s))) ]
    (if (JS.len k =? 1) && negb ctrl
     then break_ (insertText k s)
     else ret (s, false)).

(** [/^[1-9]$/.test(key)] and [/^[0-9]$/.test(key)] *)
Definition is_key_1_9 (k : jstring) : bool :=
  match k with
  | [c] => (49 <=? JS.code c) && (JS.code c <=? 57)
  | _ => false
  end.

Definition is_key_0_9 (k : jstring) : bool :=
  match k with
  | [c] => JS.is_digit c
  | _ => false
  end.

Definition nonempty (s : jstring) : bool :=
  match s with [] => false | _ => true end.

(** [parseInt(this.countBuffer) || 1] *)
Definition countOf (countBuffer : jstring) : Z :=
  match JS.parseInt countBuffer with
  | Some n => if n =? 0 then 1 else n
  | None => 1
  end.

(** The single-key commands of normal mode, with the repeat count. *)
Definition normalSwitch (count : Z) (s : EditorState) (k : jstring)
  : M (EditorState * bool) :=
  switch k
    [ (case_ ["h"; "ArrowLeft"],
       break_ (ret (times count
                      (fun s => set_col (Z.max 0 (col (cursor s) - 1)) s) s)));
      (case_ ["j"; "ArrowDown"],
       let s := times count
                  (fun s => set_line (Z.min (alen (lines s) - 1)
                                        (line (cursor s) + 1)) s) s in
       break_ (ret (set_cursor (clampCursor s (cursor s)) s)));
      (case_ ["k"; "ArrowUp"],
       let s := times count
                  (fun s => set_line (Z.max 0 (line (cursor s) - 1)) s) s in
       break_ (ret (set_cursor (clampCursor s (cursor s)) s)));
      (case_ ["l"; "ArrowRight"],
       break_ (ret (times count
                      (fun s =>
                         let maxCol :=
                           Z.max 0 (JS.len (getCurrentLine s) - 1) in
                         set_col (Z.min maxCol (col (cursor s) + 1)) s) s)));
      (case_ ["w"], break_ (ret (times count moveWordForward s)));
      (case_ ["b"], break_ (ret (times count moveWordBackward s)));
      (case_ ["e"], break_ (ret (times count moveToEndOfWord s)));
      (case_ ["0"], break_ (ret (set_col 0 s)));
      (case_ ["$"],
       break_ (ret (set_col (Z.max 0 (JS.len (getCurrentLine s) - 1)) s)));
      (case_ ["^"],
       let firstNonSpace := JS.search_S (getCurrentLine s) in
       break_ (ret (set_col (if firstNonSpace =? -1 then 0
                             else firstNonSpace) s)));
      (case_ ["G"],
       let s := set_line (alen (lines s) - 1) s in
       break_ (ret (set_cursor (clampCursor s (cursor s)) s)));
      (case_ ["i"], break_ (ret (set_mode insert s)));
      (case_ ["a"],
       let s := set_mode insert s in
       break_ (ret (set_col (Z.min (JS.len (getCurrentLine s))
                               (col (cursor s) + 1)) s)));
      (case_ ["A"],
       let s := set_mode insert s in
       break_ (ret (set_col (JS.len (getCurrentLine s)) s)));
      (case_ ["I"],
       let s := set_mode insert s in
       let firstChar := JS.search_S (getCurrentLine s) in
       break_ (ret (set_col (if firstChar =? -1 then 0 else firstChar) s)));
      (case_ ["o"],
       let s := set_lines (fst (JS.splice (lines s) (line (cursor s) + 1)
                                  0 [[]])) s in
       let s := set_line (line (cursor s) + 1) s in
       let s := set_col 0 s in
       break_ (ret (set_mode insert s)));
      (case_ ["O"],
       let s := set_lines (fst (JS.splice (lines s) (line (cursor s))
                                  0 [[]])) s in
       let s := set_col 0 s in
       break_ (ret (set_mode insert s)));
      (case_ ["v"],
       let s := set_mode visual s in
       break_ (ret (set_selection
                      (Some (mkSelection (cursor s) (cursor s))) s)));
      (case_ ["V"],
       let s := set_mode visual s in
       break_ (ret (set_selection
                      (Some (mkSelection
                               (mkCursor (line (cursor s)) 0)
                               (mkCursor (line (cursor s))
                                         (JS.len (getCurrentLine s))))) s)));
      (case_ ["x"], break_ (timesM count deleteChar s));
      (case_ ["X"], break_ (timesM count deleteCharBefore s));
      (case_ ["s"], break_ (s <- deleteChar s ;; ret (set_mode insert s)));
      (case_ ["S"],
       break_ (s <- setCurrentLine [] s ;;
               ret (set_mode insert (set_col 0 s))));
      (case_ ["D"], break_ (deleteToEnd s));
      (case_ ["C"], break_ (s <- deleteToEnd s ;; ret (set_mode insert s)));
      (case_ ["p"], break_ (paste after s));
      (case_ ["P"], break_ (paste before s));
      (case_ ["u"],
       break_ (ret (set_message "Undo not available in this trainer" s)));
      (case_ ["J"], break_ (joinLines s));
      (case_ [":"],
       break_ (ret (set_commandBuffer ":" (set_mode command s))));
      (case_ ["/"],
       break_ (ret (set_commandBuffer "/" (set_mode command s))));
      (case_ ["n"], break_ (searchNext s));
      (case_ ["N"], break_ (searchPrev s));
      (case_ ["*"], break_ (searchWordUnderCursor s));
      (case_ ["Escape"],
       break_ (ret (set_commandBuffer [] (set_selection None s)))) ]
    (ret (s, false)).

(** The engine after a multi-key command or a prefix argument is done:
    the command buffer is cleared, the count is spent, no timer is armed. *)
Definition finish (m : M EditorState) : M (VimEngine * bool) :=
  s <- m ;; ret (mkEngine (set_commandBuffer [] s) [] false, true).

Definition handleNormalMode (e : VimEngine) (k : jstring)
  : M (VimEngine * bool) :=
  (* clearTimeout *)
  let e := mkEngine (state e) (countBuffer e) false in
  (* count prefix *)
  if is_key_1_9 k || (nonempty (countBuffer e) && is_key_0_9 k) then
    let cb := countBuffer e ++ k in
    ret (mkEngine (set_commandBuffer cb (state e)) cb false, true)
  else
    let count := countOf (countBuffer e) in
    let s := state e in
    let buffer := commandBuffer s ++ k in
    if JS.eqb buffer "dd" then finish (ret (deleteLine count s))
    else if JS.eqb buffer "yy" then finish (ret (yankLine count s))
    else if JS.eqb buffer "cc" then finish (changeLine s)
    else if JS.eqb buffer "gg" then finish (ret (set_cursor (mkCursor 0 0) s))
    else if JS.eqb buffer "dw" then finish (deleteWord count s)
    else if JS.eqb buffer "cw" then finish (changeWord s)
    else if JS.eqb buffer ("di" ++ unnamed) || JS.eqb buffer "di'" then
      finish (q <- JS.charAt buffer 2 ;; deleteInQuotes [q] s)
    else if JS.eqb buffer ("ci" ++ unnamed) || JS.eqb buffer "ci'" then
      finish (q <- JS.charAt buffer 2 ;; changeInQuotes [q] s)
    (* waiting for the second key: the decay timer is armed *)
    else if existsb (JS.eqb k)
              (case_ ["d"; "c"; "y"; "g"; "f"; "F"; "t"; "T"; "r"])
            && JS.eqb buffer k then
      ret (mkEngine (set_commandBuffer k s) [] true, true)
    else if JS.eqb (commandBuffer s) "r" && (JS.len k =? 1) then
      let ln := getCurrentLine s in
      let c := col (cursor s) in
      finish (setCurrentLine (JS.substring ln 0 c ++ k
                                ++ JS.substringFrom ln (c + 1)) s)
    else if JS.eqb (commandBuffer s) "f" && (JS.len k =? 1) then
      let ln := getCurrentLine s in
      let idx := JS.indexOf ln k (col (cursor s) + 1) in
      finish (ret (if negb (idx =? -1) then set_col idx s else s))
    else if JS.eqb (commandBuffer s) "F" && (JS.len k =? 1) then
      let ln := getCurrentLine s in
      let idx := JS.lastIndexOf ln k (col (cursor s) - 1) in
      finish (ret (if negb (idx =? -1) then set_col idx s else s))
    else
      let s := set_commandBuffer [] s in
      r <- normalSwitch count s k ;;
      ret (mkEngine (fst r) [] false, snd r).

(** The decay timer fires: the pending prefix is dropped. *)
Definition timeoutFires (e : VimEngine) : VimEngine :=
  if commandTimeout e
  then mkEngine (set_commandBuffer [] (state e)) (countBuffer e) false
  else e.

Definition liftState (e : VimEngine) (m : M (EditorState * bool))
  : M (VimEngine * bool) :=
  r <- m ;; ret (mkEngine (fst r) (countBuffer e) (commandTimeout e), snd r).

Definition handleKeyDown (e : VimEngine) (ev : KeyboardEvent)
  : M (VimEngine * bool) :=
  match mode (state e) with
  | normal => handleNormalMode e (key ev)
  | insert => liftState e (handleInsertMode (state e) (key ev) (ctrlKey ev))
  | visual => liftState e (handleVisualMode (state e) (key ev))
  | command => liftState e (handleCommandMode (state e) (key ev))
  end.

(** [new VimEngine(initialContent)] *)
Definition newEngine (initialContent : list jstring) : VimEngine :=
  mkEngine (mkState initialContent (mkCursor 0 0) normal None []
                    [(unnamed, Some [])] [] [])
           [] false.

(** Key events with no modifier, fed one after the other. *)
Definition press (k : String.string) : KeyboardEvent := mkEvent k false false.

Fixpoint handleKeys (e : VimEngine) (ks : list String.string) : M VimEngine :=
  match ks with
  | [] => ret e
  | k :: ks' => r <- handleKeyDown e (press k) ;; handleKeys (fst r) ks'
  end.

(** ** The public methods on the engine object

    [setContent] and [setCursor] as the caller uses them.  The count buffer
    and the decay timer are private fields of the object; neither method
    touches them. *)

Module Engine.

Definition setContent (e : VimEngine) (ls : list jstring) : VimEngine :=
  mkEngine (setContent (state e) ls) (countBuffer e) (commandTimeout e).

Definition setCursor (e : VimEngine) (c : CursorPosition) : VimEngine :=
  mkEngine (setCursor (state e) c) (countBuffer e) (commandTimeout e).

End Engine.

(** ** The renderer's selection test (the application class)

    [isCharSelected] decides, for the character at a line and column,
    whether the renderer marks it as selected. *)

Definition isCharSelected (st : EditorState) (l c : Z) : bool :=
  match selection st with
  | None => false
  | Some sel =>
      let start := sel_start sel in
      let end_ := sel_end sel in
      let forward :=
        (line start <? line end_)
        || ((line start =? line end_) && (col start <=? col end_)) in
      let selStart := if forward then start else end_ in
      let selEnd := if forward then end_ else start in
      if (l <? line selStart) || (line selEnd <? l) then false
      else if (l =? line selStart) && (c <? col selStart) then false
      else if (l =? line selEnd) && (col selEnd <? c) then false
      else true
  end.

(** ** Well-formed states and notions used by the statements *)

(** The pattern [p] occurs in [s] at position [k]. *)
Definition occurs_at (p s : jstring) (k : nat) : Prop :=
  exists a b, s = a ++ p ++ b /\ length a = k.

(** The leftmost occurrence of [p] in [s] is at position [k]. *)
Definition first_at (p s : jstring) (k : nat) : Prop :=
  occurs_at p s k /\ forall j, occurs_at p s j -> (k <= j)%nat.

(** The rightmost occurrence of [p] in [s] that starts at or before
    [limit] is at position [k]. *)
Definition last_at (p s : jstring) (limit k : nat) : Prop :=
  occurs_at p s k /\ (k <= limit)%nat
  /\ forall j, occurs_at p s j -> (j <= limit)%nat -> (j <= k)%nat.

Definition absent (p s : jstring) : Prop := forall k, ~ occurs_at p s k.

(** The text of the unnamed register. *)
Definition unnamedReg (s : EditorState) : option jstring :=
  reg_get (registers s) unnamed.

Definition in_buffer (s : EditorState) (c : CursorPosition) : Prop :=
  0 <= line c < alen (lines s).

(** The cursor part of well-formedness: the buffer is never empty and the
    cursor is on a line of the buffer at a non-negative column. *)
Definition Inv (s : EditorState) : Prop :=
  lines s <> [] /\ in_buffer s (cursor s) /\ 0 <= col (cursor s).

(** The selection part: a selection exists exactly in visual mode, with
    both ends on lines of the buffer. *)
Definition SelOK (s : EditorState) : Prop :=
  match selection s with
  | Some sel =>
      mode s = visual /\ in_buffer s (sel_start sel)
      /\ in_buffer s (sel_end sel)
  | None => mode s <> visual
  end.

Definition WF (s : EditorState) : Prop := Inv s /\ SelOK s.

(** The engine is well formed when its state is and the count buffer holds
    decimal digits only. *)
Definition WFE (e : VimEngine) : Prop :=
  WF (state e) /\ forallb JS.is_digit (countBuffer e) = true.

(** The column bounds: at most one past the end of the line, and at most
    the last character of the line. *)
Definition loose (s : EditorState) : Prop :=
  col (cursor s) <= JS.len (getCurrentLine s).

Definition tight (s : EditorState) : Prop :=
  col (cursor s) <= Z.max 0 (JS.len (getCurrentLine s) - 1).

(** What most operations promise about the state they leave behind: the
    invariant, the selection and the mode are kept, and so is each of the
    two column bounds (the tighter one outside insert mode). *)
Definition Step (s s' : EditorState) : Prop :=
  Inv s' /\ selection s' = selection s /\ mode s' = mode s
  /\ (loose s -> loose s')
  /\ (mode s <> insert -> tight s -> tight s').

(** What the loop body of an editing command keeps: the invariant, the
    selection and the mode. *)
Definition Kept (s x : EditorState) : Prop :=
  Inv x /\ selection x = selection s /\ mode x = mode s.

(** The same without the tighter bound. *)
Definition StepL (s s' : EditorState) : Prop :=
  Inv s' /\ selection s' = selection s /\ mode s' = mode s
  /\ (loose s -> loose s').

(** The column bound of each mode as the engine enforces it: one past the
    end is allowed in insert mode and in visual mode, the last character is
    the limit in normal mode and on the command line. *)
Definition mode_bound (s : EditorState) : Prop :=
  match mode s with
  | insert | visual => loose s
  | normal | command => tight s
  end.

(** [Enter] on a command line that holds a substitution. *)
Definition substitution_enter (s : EditorState) (k : jstring) : Prop :=
  mode s = command /\ k = "Enter"
  /\ JS.prefixb ":s/" (commandBuffer s) = true.

(** The key events after which the engine does not re-establish the bound
    of normal mode: [w], [p] on an empty line, leaving visual mode with
    [Escape] or [y], and a substitution. *)
Definition exceptional (s : EditorState) (k : jstring) : Prop :=
  match mode s with
  | normal => k = "w" \/ (k = "p" /\ getCurrentLine s = [])
  | visual => k = "Escape" \/ k = "y"
  | command => k = "Enter" /\ JS.prefixb ":s/" (commandBuffer s) = true
  | insert => False
  end.

(** What a key event promises about the state it leaves behind. *)
Definition Post (s : EditorState) (k : jstring) (s' : EditorState) : Prop :=
  WF s'
  /\ (loose s -> ~ substitution_enter s k -> loose s')
  /\ (mode_bound s -> ~ exceptional s k -> mode_bound s').

(** Normal mode with no pending prefix and no pending count. *)
Definition idle (e : VimEngine) : Prop :=
  mode (state e) = normal /\ commandBuffer (state e) = []
  /\ countBuffer e = [].

(** The texts after [:] that the command line does not act on: a
    substitution with no second [/], and a text that is none of the known
    commands, not a line number and no substitution. *)
Definition malformed (command : jstring) : Prop :=
  (exists search, command = "s/" ++ search /\ ~ In "/"%char search)
  \/ (~ In command (case_ ["w"; "write"; "q"; "quit"; "wq"; "x"])
      /\ JS.test_digits command = false
      /\ JS.startsWith command "s/" = false).


(** Replacing every occurrence of [search], as a relation between the text
    before and after: the leftmost occurrence is replaced and the rest of
    the text, after that occurrence, is treated the same way. *)
Inductive ReplaceAll (search repl : jstring) : jstring -> jstring -> Prop :=
| RA_none : forall s, absent search s -> ReplaceAll search repl s s
| RA_occ : forall p q q',
    first_at search (p ++ search ++ q) (length p) ->
    ReplaceAll search repl q q' ->
    ReplaceAll search repl (p ++ search ++ q) (p ++ repl ++ q').

(** Replacing the leftmost occurrence only; the text put in its place is
    the replacement text as [replace] expands it. *)
Definition ReplaceFirst (search repl s s' : jstring) : Prop :=
  (absent search s /\ s' = s)
  \/ (exists p q,
        s = p ++ search ++ q /\ first_at search s (length p)
        /\ s' = p ++ JS.getSubstitution search p q repl ++ q).

(** An engine on the given lines with the cursor at the given position,
    for the closed statements below. *)
Definition engineAt (ls : list String.string) (c : CursorPosition)
  : VimEngine :=
  let e := newEngine (map String.list_ascii_of_string ls) in
  mkEngine (set_cursor c (state e)) [] false.

(** An engine on the command line, with the given text typed. *)
Definition commandEngine (cmdline : jstring) (ls : list String.string)
  (c : CursorPosition) : VimEngine :=
  mkEngine (set_commandBuffer cmdline
              (set_mode command (state (engineAt ls c)))) [] false.

(** The same engine with a pending prefix in the command buffer (the decay
    timer is armed), and with a last search pattern. *)
Definition pendingEngine (prefix : String.string) (ls : list String.string)
  (c : CursorPosition) : VimEngine :=
  mkEngine (set_commandBuffer prefix (state (engineAt ls c))) [] true.

Definition searchEngine (pattern : String.string) (ls : list String.string)
  (c : CursorPosition) : VimEngine :=
  mkEngine (set_lastSearch pattern (state (engineAt ls c))) [] false.

(** The key events that type the characters of a text, one by one. *)
Definition typed (t : jstring) : list String.string :=
  map (fun c => String.String c String.EmptyString) t.

(** The order of positions in the buffer: by line, then by column. *)
Definition pos_le (a b : CursorPosition) : Prop :=
  line a < line b \/ (line a = line b /\ col a <= col b).

(** The cursor position [c] is on a line of the buffer, at the start of an
    occurrence of the last search pattern; as the search does, the
    comparison ignores case. *)
Definition match_at (s : EditorState) (c : CursorPosition) : Prop :=
  exists l,
    JS.aget (lines s) (line c) = Some l
    /\ 0 <= col c
    /\ occurs_at (JS.toLowerCase (lastSearch s)) (JS.toLowerCase l)
         (Z.to_nat (col c)).

(** The current line is [p ++ q], with the cursor between [p] and [q]. *)
Definition split_at_cursor (s : EditorState) (p q : jstring) : Prop :=
  getCurrentLine s = p ++ q /\ JS.len p = col (cursor s).

(** The tests of [handleNormalMode] ahead of its [switch], as conditions
    on the key and the two buffers: the count rule; the command buffer with
    the key appended is one of the multi-key commands; the key is a prefix
    key and is alone in the buffer; the command buffer holds a prefix that
    takes the key as its argument. *)
Definition count_rule (countBuffer k : jstring) : bool :=
  is_key_1_9 k || (nonempty countBuffer && is_key_0_9 k).

Definition is_command (buffer : jstring) : bool :=
  existsb (JS.eqb buffer)
    (case_ ["dd"; "yy"; "cc"; "gg"; "dw"; "cw"; "di'"; "ci'"]
       ++ ["di" ++ unnamed; "ci" ++ unnamed]).

Definition is_prefix_key (k : jstring) : bool :=
  existsb (JS.eqb k) (case_ ["d"; "c"; "y"; "g"; "f"; "F"; "t"; "T"; "r"]).

Definition takes_argument (commandBuffer k : jstring) : bool :=
  existsb (JS.eqb commandBuffer) (case_ ["r"; "f"; "F"]) && (JS.len k =? 1).

(** The state [s'] is the state [s] with the cursor moved: no other field
    differs. *)
Definition cursor_moved (s s' : EditorState) : Prop :=
  exists c, s' = set_cursor c s.

(** The keys of normal mode that only move the cursor. *)
Definition motion_keys : list jstring :=
  case_ ["h"; "ArrowLeft"; "j"; "ArrowDown"; "k"; "ArrowUp"; "l";
         "ArrowRight"; "w"; "b"; "e"; "0"; "$"; "^"; "G"; "n"; "N"].

(** The keys of visual mode that move the cursor and extend the
    selection. *)
Definition visual_motion_keys : list jstring :=
  case_ ["h"; "ArrowLeft"; "j"; "ArrowDown"; "k"; "ArrowUp"; "l";
         "ArrowRight"; "w"; "b"; "e"; "0"; "$"].

(** The pending input of an engine in use: the count buffer holds digits,
    and outside the command line the command buffer is empty, holds one
    prefix key, or shows the count typed so far. *)
Definition pending_ok (e : VimEngine) : Prop :=
  forallb JS.is_digit (countBuffer e) = true
  /\ (mode (state e) = command
      \/ commandBuffer (state e) = []
      \/ is_prefix_key (commandBuffer (state e)) = true
      \/ commandBuffer (state e) = countBuffer e).

(** A key as the browser reports it: one character, or a name in which no
    quote character occurs. *)
Definition quote_char (c : ascii) : bool :=
  Ascii.eqb c "'"%char || Ascii.eqb c "034"%char.

Definition plain_key (k : jstring) : bool :=
  (JS.len k =? 1) || negb (existsb quote_char k).

(** The engines that the constructor, key events, the decay timer and the
    two loaders lead to. *)
Inductive reachable : VimEngine -> Prop :=
| reach_new : forall ls, reachable (newEngine ls)
| reach_key : forall e ev e' b,
    reachable e -> plain_key (key ev) = true ->
    handleKeyDown e ev = Some (e', b) -> reachable e'
| reach_timer : forall e, reachable e -> reachable (timeoutFires e)
| reach_content : forall e ls,
    reachable e -> reachable (Engine.setContent e ls)
| reach_cursor : forall e c,
    reachable e -> reachable (Engine.setCursor e c).

(** ** Lemmas on the JavaScript primitives *)

Lemma eqb_eq (a b : jstring) : JS.eqb a b = true <-> a = b.
Proof.
  revert b; induction a as [|x a IH]; intros [|y b]; simpl;
    try (split; congruence).
  rewrite andb_true_iff, Ascii.eqb_eq, IH. split.
  - intros [-> ->]; reflexivity.
  - intros H; inversion H; auto.
Qed.

Lemma eqb_refl (a : jstring) : JS.eqb a a = true.
Proof. apply eqb_eq; reflexivity. Qed.

Lemma eqb_neq (a b : jstring) : JS.eqb a b = false <-> a <> b.
Proof.
  destruct (JS.eqb a b) eqn:E.
  - apply eqb_eq in E. split; congruence.
  - split; auto. intros _ H. apply eqb_eq in H. congruence.
Qed.

Lemma len_nonneg (s : jstring) : 0 <= JS.len s.
Proof. unfold JS.len; lia. Qed.

Lemma len_app (a b : jstring) : JS.len (a ++ b) = JS.len a + JS.len b.
Proof. unfold JS.len; rewrite length_app; lia. Qed.

Lemma len_nil : JS.len [] = 0.
Proof. reflexivity. Qed.

Lemma len_cons (c : ascii) (s : jstring) : JS.len (c :: s) = 1 + JS.len s.
Proof. unfold JS.len; simpl length; lia. Qed.

Lemma len_substring (s : jstring) (a b : Z) :
  JS.len (JS.substring s a b)
  = Z.max (JS.clamp 0 (JS.len s) a) (JS.clamp 0 (JS.len s) b)
    - Z.min (JS.clamp 0 (JS.len s) a) (JS.clamp 0 (JS.len s) b).
Proof.
  unfold JS.substring, JS.clamp, JS.len.
  rewrite length_firstn, length_skipn. lia.
Qed.

Lemma len_substringFrom (s : jstring) (a : Z) :
  JS.len (JS.substringFrom s a) = JS.len s - JS.clamp 0 (JS.len s) a.
Proof.
  unfold JS.substringFrom. rewrite len_substring.
  unfold JS.clamp. pose proof (len_nonneg s). lia.
Qed.

(** Inside the string, [substring] and [substringFrom] are [firstn] and
    [skipn]. *)
Lemma substring_0 (s : jstring) (b : Z) :
  0 <= b -> JS.substring s 0 b = firstn (Z.to_nat b) s.
Proof.
  intros Hb. unfold JS.substring, JS.clamp, JS.len.
  replace (Z.to_nat (Z.min _ _)) with 0%nat by lia. simpl skipn.
  destruct (Z_le_gt_dec b (Z.of_nat (length s))).
  - f_equal. lia.
  - rewrite !firstn_all2 by lia. reflexivity.
Qed.

Lemma substringFrom_skipn (s : jstring) (a : Z) :
  0 <= a -> JS.substringFrom s a = skipn (Z.to_nat a) s.
Proof.
  intros Ha. unfold JS.substringFrom, JS.substring, JS.clamp, JS.len.
  destruct (Z_le_gt_dec a (Z.of_nat (length s))).
  - replace (Z.to_nat (Z.min _ _)) with (Z.to_nat a) by lia.
    apply firstn_all2. rewrite length_skipn. lia.
  - rewrite (skipn_all2 (n := Z.to_nat a)) by lia.
    rewrite skipn_all2 by lia. apply firstn_nil.
Qed.

Lemma substring_mid (s : jstring) (a b : Z) :
  0 <= a <= b ->
  JS.substring s a b = firstn (Z.to_nat (b - a)) (skipn (Z.to_nat a) s).
Proof.
  intros H. unfold JS.substring, JS.clamp, JS.len.
  destruct (Z_le_gt_dec a (Z.of_nat (length s))).
  - replace (Z.to_nat (Z.min _ _)) with (Z.to_nat a) by lia.
    destruct (Z_le_gt_dec b (Z.of_nat (length s))).
    + f_equal. lia.
    + rewrite !firstn_all2; auto; rewrite length_skipn; lia.
  - rewrite (skipn_all2 (n := Z.to_nat a)) by lia.
    rewrite skipn_all2 by lia. rewrite !firstn_nil. reflexivity.
Qed.



Lemma charAt_Some (s : jstring) (i : Z) :
  0 <= i < JS.len s -> exists c, JS.charAt s i = Some c.
Proof.
  intros H. unfold JS.charAt, JS.len in *.
  destruct (i <? 0) eqn:E; [lia|].
  destruct (nth_error s (Z.to_nat i)) eqn:N; eauto.
  apply nth_error_None in N. lia.
Qed.


Lemma prefixb_spec (p s : jstring) :
  JS.prefixb p s = true <-> exists q, s = p ++ q.
Proof.
  revert s; induction p as [|x p IH]; intros s; simpl.
  - split; eauto.
  - destruct s as [|y s].
    + split; [discriminate|]. intros [q H]; discriminate.
    + rewrite andb_true_iff, Ascii.eqb_eq, IH. split.
      * intros [-> [q ->]]. eauto.
      * intros [q H]. inversion H; subst. eauto.
Qed.

Lemma prefixb_app (p q : jstring) : JS.prefixb p (p ++ q) = true.
Proof. apply prefixb_spec; eauto. Qed.

Lemma prefixb_length (p s : jstring) :
  JS.prefixb p s = true -> (length p <= length s)%nat.
Proof.
  intros H. apply prefixb_spec in H. destruct H as [q ->].
  rewrite length_app. lia.
Qed.

Lemma occurs_at_prefixb (p s : jstring) (k : nat) :
  occurs_at p s k
  <-> (k <= length s)%nat /\ JS.prefixb p (skipn k s) = true.
Proof.
  split.
  - intros (a & b & -> & <-). split.
    + rewrite length_app. lia.
    + rewrite skipn_app, skipn_all, Nat.sub_diag. simpl.
      apply prefixb_app.
  - intros [Hk H]. apply prefixb_spec in H. destruct H as [q Hq].
    exists (firstn k s), q. split.
    + rewrite <- Hq. symmetry; apply firstn_skipn.
    + rewrite length_firstn. lia.
Qed.

Lemma occurs_at_length (p s : jstring) (k : nat) :
  occurs_at p s k -> (k + length p <= length s)%nat.
Proof.
  intros (a & b & -> & <-). rewrite !length_app. lia.
Qed.

Lemma occurs_at_cons (p : jstring) (c : ascii) (s : jstring) (k : nat) :
  occurs_at p (c :: s) (S k) <-> occurs_at p s k.
Proof.
  rewrite !occurs_at_prefixb. simpl. split; intros [? ?]; split; auto; lia.
Qed.

Lemma occurs_at_0 (p s : jstring) :
  occurs_at p s 0 <-> JS.prefixb p s = true.
Proof.
  rewrite occurs_at_prefixb. simpl. split; [tauto|]. split; [lia|auto].
Qed.

Lemma find_Some (p s : jstring) (k : nat) :
  JS.find p s = Some k <-> first_at p s k.
Proof.
  revert k; induction s as [|c s IH]; intros k; simpl.
  - destruct (JS.prefixb p []) eqn:E.
    + split.
      * intros [= <-]. split; [apply occurs_at_0; auto | intros; lia].
      * intros [_ H]. apply occurs_at_0 in E. apply H in E.
        f_equal; lia.
    + split; [discriminate|]. intros [H _].
      apply occurs_at_prefixb in H. destruct H as [Hk H].
      simpl in Hk. assert (k = 0%nat) by lia; subst. simpl in H. congruence.
  - destruct (JS.prefixb p (c :: s)) eqn:E.
    + split.
      * intros [= <-]. split; [apply occurs_at_0; auto | intros; lia].
      * intros [_ H]. apply occurs_at_0 in E. apply H in E.
        f_equal; lia.
    + destruct (JS.find p s) as [m|] eqn:F; simpl.
      * split.
        -- intros [= <-]. destruct (proj1 (IH m) eq_refl) as [H1 H2]. split.
           ++ apply occurs_at_cons; auto.
           ++ intros [|j] Hj.
              ** apply occurs_at_0 in Hj. congruence.
              ** apply occurs_at_cons in Hj. apply H2 in Hj. lia.
        -- intros [H1 H2]. destruct k as [|k].
           ++ apply occurs_at_0 in H1. congruence.
           ++ f_equal. f_equal. 
              assert (first_at p s k) as Hf.
              { split; [apply occurs_at_cons in H1; auto|].
                intros j Hj. apply occurs_at_cons with (c := c) in Hj.
                apply H2 in Hj. lia. }
              apply IH in Hf. congruence.
      * split; [discriminate|]. intros [H1 H2]. destruct k as [|k].
        -- apply occurs_at_0 in H1. congruence.
        -- assert (first_at p s k) as Hf.
           { split; [apply occurs_at_cons in H1; auto|].
             intros j Hj. apply occurs_at_cons with (c := c) in Hj.
             apply H2 in Hj. lia. }
           apply IH in Hf. discriminate.
Qed.

Lemma find_None (p s : jstring) :
  JS.find p s = None <-> absent p s.
Proof.
  induction s as [|c s IH]; simpl.
  - destruct (JS.prefixb p []) eqn:E.
    + split; [discriminate|]. intros H. exfalso. apply (H 0%nat).
      apply occurs_at_0; auto.
    + split; auto. intros _ k H. apply occurs_at_prefixb in H.
      destruct H as [Hk H]. simpl in Hk.
      assert (k = 0%nat) by lia; subst. simpl in H. congruence.
  - destruct (JS.prefixb p (c :: s)) eqn:E.
    + split; [discriminate|]. intros H. exfalso. apply (H 0%nat).
      apply occurs_at_0; auto.
    + destruct (JS.find p s) as [m|] eqn:F; simpl.
      * split; [discriminate|]. intros H. exfalso.
        apply find_Some in F. destruct F as [F _].
        apply (H (S m)). apply occurs_at_cons; auto.
      * split; auto. intros _ [|k] H.
        -- apply occurs_at_0 in H. congruence.
        -- apply occurs_at_cons in H. revert H. apply IH. reflexivity.
Qed.

Lemma occurs_at_skipn (p s : jstring) (n k : nat) :
  (n <= length s)%nat ->
  occurs_at p (skipn n s) k <-> occurs_at p s (n + k).
Proof.
  intros Hn. rewrite !occurs_at_prefixb, length_skipn, skipn_skipn.
  rewrite (Nat.add_comm k n). split; intros [? ?]; split; auto; lia.
Qed.

(** [indexOf]: either no occurrence at or after the clamped start, or the
    first such occurrence. *)
Lemma indexOf_spec (s p : jstring) (from : Z) :
  let start := Z.to_nat (JS.clamp 0 (JS.len s) from) in
  let r := JS.indexOf s p from in
  (r = -1 /\ forall k, (start <= k)%nat -> ~ occurs_at p s k)
  \/ (0 <= r /\ (start <= Z.to_nat r)%nat /\ occurs_at p s (Z.to_nat r)
      /\ forall k, (start <= k)%nat -> occurs_at p s k ->
                   (Z.to_nat r <= k)%nat).
Proof.
  intros start r. subst r. unfold JS.indexOf. fold start.
  assert (Hs : (start <= length s)%nat).
  { subst start. unfold JS.clamp, JS.len. lia. }
  assert (Hz : JS.clamp 0 (JS.len s) from = Z.of_nat start).
  { subst start. unfold JS.clamp, JS.len. lia. }
  rewrite Hz; rewrite ?Nat2Z.id.
  destruct (JS.find p (skipn start s)) as [k|] eqn:F.
  - right. apply find_Some in F. destruct F as [F1 F2].
    replace (Z.to_nat (Z.of_nat start + Z.of_nat k)) with (start + k)%nat
      by lia.
    split; [lia|]. split; [lia|]. split.
    + apply occurs_at_skipn in F1; auto.
    + intros j Hj Ho.
      replace j with (start + (j - start))%nat in Ho by lia.
      apply occurs_at_skipn in Ho; auto. apply F2 in Ho. lia.
  - left. split; auto. intros k Hk Ho.
    replace k with (start + (k - start))%nat in Ho by lia.
    apply occurs_at_skipn in Ho; auto.
    rewrite find_None in F. exact (F _ Ho).
Qed.

Lemma indexOf_bounds (s p : jstring) (from : Z) :
  JS.indexOf s p from = -1
  \/ (JS.clamp 0 (JS.len s) from <= JS.indexOf s p from
      /\ JS.indexOf s p from + JS.len p <= JS.len s).
Proof.
  destruct (indexOf_spec s p from) as [[H _]|(H0 & H1 & H2 & _)]; auto.
  right. apply occurs_at_length in H2. unfold JS.len in *.
  assert (0 <= JS.clamp 0 (Z.of_nat (length s)) from)
    by (unfold JS.clamp; lia).
  lia.
Qed.

Lemma rfind_spec (p s : jstring) (i limit : nat) :
  match JS.rfind p s i limit with
  | Some r => (i <= r)%nat /\ (r <= limit)%nat /\ occurs_at p s (r - i)
              /\ forall j, occurs_at p s j -> (i + j <= limit)%nat ->
                           (i + j <= r)%nat
  | None => forall j, occurs_at p s j -> ~ (i + j <= limit)%nat
  end.
Proof.
  revert i; induction s as [|c s IH]; intros i; simpl.
  - destruct ((i <=? limit)%nat && JS.prefixb p []) eqn:E.
    + apply andb_true_iff in E. destruct E as [E1 E2].
      apply Nat.leb_le in E1. rewrite Nat.sub_diag.
      split; [lia|]. split; [lia|]. split; [apply occurs_at_0; auto|].
      intros j Hj _. apply occurs_at_length in Hj. simpl in Hj. lia.
    + intros j Hj Hl. pose proof (occurs_at_length _ _ _ Hj) as L.
      simpl in L. assert (j = 0%nat) by lia; subst.
      apply occurs_at_0 in Hj. rewrite Hj, andb_true_r in E.
      apply Nat.leb_gt in E. lia.
  - specialize (IH (S i)).
    destruct (JS.rfind p s (S i) limit) as [r|].
    + destruct IH as (H1 & H2 & H3 & H4).
      split; [lia|]. split; [lia|]. split.
      * replace (r - i)%nat with (S (r - S i)) by lia.
        apply occurs_at_cons; auto.
      * intros [|j] Hj Hl; [lia|]. apply occurs_at_cons in Hj.
        apply H4 in Hj; lia.
    + destruct ((i <=? limit)%nat && JS.prefixb p (c :: s)) eqn:E.
      * apply andb_true_iff in E. destruct E as [E1 E2].
        apply Nat.leb_le in E1. rewrite Nat.sub_diag.
        split; [lia|]. split; [lia|]. split; [apply occurs_at_0; auto|].
        intros [|j] Hj Hl; [lia|]. apply occurs_at_cons in Hj.
        exfalso. apply (IH _ Hj). lia.
      * intros [|j] Hj Hl.
        -- apply occurs_at_0 in Hj. rewrite Hj, andb_true_r in E.
           apply Nat.leb_gt in E. lia.
        -- apply occurs_at_cons in Hj. apply (IH _ Hj). lia.
Qed.

(** [lastIndexOf]: the last occurrence that starts at or before the clamped
    limit, or [-1] when there is none. *)
Lemma lastIndexOf_spec (s p : jstring) (from : Z) :
  let limit := Z.to_nat (JS.clamp 0 (JS.len s) from) in
  let r := JS.lastIndexOf s p from in
  (r = -1 /\ forall k, (k <= limit)%nat -> ~ occurs_at p s k)
  \/ (0 <= r /\ last_at p s limit (Z.to_nat r)).
Proof.
  intros limit r. subst r. unfold JS.lastIndexOf. fold limit.
  pose proof (rfind_spec p s 0 limit) as H.
  destruct (JS.rfind p s 0 limit) as [r|].
  - right. destruct H as (_ & H2 & H3 & H4). rewrite Nat2Z.id.
    rewrite Nat.sub_0_r in H3. split; [lia|].
    split; [exact H3|]. split; [exact H2|].
    intros j Hj Hl. apply (H4 j Hj Hl).
  - left. split; auto. intros k Hk Ho. apply (H k Ho). simpl. lia.
Qed.

Lemma lastIndexOf_bounds (s p : jstring) (from : Z) :
  JS.lastIndexOf s p from = -1
  \/ (0 <= JS.lastIndexOf s p from <= JS.clamp 0 (JS.len s) from
      /\ JS.lastIndexOf s p from + JS.len p <= JS.len s).
Proof.
  destruct (lastIndexOf_spec s p from) as [[H _]|(H0 & H1 & H2 & _)]; auto.
  right. apply occurs_at_length in H1. unfold JS.len in *.
  assert (0 <= JS.clamp 0 (Z.of_nat (length s)) from)
    by (unfold JS.clamp; lia).
  lia.
Qed.

Lemma search_S_bounds (s : jstring) :
  JS.search_S s = -1 \/ 0 <= JS.search_S s < JS.len s.
Proof.
  induction s as [|c s IH]; simpl; auto.
  rewrite len_cons. pose proof (len_nonneg s).
  destruct (JS.is_space c); [|right; lia].
  destruct (JS.search_S s =? -1) eqn:E; auto.
  apply Z.eqb_neq in E. right. lia.
Qed.

Lemma len_toLowerCase (s : jstring) : JS.len (JS.toLowerCase s) = JS.len s.
Proof. unfold JS.len, JS.toLowerCase. rewrite length_map. reflexivity. Qed.

(** ** Lemmas on arrays *)

Lemma aget_nth_error {A} (l : list A) (i : Z) :
  0 <= i -> JS.aget l i = nth_error l (Z.to_nat i).
Proof.
  intros H. unfold JS.aget. destruct (i <? 0) eqn:E; [lia|reflexivity].
Qed.

Lemma aget_range {A} (l : list A) (i : Z) (x : A) :
  JS.aget l i = Some x -> 0 <= i < alen l.
Proof.
  unfold JS.aget, alen. destruct (i <? 0) eqn:E; [discriminate|].
  intros H. assert (nth_error l (Z.to_nat i) <> None) as N by congruence.
  apply nth_error_Some in N. lia.
Qed.

Lemma aget_Some {A} (l : list A) (i : Z) :
  0 <= i < alen l -> exists x, JS.aget l i = Some x.
Proof.
  unfold alen. intros H. rewrite aget_nth_error by lia.
  destruct (nth_error l (Z.to_nat i)) eqn:N; eauto.
  apply nth_error_None in N. lia.
Qed.

Lemma aget_None {A} (l : list A) (i : Z) :
  ~ (0 <= i < alen l) -> JS.aget l i = None.
Proof.
  intros H. destruct (JS.aget l i) eqn:E; auto.
  apply aget_range in E. contradiction.
Qed.

Lemma aget_split {A} (l : list A) (i : Z) (x : A) :
  JS.aget l i = Some x ->
  exists l1 l2, l = l1 ++ x :: l2 /\ alen l1 = i.
Proof.
  intros H. pose proof (aget_range _ _ _ H) as R.
  rewrite aget_nth_error in H by lia.
  apply nth_error_split in H. destruct H as (l1 & l2 & -> & Hl).
  exists l1, l2. split; auto. unfold alen. lia.
Qed.

Lemma aget_app_mid {A} (l1 l2 : list A) (x : A) :
  JS.aget (l1 ++ x :: l2) (alen l1) = Some x.
Proof.
  unfold alen. rewrite aget_nth_error by lia.
  rewrite Nat2Z.id, nth_error_app2, Nat.sub_diag by lia. reflexivity.
Qed.

Lemma aget_app_left {A} (l1 l2 : list A) (i : Z) :
  i < alen l1 -> JS.aget (l1 ++ l2) i = JS.aget l1 i.
Proof.
  unfold alen, JS.aget. intros H. destruct (i <? 0) eqn:E; auto.
  apply nth_error_app1. lia.
Qed.

Lemma aget_app_right {A} (l1 l2 : list A) (i : Z) :
  alen l1 <= i -> JS.aget (l1 ++ l2) i = JS.aget l2 (i - alen l1).
Proof.
  unfold alen. intros H. rewrite !aget_nth_error by lia.
  rewrite nth_error_app2 by lia. f_equal. lia.
Qed.

Lemma alen_app {A} (l1 l2 : list A) : alen (l1 ++ l2) = alen l1 + alen l2.
Proof. unfold alen. rewrite length_app. lia. Qed.

Lemma alen_nonneg {A} (l : list A) : 0 <= alen l.
Proof. unfold alen. lia. Qed.

Lemma alen_pos {A} (l : list A) : l <> [] -> 0 < alen l.
Proof. destruct l; [congruence|]. unfold alen. simpl. lia. Qed.

Lemma alen_nonempty {A} (l : list A) : 0 < alen l -> l <> [].
Proof. destruct l; [unfold alen; simpl; lia|congruence]. Qed.

Lemma aset_app {A} (l1 l2 : list A) (x v : A) :
  JS.aset (l1 ++ x :: l2) (length l1) v = l1 ++ v :: l2.
Proof. induction l1 as [|y l1 IH]; simpl; [reflexivity|]. now rewrite IH. Qed.

Lemma length_aset {A} (l : list A) (i : nat) (v : A) :
  length (JS.aset l i v) = length l.
Proof.
  revert i; induction l as [|x l IH]; intros [|i]; simpl; auto.
Qed.

Lemma alen_aset {A} (l : list A) (i : nat) (v : A) :
  alen (JS.aset l i v) = alen l.
Proof. unfold alen. now rewrite length_aset. Qed.

Lemma aget_aset_same {A} (l : list A) (i : Z) (v : A) :
  0 <= i < alen l -> JS.aget (JS.aset l (Z.to_nat i) v) i = Some v.
Proof.
  intros H. destruct (aget_Some l i H) as [x Hx].
  apply aget_split in Hx. destruct Hx as (l1 & l2 & -> & <-).
  unfold alen at 1. rewrite Nat2Z.id, aset_app. apply aget_app_mid.
Qed.

Lemma aget_aset_other {A} (l : list A) (i j : Z) (v : A) :
  0 <= i -> i <> j -> JS.aget (JS.aset l (Z.to_nat i) v) j = JS.aget l j.
Proof.
  intros Hi Hij. unfold JS.aget. destruct (j <? 0) eqn:E; auto.
  assert (Z.to_nat i <> Z.to_nat j) as N by lia.
  revert N. generalize (Z.to_nat i) (Z.to_nat j). clear.
  induction l as [|x l IH]; intros [|a] [|b] N; simpl; auto; try congruence.
Qed.

(** [splice] inside the array. *)
Lemma splice_fst {A} (l : list A) (st dc : Z) (items : list A) :
  0 <= st <= alen l -> 0 <= dc ->
  fst (JS.splice l st dc items)
  = firstn (Z.to_nat st) l ++ items
      ++ skipn (Z.to_nat (st + Z.min dc (alen l - st))) l.
Proof.
  intros H1 H2. unfold JS.splice, JS.relIndex, JS.clamp, alen in *. simpl.
  destruct (st <? 0) eqn:E; [lia|].
  replace (Z.min st (Z.of_nat (length l))) with st by lia.
  do 3 f_equal. lia.
Qed.

Lemma splice_snd {A} (l : list A) (st dc : Z) (items : list A) :
  0 <= st <= alen l -> 0 <= dc ->
  snd (JS.splice l st dc items)
  = firstn (Z.to_nat (Z.min dc (alen l - st))) (skipn (Z.to_nat st) l).
Proof.
  intros H1 H2. unfold JS.splice, JS.relIndex, JS.clamp, alen in *. simpl.
  destruct (st <? 0) eqn:E; [lia|].
  replace (Z.min st (Z.of_nat (length l))) with st by lia.
  f_equal. lia.
Qed.

Lemma alen_splice {A} (l : list A) (st dc : Z) (items : list A) :
  0 <= st <= alen l -> 0 <= dc ->
  alen (fst (JS.splice l st dc items))
  = alen l - Z.min dc (alen l - st) + alen items.
Proof.
  intros H1 H2. rewrite splice_fst by assumption.
  unfold alen in *. rewrite !length_app, length_firstn, length_skipn. lia.
Qed.

Lemma aget_splice_before {A} (l : list A) (st dc : Z) (items : list A)
  (j : Z) :
  0 <= st <= alen l -> 0 <= dc -> j < st ->
  JS.aget (fst (JS.splice l st dc items)) j = JS.aget l j.
Proof.
  intros H1 H2 H3. rewrite splice_fst by assumption.
  rewrite aget_app_left.
  - unfold JS.aget. destruct (j <? 0) eqn:E; auto.
    rewrite nth_error_firstn.
    replace (Z.to_nat j <? Z.to_nat st)%nat with true; auto.
    symmetry. apply Nat.ltb_lt. unfold alen in *. lia.
  - unfold alen in *. rewrite length_firstn. lia.
Qed.

Lemma aget_splice_at {A} (l : list A) (st dc : Z) (x : A) (items : list A) :
  0 <= st <= alen l -> 0 <= dc ->
  JS.aget (fst (JS.splice l st dc (x :: items))) st = Some x.
Proof.
  intros H1 H2. rewrite splice_fst by assumption.
  rewrite aget_app_right.
  - unfold alen in *. rewrite length_firstn.
    replace (st - Z.of_nat (Nat.min (Z.to_nat st) (length l))) with 0 by lia.
    reflexivity.
  - unfold alen in *. rewrite length_firstn. lia.
Qed.

(** ** Lemmas on the loops *)

Lemma while_up_bounds (fuel : nat) (bound : Z) (cond : Z -> bool) (c : Z) :
  let r := while_up fuel (fun k => (k <? bound) && cond k) c in
  c <= r <= Z.max c bound.
Proof.
  revert c; induction fuel as [|f IH]; intros c; simpl; [lia|].
  destruct (c <? bound) eqn:E; simpl; [|lia].
  destruct (cond c); [|lia].
  specialize (IH (c + 1)). simpl in IH. lia.
Qed.

Lemma loop_up_bounds (bound : Z) (cond : Z -> bool) (c : Z) :
  c <= loop_up bound cond c <= Z.max c bound.
Proof. apply while_up_bounds. Qed.

(** The fuel of [loop_up] is enough: the loop stops because its condition
    fails. *)
Lemma loop_up_exit (bound : Z) (cond : Z -> bool) (c : Z) :
  let r := loop_up bound cond c in
  (r <? bound) && cond r = false.
Proof.
  unfold loop_up.
  remember (Z.to_nat (bound - c)) as fuel eqn:F.
  assert (H : bound - c <= Z.of_nat fuel) by lia. clear F.
  revert c H; induction fuel as [|f IH]; intros c H; simpl.
  - replace (c <? bound) with false by lia. reflexivity.
  - destruct ((c <? bound) && cond c) eqn:E; auto.
    apply IH. lia.
Qed.

Lemma while_down_bounds (fuel : nat) (cond : Z -> bool) (c : Z) :
  let r := while_down fuel (fun k => (0 <? k) && cond k) c in
  Z.min c 0 <= r <= c.
Proof.
  revert c; induction fuel as [|f IH]; intros c; simpl; [lia|].
  destruct (0 <? c) eqn:E; simpl; [|lia].
  destruct (cond c); [|lia].
  specialize (IH (c - 1)). simpl in IH. lia.
Qed.

Lemma loop_down_bounds (cond : Z -> bool) (c : Z) :
  Z.min c 0 <= loop_down cond c <= c.
Proof. apply while_down_bounds. Qed.

Lemma loop_down_exit (cond : Z -> bool) (c : Z) :
  let r := loop_down cond c in
  (0 <? r) && cond r = false.
Proof.
  unfold loop_down.
  remember (Z.to_nat c) as fuel eqn:F.
  assert (H : c <= Z.of_nat fuel) by lia. clear F.
  revert c H; induction fuel as [|f IH]; intros c H; simpl.
  - replace (0 <? c) with false by lia. reflexivity.
  - destruct ((0 <? c) && cond c) eqn:E; auto.
    apply IH. lia.
Qed.

Lemma times_ind {A} (P : A -> Prop) (count : Z) (body : A -> A) (a : A) :
  P a -> (forall x, P x -> P (body x)) -> P (times count body a).
Proof.
  intros H0 HS. unfold times.
  induction (Z.to_nat count) as [|n IH]; simpl; auto.
Qed.

Lemma timesM_ind {A} (P : A -> Prop) (count : Z) (body : A -> M A) (a : A) :
  P a -> (forall x, P x -> exists y, body x = Some y /\ P y) ->
  exists y, timesM count body a = Some y /\ P y.
Proof.
  intros H0 HS. unfold timesM. revert a H0.
  induction (Z.to_nat count) as [|n IH]; intros a H0; simpl.
  - exists a. split; auto.
  - destruct (HS a H0) as (y & -> & Hy). simpl. apply IH; auto.
Qed.

Lemma switch_ind {A} (P : A -> Prop) (k : jstring)
  (cases : list (list jstring * A)) (default : A) :
  Forall (fun c => In k (fst c) -> P (snd c)) cases ->
  P default ->
  P (switch k cases default).
Proof.
  intros HF HD. induction HF as [|[labels body] rest H _ IH]; simpl; auto.
  destruct (existsb (JS.eqb k) labels) eqn:E; auto.
  apply H. simpl. apply existsb_exists in E. destruct E as (x & Hx & Ex).
  apply eqb_eq in Ex. subst. exact Hx.
Qed.

(** ** The cursor invariant, operation by operation *)

(** Reduction of the projections of an updated state, and nothing else. *)
Ltac sproj :=
  cbn [lines cursor mode selection commandBuffer registers lastSearch message
       line col sel_start sel_end state countBuffer commandTimeout
       set_lines set_cursor set_mode set_selection set_commandBuffer
       set_registers set_lastSearch set_message set_line set_col
       set_register fst snd] in *.

Lemma WF_Inv (s : EditorState) : WF s -> Inv s.
Proof. unfold WF. tauto. Qed.

Lemma tight_loose (s : EditorState) : tight s -> loose s.
Proof. unfold tight, loose. pose proof (len_nonneg (getCurrentLine s)). lia. Qed.

Lemma getCurrentLine_aget (s : EditorState) :
  in_buffer s (cursor s) ->
  JS.aget (lines s) (line (cursor s)) = Some (getCurrentLine s).
Proof.
  intros H. unfold getCurrentLine.
  destruct (aget_Some _ _ H) as [x ->]. reflexivity.
Qed.

Lemma setLineAt_Some (i : Z) (t : jstring) (s : EditorState) :
  0 <= i < alen (lines s) ->
  setLineAt i t s
  = Some (set_lines (JS.aset (lines s) (Z.to_nat i) t) s).
Proof.
  intros H. unfold setLineAt.
  replace ((0 <=? i) && (i <? alen (lines s))) with true; auto.
  symmetry. apply andb_true_iff. split; lia.
Qed.

Lemma setCurrentLine_Some (t : jstring) (s : EditorState) :
  in_buffer s (cursor s) ->
  setCurrentLine t s
  = Some (set_lines (JS.aset (lines s) (Z.to_nat (line (cursor s))) t) s).
Proof. intros H. apply setLineAt_Some. exact H. Qed.

(** Replacing the current line keeps the invariant and makes the new text
    the current line. *)
Lemma setCurrentLine_ok (t : jstring) (s : EditorState) :
  Inv s ->
  exists s', setCurrentLine t s = Some s'
    /\ Inv s' /\ getCurrentLine s' = t
    /\ cursor s' = cursor s /\ mode s' = mode s
    /\ selection s' = selection s /\ alen (lines s') = alen (lines s)
    /\ registers s' = registers s.
Proof.
  intros (H1 & H2 & H3). eexists. split; [apply setCurrentLine_Some; auto|].
  unfold Inv, in_buffer, getCurrentLine in *. sproj.
  rewrite alen_aset, aget_aset_same by auto.
  repeat split; auto; try lia.
  apply alen_nonempty. rewrite alen_aset. lia.
Qed.

Lemma clampCursor_spec (s : EditorState) (c : CursorPosition) :
  lines s <> [] ->
  let c' := clampCursor s c in
  in_buffer s c' /\ 0 <= col c'
  /\ (in_buffer s c -> line c' = line c)
  /\ (0 <= col c -> col c' <= col c)
  /\ exists l, JS.aget (lines s) (line c') = Some l
       /\ col c' <= (if mode_eqb (mode s) insert then JS.len l
                     else Z.max 0 (JS.len l - 1))
       /\ (0 <= col c <= (if mode_eqb (mode s) insert then JS.len l
                     else Z.max 0 (JS.len l - 1)) -> col c' = col c).
Proof.
  intros Hne. pose proof (alen_pos _ Hne) as Hp.
  unfold clampCursor, in_buffer. sproj.
  set (ln := Z.max 0 (Z.min (line c) (alen (lines s) - 1))).
  assert (Hln : 0 <= ln < alen (lines s)) by (subst ln; lia).
  destruct (aget_Some _ _ Hln) as [l Hl]. rewrite Hl.
  pose proof (len_nonneg l).
  split; [lia|]. split; [lia|]. split; [subst ln; lia|]. split; [lia|].
  exists l. split; auto.
  destruct (mode_eqb (mode s) insert); lia.
Qed.

(** Clamping the cursor of a non-empty buffer gives a valid cursor that
    obeys the bound of the mode. *)
Lemma clamp_ok (s : EditorState) :
  lines s <> [] ->
  let s' := set_cursor (clampCursor s (cursor s)) s in
  Inv s' /\ loose s' /\ (mode s <> insert -> tight s')
  /\ (in_buffer s (cursor s) -> line (cursor s') = line (cursor s)).
Proof.
  intros Hne.
  destruct (clampCursor_spec s (cursor s) Hne) as (H1 & H2 & H3 & _ & l & Hl & Hb & _).
  unfold Inv, loose, tight, getCurrentLine, in_buffer in *. sproj.
  rewrite Hl. pose proof (len_nonneg l).
  split; [tauto|]. split.
  - destruct (mode_eqb (mode s) insert); lia.
  - split; [|exact H3].
    intros Hm. destruct (mode s); cbn [mode_eqb] in Hb; try lia. congruence.
Qed.

Lemma Step_refl (s : EditorState) : Inv s -> Step s s.
Proof. unfold Step. tauto. Qed.

Lemma Step_trans (a b c : EditorState) : Step a b -> Step b c -> Step a c.
Proof.
  unfold Step. intros (H1 & H2 & H3 & H4 & H5) (G1 & G2 & G3 & G4 & G5).
  rewrite H3 in G5.
  split; [exact G1|]. split; [congruence|]. split; [congruence|]. tauto.
Qed.

(** Unfolding of the predicates down to the array of lines. *)
Ltac unf :=
  unfold Step, Inv, loose, tight, in_buffer, getCurrentLine, setCurrentLine
    in *; sproj.

(** A column move on the current line. *)
Lemma set_col_Step (s : EditorState) (c : Z) :
  Inv s -> 0 <= c ->
  (loose s -> c <= JS.len (getCurrentLine s)) ->
  (mode s <> insert -> tight s ->
   c <= Z.max 0 (JS.len (getCurrentLine s) - 1)) ->
  Step s (set_col c s).
Proof. unf. intros. tauto. Qed.

Lemma set_col_le_Step (s : EditorState) (c : Z) :
  Inv s -> 0 <= c <= col (cursor s) -> Step s (set_col c s).
Proof. intros H Hc. apply set_col_Step; auto; unf; lia. Qed.

Lemma moveWordBackward_Step (s : EditorState) :
  Inv s -> Step s (moveWordBackward s).
Proof.
  intros H. unfold moveWordBackward. apply set_col_le_Step; auto.
  destruct H as (_ & _ & H).
  set (c0 := if 0 <? col (cursor s) then col (cursor s) - 1
             else col (cursor s)).
  assert (0 <= c0 <= col (cursor s)).
  { subst c0. destruct (0 <? col (cursor s)) eqn:E; lia. }
  match goal with |- _ <= loop_down ?f (loop_down ?g _) <= _ =>
    pose proof (loop_down_bounds g c0);
    pose proof (loop_down_bounds f (loop_down g c0)) end.
  lia.
Qed.

Lemma moveToEndOfWord_Step (s : EditorState) :
  Inv s -> Step s (moveToEndOfWord s) /\ tight (moveToEndOfWord s).
Proof.
  intros H. unfold moveToEndOfWord.
  set (ln := getCurrentLine s).
  set (c0 := if col (cursor s) <? JS.len ln - 1 then col (cursor s) + 1
             else col (cursor s)).
  assert (col (cursor s) <= c0).
  { subst c0. destruct (col (cursor s) <? JS.len ln - 1); lia. }
  match goal with |- context [loop_up ?b ?f (loop_up ?b' ?g _)] =>
    pose proof (loop_up_bounds b' g c0);
    pose proof (loop_up_bounds b f (loop_up b' g c0)) end.
  pose proof (len_nonneg ln).
  assert (Hc : forall c, 0 <= c ->
            0 <= Z.min c (Z.max 0 (JS.len ln - 1))
                 <= Z.max 0 (JS.len ln - 1)) by (intros; lia).
  destruct H as (I1 & I2 & I3).
  split.
  - apply set_col_Step; unfold Inv; auto; fold ln; intros; lia.
  - unfold tight, getCurrentLine. sproj. fold (getCurrentLine s). fold ln.
    lia.
Qed.

Lemma moveWordForward_Inv (s : EditorState) :
  Inv s ->
  let s' := moveWordForward s in
  Inv s' /\ selection s' = selection s /\ mode s' = mode s /\ loose s'
  /\ lines s' = lines s.
Proof.
  intros (I1 & I2 & I3). unfold moveWordForward.
  remember (getCurrentLine s) as ln eqn:Eln.
  match goal with |- context [loop_up ?b ?f (loop_up ?b' ?g ?c)] =>
    pose proof (loop_up_bounds b' g c);
    pose proof (loop_up_bounds b f (loop_up b' g c));
    set (c2 := loop_up b f (loop_up b' g c)) in * end.
  pose proof (len_nonneg ln).
  destruct ((JS.len ln <=? c2) && (line (cursor s) <? alen (lines s) - 1))
    eqn:E.
  - apply andb_true_iff in E. destruct E as [E1 E2].
    match goal with |- context [loop_up ?b ?f ?c] =>
      pose proof (loop_up_bounds b f c) as L end.
    unf. sproj.
    pose proof (len_nonneg
      (match JS.aget (lines s) (line (cursor s) + 1) with
       | Some l => l | None => [] end)).
    repeat split; auto; lia.
  - unf. rewrite <- Eln. repeat split; auto; lia.
Qed.

(** Arithmetic on the lengths of the pieces of a line. *)
Ltac lens :=
  repeat rewrite ?len_app, ?len_substring, ?len_substringFrom, ?len_cons,
    ?len_nil in *;
  unfold JS.clamp in *.

(** The state after the current line is replaced. *)
Ltac edited :=
  unf; rewrite ?alen_aset, ?aget_aset_same by (sproj; lia).

Lemma setCurrentLine_reg (t : jstring) (r : option jstring)
  (s : EditorState) :
  in_buffer s (cursor s) ->
  setCurrentLine t (set_register r s)
  = Some (set_lines (JS.aset (lines s) (Z.to_nat (line (cursor s))) t)
            (set_register r s)).
Proof. intros H. apply (setCurrentLine_Some t (set_register r s)). exact H. Qed.

Lemma alen_aset_nonempty (l : list jstring) (i : nat) (t : jstring) :
  l <> [] -> JS.aset l i t <> [].
Proof.
  intros H. apply alen_nonempty. rewrite alen_aset. apply alen_pos. exact H.
Qed.

Lemma deleteChar_ok (s : EditorState) :
  Inv s -> exists s', deleteChar s = Some s' /\ Step s s'.
Proof.
  intros I. pose proof I as (I1 & I2 & I3). unfold deleteChar.
  destruct (col (cursor s) <? JS.len (getCurrentLine s)) eqn:E.
  - rewrite setCurrentLine_reg by auto. cbn [bind ret].
    eexists. split; [reflexivity|].
    match goal with |- Step _ (set_cursor (clampCursor ?x _) _) =>
      assert (Hne : lines x <> []) by (sproj; apply alen_aset_nonempty; auto);
      destruct (clamp_ok x Hne) as (C1 & C2 & C3 & C4) end.
    split; [exact C1|]. split; [reflexivity|]. split; [reflexivity|].
    split; [intros _; exact C2|]. intros Hm _. apply C3. exact Hm.
  - eexists. split; [reflexivity|]. apply Step_refl; auto.
Qed.

Lemma deleteCharBefore_ok (s : EditorState) :
  Inv s -> exists s', deleteCharBefore s = Some s' /\ Step s s'.
Proof.
  intros I. pose proof I as (I1 & I2 & I3). unfold deleteCharBefore.
  destruct (0 <? col (cursor s)) eqn:E.
  - rewrite setCurrentLine_reg by auto. cbn [bind ret].
    eexists. split; [reflexivity|].
    remember (getCurrentLine s) as ln eqn:Eln.
    pose proof (len_nonneg ln).
    edited. rewrite <- Eln in *. lens.
    split; [split; [apply alen_aset_nonempty; auto|lia]|].
    split; [reflexivity|]. split; [reflexivity|]. split; intros; lia.
  - eexists. split; [reflexivity|]. apply Step_refl; auto.
Qed.

Lemma deleteToEnd_ok (s : EditorState) :
  Inv s -> exists s', deleteToEnd s = Some s' /\ Step s s'.
Proof.
  intros I. pose proof I as (I1 & I2 & I3). unfold deleteToEnd.
  rewrite setCurrentLine_reg by auto. cbn [bind ret].
  eexists. split; [reflexivity|].
  match goal with |- Step _ (set_cursor (clampCursor ?x _) _) =>
    assert (Hne : lines x <> []) by (sproj; apply alen_aset_nonempty; auto);
    destruct (clamp_ok x Hne) as (C1 & C2 & C3 & C4) end.
  split; [exact C1|]. split; [reflexivity|]. split; [reflexivity|].
  split; [intros _; exact C2|]. intros Hm _. apply C3. exact Hm.
Qed.

Lemma insertText_ok (t : jstring) (s : EditorState) :
  Inv s -> mode s = insert ->
  exists s', insertText t s = Some s' /\ Step s s'.
Proof.
  intros I Hm. pose proof I as (I1 & I2 & I3). unfold insertText.
  rewrite setCurrentLine_Some by auto. cbn [bind ret].
  eexists. split; [reflexivity|].
  remember (getCurrentLine s) as ln eqn:Eln.
  pose proof (len_nonneg ln). pose proof (len_nonneg t).
  edited. rewrite <- Eln in *. lens.
  split; [split; [apply alen_aset_nonempty; auto|lia]|].
  split; [reflexivity|]. split; [reflexivity|].
  split; intros; try lia; congruence.
Qed.

Lemma insertNewline_ok (s : EditorState) :
  Inv s ->
  exists s', insertNewline s = Some s' /\ Step s s' /\ tight s'.
Proof.
  intros I. pose proof I as (I1 & I2 & I3). unfold insertNewline.
  rewrite setCurrentLine_Some by auto. cbn [bind ret].
  eexists. split; [reflexivity|].
  pose proof (alen_pos _ I1).
  assert (A : forall t x, alen (fst (JS.splice
              (JS.aset (lines s) (Z.to_nat (line (cursor s))) t)
              (line (cursor s) + 1) 0 [x])) = alen (lines s) + 1).
  { intros. rewrite alen_splice; rewrite ?alen_aset;
      unfold in_buffer, alen in *; simpl; lia. }
  assert (B : forall t x, JS.aget (fst (JS.splice
              (JS.aset (lines s) (Z.to_nat (line (cursor s))) t)
              (line (cursor s) + 1) 0 [x])) (line (cursor s) + 1) = Some x).
  { intros. apply aget_splice_at; rewrite ?alen_aset;
      unfold in_buffer in *; lia. }
  unf. rewrite A, B.
  match goal with |- context [JS.len ?x] => pose proof (len_nonneg x) end.
  assert (N : forall t x, fst (JS.splice
              (JS.aset (lines s) (Z.to_nat (line (cursor s))) t)
              (line (cursor s) + 1) 0 [x]) <> []).
  { intros. apply alen_nonempty. rewrite A. lia. }
  repeat split; intros; auto; try apply len_nonneg; try lia.
Qed.

Lemma backspace_ok (s : EditorState) :
  Inv s -> mode s = insert ->
  exists s', backspace s = Some s' /\ Step s s'.
Proof.
  intros I Hm. pose proof I as (I1 & I2 & I3). unfold backspace.
  destruct (0 <? col (cursor s)) eqn:E.
  - rewrite setCurrentLine_Some by auto. cbn [bind ret].
    eexists. split; [reflexivity|].
    remember (getCurrentLine s) as ln eqn:Eln.
    pose proof (len_nonneg ln).
    edited. rewrite <- Eln in *. lens.
    split; [split; [apply alen_aset_nonempty; auto|lia]|].
    split; [reflexivity|]. split; [reflexivity|].
    split; intros; try lia; congruence.
  - destruct (0 <? line (cursor s)) eqn:E2.
    + unfold in_buffer in I2.
      destruct (aget_Some (lines s) (line (cursor s) - 1)) as [prev Hp];
        [lia|].
      rewrite Hp. cbn [bind].
      assert (A : alen (fst (JS.splice (lines s) (line (cursor s)) 1 []))
                  = alen (lines s) - 1).
      { rewrite alen_splice by lia. unfold alen at 3. simpl. lia. }
      rewrite setCurrentLine_Some by (unfold in_buffer; sproj; lia).
      eexists. split; [reflexivity|].
      unf. rewrite ?alen_aset, A.
      rewrite aget_aset_same by lia. lens.
      pose proof (len_nonneg (getCurrentLine s)).
      pose proof (len_nonneg prev).
      split; [split; [apply alen_aset_nonempty; apply alen_nonempty; lia
                     |lia]|].
      split; [reflexivity|]. split; [reflexivity|].
      split; intros; try lia; congruence.
    + eexists. split; [reflexivity|]. apply Step_refl; auto.
Qed.

Lemma deleteLine_ok (count : Z) (s : EditorState) :
  Inv s ->
  let s' := deleteLine count s in
  Step s s' /\ loose s' /\ (mode s <> insert -> tight s').
Proof.
  intros I. pose proof I as (I1 & I2 & I3). unfold deleteLine.
  destruct (JS.splice (lines s) (line (cursor s))
              (Z.min (line (cursor s) + count) (alen (lines s))
               - line (cursor s)) []) as [rest deleted] eqn:Es.
  sproj.
  match goal with |- context [set_cursor (clampCursor ?x _) _] =>
    set (x0 := x) end.
  assert (Hne : lines x0 <> []).
  { subst x0. destruct (alen rest =? 0) eqn:E; sproj; [discriminate|].
    apply alen_nonempty. pose proof (alen_nonneg rest). lia. }
  destruct (clamp_ok x0 Hne) as (C1 & C2 & C3 & C4).
  assert (Hm : mode x0 = mode s).
  { subst x0. destruct (alen rest =? 0); reflexivity. }
  assert (Hs : selection x0 = selection s).
  { subst x0. destruct (alen rest =? 0); reflexivity. }
  rewrite Hm in C3.
  repeat split; auto; try apply C1; intros; auto.
Qed.

Lemma yankLine_ok (count : Z) (s : EditorState) :
  Inv s -> Step s (yankLine count s).
Proof. intros I. unfold yankLine. unf. tauto. Qed.

Lemma changeLine_ok (s : EditorState) :
  Inv s ->
  exists s', changeLine s = Some s' /\ Inv s' /\ tight s'
    /\ mode s' = insert /\ selection s' = selection s.
Proof.
  intros I. pose proof I as (I1 & I2 & I3). unfold changeLine.
  rewrite setCurrentLine_Some by auto. cbn [bind ret].
  eexists. split; [reflexivity|].
  edited. simpl.
  repeat split; auto; try lia. apply alen_aset_nonempty; auto.
Qed.

Lemma deleteWord_ok (count : Z) (s : EditorState) :
  Inv s -> exists s', deleteWord count s = Some s' /\ Step s s'.
Proof.
  intros I. unfold deleteWord.
  match goal with |- context [timesM count ?f s] =>
    destruct (timesM_ind (Kept s) count f s) as (y & Hy & K1 & K2 & K3) end.
  - unfold Kept; auto.
  - intros x (X1 & X2 & X3). pose proof X1 as (X4 & X5 & X6).
    match goal with |- context [if ?b then _ else _] => destruct b end.
    + rewrite setCurrentLine_reg by auto.
      eexists. split; [reflexivity|]. unfold Kept. edited.
      repeat split; auto; try lia. apply alen_aset_nonempty; auto.
    + eexists. split; [reflexivity|]. unfold Kept; auto.
  - rewrite Hy. cbn [bind ret]. eexists. split; [reflexivity|].
    destruct K1 as (K1 & _).
    destruct (clamp_ok y K1) as (C1 & C2 & C3 & C4).
    rewrite K3 in C3.
    split; [exact C1|]. split; [exact K2|]. split; [exact K3|]. tauto.
Qed.

Lemma changeWord_ok (s : EditorState) :
  Inv s ->
  exists s', changeWord s = Some s' /\ Inv s' /\ (loose s -> loose s')
    /\ mode s' = insert /\ selection s' = selection s.
Proof.
  intros I. pose proof I as (I1 & I2 & I3). unfold changeWord.
  rewrite setCurrentLine_reg by auto. cbn [bind ret].
  eexists. split; [reflexivity|].
  remember (getCurrentLine s) as ln eqn:Eln.
  match goal with |- context [loop_up ?b ?f ?c] =>
    pose proof (loop_up_bounds b f c); set (e := loop_up b f c) in * end.
  pose proof (len_nonneg ln).
  edited. rewrite <- Eln in *. lens.
  repeat split; auto; try lia. apply alen_aset_nonempty; auto.
Qed.

Lemma deleteInQuotes_ok (quote : jstring) (s : EditorState) :
  Inv s -> quote <> [] ->
  exists s', deleteInQuotes quote s = Some s' /\ Step s s'.
Proof.
  intros I Q. pose proof I as (I1 & I2 & I3). unfold deleteInQuotes.
  cbv zeta. remember (getCurrentLine s) as ln eqn:Eln.
  assert (Hq : 1 <= JS.len quote).
  { destruct quote; [congruence|]. rewrite len_cons.
    pose proof (len_nonneg quote). lia. }
  match goal with |- context [let '(a, b) := ?p in _] =>
    destruct p as [st en] eqn:Ep end.
  assert (B : en = -1 \/ en + JS.len quote <= JS.len ln).
  { destruct ((JS.lastIndexOf ln quote (col (cursor s)) =? -1)
              || (JS.indexOf ln quote (col (cursor s) + 1) =? -1));
      injection Ep as Est Een; rewrite <- Een.
    - destruct (indexOf_bounds ln quote
                  (JS.indexOf ln quote 0 + 1)) as [->|[_ ?]]; auto.
    - destruct (indexOf_bounds ln quote
                  (col (cursor s) + 1)) as [->|[_ ?]]; auto. }
  destruct (negb (st =? -1) && negb (en =? -1) && (st <? en)) eqn:E.
  - apply andb_true_iff in E. destruct E as [E E3].
    apply andb_true_iff in E. destruct E as [E1 E2].
    apply negb_true_iff, Z.eqb_neq in E1, E2. apply Z.ltb_lt in E3.
    assert (0 <= st).
    { destruct ((JS.lastIndexOf ln quote (col (cursor s)) =? -1)
              || (JS.indexOf ln quote (col (cursor s) + 1) =? -1));
        injection Ep as Est Een; rewrite <- Est in *.
      - destruct (indexOf_bounds ln quote 0) as [?|[? _]]; [lia|].
        unfold JS.clamp in *. lia.
      - destruct (lastIndexOf_bounds ln quote (col (cursor s)))
          as [?|[? _]]; lia. }
    rewrite setCurrentLine_reg by auto. cbn [bind ret].
    eexists. split; [reflexivity|].
    pose proof (len_nonneg ln).
    edited. rewrite <- Eln in *. lens.
    split; [split; [apply alen_aset_nonempty; auto|lia]|].
    split; [reflexivity|]. split; [reflexivity|]. split; intros; lia.
  - eexists. split; [reflexivity|]. apply Step_refl; auto.
Qed.

Lemma split_scan_nonempty (fuel : nat) (sep s acc : jstring) :
  JS.split_scan fuel sep s acc <> [].
Proof.
  revert s acc; induction fuel as [|f IH]; intros s acc; simpl;
    [discriminate|].
  destruct (JS.prefixb sep s); [discriminate|].
  destruct s; [discriminate|]. apply IH.
Qed.

Lemma split_nonempty (s sep : jstring) : sep <> [] -> JS.split s sep <> [].
Proof.
  intros H. unfold JS.split. destruct sep; [congruence|].
  apply split_scan_nonempty.
Qed.

Lemma paste_ok (position : PastePosition) (s : EditorState) :
  Inv s ->
  exists s', paste position s = Some s'
    /\ Inv s' /\ selection s' = selection s /\ mode s' = mode s
    /\ (loose s -> loose s')
    /\ (tight s -> position = before \/ getCurrentLine s <> [] -> tight s').
Proof.
  intros I. pose proof I as (I1 & I2 & I3). unfold paste.
  destruct (reg_get (registers s) unnamed) as [[|c text]|] eqn:R;
    try (eexists; split; [reflexivity|]; tauto).
  set (tx := c :: text) in *.
  destruct (JS.endsWith tx nl) eqn:E.
  - eexists. split; [reflexivity|].
    set (ls := JS.split (JS.slice tx 0 (-1)) nl).
    assert (Hls : 1 <= alen ls).
    { assert (N : ls <> [])
        by (subst ls; apply split_nonempty; discriminate).
      apply alen_pos in N. lia. }
    set (il := match position with
               | before => line (cursor s)
               | after => line (cursor s) + 1
               end).
    unfold in_buffer in I2.
    assert (Hil : 0 <= il <= alen (lines s))
      by (subst il; destruct position; lia).
    assert (A : alen (fst (JS.splice (lines s) il 0 ls))
                = alen (lines s) + alen ls).
    { rewrite alen_splice by lia. lia. }
    unf. rewrite A.
    match goal with |- context [JS.len ?x] => pose proof (len_nonneg x) end.
    assert (il < alen (lines s) + alen ls)
      by (subst il; destruct position; lia).
    repeat split; intros; auto; try apply len_nonneg; try lia.
    apply alen_nonempty. lia.
  - rewrite setCurrentLine_Some by auto. cbn [bind ret].
    eexists. split; [reflexivity|].
    remember (getCurrentLine s) as ln eqn:Eln.
    pose proof (len_nonneg ln).
    assert (1 <= JS.len tx).
    { subst tx. rewrite len_cons. pose proof (len_nonneg text). lia. }
    assert (Hne : ln <> [] -> 1 <= JS.len ln).
    { destruct ln; [congruence|]. intros _. rewrite len_cons.
      pose proof (len_nonneg ln). lia. }
    edited. rewrite <- Eln in *. lens.
    split; [split; [apply alen_aset_nonempty; auto
                   |destruct position; lia]|].
    split; [reflexivity|]. split; [reflexivity|].
    split.
    + intros. destruct position; lia.
    + intros T [->|N]; [lia|]. specialize (Hne N). destruct position; lia.
Qed.

Lemma joinLines_ok (s : EditorState) :
  Inv s -> exists s', joinLines s = Some s' /\ Step s s'.
Proof.
  intros I. pose proof I as (I1 & I2 & I3). unfold joinLines.
  destruct (line (cursor s) <? alen (lines s) - 1) eqn:E.
  - unfold in_buffer in I2.
    destruct (aget_Some (lines s) (line (cursor s) + 1)) as [nx Hn]; [lia|].
    rewrite Hn. cbn [bind]. rewrite setCurrentLine_Some by auto.
    cbn [bind ret]. eexists. split; [reflexivity|].
    remember (getCurrentLine s) as ln eqn:Eln.
    pose proof (len_nonneg ln).
    pose proof (len_nonneg (JS.trimStart nx)).
    unf.
    rewrite aget_splice_before by (rewrite ?alen_aset; lia).
    rewrite alen_splice by (rewrite ?alen_aset; lia).
    rewrite ?alen_aset, aget_aset_same by lia.
    rewrite <- Eln in *. lens. unfold alen at 3. simpl length.
    pose proof (len_nonneg " ").
    split; [split; [|lia]|].
    { apply alen_nonempty. rewrite alen_splice by (rewrite ?alen_aset; lia).
      rewrite alen_aset. unfold alen at 3. simpl length. lia. }
    split; [reflexivity|]. split; [reflexivity|]. split; intros; lia.
  - eexists. split; [reflexivity|]. apply Step_refl; auto.
Qed.

(** A jump of the cursor onto a match that is at least one character
    long. *)
Lemma jump_ok (s : EditorState) (li idx : Z) (l : jstring) :
  Inv s -> JS.aget (lines s) li = Some l -> 0 <= idx -> idx + 1 <= JS.len l ->
  let s' := set_cursor (mkCursor li idx) s in
  Step s s' /\ tight s'.
Proof.
  intros (I1 & I2 & I3) Hl H0 H1. pose proof (aget_range _ _ _ Hl).
  unf. rewrite Hl. repeat split; intros; auto; lia.
Qed.

Lemma len_pos (p : jstring) : p <> [] -> 1 <= JS.len p.
Proof.
  destruct p; [congruence|]. intros _. rewrite len_cons.
  pose proof (len_nonneg p). lia.
Qed.

Lemma searchNext_loop_ok (n : nat) (i : Z) (pattern : jstring)
  (startLine startCol : Z) (s : EditorState) :
  Inv s -> 0 <= startLine + i -> pattern <> [] ->
  exists s', searchNext_loop n i pattern startLine startCol s = Some s'
    /\ Step s s' /\ (tight s -> tight s') /\ lines s' = lines s
    /\ commandBuffer s' = commandBuffer s.
Proof.
  intros I Hs Hp. revert i Hs. induction n as [|n IH]; intros i Hs; simpl.
  - exists s. split; [reflexivity|]. split; [apply Step_refl; auto|]. tauto.
  - pose proof I as (I1 & I2 & I3). pose proof (alen_pos _ I1).
    pose proof (Z.rem_bound_pos (startLine + i) (alen (lines s))
                  ltac:(lia) ltac:(lia)) as Hr.
    destruct (aget_Some _ _ Hr) as [l Hl]. rewrite Hl. cbn [bind].
    match goal with |- context [JS.indexOf ?a ?b ?c] =>
      destruct (indexOf_bounds a b c) as [Hi|[Hi1 Hi2]];
      set (idx := JS.indexOf a b c) in * end.
    + rewrite Hi. simpl negb. cbv iota. apply IH. lia.
    + destruct (negb (idx =? -1)) eqn:E; [|apply IH; lia].
      eexists. split; [reflexivity|].
      rewrite len_toLowerCase in *. apply len_pos in Hp.
      destruct (jump_ok s _ idx l I Hl) as [J1 J2];
        [unfold JS.clamp in *; lia|lia|].
      split; [exact J1|]. split; [intros _; exact J2|]. split; reflexivity.
Qed.

Lemma toLowerCase_nonempty (p : jstring) : p <> [] -> JS.toLowerCase p <> [].
Proof. destruct p; [congruence|discriminate]. Qed.

Lemma searchNext_ok (s : EditorState) :
  Inv s ->
  exists s', searchNext s = Some s'
    /\ Step s s' /\ (tight s -> tight s') /\ lines s' = lines s
    /\ commandBuffer s' = commandBuffer s.
Proof.
  intros I. unfold searchNext.
  destruct (lastSearch s) as [|c p] eqn:E.
  - exists s. split; [reflexivity|]. split; [apply Step_refl; auto|]. tauto.
  - apply searchNext_loop_ok; auto.
    + destruct I as (_ & I2 & _). unfold in_buffer in I2. lia.
    + apply toLowerCase_nonempty. discriminate.
Qed.

Lemma searchPrev_loop_ok (n : nat) (i : Z) (pattern : jstring)
  (startLine startCol : Z) (s : EditorState) :
  Inv s -> 0 <= startLine -> 0 <= i ->
  Z.of_nat n + i <= alen (lines s) -> pattern <> [] ->
  exists s', searchPrev_loop n i pattern startLine startCol s = Some s'
    /\ Step s s' /\ (tight s -> tight s') /\ lines s' = lines s
    /\ commandBuffer s' = commandBuffer s.
Proof.
  intros I Hs Hi Hn Hp. revert i Hi Hn.
  induction n as [|n IH]; intros i Hi Hn; simpl.
  - exists s. split; [reflexivity|]. split; [apply Step_refl; auto|]. tauto.
  - pose proof I as (I1 & I2 & I3). pose proof (alen_pos _ I1).
    pose proof (Z.rem_bound_pos (startLine - i + alen (lines s))
                  (alen (lines s)) ltac:(lia) ltac:(lia)) as Hr.
    destruct (aget_Some _ _ Hr) as [l Hl]. rewrite Hl. cbn [bind].
    match goal with |- context [JS.lastIndexOf ?a ?b ?c] =>
      destruct (lastIndexOf_bounds a b c) as [Hx|[Hx1 Hx2]];
      set (idx := JS.lastIndexOf a b c) in * end.
    + rewrite Hx. simpl negb. cbv iota. apply IH; lia.
    + destruct (negb (idx =? -1)) eqn:E; [|apply IH; lia].
      eexists. split; [reflexivity|].
      rewrite len_toLowerCase in *. apply len_pos in Hp.
      destruct (jump_ok s _ idx l I Hl) as [J1 J2]; [lia|lia|].
      split; [exact J1|]. split; [intros _; exact J2|]. split; reflexivity.
Qed.

Lemma searchPrev_ok (s : EditorState) :
  Inv s ->
  exists s', searchPrev s = Some s'
    /\ Step s s' /\ (tight s -> tight s') /\ lines s' = lines s
    /\ commandBuffer s' = commandBuffer s.
Proof.
  intros I. unfold searchPrev.
  destruct (lastSearch s) as [|c p] eqn:E.
  - exists s. split; [reflexivity|]. split; [apply Step_refl; auto|]. tauto.
  - destruct I as (I1 & I2 & I3). unfold in_buffer in I2.
    apply searchPrev_loop_ok; unfold Inv, in_buffer; auto; try lia.
    + unfold alen. lia.
    + apply toLowerCase_nonempty. discriminate.
Qed.

Lemma searchWordUnderCursor_ok (s : EditorState) :
  Inv s ->
  exists s', searchWordUnderCursor s = Some s'
    /\ Step s s' /\ (tight s -> tight s') /\ lines s' = lines s
    /\ commandBuffer s' = commandBuffer s.
Proof.
  intros I. unfold searchWordUnderCursor. cbv zeta.
  match goal with |- context [match ?w with [] => _ | _ => _ end] =>
    destruct w as [|c w'] eqn:E end.
  - exists s. split; [reflexivity|]. split; [apply Step_refl; auto|]. tauto.
  - destruct (searchNext_ok (set_lastSearch (c :: w') s)) as (s' & -> & H).
    + exact I.
    + exists s'. split; [reflexivity|]. exact H.
Qed.

Lemma normalizeSelection_ok (s : EditorState) (sel : Selection) :
  in_buffer s (sel_start sel) -> in_buffer s (sel_end sel) ->
  let n := normalizeSelection sel in
  in_buffer s (sel_start n) /\ in_buffer s (sel_end n)
  /\ line (sel_start n) <= line (sel_end n).
Proof.
  intros H1 H2. unfold normalizeSelection.
  destruct ((line (sel_end sel) <? line (sel_start sel))
            || ((line (sel_start sel) =? line (sel_end sel))
                && (col (sel_end sel) <? col (sel_start sel)))) eqn:E;
    cbn [sel_start sel_end].
  - split; auto. split; auto.
    apply orb_true_iff in E. destruct E as [E|E]; [lia|].
    apply andb_true_iff in E. lia.
  - split; auto. split; auto.
    apply orb_false_iff in E. lia.
Qed.

Lemma deleteSelection_ok (s : EditorState) (sel : Selection) :
  Inv s -> selection s = Some sel ->
  in_buffer s (sel_start sel) -> in_buffer s (sel_end sel) ->
  exists s', deleteSelection s = Some s'
    /\ Inv s' /\ selection s' = None /\ mode s' = mode s
    /\ loose s' /\ (mode s <> insert -> tight s').
Proof.
  intros I Hsel B1 B2. pose proof I as (I1 & I2 & I3).
  unfold deleteSelection. rewrite Hsel. cbv zeta.
  destruct (normalizeSelection_ok s sel B1 B2) as (N1 & N2 & N3).
  set (n := normalizeSelection sel) in *.
  unfold in_buffer in N1, N2.
  destruct (aget_Some _ _ N1) as [sl Hsl].
  destruct (aget_Some _ _ N2) as [el Hel].
  assert (Fin : forall x, lines x <> [] -> mode x = mode s ->
            let x1 := set_selection None (set_cursor (sel_start n) x) in
            let s' := set_cursor (clampCursor x1 (cursor x1)) x1 in
            Inv s' /\ selection s' = None /\ mode s' = mode s
            /\ loose s' /\ (mode s <> insert -> tight s')).
  { intros x Hx Hm x1 s'.
    destruct (clamp_ok x1 Hx) as (C1 & C2 & C3 & _).
    split; [exact C1|]. split; [reflexivity|]. split; [exact Hm|].
    split; [exact C2|]. intros M. apply C3. subst x1. sproj. congruence. }
  destruct (line (sel_start n) =? line (sel_end n)) eqn:E.
  - rewrite Hsl. cbn [bind].
    rewrite setLineAt_Some by (sproj; lia). cbn [bind ret].
    eexists. split; [reflexivity|]. apply Fin; [|reflexivity].
    sproj. apply alen_aset_nonempty; auto.
  - rewrite Hsl, Hel. cbn [bind].
    rewrite setLineAt_Some by (sproj; lia). cbn [bind ret].
    eexists. split; [reflexivity|]. apply Fin; [|reflexivity].
    sproj. apply alen_nonempty.
    rewrite alen_splice by (rewrite ?alen_aset; lia).
    rewrite alen_aset. change (alen (@nil jstring)) with 0. lia.
Qed.

Lemma yankSelection_ok (s : EditorState) (sel : Selection) :
  selection s = Some sel ->
  in_buffer s (sel_start sel) -> in_buffer s (sel_end sel) ->
  exists r, yankSelection s = Some (set_register r s).
Proof.
  intros Hsel B1 B2. unfold yankSelection. rewrite Hsel. cbv zeta.
  destruct (normalizeSelection_ok s sel B1 B2) as (N1 & N2 & N3).
  set (n := normalizeSelection sel) in *.
  unfold in_buffer in N1, N2.
  destruct (aget_Some _ _ N1) as [sl Hsl].
  destruct (aget_Some _ _ N2) as [el Hel].
  destruct (line (sel_start n) =? line (sel_end n)) eqn:E.
  - rewrite Hsl. cbn [bind ret]. eexists. reflexivity.
  - rewrite Hsl, Hel. cbn [bind ret]. eexists. reflexivity.
Qed.

Lemma executeSubstitution_ok (cmd : jstring) (s : EditorState) :
  Inv s ->
  exists s', executeSubstitution cmd s = Some s'
    /\ Inv s' /\ cursor s' = cursor s /\ mode s' = mode s
    /\ selection s' = selection s.
Proof.
  intros I. unfold executeSubstitution. cbv zeta.
  destruct (3 <=? alen (JS.split cmd "/")) eqn:E.
  - apply Z.leb_le in E.
    destruct (aget_Some (JS.split cmd "/") 1) as [a Ha]; [lia|].
    destruct (aget_Some (JS.split cmd "/") 2) as [b Hb]; [lia|].
    rewrite Ha, Hb. cbn [bind].
    match goal with |- context [if ?c then _ else _] => destruct c end;
      match goal with |- context [setCurrentLine ?t s] =>
        destruct (setCurrentLine_ok t s I)
          as (s' & -> & H1 & _ & H2 & H3 & H4 & _) end;
      exists s'; auto.
  - exists s. split; [reflexivity|]. auto.
Qed.

Lemma test_digits_parseInt (c : jstring) :
  JS.test_digits c = true -> exists n, JS.parseInt c = Some n.
Proof.
  unfold JS.test_digits, JS.parseInt. intros H.
  apply andb_true_iff in H. destruct H as [H1 H2].
  destruct c; [discriminate|]. rewrite H2. eauto.
Qed.

Lemma sliceFrom_1 (c : ascii) (s : jstring) : JS.sliceFrom (c :: s) 1 = s.
Proof.
  unfold JS.sliceFrom, JS.slice. rewrite len_cons.
  pose proof (len_nonneg s).
  replace (1 <? 0) with false by lia.
  replace (1 + JS.len s <? 0) with false by lia.
  replace (Z.min 1 (1 + JS.len s)) with 1 by lia.
  change (Z.to_nat 1) with 1%nat. simpl skipn.
  apply firstn_all2. unfold JS.len. lia.
Qed.

(** A command line that is not a substitution keeps both column bounds. *)
Lemma executeCommand_ok (s : EditorState) :
  Inv s -> mode s <> insert ->
  exists s', executeCommand s = Some s'
    /\ Inv s' /\ mode s' = normal /\ selection s' = selection s
    /\ commandBuffer s' = []
    /\ (JS.prefixb ":s/" (commandBuffer s) = false ->
        (loose s -> loose s') /\ (tight s -> tight s')).
Proof.
  intros I Hm. unfold executeCommand. cbv zeta.
  assert (Done : forall x, Inv x -> selection x = selection s ->
            ((loose s -> loose x) /\ (tight s -> tight x)) ->
            exists s', bind (Some x) (fun s0 =>
                         ret (set_commandBuffer [] (set_mode normal s0)))
                       = Some s'
              /\ Inv s' /\ mode s' = normal /\ selection s' = selection s
              /\ commandBuffer s' = []
              /\ (JS.prefixb ":s/" (commandBuffer s) = false ->
                  (loose s -> loose s') /\ (tight s -> tight s'))).
  { intros x X1 X2 X3. eexists. split; [reflexivity|].
    split; [exact X1|]. split; [reflexivity|]. split; [exact X2|].
    split; [reflexivity|]. intros _. exact X3. }
  destruct (JS.startsWith (commandBuffer s) "/") eqn:E1.
  - destruct (JS.sliceFrom (commandBuffer s) 1) as [|c p] eqn:P.
    + apply Done; auto.
    + destruct (searchNext_ok (set_lastSearch (c :: p) s) I)
        as (s' & -> & (S1 & S2 & S3 & S4 & S5) & S6 & _).
      apply Done; auto.
  - destruct (JS.startsWith (commandBuffer s) ":") eqn:E2;
      [|apply Done; auto].
    repeat match goal with
      |- context [if ?c then ret (set_message ?m s) else _] =>
        destruct c; [apply (Done (set_message m s)); auto|] end.
    destruct (JS.test_digits (JS.sliceFrom (commandBuffer s) 1)) eqn:D.
    + destruct (test_digits_parseInt _ D) as [n ->].
      pose proof I as (I1 & I2 & I3).
      match goal with |- context [set_cursor (clampCursor ?x _) _] =>
        destruct (clamp_ok x I1) as (C1 & C2 & C3 & _);
        apply (Done (set_cursor (clampCursor x (cursor x)) x)) end; auto.
    + destruct (JS.startsWith (JS.sliceFrom (commandBuffer s) 1) "s/")
        eqn:E3; [|apply Done; auto].
      destruct (executeSubstitution_ok
                  (JS.sliceFrom (commandBuffer s) 1) s I)
        as (s' & -> & X1 & X2 & X3 & X4).
      eexists. split; [reflexivity|].
      split; [exact X1|]. split; [reflexivity|]. split; [exact X4|].
      split; [reflexivity|]. intros F. exfalso.
      unfold JS.startsWith in *.
      destruct (commandBuffer s) as [|c0 r]; [discriminate|].
      rewrite sliceFrom_1 in E3.
      cbn [JS.prefixb String.list_ascii_of_string] in E2, E3, F.
      destruct (Ascii.eqb ":" c0); cbn [andb] in E2, F; [|discriminate].
      congruence.
Qed.

(** ** The handlers keep the invariant *)

Lemma Step_StepL (s s' : EditorState) : Step s s' -> StepL s s'.
Proof. unfold Step, StepL. tauto. Qed.

Lemma mode_bound_loose (s : EditorState) : mode_bound s -> loose s.
Proof.
  unfold mode_bound. destruct (mode s); auto using tight_loose.
Qed.

(** Moving to a line of the buffer and clamping the column. *)
Lemma line_move_Step (s : EditorState) (l : Z) :
  Inv s -> 0 <= l < alen (lines s) ->
  let x := set_line l s in
  let s' := set_cursor (clampCursor x (cursor x)) x in
  Step s s' /\ loose s' /\ (mode s <> insert -> tight s')
  /\ lines s' = lines s.
Proof.
  intros (I1 & I2 & I3) Hl x s'.
  destruct (clamp_ok x I1) as (C1 & C2 & C3 & _).
  split; [|split; [exact C2|split; [exact C3|reflexivity]]].
  split; [exact C1|]. split; [reflexivity|]. split; [reflexivity|].
  split; intros; auto.
Qed.

Lemma WF_selection_None (s : EditorState) :
  WF s -> mode s <> visual -> selection s = None.
Proof.
  intros [_ H] Hm. unfold SelOK in H.
  destruct (selection s); [tauto|reflexivity].
Qed.

(** Outside visual mode an operation that is a [Step] fulfils [Post]. *)
Lemma Post_Step (s : EditorState) (k : jstring) (s' : EditorState) :
  WF s -> mode s <> visual -> Step s s' -> Post s k s'.
Proof.
  intros W Hm (S1 & S2 & S3 & S4 & S5).
  pose proof (WF_selection_None s W Hm) as Hn.
  split; [split; [exact S1|]|split].
  - unfold SelOK. rewrite S2, Hn, S3. exact Hm.
  - intros. auto.
  - unfold mode_bound. rewrite S3.
    destruct (mode s) eqn:M; intros; auto; try congruence;
      apply S5; auto; congruence.
Qed.

(** An operation that ends in insert mode only owes the looser bound. *)
Lemma Post_insert (s : EditorState) (k : jstring) (s' : EditorState) :
  WF s -> mode s <> visual -> Inv s' -> selection s' = selection s ->
  mode s' = insert -> (loose s -> loose s') -> Post s k s'.
Proof.
  intros W Hm S1 S2 S3 S4.
  pose proof (WF_selection_None s W Hm) as Hn.
  split; [split; [exact S1|]|split].
  - unfold SelOK. rewrite S2, Hn, S3. discriminate.
  - intros. auto.
  - unfold mode_bound at 2. rewrite S3. intros B _.
    apply S4. apply mode_bound_loose. exact B.
Qed.

Lemma updateSelection_Post (s : EditorState) (k : jstring)
  (x : EditorState) :
  WF s -> mode s = visual -> StepL s x -> alen (lines x) = alen (lines s) ->
  Post s k (updateSelection x).
Proof.
  intros [I W] Hm (S1 & S2 & S3 & S4) Hl. unfold SelOK in W.
  unfold updateSelection. rewrite S2.
  destruct (selection s) as [sel|] eqn:Es; [|congruence].
  destruct W as (_ & W1 & _).
  pose proof S1 as (X1 & X2 & X3).
  split; [split|split].
  - exact S1.
  - unfold SelOK, in_buffer in *. sproj. rewrite Hl, S3.
    split; [exact Hm|]. split; [exact W1|]. rewrite <- Hl. exact X2.
  - intros. apply S4. assumption.
  - unfold mode_bound. sproj. rewrite S3, Hm. intros. apply S4. assumption.
Qed.

Lemma handleVisualMode_ok (s : EditorState) (k : jstring) :
  WF s -> mode s = visual ->
  exists s' b, handleVisualMode s k = Some (s', b) /\ Post s k s'.
Proof.
  intros W Hm. pose proof W as [I Sel]. pose proof I as (I1 & I2 & I3).
  unfold SelOK in Sel.
  destruct (selection s) as [sel|] eqn:Es; [|congruence].
  destruct Sel as (_ & B1 & B2).
  unfold handleVisualMode.
  apply switch_ind with
    (P := fun m => exists s' b, m = Some (s', b) /\ Post s k s').
  2: { exists s, false. split; [reflexivity|].
       split; [exact W|]. split; auto. }
  unfold in_buffer in I2. pose proof (len_nonneg (getCurrentLine s)) as Hlen.
  repeat apply Forall_cons; try apply Forall_nil; cbn [fst snd]; intros Hk.
  - (* Escape *)
    eexists _, true. split; [reflexivity|].
    split; [split; [exact I|unfold SelOK; sproj; discriminate]|].
    split; [intros; assumption|].
    intros _ N. exfalso. apply N. unfold exceptional. rewrite Hm.
    simpl in Hk. left. destruct Hk as [<-|[]]. reflexivity.
  - (* h *)
    eexists _, true. split; [reflexivity|].
    apply updateSelection_Post; auto. apply Step_StepL.
    apply set_col_le_Step; auto; lia.
  - (* j *)
    eexists _, true. split; [reflexivity|].
    match goal with |- context [clampCursor (set_line ?l s)] =>
      destruct (line_move_Step s l I ltac:(lia)) as (L1 & _ & _ & L4) end.
    apply updateSelection_Post; auto using Step_StepL.
  - (* k *)
    eexists _, true. split; [reflexivity|].
    match goal with |- context [clampCursor (set_line ?l s)] =>
      destruct (line_move_Step s l I ltac:(lia)) as (L1 & _ & _ & L4) end.
    apply updateSelection_Post; auto using Step_StepL.
  - (* l *)
    eexists _, true. split; [reflexivity|].
    apply updateSelection_Post; auto.
    unfold StepL. unf. repeat split; auto; lia.
  - (* w *)
    eexists _, true. split; [reflexivity|].
    destruct (moveWordForward_Inv s I) as (M1 & M2 & M3 & M4 & M5).
    apply updateSelection_Post; auto; [|rewrite M5; reflexivity].
    split; [exact M1|]. split; [exact M2|]. split; [exact M3|]. auto.
  - (* b *)
    eexists _, true. split; [reflexivity|].
    apply updateSelection_Post; auto. apply Step_StepL.
    apply moveWordBackward_Step; auto.
  - (* e *)
    eexists _, true. split; [reflexivity|].
    apply updateSelection_Post; auto. apply Step_StepL.
    apply (moveToEndOfWord_Step s I).
  - (* 0 *)
    eexists _, true. split; [reflexivity|].
    apply updateSelection_Post; auto. apply Step_StepL.
    apply set_col_le_Step; auto; lia.
  - (* $ *)
    eexists _, true. split; [reflexivity|].
    apply updateSelection_Post; auto.
    unfold StepL. unf. repeat split; auto; lia.
  - (* d, x *)
    destruct (deleteSelection_ok s sel I Es B1 B2)
      as (s' & -> & D1 & D2 & D3 & D4 & D5).
    eexists _, true. split; [reflexivity|].
    assert (T : tight s') by (apply D5; congruence).
    split; [split; [exact D1|unfold SelOK; sproj; rewrite D2; discriminate]|].
    split; [intros; exact D4|]. intros _ _. exact T.
  - (* y *)
    destruct (yankSelection_ok s sel Es B1 B2) as (r & ->).
    eexists _, true. split; [reflexivity|].
    split; [split; [exact I|unfold SelOK; sproj; discriminate]|].
    split; [intros; assumption|].
    intros _ N. exfalso. apply N. unfold exceptional. rewrite Hm.
    simpl in Hk. right. destruct Hk as [<-|[]]. reflexivity.
  - (* c *)
    destruct (deleteSelection_ok s sel I Es B1 B2)
      as (s' & -> & D1 & D2 & D3 & D4 & D5).
    eexists _, true. split; [reflexivity|].
    split; [split; [exact D1|unfold SelOK; sproj; rewrite D2; discriminate]|].
    split; [intros; exact D4|]. intros _ _. exact D4.
Qed.

Lemma handleInsertMode_ok (s : EditorState) (k : jstring) (ctrl : bool) :
  WF s -> mode s = insert ->
  exists s' b, handleInsertMode s k ctrl = Some (s', b) /\ Post s k s'.
Proof.
  intros W Hm. pose proof W as [I Sel]. pose proof I as (I1 & I2 & I3).
  assert (Hv : mode s <> visual) by congruence.
  pose proof (WF_selection_None s W Hv) as Hn.
  assert (Same : exists s' b, Some (s, false) = Some (s', b) /\ Post s k s').
  { exists s, false. split; [reflexivity|]. split; [exact W|]. split; auto. }
  assert (Op : forall m, (exists x, m = Some x /\ Step s x) ->
            exists s' b, break_ m = Some (s', b) /\ Post s k s').
  { intros m (x & -> & Hx). exists x, true. split; [reflexivity|].
    apply Post_Step; auto. }
  unfold handleInsertMode.
  apply switch_ind with
    (P := fun m => exists s' b, m = Some (s', b) /\ Post s k s').
  2: { destruct ((JS.len k =? 1) && negb ctrl); [|exact Same].
       apply Op. apply insertText_ok; auto. }
  unfold in_buffer in I2. pose proof (len_nonneg (getCurrentLine s)) as Hlen.
  repeat apply Forall_cons; try apply Forall_nil; cbn [fst snd]; intros Hk.
  - (* Escape *)
    eexists _, true. split; [reflexivity|].
    split; [split; [|unfold SelOK; sproj; rewrite Hn; discriminate]|].
    { unf. repeat split; auto; lia. }
    unfold mode_bound. rewrite Hm. unf. split; intros; lia.
  - apply Op. apply backspace_ok; auto.
  - apply Op. apply deleteChar_ok; auto.
  - apply Op. destruct (insertNewline_ok s I) as (x & -> & Hx & _). eauto.
  - apply Op. apply insertText_ok; auto.
  - apply Op. eexists. split; [reflexivity|].
    apply set_col_le_Step; auto; lia.
  - apply Op. eexists. split; [reflexivity|].
    apply set_col_Step; auto; intros; try lia; congruence.
  - apply Op. eexists. split; [reflexivity|].
    apply line_move_Step; auto; lia.
  - apply Op. eexists. split; [reflexivity|].
    apply line_move_Step; auto; lia.
Qed.

Lemma handleCommandMode_ok (s : EditorState) (k : jstring) :
  WF s -> mode s = command ->
  exists s' b, handleCommandMode s k = Some (s', b) /\ Post s k s'.
Proof.
  intros W Hm. pose proof W as [I Sel]. pose proof I as (I1 & I2 & I3).
  assert (Hv : mode s <> visual) by congruence.
  pose proof (WF_selection_None s W Hv) as Hn.
  unfold handleCommandMode.
  match goal with |- context [bind ?m _] =>
    assert (H : exists x, m = Some x /\ Post s k x) end.
  { assert (Keep : forall cb m, m = normal \/ m = command ->
              Post s k (set_commandBuffer cb (set_mode m s))).
    { intros cb m Hmm.
      split; [split; [exact I|]|split].
      - unfold SelOK. sproj. rewrite Hn. destruct Hmm; congruence.
      - intros; assumption.
      - unfold mode_bound. sproj. rewrite Hm.
        destruct Hmm as [-> | ->]; intros; assumption. }
    apply switch_ind with (P := fun m => exists x, m = Some x /\ Post s k x).
    2: { destruct (JS.len k =? 1); eexists; (split; [reflexivity|]).
         - replace (set_commandBuffer (commandBuffer s ++ k) s)
             with (set_commandBuffer (commandBuffer s ++ k)
                     (set_mode command s)).
           + apply Keep. auto.
           + unfold set_mode. rewrite <- Hm. destruct s; reflexivity.
         - split; [exact W|]. split; auto. }
    repeat apply Forall_cons; try apply Forall_nil; cbn [fst snd]; intros Hk.
    - eexists. split; [reflexivity|]. apply Keep. auto.
    - destruct (executeCommand_ok s I ltac:(congruence))
        as (s' & -> & E1 & E2 & E3 & E4 & E5).
      eexists. split; [reflexivity|].
      assert (Ek : k = "Enter").
      { simpl in Hk. destruct Hk as [<-|[]]. reflexivity. }
      split; [split; [exact E1|]|split].
      + unfold SelOK. rewrite E3, Hn, E2. discriminate.
      + intros L N. destruct (JS.prefixb ":s/" (commandBuffer s)) eqn:P.
        * exfalso. apply N. unfold substitution_enter. auto.
        * apply E5; auto.
      + unfold mode_bound, exceptional. rewrite E2, Hm. intros T N.
        destruct (JS.prefixb ":s/" (commandBuffer s)) eqn:P.
        * exfalso. apply N. auto.
        * apply E5; auto.
    - destruct (1 <? JS.len (commandBuffer s)); eexists;
        (split; [reflexivity|]).
      + replace (set_commandBuffer (JS.slice (commandBuffer s) 0 (-1)) s)
          with (set_commandBuffer (JS.slice (commandBuffer s) 0 (-1))
                  (set_mode command s)).
        * apply Keep. auto.
        * unfold set_mode. rewrite <- Hm. destruct s; reflexivity.
      + apply Keep. auto. }
  destruct H as (x & -> & Hx). exists x, true. split; [reflexivity|exact Hx].
Qed.

Lemma times_Step (count : Z) (f : EditorState -> EditorState)
  (s : EditorState) :
  Inv s -> (forall x, Inv x -> Step x (f x)) -> Step s (times count f s).
Proof.
  intros I H. apply times_ind.
  - apply Step_refl; auto.
  - intros x Hx. apply Step_trans with x; auto. apply H. apply Hx.
Qed.

Lemma timesM_Step (count : Z) (f : EditorState -> M EditorState)
  (s : EditorState) :
  Inv s -> (forall x, Inv x -> exists y, f x = Some y /\ Step x y) ->
  exists y, timesM count f s = Some y /\ Step s y.
Proof.
  intros I H. apply timesM_ind with (P := Step s).
  - apply Step_refl; auto.
  - intros x Hx. destruct (H x) as (y & Hy & Sy); [apply Hx|].
    exists y. split; auto. apply Step_trans with x; auto.
Qed.

(** The single-key commands of normal mode. *)
Lemma normalSwitch_ok (count : Z) (s : EditorState) (k : jstring) :
  WF s -> mode s = normal ->
  exists s' b, normalSwitch count s k = Some (s', b) /\ Post s k s'.
Proof.
  intros W Hm. pose proof W as [I Sel]. pose proof I as (I1 & I2 & I3).
  assert (Hv : mode s <> visual) by congruence.
  assert (Hi : mode s <> insert) by congruence.
  pose proof (WF_selection_None s W Hv) as Hn.
  assert (Op : forall m, (exists x, m = Some x /\ Step s x) ->
            exists s' b, break_ m = Some (s', b) /\ Post s k s').
  { intros m (x & -> & Hx). exists x, true. split; [reflexivity|].
    apply Post_Step; auto. }
  assert (Ins : forall m, (exists x, m = Some x /\ Inv x
                 /\ selection x = selection s /\ mode x = insert
                 /\ (loose s -> loose x)) ->
            exists s' b, break_ m = Some (s', b) /\ Post s k s').
  { intros m (x & -> & X1 & X2 & X3 & X4). exists x, true.
    split; [reflexivity|]. apply Post_insert; auto. }
  unfold normalSwitch.
  apply switch_ind with
    (P := fun m => exists s' b, m = Some (s', b) /\ Post s k s').
  2: { exists s, false. split; [reflexivity|].
       split; [exact W|]. split; auto. }
  unfold in_buffer in I2. pose proof (len_nonneg (getCurrentLine s)) as Hlen.
  pose proof (alen_pos _ I1) as Hpos.
  repeat apply Forall_cons; try apply Forall_nil; cbn [fst snd]; intros Hk.
  - (* h *)
    apply Op. eexists. split; [reflexivity|]. apply times_Step; auto.
    intros x (X1 & X2 & X3). apply set_col_le_Step; unfold Inv; auto; lia.
  - (* j *)
    apply Op. eexists. split; [reflexivity|].
    match goal with |- context [times count ?f s] =>
      assert (T : Kept s (times count f s)
                  /\ lines (times count f s) = lines s) end.
    { apply times_ind; [unfold Kept; auto|].
      intros x ((X1 & X2 & X3) & X4). pose proof X1 as (X5 & X6 & X7).
      unfold Kept. unf. rewrite X4 in *. repeat split; auto; lia. }
    destruct T as ((T1 & T2 & T3) & T4).
    destruct T1 as (T1 & _).
    match goal with |- Step s (set_cursor (clampCursor ?y _) _) =>
      destruct (clamp_ok y T1) as (C1 & C2 & C3 & _) end.
    rewrite T3 in C3.
    split; [exact C1|]. split; [exact T2|]. split; [exact T3|]. tauto.
  - (* k *)
    apply Op. eexists. split; [reflexivity|].
    match goal with |- context [times count ?f s] =>
      assert (T : Kept s (times count f s)
                  /\ lines (times count f s) = lines s) end.
    { apply times_ind; [unfold Kept; auto|].
      intros x ((X1 & X2 & X3) & X4). pose proof X1 as (X5 & X6 & X7).
      unfold Kept. unf. rewrite X4 in *. repeat split; auto; lia. }
    destruct T as ((T1 & T2 & T3) & T4).
    destruct T1 as (T1 & _).
    match goal with |- Step s (set_cursor (clampCursor ?y _) _) =>
      destruct (clamp_ok y T1) as (C1 & C2 & C3 & _) end.
    rewrite T3 in C3.
    split; [exact C1|]. split; [exact T2|]. split; [exact T3|]. tauto.
  - (* l *)
    apply Op. eexists. split; [reflexivity|]. apply times_Step; auto.
    intros x (X1 & X2 & X3).
    pose proof (len_nonneg (getCurrentLine x)).
    apply set_col_Step; unfold Inv; auto; intros; lia.
  - (* w *)
    eexists _, true. split; [reflexivity|].
    match goal with |- context [times count ?f s] =>
      assert (T : Inv (times count f s)
                  /\ selection (times count f s) = selection s
                  /\ mode (times count f s) = mode s
                  /\ (loose s -> loose (times count f s))) end.
    { apply times_ind; [tauto|].
      intros x (X1 & X2 & X3 & X4).
      destruct (moveWordForward_Inv x X1) as (M1 & M2 & M3 & M4 & _).
      split; [exact M1|]. split; [congruence|]. split; [congruence|].
      intros _. exact M4. }
    destruct T as (T1 & T2 & T3 & T4).
    split; [split; [exact T1|]|split].
    + unfold SelOK. rewrite T2, Hn, T3. exact Hv.
    + intros; auto.
    + intros _ N. exfalso. apply N. unfold exceptional. rewrite Hm.
      left. simpl in Hk. destruct Hk as [<-|[]]. reflexivity.
  - (* b *)
    apply Op. eexists. split; [reflexivity|]. apply times_Step; auto.
    intros x X. apply moveWordBackward_Step; auto.
  - (* e *)
    apply Op. eexists. split; [reflexivity|]. apply times_Step; auto.
    intros x X. apply (moveToEndOfWord_Step x X).
  - (* 0 *)
    apply Op. eexists. split; [reflexivity|].
    apply set_col_le_Step; auto; lia.
  - (* $ *)
    apply Op. eexists. split; [reflexivity|].
    apply set_col_Step; auto; intros; lia.
  - (* ^ *)
    apply Op. eexists. split; [reflexivity|].
    destruct (search_S_bounds (getCurrentLine s)) as [->|B].
    + simpl. apply set_col_le_Step; auto; lia.
    + destruct (JS.search_S (getCurrentLine s) =? -1) eqn:E; [lia|].
      apply set_col_Step; auto; intros; lia.
  - (* G *)
    apply Op. eexists. split; [reflexivity|].
    apply line_move_Step; auto; lia.
  - (* i *)
    apply Ins. eexists. split; [reflexivity|]. auto.
  - (* a *)
    apply Ins. eexists. split; [reflexivity|].
    unf. repeat split; auto; lia.
  - (* A *)
    apply Ins. eexists. split; [reflexivity|].
    unf. repeat split; auto; lia.
  - (* I *)
    apply Ins. eexists. split; [reflexivity|].
    change (getCurrentLine (set_mode insert s)) with (getCurrentLine s).
    destruct (search_S_bounds (getCurrentLine s)) as [->|B].
    + simpl. unf. repeat split; auto; lia.
    + destruct (JS.search_S (getCurrentLine s) =? -1) eqn:E; [lia|].
      unf. repeat split; auto; lia.
  - (* o *)
    apply Ins. eexists. split; [reflexivity|].
    unf. rewrite alen_splice by lia.
    rewrite aget_splice_at by lia.
    change (alen [[]]) with 1. change (JS.len []) with 0.
    repeat split; auto; try lia.
    apply alen_nonempty. rewrite alen_splice by lia.
    change (alen [[]]) with 1. lia.
  - (* O *)
    apply Ins. eexists. split; [reflexivity|].
    unf. rewrite alen_splice by lia.
    rewrite aget_splice_at by lia.
    change (alen [[]]) with 1. change (JS.len []) with 0.
    repeat split; auto; try lia.
    apply alen_nonempty. rewrite alen_splice by lia.
    change (alen [[]]) with 1. lia.
  - (* v *)
    eexists _, true. split; [reflexivity|].
    split; [split; [exact I|]|split].
    + unfold SelOK, in_buffer. sproj. auto.
    + intros; assumption.
    + unfold mode_bound. sproj. rewrite Hm. intros T _.
      apply tight_loose. exact T.
  - (* V *)
    eexists _, true. split; [reflexivity|].
    split; [split; [exact I|]|split].
    + unfold SelOK, in_buffer. sproj. auto.
    + intros; assumption.
    + unfold mode_bound. sproj. rewrite Hm. intros T _.
      apply tight_loose. exact T.
  - (* x *)
    apply Op. apply timesM_Step; auto. intros; apply deleteChar_ok; auto.
  - (* X *)
    apply Op. apply timesM_Step; auto.
    intros; apply deleteCharBefore_ok; auto.
  - (* s *)
    apply Ins. destruct (deleteChar_ok s I) as (x & -> & X1 & X2 & X3 & X4 & _).
    eexists. split; [reflexivity|]. auto.
  - (* S *)
    apply Ins.
    destruct (setCurrentLine_ok [] s I)
      as (x & -> & X1 & X2 & X3 & X4 & X5 & X6 & _).
    eexists. split; [reflexivity|].
    destruct X1 as (Y1 & Y2 & Y3).
    unf. rewrite X2. change (JS.len []) with 0.
    repeat split; auto; lia.
  - (* D *)
    apply Op. apply deleteToEnd_ok; auto.
  - (* C *)
    apply Ins. destruct (deleteToEnd_ok s I) as (x & -> & X1 & X2 & X3 & X4 & _).
    eexists. split; [reflexivity|]. auto.
  - (* p *)
    destruct (paste_ok after s I) as (x & -> & X1 & X2 & X3 & X4 & X5).
    eexists _, true. split; [reflexivity|].
    split; [split; [exact X1|]|split].
    + unfold SelOK. rewrite X2, Hn, X3. exact Hv.
    + intros; auto.
    + unfold mode_bound, exceptional. rewrite X3, Hm. intros T N.
      apply X5; auto. right. intros E. apply N. right.
      simpl in Hk. destruct Hk as [<-|[]]. auto.
  - (* P *)
    apply Op. destruct (paste_ok before s I) as (x & -> & X1 & X2 & X3 & X4 & X5).
    eexists. split; [reflexivity|].
    split; [exact X1|]. split; [exact X2|]. split; [exact X3|].
    split; auto.
  - (* u *)
    apply Op. eexists. split; [reflexivity|]. unf. tauto.
  - (* J *)
    apply Op. apply joinLines_ok; auto.
  - (* : *)
    eexists _, true. split; [reflexivity|].
    split; [split; [exact I|]|split].
    + unfold SelOK. sproj. rewrite Hn. discriminate.
    + intros; assumption.
    + unfold mode_bound. sproj. rewrite Hm. intros; assumption.
  - (* / *)
    eexists _, true. split; [reflexivity|].
    split; [split; [exact I|]|split].
    + unfold SelOK. sproj. rewrite Hn. discriminate.
    + intros; assumption.
    + unfold mode_bound. sproj. rewrite Hm. intros; assumption.
  - (* n *)
    apply Op. destruct (searchNext_ok s I) as (x & -> & X & _). eauto.
  - (* N *)
    apply Op. destruct (searchPrev_ok s I) as (x & -> & X & _). eauto.
  - (* * *)
    apply Op. destruct (searchWordUnderCursor_ok s I) as (x & -> & X & _).
    eauto.
  - (* Escape *)
    apply Op. eexists. split; [reflexivity|]. unf. rewrite Hn. tauto.
Qed.

Lemma digit_key (k : jstring) :
  is_key_1_9 k = true \/ is_key_0_9 k = true ->
  forallb JS.is_digit k = true.
Proof.
  unfold is_key_1_9, is_key_0_9, JS.is_digit.
  destruct k as [|c [|d k]]; simpl; intros [H|H]; try discriminate;
    rewrite andb_true_r.
  - apply andb_true_iff in H. apply andb_true_iff. lia.
  - exact H.
Qed.

Lemma handleNormalMode_ok (e : VimEngine) (k : jstring) :
  WFE e -> mode (state e) = normal ->
  exists e' b, handleNormalMode e k = Some (e', b)
    /\ Post (state e) k (state e')
    /\ forallb JS.is_digit (countBuffer e') = true.
Proof.
  intros [W Dg] Hm. set (s := state e) in *.
  pose proof W as [I Sel]. pose proof I as (I1 & I2 & I3).
  assert (Hv : mode s <> visual) by congruence.
  assert (Hi : mode s <> insert) by congruence.
  pose proof (WF_selection_None s W Hv) as Hn.
  assert (Same : forall c, Post s k (set_commandBuffer c s)).
  { intros c. apply Post_Step; auto. apply (Step_refl s I). }
  assert (Op : forall m, (exists x, m = Some x /\ Step s x) ->
            exists e' b, finish m = Some (e', b)
              /\ Post s k (state e')
              /\ forallb JS.is_digit (countBuffer e') = true).
  { intros m (x & -> & Hx). eexists _, true. split; [reflexivity|].
    split; [|reflexivity]. sproj. apply Post_Step; auto. }
  assert (Ins : forall m, (exists x, m = Some x /\ Inv x
                 /\ selection x = selection s /\ mode x = insert
                 /\ (loose s -> loose x)) ->
            exists e' b, finish m = Some (e', b)
              /\ Post s k (state e')
              /\ forallb JS.is_digit (countBuffer e') = true).
  { intros m (x & -> & X1 & X2 & X3 & X4). eexists _, true.
    split; [reflexivity|]. split; [|reflexivity]. sproj.
    apply Post_insert; auto. }
  unfold handleNormalMode. cbv zeta. sproj. fold s.
  destruct (is_key_1_9 k || nonempty (countBuffer e) && is_key_0_9 k) eqn:Ec.
  { eexists _, true. split; [reflexivity|]. sproj. split; [apply Same|].
    rewrite forallb_app, Dg. apply digit_key.
    apply orb_true_iff in Ec. destruct Ec as [Ec|Ec]; auto.
    apply andb_true_iff in Ec. tauto. }
  destruct (JS.eqb (commandBuffer s ++ k) "dd").
  { apply Op. eexists. split; [reflexivity|]. apply deleteLine_ok; auto. }
  destruct (JS.eqb (commandBuffer s ++ k) "yy").
  { apply Op. eexists. split; [reflexivity|]. apply yankLine_ok; auto. }
  destruct (JS.eqb (commandBuffer s ++ k) "cc").
  { apply Ins. destruct (changeLine_ok s I) as (x & -> & X1 & X2 & X3 & X4).
    eexists. split; [reflexivity|]. auto using tight_loose. }
  destruct (JS.eqb (commandBuffer s ++ k) "gg").
  { apply Op. eexists. split; [reflexivity|].
    pose proof (alen_pos _ I1). pose proof (len_nonneg (getCurrentLine s)).
    destruct (aget_Some (lines s) 0) as [l0 Hl0]; [lia|].
    pose proof (len_nonneg l0).
    unf. rewrite Hl0. repeat split; auto; lia. }
  destruct (JS.eqb (commandBuffer s ++ k) "dw").
  { apply Op. apply deleteWord_ok; auto. }
  destruct (JS.eqb (commandBuffer s ++ k) "cw").
  { apply Ins. destruct (changeWord_ok s I) as (x & -> & X1 & X2 & X3 & X4).
    eexists. split; [reflexivity|]. auto. }
  destruct (JS.eqb (commandBuffer s ++ k) ("di" ++ unnamed)
            || JS.eqb (commandBuffer s ++ k) "di'") eqn:Ed.
  { assert (Hq : exists q, JS.charAt (commandBuffer s ++ k) 2 = Some q).
    { apply orb_true_iff in Ed.
      destruct Ed as [Ed|Ed]; apply eqb_eq in Ed; rewrite Ed; eexists;
        reflexivity. }
    destruct Hq as [q ->]. cbn [bind]. apply Op.
    apply deleteInQuotes_ok; auto. discriminate. }
  destruct (JS.eqb (commandBuffer s ++ k) ("ci" ++ unnamed)
            || JS.eqb (commandBuffer s ++ k) "ci'") eqn:Eci.
  { assert (Hq : exists q, JS.charAt (commandBuffer s ++ k) 2 = Some q).
    { apply orb_true_iff in Eci.
      destruct Eci as [Eci|Eci]; apply eqb_eq in Eci; rewrite Eci; eexists;
        reflexivity. }
    destruct Hq as [q ->]. cbn [bind]. apply Ins. unfold changeInQuotes.
    destruct (deleteInQuotes_ok [q] s I ltac:(discriminate))
      as (x & -> & X1 & X2 & X3 & X4 & _).
    eexists. split; [reflexivity|]. auto. }
  destruct (existsb (JS.eqb k)
              (case_ ["d"; "c"; "y"; "g"; "f"; "F"; "t"; "T"; "r"])
            && JS.eqb (commandBuffer s ++ k) k).
  { eexists _, true. split; [reflexivity|]. sproj. split; [apply Same|].
    reflexivity. }
  destruct (JS.eqb (commandBuffer s) "r" && (JS.len k =? 1)) eqn:Er.
  { apply andb_true_iff in Er. destruct Er as [_ Lk]. apply Z.eqb_eq in Lk.
    apply Op. rewrite setCurrentLine_Some by auto.
    eexists. split; [reflexivity|].
    remember (getCurrentLine s) as ln eqn:Eln.
    pose proof (len_nonneg ln).
    edited. rewrite <- Eln in *. lens.
    split; [split; [apply alen_aset_nonempty; auto|lia]|].
    split; [reflexivity|]. split; [reflexivity|]. split; intros; lia. }
  destruct (JS.eqb (commandBuffer s) "f" && (JS.len k =? 1)) eqn:Ef.
  { apply andb_true_iff in Ef. destruct Ef as [_ Lk]. apply Z.eqb_eq in Lk.
    apply Op. eexists. split; [reflexivity|].
    pose proof (len_nonneg (getCurrentLine s)).
    destruct (indexOf_bounds (getCurrentLine s) k (col (cursor s) + 1))
      as [->|[B1 B2]].
    - simpl. apply Step_refl; auto.
    - destruct (negb (JS.indexOf (getCurrentLine s) k (col (cursor s) + 1)
                      =? -1)); [|apply Step_refl; auto].
      unfold JS.clamp in B1.
      apply set_col_Step; auto; intros; lia. }
  destruct (JS.eqb (commandBuffer s) "F" && (JS.len k =? 1)) eqn:EF.
  { apply andb_true_iff in EF. destruct EF as [_ Lk]. apply Z.eqb_eq in Lk.
    apply Op. eexists. split; [reflexivity|].
    pose proof (len_nonneg (getCurrentLine s)).
    destruct (lastIndexOf_bounds (getCurrentLine s) k (col (cursor s) - 1))
      as [->|[B1 B2]].
    - simpl. apply Step_refl; auto.
    - destruct (negb (JS.lastIndexOf (getCurrentLine s) k
                        (col (cursor s) - 1) =? -1));
        [|apply Step_refl; auto].
      apply set_col_Step; auto; intros; lia. }
  destruct (normalSwitch_ok (countOf (countBuffer e))
              (set_commandBuffer [] s) k W Hm)
    as (s' & b & -> & P1 & P2 & P3).
  eexists _, b. split; [reflexivity|]. sproj. split; [|reflexivity].
  split; [exact P1|]. split.
  - intros L _. apply P2; auto.
    unfold substitution_enter. sproj. intros [C _]. congruence.
  - intros B N. apply P3; [exact B|].
    unfold exceptional in *. sproj. rewrite Hm in *. exact N.
Qed.

Lemma liftState_ok (e : VimEngine) (k : jstring)
  (m : M (EditorState * bool)) :
  forallb JS.is_digit (countBuffer e) = true ->
  (exists s' b, m = Some (s', b) /\ Post (state e) k s') ->
  exists e' b, liftState e m = Some (e', b)
    /\ Post (state e) k (state e')
    /\ forallb JS.is_digit (countBuffer e') = true.
Proof.
  intros Dg (s' & b & -> & P). eexists _, b. split; [reflexivity|].
  split; [exact P|exact Dg].
Qed.

(** Every key event, in every mode, runs to completion from a well-formed
    engine and leaves a well-formed engine behind. *)
Lemma handleKeyDown_ok (e : VimEngine) (ev : KeyboardEvent) :
  WFE e ->
  exists e' b, handleKeyDown e ev = Some (e', b)
    /\ Post (state e) (key ev) (state e')
    /\ forallb JS.is_digit (countBuffer e') = true.
Proof.
  intros W. pose proof W as [W1 W2]. unfold handleKeyDown.
  destruct (mode (state e)) eqn:Hm.
  - apply handleNormalMode_ok; auto.
  - apply liftState_ok; auto. apply handleInsertMode_ok; auto.
  - apply liftState_ok; auto. apply handleVisualMode_ok; auto.
  - apply liftState_ok; auto. apply handleCommandMode_ok; auto.
Qed.

(** ** Collapse to one empty line *)

Lemma deleteLine_collapse (count : Z) (s : EditorState) :
  line (cursor s) = 0 -> alen (lines s) <= count ->
  lines (deleteLine count s) = [[]].
Proof.
  intros H0 Hc. unfold deleteLine. rewrite H0.
  pose proof (alen_nonneg (lines s)).
  destruct (JS.splice (lines s) 0
              (Z.min (0 + count) (alen (lines s)) - 0) []) as [rest del]
    eqn:E.
  assert (R : rest = []).
  { change rest with (fst (rest, del)). rewrite <- E.
    rewrite splice_fst by lia. simpl.
    apply skipn_all2. unfold alen in *. lia. }
  subst rest. reflexivity.
Qed.

Lemma deleteSelection_collapse (s : EditorState) (sel : Selection)
  (c : Z) (last : jstring) :
  Inv s -> selection s = Some sel ->
  normalizeSelection sel
  = mkSelection (mkCursor 0 0) (mkCursor (alen (lines s) - 1) c) ->
  JS.aget (lines s) (alen (lines s) - 1) = Some last ->
  JS.len last <= c + 1 ->
  exists s', deleteSelection s = Some s' /\ lines s' = [[]].
Proof.
  intros (I1 & I2 & I3) Hs Hn Hl Hc. unfold deleteSelection.
  rewrite Hs. cbv zeta. rewrite Hn. cbn [sel_start sel_end line col].
  pose proof (alen_pos _ I1) as Hp. pose proof (len_nonneg last).
  assert (E0 : forall t, JS.substring t 0 0 = []).
  { intros t. rewrite substring_0 by lia. reflexivity. }
  assert (E1 : JS.substringFrom last (c + 1) = []).
  { rewrite substringFrom_skipn by lia. apply skipn_all2.
    unfold JS.len in *. lia. }
  destruct (0 =? alen (lines s) - 1) eqn:E.
  - apply Z.eqb_eq in E. rewrite <- E in Hl. rewrite Hl. cbn [bind].
    rewrite setLineAt_Some by (sproj; lia). cbn [bind ret].
    eexists. split; [reflexivity|]. sproj. rewrite E0, E1.
    destruct (lines s) as [|l0 [|l1 r]]; [congruence|reflexivity|].
    unfold alen in E. simpl length in E. lia.
  - apply Z.eqb_neq in E.
    destruct (aget_Some (lines s) 0) as [first Hf]; [lia|].
    rewrite Hf, Hl. cbn [bind].
    rewrite setLineAt_Some by (sproj; lia). cbn [bind ret].
    eexists. split; [reflexivity|]. sproj. rewrite E0, E1.
    rewrite splice_fst by (rewrite ?alen_aset; lia).
    rewrite alen_aset.
    destruct (lines s) as [|l0 r]; [congruence|].
    simpl JS.aset. change (Z.to_nat (0 + 1)) with 1%nat. simpl firstn.
    rewrite skipn_all2; [reflexivity|].
    unfold alen in *. simpl length in *. lia.
Qed.

(** ** The claims *)

(** Well-formedness of a concrete engine. *)
Ltac wfe :=
  unfold WFE, WF, Inv, SelOK, in_buffer, alen; cbn;
  repeat split; try lia; try discriminate; try reflexivity.




(** C9: every key event keeps the array of lines non-empty; [deleteLine]
    does so for every count and leaves exactly one empty line when it
    removes every line, and so does the deletion of a selection that covers
    the whole buffer. *)
Theorem lines_never_empty (e : VimEngine) (ev : KeyboardEvent) :
  WFE e ->
  (exists e' consumed,
     handleKeyDown e ev = Some (e', consumed)
     /\ WFE e' /\ lines (state e') <> [])
  /\ (forall count, lines (deleteLine count (state e)) <> [])
  /\ (forall count,
        line (cursor (state e)) = 0 -> alen (lines (state e)) <= count ->
        lines (deleteLine count (state e)) = [[]])
  /\ (forall sel c last,
        selection (state e) = Some sel ->
        normalizeSelection sel
        = mkSelection (mkCursor 0 0)
                      (mkCursor (alen (lines (state e)) - 1) c) ->
        JS.aget (lines (state e)) (alen (lines (state e)) - 1) = Some last ->
        JS.len last <= c + 1 ->
        exists s', deleteSelection (state e) = Some s' /\ lines s' = [[]]).
Proof.
  intros W. split; [|split; [|split]].
  - destruct (handleKeyDown_ok e ev W) as (e' & b & H & (P1 & _) & D).
    exists e', b. split; [exact H|]. split; [split; assumption|].
    destruct P1 as ((I1 & _) & _). exact I1.
  - intros count. destruct W as [[I _] _].
    destruct (deleteLine_ok count (state e) I) as (((I1 & _) & _) & _).
    exact I1.
  - intros count. apply deleteLine_collapse.
  - intros sel c last. destruct W as [[I _] _].
    apply deleteSelection_collapse. exact I.
Qed.

Lemma lines_never_empty_witness :
  WFE (engineAt ["a"; "b"] (mkCursor 0 0))
  /\ ((exists e' consumed,
         handleKeyDown (engineAt ["a"; "b"] (mkCursor 0 0)) (press "x")
         = Some (e', consumed)
         /\ WFE e' /\ lines (state e') <> [])
      /\ (forall count,
            lines (deleteLine count
                     (state (engineAt ["a"; "b"] (mkCursor 0 0)))) <> [])
      /\ (forall count,
            line (cursor (state (engineAt ["a"; "b"] (mkCursor 0 0)))) = 0 ->
            alen (lines (state (engineAt ["a"; "b"] (mkCursor 0 0))))
            <= count ->
            lines (deleteLine count
                     (state (engineAt ["a"; "b"] (mkCursor 0 0)))) = [[]])
      /\ (forall sel c last,
            selection (state (engineAt ["a"; "b"] (mkCursor 0 0)))
            = Some sel ->
            normalizeSelection sel
            = mkSelection (mkCursor 0 0)
                (mkCursor
                   (alen (lines (state (engineAt ["a"; "b"]
                                          (mkCursor 0 0)))) - 1) c) ->
            JS.aget (lines (state (engineAt ["a"; "b"] (mkCursor 0 0))))
              (alen (lines (state (engineAt ["a"; "b"] (mkCursor 0 0)))) - 1)
            = Some last ->
            JS.len last <= c + 1 ->
            exists s',
              deleteSelection (state (engineAt ["a"; "b"] (mkCursor 0 0)))
              = Some s' /\ lines s' = [[]])).
Proof.
  split; [wfe|].
  apply (lines_never_empty (engineAt ["a"; "b"] (mkCursor 0 0)) (press "x")).
  wfe.
Defined.

(** The second example of the specification: a count of five on a buffer
    of two lines leaves one empty line. *)
Example deleteLine_five_of_two :
  lines (deleteLine 5 (state (engineAt ["a"; "b"] (mkCursor 0 0)))) = [[]].
Proof. reflexivity. Qed.

(** ** Lemmas on [split] and [join] *)

Lemma prefixb_nonempty (sep s : jstring) :
  sep <> [] -> JS.prefixb sep s = true -> s <> [].
Proof. destruct sep; [congruence|]. destruct s; simpl; congruence. Qed.

Lemma skipn_prefix (sep b : jstring) : skipn (length sep) (sep ++ b) = b.
Proof. rewrite skipn_app, skipn_all, Nat.sub_diag. reflexivity. Qed.

(** The scan does not depend on the fuel once there is enough of it. *)
Lemma split_scan_fuel (f1 f2 : nat) (sep s acc : jstring) :
  sep <> [] -> (length s < f1)%nat -> (length s < f2)%nat ->
  JS.split_scan f1 sep s acc = JS.split_scan f2 sep s acc.
Proof.
  intros Hsep. revert f2 s acc.
  induction f1 as [|f1 IH]; intros f2 s acc H1 H2; [lia|].
  destruct f2 as [|f2]; [lia|]. simpl.
  destruct (JS.prefixb sep s) eqn:E.
  - f_equal. pose proof (prefixb_length _ _ E).
    assert (0 < length sep)%nat by (destruct sep; [congruence|simpl; lia]).
    apply IH; rewrite length_skipn; lia.
  - destruct s as [|c s]; [reflexivity|]. simpl in H1, H2.
    apply IH; lia.
Qed.

Lemma split_unfold (s sep : jstring) (fuel : nat) :
  sep <> [] -> (length s < fuel)%nat ->
  JS.split s sep = JS.split_scan fuel sep s [].
Proof.
  intros H L. unfold JS.split. destruct sep; [congruence|].
  apply split_scan_fuel; auto; lia.
Qed.

Lemma find_cons_S (p : jstring) (c : ascii) (s : jstring) (k : nat) :
  JS.find p (c :: s) = Some (S k) ->
  JS.prefixb p (c :: s) = false /\ JS.find p s = Some k.
Proof.
  simpl. destruct (JS.prefixb p (c :: s)); [discriminate|].
  destruct (JS.find p s); simpl; [|discriminate].
  intros [= ->]. auto.
Qed.

Lemma split_scan_step (fuel : nat) (sep a b acc : jstring) :
  sep <> [] ->
  JS.find sep (a ++ sep ++ b) = Some (length a) ->
  (length (a ++ sep ++ b) < fuel)%nat ->
  JS.split_scan fuel sep (a ++ sep ++ b) acc
  = (acc ++ a) :: JS.split_scan (fuel - length a - 1) sep b [].
Proof.
  intros Hsep. revert fuel acc.
  induction a as [|x a IH]; intros fuel acc F L.
  - destruct fuel as [|f]; [simpl in L; lia|]. simpl app in *. simpl.
    rewrite prefixb_app, skipn_prefix, app_nil_r, Nat.sub_0_r. reflexivity.
  - destruct fuel as [|f]; [simpl in L; lia|]. simpl app in *.
    simpl length in *. apply find_cons_S in F. destruct F as [F1 F2].
    cbn [JS.split_scan]. rewrite F1.
    rewrite IH by (auto; lia). rewrite <- app_assoc. reflexivity.
Qed.

(** [split] at the first occurrence of the separator. *)
Lemma split_first (sep a b : jstring) :
  sep <> [] ->
  JS.find sep (a ++ sep ++ b) = Some (length a) ->
  JS.split (a ++ sep ++ b) sep = a :: JS.split b sep.
Proof.
  intros Hsep F.
  rewrite (split_unfold _ _ (S (length (a ++ sep ++ b)))) by (auto; lia).
  rewrite split_scan_step by (auto; lia). simpl app. f_equal.
  symmetry. apply split_unfold; auto.
  rewrite !length_app.
  assert (0 < length sep)%nat by (destruct sep; [congruence|simpl; lia]).
  lia.
Qed.

Lemma split_scan_absent (fuel : nat) (sep s acc : jstring) :
  JS.find sep s = None -> (length s < fuel)%nat ->
  JS.split_scan fuel sep s acc = [acc ++ s].
Proof.
  revert s acc; induction fuel as [|f IH]; intros s acc F L; [lia|].
  simpl. simpl in F.
  destruct s as [|c s].
  - simpl in F. destruct (JS.prefixb sep []); [discriminate|].
    rewrite app_nil_r. reflexivity.
  - simpl in F. destruct (JS.prefixb sep (c :: s)); [discriminate|].
    destruct (JS.find sep s) eqn:F'; [discriminate|].
    rewrite IH by (auto; simpl in L; lia).
    rewrite <- app_assoc. reflexivity.
Qed.

(** [split] of a text the separator does not occur in. *)
Lemma split_absent (sep s : jstring) :
  sep <> [] -> JS.find sep s = None -> JS.split s sep = [s].
Proof.
  intros Hsep F.
  rewrite (split_unfold _ _ (S (length s))) by (auto; lia).
  apply split_scan_absent; auto.
Qed.

(** A one-character separator. *)
Lemma find_char_absent (c : ascii) (s : jstring) :
  ~ In c s -> JS.find [c] s = None.
Proof.
  induction s as [|x s IH]; intros N; simpl; [reflexivity|].
  destruct (Ascii.eqb c x) eqn:E.
  - apply Ascii.eqb_eq in E. subst. exfalso. apply N. left. reflexivity.
  - simpl. rewrite IH; [reflexivity|]. intros H. apply N. right. exact H.
Qed.

Lemma find_char_first (c : ascii) (a b : jstring) :
  ~ In c a -> JS.find [c] (a ++ [c] ++ b) = Some (length a).
Proof.
  induction a as [|x a IH]; intros N; simpl.
  - rewrite Ascii.eqb_refl. reflexivity.
  - destruct (Ascii.eqb c x) eqn:E.
    + apply Ascii.eqb_eq in E. subst. exfalso. apply N. left. reflexivity.
    + simpl. simpl in IH. rewrite IH; [reflexivity|].
      intros H. apply N. right. exact H.
Qed.

Lemma split_char_first (c : ascii) (a b : jstring) :
  ~ In c a -> JS.split (a ++ c :: b) [c] = a :: JS.split b [c].
Proof.
  intros N. apply (split_first [c] a b); [discriminate|].
  apply find_char_first. exact N.
Qed.

Lemma split_char_absent (c : ascii) (s : jstring) :
  ~ In c s -> JS.split s [c] = [s].
Proof.
  intros N. apply split_absent; [discriminate|].
  apply find_char_absent. exact N.
Qed.

(** Splitting the joined lines at the newline gives the lines back when no
    line holds a newline. *)
Lemma split_join_nl (ls : list jstring) :
  ls <> [] -> Forall (fun l => ~ In "010"%char l) ls ->
  JS.split (JS.join nl ls) nl = ls.
Proof.
  induction ls as [|l ls IH]; intros Hne HF; [congruence|].
  inversion HF as [|? ? Hl HF']; subst.
  destruct ls as [|l' ls'].
  - cbn [JS.join]. apply (split_char_absent "010"%char l). exact Hl.
  - change (JS.join nl (l :: l' :: ls'))
      with (l ++ "010"%char :: JS.join nl (l' :: ls')).
    unfold nl at 2. rewrite split_char_first by exact Hl.
    f_equal. apply IH; [discriminate|exact HF'].
Qed.

(** A text that ends in another character than [t] does is not [t]. *)
Ltac neq_last :=
  apply eqb_neq; let H := fresh in
  intros H; apply (f_equal (@rev ascii)) in H;
  rewrite rev_app_distr in H; simpl in H; discriminate.

(** C10: in normal mode with the cursor on the last line, [J] changes
    neither the lines, the cursor, the registers, the mode, the message,
    the selection nor the last search, and the event is consumed.  The
    hypothesis on the command buffer says that [J] is read as the join
    command and not as the argument of a pending [r], [f] or [F]. *)
Theorem join_on_last_line (e : VimEngine) (ev : KeyboardEvent) :
  mode (state e) = normal ->
  key ev = "J" ->
  line (cursor (state e)) = alen (lines (state e)) - 1 ->
  commandBuffer (state e) <> "r" ->
  commandBuffer (state e) <> "f" ->
  commandBuffer (state e) <> "F" ->
  exists e',
    handleKeyDown e ev = Some (e', true)
    /\ lines (state e') = lines (state e)
    /\ cursor (state e') = cursor (state e)
    /\ registers (state e') = registers (state e)
    /\ mode (state e') = mode (state e)
    /\ message (state e') = message (state e)
    /\ selection (state e') = selection (state e)
    /\ lastSearch (state e') = lastSearch (state e).
Proof.
  intros Hm Hk Hl Nr Nf NF.
  unfold handleKeyDown. rewrite Hm, Hk.
  unfold handleNormalMode. cbv zeta. sproj.
  replace (is_key_1_9 "J") with false by reflexivity.
  replace (is_key_0_9 "J") with false by reflexivity.
  rewrite andb_false_r. cbn [orb].
  repeat match goal with
    |- context [JS.eqb (commandBuffer (state e) ++ ?k) ?t] =>
      replace (JS.eqb (commandBuffer (state e) ++ k) t) with false
        by (symmetry; neq_last) end.
  cbn [orb].
  replace (existsb (JS.eqb "J")
             (case_ ["d"; "c"; "y"; "g"; "f"; "F"; "t"; "T"; "r"]))
    with false by reflexivity.
  cbn [andb].
  replace (JS.eqb (commandBuffer (state e)) "r") with false
    by (symmetry; apply eqb_neq; exact Nr).
  replace (JS.eqb (commandBuffer (state e)) "f") with false
    by (symmetry; apply eqb_neq; exact Nf).
  replace (JS.eqb (commandBuffer (state e)) "F") with false
    by (symmetry; apply eqb_neq; exact NF).
  cbn [andb].
  change (normalSwitch (countOf (countBuffer e))
            (set_commandBuffer [] (state e)) "J")
    with (break_ (joinLines (set_commandBuffer [] (state e)))).
  unfold joinLines. sproj. rewrite Hl.
  replace (alen (lines (state e)) - 1 <? alen (lines (state e)) - 1)
    with false by lia.
  eexists. split; [reflexivity|]. sproj.
  repeat split; first [reflexivity | exact Hm].
Qed.

Lemma join_on_last_line_witness :
  mode (state (engineAt ["a"; "b"] (mkCursor 1 0))) = normal
  /\ key (press "J") = "J"
  /\ line (cursor (state (engineAt ["a"; "b"] (mkCursor 1 0))))
     = alen (lines (state (engineAt ["a"; "b"] (mkCursor 1 0)))) - 1
  /\ commandBuffer (state (engineAt ["a"; "b"] (mkCursor 1 0))) <> "r"
  /\ commandBuffer (state (engineAt ["a"; "b"] (mkCursor 1 0))) <> "f"
  /\ commandBuffer (state (engineAt ["a"; "b"] (mkCursor 1 0))) <> "F"
  /\ exists e',
       handleKeyDown (engineAt ["a"; "b"] (mkCursor 1 0)) (press "J")
       = Some (e', true)
       /\ lines (state e') = lines (state (engineAt ["a"; "b"] (mkCursor 1 0)))
       /\ cursor (state e')
          = cursor (state (engineAt ["a"; "b"] (mkCursor 1 0)))
       /\ registers (state e')
          = registers (state (engineAt ["a"; "b"] (mkCursor 1 0)))
       /\ mode (state e') = mode (state (engineAt ["a"; "b"] (mkCursor 1 0)))
       /\ message (state e')
          = message (state (engineAt ["a"; "b"] (mkCursor 1 0)))
       /\ selection (state e')
          = selection (state (engineAt ["a"; "b"] (mkCursor 1 0)))
       /\ lastSearch (state e')
          = lastSearch (state (engineAt ["a"; "b"] (mkCursor 1 0))).
Proof.
  assert (Hr : commandBuffer (state (engineAt ["a"; "b"] (mkCursor 1 0)))
               <> "r") by discriminate.
  assert (Hf : commandBuffer (state (engineAt ["a"; "b"] (mkCursor 1 0)))
               <> "f") by discriminate.
  assert (HF : commandBuffer (state (engineAt ["a"; "b"] (mkCursor 1 0)))
               <> "F") by discriminate.
  repeat (split; [first [reflexivity | assumption]|]).
  exact (join_on_last_line (engineAt ["a"; "b"] (mkCursor 1 0)) (press "J")
           eq_refl eq_refl eq_refl Hr Hf HF).
Defined.

(** C8: [Enter] on a malformed command line (a substitution whose third
    segment is missing, or a text that is no command at all) changes
    neither the lines, the cursor, the registers nor the message; the
    engine is back in normal mode with an empty command buffer, and the
    event is consumed. *)
Theorem malformed_command_ignored (e : VimEngine) (ev : KeyboardEvent)
  (cmd : jstring) :
  mode (state e) = command ->
  key ev = "Enter" ->
  commandBuffer (state e) = ":" ++ cmd ->
  malformed cmd ->
  exists e',
    handleKeyDown e ev = Some (e', true)
    /\ lines (state e') = lines (state e)
    /\ cursor (state e') = cursor (state e)
    /\ registers (state e') = registers (state e)
    /\ message (state e') = message (state e)
    /\ selection (state e') = selection (state e)
    /\ lastSearch (state e') = lastSearch (state e)
    /\ mode (state e') = normal
    /\ commandBuffer (state e') = [].
Proof.
  intros Hm Hk Hc Hbad.
  assert (E : executeCommand (state e)
              = Some (set_commandBuffer [] (set_mode normal (state e)))).
  { unfold executeCommand. cbv zeta. rewrite Hc.
    change (JS.startsWith (":" ++ cmd) "/") with false.
    change (JS.startsWith (":" ++ cmd) ":") with true. cbv iota.
    change (":" ++ cmd) with (":"%char :: cmd). rewrite sliceFrom_1.
    destruct Hbad as [(search & -> & Hs)|(H1 & H2 & H3)].
    - change (JS.eqb ("s/" ++ search) "w") with false.
      change (JS.eqb ("s/" ++ search) "write") with false.
      change (JS.eqb ("s/" ++ search) "q") with false.
      change (JS.eqb ("s/" ++ search) "quit") with false.
      change (JS.eqb ("s/" ++ search) "wq") with false.
      change (JS.eqb ("s/" ++ search) "x") with false.
      change (JS.test_digits ("s/" ++ search)) with false.
      change (JS.startsWith ("s/" ++ search) "s/") with true.
      cbn [orb]. cbv iota. unfold executeSubstitution. cbv zeta.
      change ("s/" ++ search) with ("s" ++ "/"%char :: search).
      change (String.list_ascii_of_string "/") with ["/"%char].
      rewrite split_char_first
        by (simpl; intros [H|[]]; discriminate).
      rewrite split_char_absent by exact Hs.
      reflexivity.
    - repeat match goal with
        |- context [JS.eqb cmd ?t] =>
          replace (JS.eqb cmd t) with false
            by (symmetry; apply eqb_neq; intros ->; apply H1;
                simpl; tauto) end.
      rewrite H2, H3. reflexivity. }
  unfold handleKeyDown. rewrite Hm, Hk.
  change (handleCommandMode (state e) "Enter")
    with (s <- executeCommand (state e) ;; ret (s, true)).
  rewrite E. eexists. split; [reflexivity|]. sproj.
  repeat split; reflexivity.
Qed.

Lemma malformed_command_ignored_witness :
  mode (state (mkEngine
                 (set_commandBuffer ":s/foo"
                    (set_mode command
                       (state (engineAt ["foo foo"] (mkCursor 0 0)))))
                 [] false)) = command
  /\ key (press "Enter") = "Enter"
  /\ commandBuffer
       (state (mkEngine
                 (set_commandBuffer ":s/foo"
                    (set_mode command
                       (state (engineAt ["foo foo"] (mkCursor 0 0)))))
                 [] false)) = ":" ++ "s/foo"
  /\ malformed "s/foo"
  /\ exists e',
       handleKeyDown
         (mkEngine
            (set_commandBuffer ":s/foo"
               (set_mode command
                  (state (engineAt ["foo foo"] (mkCursor 0 0)))))
            [] false) (press "Enter") = Some (e', true)
       /\ lines (state e') = ["foo foo" : jstring]
       /\ cursor (state e') = mkCursor 0 0
       /\ registers (state e') = [(unnamed, Some [])]
       /\ message (state e') = []
       /\ selection (state e') = None
       /\ lastSearch (state e') = []
       /\ mode (state e') = normal
       /\ commandBuffer (state e') = [].
Proof.
  assert (Hbad : malformed "s/foo").
  { left. exists "foo". split; [reflexivity|].
    simpl. intros [H|[H|[H|[]]]]; discriminate. }
  repeat (split; [first [reflexivity | exact Hbad]|]).
  exact (malformed_command_ignored
           (mkEngine
              (set_commandBuffer ":s/foo"
                 (set_mode command
                    (state (engineAt ["foo foo"] (mkCursor 0 0)))))
              [] false) (press "Enter") "s/foo"
           eq_refl eq_refl eq_refl Hbad).
Defined.

Lemma occurs_at_char (c : ascii) (s : jstring) (k : nat) :
  occurs_at [c] s k <-> nth_error s k = Some c.
Proof.
  split.
  - intros (a & b & -> & <-).
    rewrite nth_error_app2, Nat.sub_diag by lia. reflexivity.
  - intros H. apply nth_error_split in H. destruct H as (a & b & -> & <-).
    exists a, b. split; reflexivity.
Qed.

Lemma charAt_occurs (c : ascii) (s : jstring) (j : Z) :
  0 <= j -> (JS.charAt s j = Some c <-> occurs_at [c] s (Z.to_nat j)).
Proof.
  intros H. unfold JS.charAt. replace (j <? 0) with false by lia.
  symmetry. apply occurs_at_char.
Qed.

Lemma set_col_same (s : EditorState) : set_col (col (cursor s)) s = s.
Proof. destruct s as [? [? ?] ? ? ? ? ? ?]. reflexivity. Qed.

(** C2, as stated, fails: with [f] pending, the key [3] is taken by the
    count rule.  On the line "a3b" the keys [f] and [3] leave the cursor at
    column 0 although a 3 stands at column 1; the command buffer and the
    count buffer both hold "3" afterwards. *)
Lemma f_then_digit_is_a_count :
  exists e1 e2,
    handleKeyDown (engineAt ["a3b"] (mkCursor 0 0)) (press "f")
    = Some (e1, true)
    /\ commandBuffer (state e1) = "f"
    /\ handleKeyDown e1 (press "3") = Some (e2, true)
    /\ cursor (state e2) = mkCursor 0 0
    /\ commandBuffer (state e2) = "3"
    /\ countBuffer e2 = "3"
    /\ JS.charAt "a3b" 1 = Some "3"%char.
Proof.
  eexists. eexists. split; [vm_compute; reflexivity|].
  split; [reflexivity|]. split; [vm_compute; reflexivity|].
  repeat split; reflexivity.
Qed.

(** C2 (amended): in normal mode the count rule runs first, whatever the
    command buffer holds: a key [1]-[9] (and [0] while a count is pending)
    is appended to the count, which replaces the command buffer, and
    nothing else changes.  Every other one-character key that follows a
    pending [f], [F] or [r] is consumed as its argument: [f] moves to the
    first occurrence after the cursor on the line, [F] to the last
    occurrence at or before the column left of the cursor, [r] replaces the
    character under the cursor; the command buffer is cleared. *)
Theorem prefix_argument_after_count_rule (e : VimEngine)
  (ev : KeyboardEvent) (c : ascii) :
  WF (state e) -> mode (state e) = normal -> key ev = [c] ->
  let s := state e in
  let ln := getCurrentLine s in
  let cl := col (cursor s) in
  (is_key_1_9 [c] || nonempty (countBuffer e) && is_key_0_9 [c] = true ->
   handleKeyDown e ev
   = Some (mkEngine (set_commandBuffer (countBuffer e ++ [c]) s)
                    (countBuffer e ++ [c]) false, true))
  /\ (is_key_1_9 [c] || nonempty (countBuffer e) && is_key_0_9 [c] = false ->
      (commandBuffer s = "f" ->
       exists c',
         handleKeyDown e ev
         = Some (mkEngine (set_commandBuffer [] (set_col c' s)) [] false,
                 true)
         /\ ((c' = cl /\ forall j, cl < j -> JS.charAt ln j <> Some c)
             \/ (cl < c' /\ JS.charAt ln c' = Some c
                 /\ forall j, cl < j < c' -> JS.charAt ln j <> Some c)))
      /\ (commandBuffer s = "F" ->
          let limit := Z.max 0 (Z.min (cl - 1) (JS.len ln)) in
          exists c',
            handleKeyDown e ev
            = Some (mkEngine (set_commandBuffer [] (set_col c' s)) [] false,
                    true)
            /\ ((c' = cl
                 /\ forall j, 0 <= j <= limit -> JS.charAt ln j <> Some c)
                \/ (0 <= c' <= limit /\ JS.charAt ln c' = Some c
                    /\ forall j, c' < j <= limit ->
                                 JS.charAt ln j <> Some c)))
      /\ (commandBuffer s = "r" ->
          handleKeyDown e ev
          = Some (mkEngine
                    (set_commandBuffer []
                       (set_lines
                          (JS.aset (lines s) (Z.to_nat (line (cursor s)))
                             (JS.substring ln 0 cl ++ [c]
                                ++ JS.substringFrom ln (cl + 1))) s))
                    [] false, true))).
Proof.
  intros W Hm Hk s ln cl. destruct W as [(I1 & I2 & I3) _].
  fold s in I1, I2, I3, Hm.
  unfold handleKeyDown. fold s. rewrite Hm, Hk.
  unfold handleNormalMode. cbv zeta. sproj. fold s. split.
  { intros ->. reflexivity. }
  intros ->. split; [|split]; intros Hcb; rewrite Hcb.
  - change (JS.eqb ("f" ++ [c]) "dd") with false.
    change (JS.eqb ("f" ++ [c]) "yy") with false.
    change (JS.eqb ("f" ++ [c]) "cc") with false.
    change (JS.eqb ("f" ++ [c]) "gg") with false.
    change (JS.eqb ("f" ++ [c]) "dw") with false.
    change (JS.eqb ("f" ++ [c]) "cw") with false.
    change (JS.eqb ("f" ++ [c]) ("di" ++ unnamed)) with false.
    change (JS.eqb ("f" ++ [c]) "di'") with false.
    change (JS.eqb ("f" ++ [c]) ("ci" ++ unnamed)) with false.
    change (JS.eqb ("f" ++ [c]) "ci'") with false.
    change (JS.eqb ("f" ++ [c]) [c]) with (Ascii.eqb "f" c && false).
    rewrite !andb_false_r.
    change (JS.eqb "f" "r" && (JS.len [c] =? 1)) with false.
    change (JS.eqb "f" "f" && (JS.len [c] =? 1)) with true.
    cbn [orb]. cbv iota. fold ln. fold cl.
    destruct (indexOf_spec ln [c] (cl + 1)) as [[Hi Hn]|(H0 & H1 & H2 & H3)].
    + rewrite Hi. cbn [negb Z.eqb]. exists cl. split.
      * subst cl. rewrite set_col_same. reflexivity.
      * left. split; [reflexivity|]. intros j Hj Hc.
        apply charAt_occurs in Hc; [|lia].
        pose proof (occurs_at_length _ _ _ Hc) as L. simpl in L.
        apply (Hn (Z.to_nat j)); auto.
        unfold JS.clamp, JS.len. lia.
    + set (idx := JS.indexOf ln [c] (cl + 1)) in *.
      pose proof (len_nonneg ln).
      assert (Hlt : cl < idx) by (unfold JS.clamp, JS.len in *;
        pose proof (occurs_at_length _ _ _ H2) as L; simpl in L; lia).
      replace (negb (idx =? -1)) with true
        by (symmetry; apply negb_true_iff; lia).
      exists idx. split; [reflexivity|]. right.
      split; [exact Hlt|]. split.
      * apply charAt_occurs; [lia|exact H2].
      * intros j Hj Hc. apply charAt_occurs in Hc; [|lia].
        pose proof (occurs_at_length _ _ _ Hc) as L. simpl in L.
        apply H3 in Hc; unfold JS.clamp, JS.len in *; lia.
  - change (JS.eqb ("F" ++ [c]) "dd") with false.
    change (JS.eqb ("F" ++ [c]) "yy") with false.
    change (JS.eqb ("F" ++ [c]) "cc") with false.
    change (JS.eqb ("F" ++ [c]) "gg") with false.
    change (JS.eqb ("F" ++ [c]) "dw") with false.
    change (JS.eqb ("F" ++ [c]) "cw") with false.
    change (JS.eqb ("F" ++ [c]) ("di" ++ unnamed)) with false.
    change (JS.eqb ("F" ++ [c]) "di'") with false.
    change (JS.eqb ("F" ++ [c]) ("ci" ++ unnamed)) with false.
    change (JS.eqb ("F" ++ [c]) "ci'") with false.
    change (JS.eqb ("F" ++ [c]) [c]) with (Ascii.eqb "F" c && false).
    rewrite !andb_false_r.
    change (JS.eqb "F" "r" && (JS.len [c] =? 1)) with false.
    change (JS.eqb "F" "f" && (JS.len [c] =? 1)) with false.
    change (JS.eqb "F" "F" && (JS.len [c] =? 1)) with true.
    cbn [orb]. cbv iota. fold ln. fold cl.
    set (limit := Z.max 0 (Z.min (cl - 1) (JS.len ln))).
    pose proof (len_nonneg ln).
    assert (Hlim : JS.clamp 0 (JS.len ln) (cl - 1) = limit)
      by (unfold JS.clamp; subst limit; lia).
    destruct (lastIndexOf_spec ln [c] (cl - 1))
      as [[Hi Hn]|(H0 & H1 & H2 & H3)]; rewrite Hlim in *.
    + rewrite Hi. cbn [negb Z.eqb]. exists cl. split.
      * subst cl. rewrite set_col_same. reflexivity.
      * left. split; [reflexivity|]. intros j Hj Hc.
        apply charAt_occurs in Hc; [|lia].
        apply (Hn (Z.to_nat j)); auto. lia.
    + set (idx := JS.lastIndexOf ln [c] (cl - 1)) in *.
      replace (negb (idx =? -1)) with true
        by (symmetry; apply negb_true_iff; lia).
      exists idx. split; [reflexivity|]. right.
      split; [lia|]. split.
      * apply charAt_occurs; [lia|exact H1].
      * intros j Hj Hc. apply charAt_occurs in Hc; [|lia].
        apply H3 in Hc; lia.
  - change (JS.eqb ("r" ++ [c]) "dd") with false.
    change (JS.eqb ("r" ++ [c]) "yy") with false.
    change (JS.eqb ("r" ++ [c]) "cc") with false.
    change (JS.eqb ("r" ++ [c]) "gg") with false.
    change (JS.eqb ("r" ++ [c]) "dw") with false.
    change (JS.eqb ("r" ++ [c]) "cw") with false.
    change (JS.eqb ("r" ++ [c]) ("di" ++ unnamed)) with false.
    change (JS.eqb ("r" ++ [c]) "di'") with false.
    change (JS.eqb ("r" ++ [c]) ("ci" ++ unnamed)) with false.
    change (JS.eqb ("r" ++ [c]) "ci'") with false.
    change (JS.eqb ("r" ++ [c]) [c]) with (Ascii.eqb "r" c && false).
    rewrite !andb_false_r.
    change (JS.eqb "r" "r" && (JS.len [c] =? 1)) with true.
    cbn [orb]. cbv iota. fold ln. fold cl.
    rewrite setCurrentLine_Some by exact I2. reflexivity.
Qed.

Lemma prefix_argument_after_count_rule_witness :
  WF (state (pendingEngine "f" ["a3b"] (mkCursor 0 0)))
  /\ mode (state (pendingEngine "f" ["a3b"] (mkCursor 0 0))) = normal
  /\ key (press "b") = ["b"%char]
  /\ (let e := pendingEngine "f" ["a3b"] (mkCursor 0 0) in
      let ev := press "b" in
      let c := "b"%char in
      let s := state e in
      let ln := getCurrentLine s in
      let cl := col (cursor s) in
      (is_key_1_9 [c] || nonempty (countBuffer e) && is_key_0_9 [c] = true ->
       handleKeyDown e ev
       = Some (mkEngine (set_commandBuffer (countBuffer e ++ [c]) s)
                        (countBuffer e ++ [c]) false, true))
      /\ (is_key_1_9 [c] || nonempty (countBuffer e) && is_key_0_9 [c]
          = false ->
          (commandBuffer s = "f" ->
           exists c',
             handleKeyDown e ev
             = Some (mkEngine (set_commandBuffer [] (set_col c' s)) []
                       false, true)
             /\ ((c' = cl /\ forall j, cl < j -> JS.charAt ln j <> Some c)
                 \/ (cl < c' /\ JS.charAt ln c' = Some c
                     /\ forall j, cl < j < c' -> JS.charAt ln j <> Some c)))
          /\ (commandBuffer s = "F" ->
              let limit := Z.max 0 (Z.min (cl - 1) (JS.len ln)) in
              exists c',
                handleKeyDown e ev
                = Some (mkEngine (set_commandBuffer [] (set_col c' s)) []
                          false, true)
                /\ ((c' = cl
                     /\ forall j, 0 <= j <= limit ->
                                  JS.charAt ln j <> Some c)
                    \/ (0 <= c' <= limit /\ JS.charAt ln c' = Some c
                        /\ forall j, c' < j <= limit ->
                                     JS.charAt ln j <> Some c)))
          /\ (commandBuffer s = "r" ->
              handleKeyDown e ev
              = Some (mkEngine
                        (set_commandBuffer []
                           (set_lines
                              (JS.aset (lines s)
                                 (Z.to_nat (line (cursor s)))
                                 (JS.substring ln 0 cl ++ [c]
                                    ++ JS.substringFrom ln (cl + 1))) s))
                        [] false, true)))).
Proof.
  assert (W : WF (state (pendingEngine "f" ["a3b"] (mkCursor 0 0)))).
  { unfold WF, Inv, SelOK, in_buffer, alen; cbn.
    repeat split; try lia; discriminate. }
  split; [exact W|]. split; [reflexivity|]. split; [reflexivity|].
  exact (prefix_argument_after_count_rule
           (pendingEngine "f" ["a3b"] (mkCursor 0 0)) (press "b") "b"%char
           W eq_refl eq_refl).
Defined.

(** C3: with the pattern "a" on the lines "a", "b", "a", [n] from line 2
    wraps to line 0 as the specification says; but [N] from line 0,
    column 0 does not reach line 2: the column left of the cursor is -1,
    which [lastIndexOf] reads as 0, so the match under the cursor is found
    again and the cursor stays.  The loops also visit each line once, so
    the part of the starting line on the other side of the cursor is never
    searched: on the one line "a a" with the cursor on the second "a", [n]
    does not wrap to the first. *)
Theorem searchPrev_stays_at_column_zero :
  (exists e',
     handleKeyDown (searchEngine "a" ["a"; "b"; "a"] (mkCursor 2 0))
       (press "n") = Some (e', true)
     /\ cursor (state e') = mkCursor 0 0)
  /\ (exists e',
        handleKeyDown (searchEngine "a" ["a"; "b"; "a"] (mkCursor 0 0))
          (press "N") = Some (e', true)
        /\ cursor (state e') = mkCursor 0 0)
  /\ JS.aget (lines (state (searchEngine "a" ["a"; "b"; "a"]
                              (mkCursor 0 0)))) 2
     = Some ("a" : jstring)
  /\ (exists e',
        handleKeyDown (searchEngine "a" ["a a"] (mkCursor 0 2))
          (press "n") = Some (e', true)
        /\ cursor (state e') = mkCursor 0 2).
Proof.
  split; [|split; [|split]].
  - eexists. split; [vm_compute; reflexivity|reflexivity].
  - eexists. split; [vm_compute; reflexivity|reflexivity].
  - reflexivity.
  - eexists. split; [vm_compute; reflexivity|reflexivity].
Qed.

(** ** Key sequences on an idle engine *)

Lemma idle_x (e : VimEngine) :
  idle e ->
  handleKeyDown e (press "x")
  = (s' <- deleteChar (state e) ;; ret (mkEngine s' [] false, true)).
Proof.
  destruct e as [[ls cur m sel cb regs lsr msg] cnt tmo].
  unfold idle. cbn [state mode commandBuffer countBuffer].
  intros (-> & -> & ->).
  lazy -[deleteChar].
  destruct (deleteChar _); reflexivity.
Qed.

Lemma idle_paste (e : VimEngine) (k : String.string)
  (position : PastePosition) :
  idle e ->
  (k = "p" /\ position = after) \/ (k = "P" /\ position = before) ->
  handleKeyDown e (press k)
  = (s' <- paste position (state e) ;; ret (mkEngine s' [] false, true)).
Proof.
  destruct e as [[ls cur m sel cb regs lsr msg] cnt tmo].
  unfold idle. cbn [state mode commandBuffer countBuffer].
  intros (-> & -> & ->) [[-> ->]|[-> ->]].
  - lazy -[paste]. destruct (paste _ _); reflexivity.
  - lazy -[paste]. destruct (paste _ _); reflexivity.
Qed.

Lemma idle_dd (e : VimEngine) :
  idle e ->
  handleKeys e ["d"; "d"]
  = Some (mkEngine
            (set_commandBuffer []
               (deleteLine 1 (set_commandBuffer "d" (state e)))) [] false).
Proof.
  destruct e as [[ls cur m sel cb regs lsr msg] cnt tmo].
  unfold idle. cbn [state mode commandBuffer countBuffer].
  intros (-> & -> & ->).
  lazy -[deleteLine]. reflexivity.
Qed.

Lemma idle_yy (e : VimEngine) :
  idle e ->
  handleKeys e ["y"; "y"]
  = Some (mkEngine
            (set_commandBuffer []
               (yankLine 1 (set_commandBuffer "y" (state e)))) [] false).
Proof.
  destruct e as [[ls cur m sel cb regs lsr msg] cnt tmo].
  unfold idle. cbn [state mode commandBuffer countBuffer].
  intros (-> & -> & ->).
  lazy -[yankLine]. reflexivity.
Qed.

Lemma handleKeys_app (e : VimEngine) (ks1 ks2 : list String.string) :
  handleKeys e (ks1 ++ ks2)
  = (e1 <- handleKeys e ks1 ;; handleKeys e1 ks2).
Proof.
  revert e; induction ks1 as [|k ks1 IH]; intros e; simpl; [reflexivity|].
  destruct (handleKeyDown e (press k)) as [[e1 b]|]; simpl; auto.
Qed.

Lemma reg_get_set (r : list (jstring * option jstring)) (name : jstring)
  (v : option jstring) :
  reg_get (reg_set r name v) name = v.
Proof.
  induction r as [|[k w] r IH]; simpl.
  - rewrite eqb_refl. reflexivity.
  - destruct (JS.eqb k name) eqn:E; simpl; rewrite E; auto.
Qed.

Lemma unnamedReg_set_register (v : option jstring) (s : EditorState) :
  unnamedReg (set_register v s) = v.
Proof. unfold unnamedReg, set_register. sproj. apply reg_get_set. Qed.

Lemma endsWith_app (l p : jstring) : JS.endsWith (l ++ p) p = true.
Proof.
  unfold JS.endsWith. rewrite length_app.
  replace (length l + length p - length p)%nat with (length l) by lia.
  rewrite skipn_app, skipn_all, Nat.sub_diag. simpl.
  rewrite eqb_refl, andb_true_r. apply Nat.leb_le. lia.
Qed.

Lemma slice_drop_last (l : jstring) (c : ascii) :
  JS.slice (l ++ [c]) 0 (-1) = l.
Proof.
  unfold JS.slice. rewrite len_app. change (JS.len [c]) with 1.
  pose proof (len_nonneg l).
  replace (0 <? 0) with false by lia. replace (-1 <? 0) with true by lia.
  replace (Z.min 0 (JS.len l + 1)) with 0 by lia. simpl skipn.
  replace (Z.to_nat (Z.max (Z.max (JS.len l + 1 + -1) 0 - 0) 0))
    with (length l) by (unfold JS.len in *; lia).
  rewrite firstn_app, firstn_all, Nat.sub_diag. simpl. apply app_nil_r.
Qed.

Lemma firstn_alen_app {A} (a b : list A) :
  firstn (Z.to_nat (alen a)) (a ++ b) = a.
Proof.
  unfold alen. rewrite Nat2Z.id, firstn_app, firstn_all, Nat.sub_diag.
  simpl. apply app_nil_r.
Qed.

Lemma skipn_alen_app {A} (a b : list A) :
  skipn (Z.to_nat (alen a)) (a ++ b) = b.
Proof.
  unfold alen. rewrite Nat2Z.id, skipn_app, skipn_all, Nat.sub_diag.
  reflexivity.
Qed.

Lemma splice_app {A} (pre mid post items : list A) :
  JS.splice (pre ++ mid ++ post) (alen pre) (alen mid) items
  = (pre ++ items ++ post, mid).
Proof.
  pose proof (alen_nonneg pre). pose proof (alen_nonneg mid).
  pose proof (alen_nonneg post).
  unfold JS.splice, JS.relIndex, JS.clamp.
  fold (alen (pre ++ mid ++ post)). rewrite !alen_app.
  replace (alen pre <? 0) with false by lia.
  replace (Z.min (alen pre) (alen pre + (alen mid + alen post)))
    with (alen pre) by lia.
  replace (Z.max 0 (Z.min (alen mid)
             (alen pre + (alen mid + alen post) - alen pre)))
    with (alen mid) by lia.
  rewrite firstn_alen_app, skipn_alen_app, firstn_alen_app.
  replace (alen pre + alen mid) with (alen (pre ++ mid))
    by (rewrite alen_app; reflexivity).
  rewrite (app_assoc pre mid post), skipn_alen_app. reflexivity.
Qed.

(** [dd] with no count on the line after [pre]. *)
Lemma deleteLine_one (s : EditorState) (pre : list jstring) (l : jstring)
  (post : list jstring) :
  lines s = pre ++ l :: post -> line (cursor s) = alen pre ->
  let s' := deleteLine 1 s in
  lines s' = match pre ++ post with [] => [[]] | r => r end
  /\ unnamedReg s' = Some (l ++ nl)
  /\ line (cursor s')
     = Z.min (alen pre) (alen (lines s') - 1).
Proof.
  intros Hl Hc. unfold deleteLine. rewrite Hl, Hc.
  pose proof (alen_nonneg pre). pose proof (alen_nonneg post).
  replace (Z.min (alen pre + 1) (alen (pre ++ l :: post)) - alen pre)
    with (alen [l]).
  2: { rewrite alen_app. unfold alen. simpl length. lia. }
  change (pre ++ l :: post) with (pre ++ [l] ++ post).
  rewrite splice_app. cbn [app]. sproj.
  set (x := if alen (pre ++ post) =? 0 then _ else _).
  assert (X : lines x = match pre ++ post with [] => [[]] | r => r end
              /\ registers x
                 = reg_set (registers s) unnamed (Some (l ++ nl))
              /\ line (cursor x) = alen pre).
  { subst x. destruct (pre ++ post) eqn:E; simpl; sproj; auto. }
  destruct X as (X1 & X2 & X3).
  assert (Hne : lines x <> []).
  { rewrite X1. destruct (pre ++ post); discriminate. }
  pose proof (alen_pos _ Hne).
  split; [exact X1|]. split.
  - unfold unnamedReg. sproj. rewrite X2. apply reg_get_set.
  - unfold clampCursor. sproj. rewrite X3. lia.
Qed.

(** Pasting a register that holds one whole line. *)
Lemma paste_line (position : PastePosition) (s : EditorState)
  (l : jstring) :
  unnamedReg s = Some (l ++ nl) -> ~ In "010"%char l ->
  in_buffer s (cursor s) ->
  let il := match position with
            | after => line (cursor s) + 1
            | before => line (cursor s)
            end in
  paste position s
  = Some (set_col 0
            (set_line il
               (set_lines (firstn (Z.to_nat il) (lines s) ++ [l]
                             ++ skipn (Z.to_nat il) (lines s)) s))).
Proof.
  intros Hr Hl Hb il. unfold paste. fold (unnamedReg s). rewrite Hr.
  destruct (l ++ nl) as [|c t] eqn:E; [destruct l; discriminate|].
  rewrite <- E. rewrite endsWith_app. unfold nl at 1.
  rewrite slice_drop_last. unfold nl. rewrite split_char_absent by exact Hl.
  fold il. unfold in_buffer in Hb.
  rewrite splice_fst by (subst il; destruct position; lia).
  replace (Z.to_nat (il + Z.min 0 (alen (lines s) - il)))
    with (Z.to_nat il) by (subst il; destruct position; lia).
  reflexivity.
Qed.

(** [yy] with no count on the line after [pre]. *)
Lemma yankLine_one (s : EditorState) (pre : list jstring) (l : jstring)
  (post : list jstring) :
  lines s = pre ++ l :: post -> line (cursor s) = alen pre ->
  let s' := yankLine 1 s in
  lines s' = lines s /\ cursor s' = cursor s
  /\ unnamedReg s' = Some (l ++ nl).
Proof.
  intros Hl Hc. unfold yankLine. sproj. split; [reflexivity|].
  split; [reflexivity|]. unfold unnamedReg. sproj.
  rewrite reg_get_set. rewrite Hl, Hc.
  pose proof (alen_nonneg pre). pose proof (alen_nonneg post).
  replace (JS.aslice (pre ++ l :: post) (alen pre)
             (Z.min (alen pre + 1) (alen (pre ++ l :: post))))
    with [l]; [reflexivity|].
  unfold JS.aslice, JS.relIndex. fold (alen (pre ++ l :: post)).
  rewrite alen_app. change (alen (l :: post)) with (alen ([l] ++ post)).
  rewrite alen_app. change (alen [l]) with 1.
  replace (alen pre <? 0) with false by lia.
  replace (Z.min (alen pre + 1) (alen pre + (1 + alen post)) <? 0)
    with false by lia.
  replace (Z.min (alen pre) (alen pre + (1 + alen post)))
    with (alen pre) by lia.
  rewrite skipn_alen_app.
  replace (Z.to_nat _) with 1%nat by lia. reflexivity.
Qed.

Lemma mode_deleteLine (count : Z) (s : EditorState) :
  mode (deleteLine count s) = mode s.
Proof.
  unfold deleteLine. destruct (JS.splice _ _ _ _) as [rest del]. sproj.
  destruct (alen rest =? 0); reflexivity.
Qed.

(** C5, as stated, fails: on the lines "a", "b" with the cursor on the
    first line, [dd] then [p] gives "b", "a": [p] pastes below the line
    the cursor has moved to. *)
Lemma dd_p_swaps_lines :
  exists e',
    handleKeys (engineAt ["a"; "b"] (mkCursor 0 0)) ["d"; "d"; "p"]
    = Some e'
    /\ lines (state e') = ["b" : jstring; "a" : jstring]
    /\ lines (state e') <> lines (state (engineAt ["a"; "b"] (mkCursor 0 0))).
Proof.
  eexists. split; [vm_compute; reflexivity|].
  split; [reflexivity|]. discriminate.
Qed.

(** C5 (amended): for a line [l] without a newline character, on an idle
    engine, [dd] then [p] gives the original lines back when [l] is the last
    line of a buffer of two or more lines; when another line follows, the
    two are exchanged, and on a buffer of one line an empty line is left
    above [l].  [yy] then [p] leaves the lines as they are and adds a copy
    of [l] below it. *)
Theorem line_delete_paste (e : VimEngine) (pre : list jstring)
  (l : jstring) (post : list jstring) :
  idle e ->
  lines (state e) = pre ++ l :: post ->
  line (cursor (state e)) = alen pre ->
  ~ In "010"%char l ->
  (exists e',
     handleKeys e ["d"; "d"; "p"] = Some e'
     /\ lines (state e')
        = match pre, post with
          | _ :: _, [] => pre ++ [l]
          | _, next :: rest => pre ++ next :: l :: rest
          | [], [] => [[]; l]
          end)
  /\ (exists e',
        handleKeys e ["y"; "y"; "p"] = Some e'
        /\ lines (state e') = pre ++ l :: l :: post).
Proof.
  intros Hi Hl Hc Hn. pose proof (alen_nonneg pre) as Hp.
  pose proof (alen_nonneg post) as Hq. split.
  - change ["d"; "d"; "p"] with (["d"; "d"] ++ ["p"]).
    rewrite handleKeys_app, idle_dd by exact Hi. cbn [bind handleKeys].
    rewrite (idle_paste _ "p" after)
      by (unfold idle; sproj; rewrite ?mode_deleteLine; sproj;
          destruct Hi as (? & _); auto).
    cbn [state].
    destruct (deleteLine_one (set_commandBuffer "d" (state e)) pre l post
                Hl Hc) as (D1 & D2 & D3).
    set (s1 := deleteLine 1 (set_commandBuffer "d" (state e))) in *.
    assert (Hb : in_buffer (set_commandBuffer [] s1)
                   (cursor (set_commandBuffer [] s1))).
    { unfold in_buffer. sproj. rewrite D3.
      assert (0 < alen (lines s1)).
      { rewrite D1. destruct (pre ++ post); unfold alen; simpl length; lia. }
      lia. }
    rewrite (paste_line after (set_commandBuffer [] s1) l D2 Hn Hb).
    cbn [bind ret fst]. eexists. split; [reflexivity|]. sproj.
    rewrite D3, D1.
    destruct post as [|next rest].
    + rewrite app_nil_r. destruct pre as [|p0 pre'].
      * reflexivity.
      * set (pre := p0 :: pre') in *.
        replace (Z.min (alen pre) (alen pre - 1) + 1) with (alen pre) by lia.
        rewrite <- (app_nil_r pre) at 2 4.
        rewrite firstn_alen_app, skipn_alen_app. reflexivity.
    + assert (E : pre ++ next :: rest <> [])
        by (destruct pre; discriminate).
      destruct (pre ++ next :: rest) eqn:E'; [congruence|]. rewrite <- E'.
      rewrite alen_app. change (alen (next :: rest))
        with (alen ([next] ++ rest)). rewrite alen_app.
      change (alen [next]) with 1. pose proof (alen_nonneg rest).
      replace (Z.min (alen pre) (alen pre + (1 + alen rest) - 1) + 1)
        with (alen (pre ++ [next])) by (rewrite alen_app;
          change (alen [next]) with 1; lia).
      change (pre ++ next :: rest) with (pre ++ [next] ++ rest).
      rewrite (app_assoc pre [next] rest).
      rewrite firstn_alen_app, skipn_alen_app.
      rewrite <- app_assoc. clear. destruct pre; reflexivity.
  - change ["y"; "y"; "p"] with (["y"; "y"] ++ ["p"]).
    rewrite handleKeys_app, idle_yy by exact Hi. cbn [bind handleKeys].
    rewrite (idle_paste _ "p" after)
      by (unfold idle, yankLine; sproj; destruct Hi as (? & _); auto).
    cbn [state].
    destruct (yankLine_one (set_commandBuffer "y" (state e)) pre l post
                Hl Hc) as (Y1 & Y2 & Y3).
    set (s1 := yankLine 1 (set_commandBuffer "y" (state e))) in *.
    assert (Hb : in_buffer (set_commandBuffer [] s1)
                   (cursor (set_commandBuffer [] s1))).
    { unfold in_buffer. sproj. rewrite Y1, Y2. sproj. rewrite Hl, Hc.
      rewrite alen_app. change (alen (l :: post)) with (alen ([l] ++ post)).
      rewrite alen_app. change (alen [l]) with 1. lia. }
    rewrite (paste_line after (set_commandBuffer [] s1) l Y3 Hn Hb).
    cbn [bind ret fst]. eexists. split; [reflexivity|]. sproj.
    rewrite Y1, Y2. sproj. rewrite Hl, Hc.
    replace (alen pre + 1) with (alen (pre ++ [l]))
      by (rewrite alen_app; reflexivity).
    change (pre ++ l :: post) with (pre ++ [l] ++ post).
    rewrite (app_assoc pre [l] post).
    rewrite firstn_alen_app, skipn_alen_app.
    rewrite <- app_assoc. reflexivity.
Qed.

Lemma line_delete_paste_witness :
  idle (engineAt ["a"; "b"] (mkCursor 1 0))
  /\ lines (state (engineAt ["a"; "b"] (mkCursor 1 0)))
     = ["a" : jstring] ++ ("b" : jstring) :: []
  /\ line (cursor (state (engineAt ["a"; "b"] (mkCursor 1 0))))
     = alen ["a" : jstring]
  /\ ~ In "010"%char ("b" : jstring)
  /\ ((exists e',
         handleKeys (engineAt ["a"; "b"] (mkCursor 1 0)) ["d"; "d"; "p"]
         = Some e'
         /\ lines (state e') = ["a" : jstring] ++ ["b" : jstring])
      /\ (exists e',
            handleKeys (engineAt ["a"; "b"] (mkCursor 1 0)) ["y"; "y"; "p"]
            = Some e'
            /\ lines (state e')
               = ["a" : jstring] ++ ("b" : jstring) :: ("b" : jstring) :: [])).
Proof.
  assert (Hn : ~ In "010"%char ("b" : jstring)).
  { simpl. intros [H|[]]. discriminate. }
  split; [repeat split|]. split; [reflexivity|]. split; [reflexivity|].
  split; [exact Hn|].
  exact (line_delete_paste (engineAt ["a"; "b"] (mkCursor 1 0))
           ["a" : jstring] "b" [] (conj eq_refl (conj eq_refl eq_refl))
           eq_refl eq_refl Hn).
Defined.

Lemma aset_aset {A} (l : list A) (i : nat) (a b : A) :
  JS.aset (JS.aset l i a) i b = JS.aset l i b.
Proof.
  revert i; induction l as [|x l IH]; intros [|i]; simpl; auto.
  now rewrite IH.
Qed.

Lemma aset_same {A} (l : list A) (i : nat) (x : A) :
  nth_error l i = Some x -> JS.aset l i x = l.
Proof.
  revert i; induction l as [|y l IH]; intros [|i]; simpl; auto.
  - intros [= ->]. reflexivity.
  - intros H. now rewrite IH.
Qed.

Lemma cursor_eta (c : CursorPosition) : mkCursor (line c) (col c) = c.
Proof. destruct c; reflexivity. Qed.

(** C6, as stated, fails: on the line "abc" with the cursor on the last
    character, [x] then [P] gives "acb": after [x] the cursor is clamped
    back onto the new last character, and [P] pastes before it. *)
Lemma x_P_at_last_column :
  exists e',
    handleKeys (engineAt ["abc"] (mkCursor 0 2)) ["x"; "P"] = Some e'
    /\ lines (state e') = ["acb" : jstring]
    /\ lines (state e') <> lines (state (engineAt ["abc"] (mkCursor 0 2))).
Proof.
  eexists. split; [vm_compute; reflexivity|].
  split; [reflexivity|]. discriminate.
Qed.

(** C6 (amended): on an idle engine, for a cursor on a character of the
    current line that is not a newline and not the last character of a line
    of two or more characters, [x] then [P] gives back the lines and the
    cursor as they were. *)
Theorem char_delete_paste (e : VimEngine) (ch : ascii) :
  idle e ->
  in_buffer (state e) (cursor (state e)) ->
  JS.charAt (getCurrentLine (state e)) (col (cursor (state e))) = Some ch ->
  ch <> "010"%char ->
  col (cursor (state e))
  <= Z.max 0 (JS.len (getCurrentLine (state e)) - 2) ->
  exists e',
    handleKeys e ["x"; "P"] = Some e'
    /\ lines (state e') = lines (state e)
    /\ cursor (state e') = cursor (state e).
Proof.
  intros Hi Hb Hch Hnl Hcol.
  set (s := state e) in *. set (ln := getCurrentLine s) in *.
  set (cl := col (cursor s)) in *.
  assert (Hr : 0 <= cl < JS.len ln).
  { unfold JS.charAt in Hch. destruct (cl <? 0) eqn:E; [discriminate|].
    assert (N : nth_error ln (Z.to_nat cl) <> None) by congruence.
    apply nth_error_Some in N. unfold JS.len. lia. }
  assert (Hsplit : ln = firstn (Z.to_nat cl) ln ++ ch
                         :: skipn (Z.to_nat (cl + 1)) ln).
  { unfold JS.charAt in Hch. replace (cl <? 0) with false in Hch by lia.
    apply nth_error_split in Hch. destruct Hch as (a & b & E & La).
    assert (P : firstn (Z.to_nat cl) ln = a).
    { rewrite E, <- La, firstn_app, firstn_all, Nat.sub_diag.
      simpl. apply app_nil_r. }
    assert (Q : skipn (Z.to_nat (cl + 1)) ln = b).
    { rewrite E. replace (Z.to_nat (cl + 1)) with (length a + 1)%nat by lia.
      rewrite skipn_app, skipn_all2 by lia.
      replace (length a + 1 - length a)%nat with 1%nat by lia.
      reflexivity. }
    rewrite P, Q. exact E. }
  set (p := firstn (Z.to_nat cl) ln) in *.
  set (q := skipn (Z.to_nat (cl + 1)) ln) in *.
  assert (Lp : JS.len p = cl).
  { subst p. unfold JS.len in *. rewrite length_firstn. lia. }
  assert (Lq : JS.len ln = cl + 1 + JS.len q).
  { rewrite Hsplit at 1. rewrite len_app, len_cons. lia. }
  pose proof (len_nonneg q) as Hq.
  change ["x"; "P"] with (["x"] ++ ["P"]).
  rewrite handleKeys_app. cbn [handleKeys]. rewrite idle_x by exact Hi.
  fold s. unfold deleteChar. fold ln. fold cl.
  replace (cl <? JS.len ln) with true by lia.
  rewrite setCurrentLine_reg by exact Hb. cbn [bind ret fst].
  rewrite substring_0 by lia. rewrite substringFrom_skipn by lia.
  fold p. fold q. unfold JS.charStr. rewrite Hch. cbn [option_map].
  set (x := set_lines _ (set_register _ s)).
  assert (Hx : lines x <> []).
  { subst x. sproj. apply alen_aset_nonempty.
    apply alen_nonempty. unfold in_buffer in Hb. fold s in Hb. lia. }
  assert (Hcx : cursor x = cursor s) by reflexivity.
  assert (Hgx : JS.aget (lines x) (line (cursor s)) = Some (p ++ q)).
  { subst x. sproj. apply aget_aset_same. exact Hb. }
  assert (Hmx : mode x = normal) by (destruct Hi as (Hm & _); exact Hm).
  assert (Hclamp : clampCursor x (cursor x) = cursor s).
  { destruct (clampCursor_spec x (cursor x) Hx)
      as (C1 & C2 & C3 & _ & l' & Hl' & _ & C7).
    rewrite Hcx in *.
    assert (Eline : line (clampCursor x (cursor s)) = line (cursor s)).
    { apply C3. unfold in_buffer. subst x. sproj. rewrite alen_aset.
      exact Hb. }
    rewrite Eline in Hl'. rewrite Hgx in Hl'. injection Hl' as <-.
    rewrite Hmx in C7. cbn [mode_eqb] in C7.
    rewrite len_app in C7.
    rewrite <- (cursor_eta (clampCursor x (cursor s))).
    rewrite Eline, C7 by (fold cl; lia). apply cursor_eta. }
  rewrite Hclamp.
  rewrite (idle_paste _ "P" before)
    by (unfold idle; sproj; auto; destruct Hi as (? & ? & ?); auto).
  cbn [state]. unfold paste. sproj.
  subst x. sproj. rewrite reg_get_set.
  set (x := set_lines _ (set_register _ s)) in *.
  replace (JS.endsWith [ch] nl) with false.
  2: { unfold JS.endsWith, nl. simpl.
       destruct (Ascii.eqb ch "010") eqn:E; [|reflexivity].
       apply Ascii.eqb_eq in E. congruence. }
  assert (Hg : getCurrentLine (set_cursor (cursor s) x) = p ++ q).
  { unfold getCurrentLine. subst x. sproj. rewrite Hgx. reflexivity. }
  rewrite Hg. fold cl.
  rewrite setCurrentLine_Some
    by (unfold in_buffer; subst x; sproj; rewrite alen_aset; exact Hb).
  cbn [bind ret]. eexists. split; [reflexivity|]. sproj.
  rewrite substring_0 by lia. rewrite substringFrom_skipn by lia.
  replace (firstn (Z.to_nat cl) (p ++ q)) with p.
  2: { rewrite firstn_app.
       replace (Z.to_nat cl - length p)%nat with 0%nat
         by (unfold JS.len in Lp; lia).
       simpl. rewrite app_nil_r. symmetry. apply firstn_all2.
       unfold JS.len in Lp; lia. }
  replace (skipn (Z.to_nat cl) (p ++ q)) with q.
  2: { rewrite skipn_app.
       replace (Z.to_nat cl - length p)%nat with 0%nat
         by (unfold JS.len in Lp; lia).
       simpl. rewrite skipn_all2 by (unfold JS.len in Lp; lia).
       reflexivity. }
  split.
  - subst x. sproj. rewrite aset_aset.
    change (p ++ [ch] ++ q) with (p ++ ch :: q). rewrite <- Hsplit.
    apply aset_same. unfold in_buffer in Hb. fold s in Hb.
    rewrite <- aget_nth_error by lia. apply getCurrentLine_aget. exact Hb.
  - change (JS.len [ch]) with 1.
    replace (cl + 1 - 1) with (col (cursor s)) by (subst cl; lia).
    apply cursor_eta.
Qed.

Lemma char_delete_paste_witness :
  idle (engineAt ["abc"] (mkCursor 0 1))
  /\ in_buffer (state (engineAt ["abc"] (mkCursor 0 1)))
       (cursor (state (engineAt ["abc"] (mkCursor 0 1))))
  /\ JS.charAt (getCurrentLine (state (engineAt ["abc"] (mkCursor 0 1))))
       (col (cursor (state (engineAt ["abc"] (mkCursor 0 1)))))
     = Some "b"%char
  /\ "b"%char <> "010"%char
  /\ col (cursor (state (engineAt ["abc"] (mkCursor 0 1))))
     <= Z.max 0
          (JS.len (getCurrentLine (state (engineAt ["abc"] (mkCursor 0 1))))
           - 2)
  /\ exists e',
       handleKeys (engineAt ["abc"] (mkCursor 0 1)) ["x"; "P"] = Some e'
       /\ lines (state e') = lines (state (engineAt ["abc"] (mkCursor 0 1)))
       /\ cursor (state e')
          = cursor (state (engineAt ["abc"] (mkCursor 0 1))).
Proof.
  assert (Hi : idle (engineAt ["abc"] (mkCursor 0 1)))
    by (repeat split).
  assert (Hb : in_buffer (state (engineAt ["abc"] (mkCursor 0 1)))
                 (cursor (state (engineAt ["abc"] (mkCursor 0 1)))))
    by (unfold in_buffer, alen; cbn; lia).
  assert (Hn : "b"%char <> "010"%char) by discriminate.
  assert (Hc : col (cursor (state (engineAt ["abc"] (mkCursor 0 1))))
               <= Z.max 0
                    (JS.len (getCurrentLine
                               (state (engineAt ["abc"] (mkCursor 0 1))))
                     - 2))
    by (cbn; lia).
  split; [exact Hi|]. split; [exact Hb|]. split; [reflexivity|].
  split; [exact Hn|]. split; [exact Hc|].
  exact (char_delete_paste (engineAt ["abc"] (mkCursor 0 1)) "b"%char
           Hi Hb eq_refl Hn Hc).
Defined.

(** ** Substitution *)

Lemma join_cons (sep x : jstring) (l : list jstring) :
  l <> [] -> JS.join sep (x :: l) = x ++ sep ++ JS.join sep l.
Proof. destruct l; [congruence|reflexivity]. Qed.

Lemma occurs_at_split (p s : jstring) (k : nat) :
  occurs_at p s k ->
  s = firstn k s ++ p ++ skipn (k + length p) s.
Proof.
  intros (a & b & -> & <-).
  rewrite firstn_app, firstn_all, Nat.sub_diag. simpl firstn.
  rewrite app_nil_r. f_equal. f_equal.
  rewrite (app_assoc a p b), <- length_app, skipn_app, skipn_all,
    Nat.sub_diag. reflexivity.
Qed.

(** [split] then [join] replaces every occurrence of the separator. *)
Lemma join_split_ReplaceAll (search repl : jstring) :
  search <> [] ->
  forall s, ReplaceAll search repl s (JS.join repl (JS.split s search)).
Proof.
  intros Hs s. remember (length s) as n eqn:Hn.
  revert s Hn. induction n as [n IH] using lt_wf_ind. intros s Hn.
  destruct (JS.find search s) as [k|] eqn:F.
  - pose proof F as F'. apply find_Some in F'. destruct F' as [Ho _].
    pose proof (occurs_at_split _ _ _ Ho) as E.
    pose proof (occurs_at_length _ _ _ Ho) as L.
    set (a := firstn k s) in *. set (b := skipn (k + length search) s) in *.
    assert (La : length a = k) by (subst a; rewrite length_firstn; lia).
    rewrite E. rewrite E in F. rewrite <- La in F.
    rewrite split_first by assumption.
    rewrite join_cons by (apply split_nonempty; exact Hs).
    apply RA_occ.
    + apply find_Some. exact F.
    + apply (IH (length b)); [|reflexivity].
      subst n. rewrite E, !length_app.
      assert (0 < length search)%nat
        by (destruct search; [congruence|simpl; lia]).
      lia.
  - rewrite split_absent by assumption. simpl. apply RA_none.
    apply find_None. exact F.
Qed.

Lemma replace_ReplaceFirst (search repl s : jstring) :
  ReplaceFirst search repl s (JS.replace s search repl).
Proof.
  unfold JS.replace, ReplaceFirst.
  destruct (JS.find search s) as [k|] eqn:F.
  - right. pose proof F as F'. apply find_Some in F'.
    pose proof F' as [Ho _].
    pose proof (occurs_at_split _ _ _ Ho) as E.
    exists (firstn k s), (skipn (k + length search) s).
    assert (La : length (firstn k s) = k).
    { pose proof (occurs_at_length _ _ _ Ho). rewrite length_firstn. lia. }
    split; [exact E|]. split; [rewrite La; exact F'|reflexivity].
  - left. split; [apply find_None; exact F|reflexivity].
Qed.

Lemma getSubstitution_plain (m b a repl : jstring) :
  ~ In "$"%char repl -> JS.getSubstitution m b a repl = repl.
Proof.
  induction repl as [|c r IH]; intros N; simpl; [reflexivity|].
  destruct (Ascii.eqb c "$") eqn:E.
  - apply Ascii.eqb_eq in E. subst. exfalso. apply N. left. reflexivity.
  - f_equal. apply IH. intros H. apply N. right. exact H.
Qed.

(** The segments of a substitution command. *)
Lemma split_substitution (search repl flags : jstring) :
  ~ In "/"%char search -> ~ In "/"%char repl -> ~ In "/"%char flags ->
  JS.split ("s/" ++ search ++ "/" ++ repl ++ "/" ++ flags) "/"
  = ["s" : jstring; search; repl; flags].
Proof.
  intros H1 H2 H3.
  change ("s/" ++ search ++ "/" ++ repl ++ "/" ++ flags)
    with ("s" ++ "/"%char :: (search ++ "/"%char
                               :: (repl ++ "/"%char :: flags))).
  change (String.list_ascii_of_string "/") with ["/"%char].
  rewrite split_char_first by (simpl; intros [H|[]]; discriminate).
  rewrite split_char_first by exact H1.
  rewrite split_char_first by exact H2.
  rewrite split_char_absent by exact H3. reflexivity.
Qed.

(** [Enter] on a substitution command replaces the current line. *)
Lemma substitution_enter_runs (e : VimEngine) (ev : KeyboardEvent)
  (search repl flags : jstring) :
  mode (state e) = command -> key ev = "Enter" ->
  in_buffer (state e) (cursor (state e)) ->
  commandBuffer (state e)
  = ":s/" ++ search ++ "/" ++ repl ++ "/" ++ flags ->
  ~ In "/"%char search -> ~ In "/"%char repl -> ~ In "/"%char flags ->
  handleKeyDown e ev
  = Some (mkEngine
            (set_commandBuffer []
               (set_mode normal
                  (set_lines
                     (JS.aset (lines (state e))
                        (Z.to_nat (line (cursor (state e))))
                        (if JS.includes flags "g"
                         then JS.join repl
                                (JS.split (getCurrentLine (state e)) search)
                         else JS.replace (getCurrentLine (state e))
                                search repl))
                     (state e))))
            (countBuffer e) (commandTimeout e), true).
Proof.
  intros Hm Hk Hb Hc H1 H2 H3.
  unfold handleKeyDown. rewrite Hm, Hk.
  change (handleCommandMode (state e) "Enter")
    with (s <- executeCommand (state e) ;; ret (s, true)).
  unfold executeCommand. cbv zeta. rewrite Hc.
  set (rest := search ++ "/" ++ repl ++ "/" ++ flags).
  change (JS.startsWith (":s/" ++ rest) "/") with false.
  change (JS.startsWith (":s/" ++ rest) ":") with true. cbv iota.
  change (":s/" ++ rest) with (":"%char :: ("s/" ++ rest)).
  rewrite sliceFrom_1.
  change (JS.eqb ("s/" ++ rest) "w") with false.
  change (JS.eqb ("s/" ++ rest) "write") with false.
  change (JS.eqb ("s/" ++ rest) "q") with false.
  change (JS.eqb ("s/" ++ rest) "quit") with false.
  change (JS.eqb ("s/" ++ rest) "wq") with false.
  change (JS.eqb ("s/" ++ rest) "x") with false.
  change (JS.test_digits ("s/" ++ rest)) with false.
  change (JS.startsWith ("s/" ++ rest) "s/") with true.
  cbn [orb]. cbv iota. unfold executeSubstitution. cbv zeta.
  subst rest. rewrite split_substitution by assumption.
  change (3 <=? alen ["s" : jstring; search; repl; flags]) with true.
  change (JS.aget ["s" : jstring; search; repl; flags] 1) with (Some search).
  change (JS.aget ["s" : jstring; search; repl; flags] 2) with (Some repl).
  change (JS.aget ["s" : jstring; search; repl; flags] 3) with (Some flags).
  cbv iota. cbn [bind].
  destruct (JS.includes flags "g");
    rewrite setCurrentLine_Some by exact Hb; reflexivity.
Qed.

(** What a substitution does to the current line: [:s/search/replace/]
    replaces the leftmost occurrence of the literal text [search] and
    nothing else, [:s/search/replace/g] replaces every occurrence; no other
    line changes.  Without [g] the text put in place is the replacement as
    [replace] expands it, which is the replacement itself when it holds no
    dollar sign.  On "foo foo" the two commands give "bar foo" and
    "bar bar". *)
Theorem substitute_first_or_all (e : VimEngine) (ev : KeyboardEvent)
  (search repl flags : jstring) :
  mode (state e) = command -> key ev = "Enter" ->
  in_buffer (state e) (cursor (state e)) ->
  commandBuffer (state e)
  = ":s/" ++ search ++ "/" ++ repl ++ "/" ++ flags ->
  ~ In "/"%char search -> ~ In "/"%char repl -> search <> [] ->
  flags = [] \/ flags = "g" ->
  (exists e' new,
     handleKeyDown e ev = Some (e', true)
     /\ JS.aget (lines (state e')) (line (cursor (state e))) = Some new
     /\ alen (lines (state e')) = alen (lines (state e))
     /\ (forall j, j <> line (cursor (state e)) ->
                   JS.aget (lines (state e')) j = JS.aget (lines (state e)) j)
     /\ (flags = "g" ->
         ReplaceAll search repl (getCurrentLine (state e)) new)
     /\ (flags = [] ->
         ReplaceFirst search repl (getCurrentLine (state e)) new
         /\ (~ In "$"%char repl ->
             (absent search (getCurrentLine (state e))
              /\ new = getCurrentLine (state e))
             \/ (exists p q,
                   getCurrentLine (state e) = p ++ search ++ q
                   /\ first_at search (getCurrentLine (state e)) (length p)
                   /\ new = p ++ repl ++ q))))
  /\ (exists e',
        handleKeyDown (commandEngine ":s/foo/bar/" ["foo foo"] (mkCursor 0 0))
          (press "Enter") = Some (e', true)
        /\ lines (state e') = ["bar foo" : jstring])
  /\ (exists e',
        handleKeyDown (commandEngine ":s/foo/bar/g" ["foo foo"] (mkCursor 0 0))
          (press "Enter") = Some (e', true)
        /\ lines (state e') = ["bar bar" : jstring]).
Proof.
  intros Hm Hk Hb Hc H1 H2 Hs Hf. split; [|split].
  - assert (H3 : ~ In "/"%char flags).
    { destruct Hf as [-> | ->]; simpl; [tauto|].
      intros [H|[]]; discriminate. }
    rewrite (substitution_enter_runs e ev search repl flags) by assumption.
    unfold in_buffer in Hb.
    eexists. eexists. split; [reflexivity|]. sproj.
    split; [apply aget_aset_same; exact Hb|].
    split; [apply alen_aset|].
    split; [intros j Hj; apply aget_aset_other; lia|].
    split.
    + intros ->. change (JS.includes "g" "g") with true. cbv iota.
      apply join_split_ReplaceAll. exact Hs.
    + intros ->. change (JS.includes [] "g") with false. cbv iota.
      pose proof (replace_ReplaceFirst search repl
                    (getCurrentLine (state e))) as R.
      split; [exact R|]. intros Hd.
      destruct R as [R|(p & q & R1 & R2 & R3)]; [left; exact R|].
      right. exists p, q. split; [exact R1|]. split; [exact R2|].
      rewrite R3, getSubstitution_plain by exact Hd. reflexivity.
  - eexists. split; [vm_compute; reflexivity|reflexivity].
  - eexists. split; [vm_compute; reflexivity|reflexivity].
Qed.

Lemma substitute_first_or_all_witness :
  mode (state (commandEngine ":s/foo/bar/g" ["foo foo"] (mkCursor 0 0)))
  = command
  /\ key (press "Enter") = "Enter"
  /\ in_buffer
       (state (commandEngine ":s/foo/bar/g" ["foo foo"] (mkCursor 0 0)))
       (cursor (state (commandEngine ":s/foo/bar/g" ["foo foo"]
                         (mkCursor 0 0))))
  /\ commandBuffer
       (state (commandEngine ":s/foo/bar/g" ["foo foo"] (mkCursor 0 0)))
     = ":s/" ++ "foo" ++ "/" ++ "bar" ++ "/" ++ "g"
  /\ ~ In "/"%char ("foo" : jstring)
  /\ ~ In "/"%char ("bar" : jstring)
  /\ ("foo" : jstring) <> []
  /\ (("g" : jstring) = [] \/ ("g" : jstring) = "g")
  /\ (let e := commandEngine ":s/foo/bar/g" ["foo foo"] (mkCursor 0 0) in
      let ev := press "Enter" in
      let search : jstring := "foo" in
      let repl : jstring := "bar" in
      let flags : jstring := "g" in
      (exists e' new,
         handleKeyDown e ev = Some (e', true)
         /\ JS.aget (lines (state e')) (line (cursor (state e))) = Some new
         /\ alen (lines (state e')) = alen (lines (state e))
         /\ (forall j, j <> line (cursor (state e)) ->
                       JS.aget (lines (state e')) j = JS.aget (lines (state e)) j)
         /\ (flags = "g" ->
             ReplaceAll search repl (getCurrentLine (state e)) new)
         /\ (flags = [] ->
             ReplaceFirst search repl (getCurrentLine (state e)) new
             /\ (~ In "$"%char repl ->
                 (absent search (getCurrentLine (state e))
                  /\ new = getCurrentLine (state e))
                 \/ (exists p q,
                       getCurrentLine (state e) = p ++ search ++ q
                       /\ first_at search (getCurrentLine (state e)) (length p)
                       /\ new = p ++ repl ++ q))))
      /\ (exists e',
            handleKeyDown (commandEngine ":s/foo/bar/" ["foo foo"] (mkCursor 0 0))
              (press "Enter") = Some (e', true)
            /\ lines (state e') = ["bar foo" : jstring])
      /\ (exists e',
            handleKeyDown (commandEngine ":s/foo/bar/g" ["foo foo"] (mkCursor 0 0))
              (press "Enter") = Some (e', true)
            /\ lines (state e') = ["bar bar" : jstring])).
Proof.
  assert (Hb : in_buffer
                 (state (commandEngine ":s/foo/bar/g" ["foo foo"]
                           (mkCursor 0 0)))
                 (cursor (state (commandEngine ":s/foo/bar/g" ["foo foo"]
                                   (mkCursor 0 0)))))
    by (unfold in_buffer, alen; cbn; lia).
  assert (N1 : ~ In "/"%char ("foo" : jstring))
    by (simpl; intros [H|[H|[H|[]]]]; discriminate).
  assert (N2 : ~ In "/"%char ("bar" : jstring))
    by (simpl; intros [H|[H|[H|[]]]]; discriminate).
  assert (N3 : ("foo" : jstring) <> []) by discriminate.
  split; [reflexivity|]. split; [reflexivity|]. split; [exact Hb|].
  split; [reflexivity|]. split; [exact N1|]. split; [exact N2|].
  split; [exact N3|]. split; [right; reflexivity|].
  exact (substitute_first_or_all
           (commandEngine ":s/foo/bar/g" ["foo foo"] (mkCursor 0 0))
           (press "Enter") "foo" "bar" "g"
           eq_refl eq_refl Hb eq_refl N1 N2 N3 (or_intror eq_refl)).
Defined.

(** C7: the replacement is not always put in as it is.  Without [g] the
    command runs [replace], which reads [$&], [$$] and the like in the
    replacement as patterns; with [g] it runs [split] and [join], which put
    the replacement in literally.  Typed from normal mode on the line "foo",
    [:s/o/[$&]/] gives "f[o]o": the line is not "foo" with an occurrence of
    "o" replaced by the text "[$&]", whichever occurrence is taken.  The
    same command with [g] gives "f[$&][$&]". *)
Theorem substitution_expands_dollar :
  let keys (cmd : jstring) := [":"] ++ typed cmd ++ ["Enter"] in
  let e := engineAt ["foo"] (mkCursor 0 0) in
  (exists e',
     handleKeys e (keys "s/o/[$&]/") = Some e'
     /\ lines (state e') = ["f[o]o" : jstring]
     /\ forall p q : jstring,
          ("foo" : jstring) = p ++ "o" ++ q ->
          lines (state e') <> [p ++ "[$&]" ++ q])
  /\ (exists e',
        handleKeys e (keys "s/o/[$&]/g") = Some e'
        /\ lines (state e') = ["f[$&][$&]" : jstring]).
Proof.
  cbv zeta. split.
  - eexists. split; [vm_compute; reflexivity|].
    split; [reflexivity|].
    intros p q E H. cbn [lines state] in H. injection H as H.
    apply (f_equal (@length ascii)) in E, H.
    rewrite !length_app in E, H. cbn in E, H. lia.
  - eexists. split; [vm_compute; reflexivity|reflexivity].
Qed.

(** ** What the deleting and yanking operations leave in the register *)







Lemma timesM_one {A} (f : A -> M A) (a : A) : timesM 1 f a = f a.
Proof.
  unfold timesM. change (Z.to_nat 1) with 1%nat. simpl.
  destruct (f a); reflexivity.
Qed.
















(** ** Insert mode: typing and erasing *)

(** A one-character key is none of the named keys of a [switch]. *)
Lemma eqb_char_name (c : ascii) (l : jstring) :
  (2 <= length l)%nat -> JS.eqb [c] l = false.
Proof.
  intros H. destruct l as [|a [|b l]]; cbn [length] in H; try lia.
  cbn [JS.eqb]. apply andb_false_r.
Qed.

Lemma switch_char {A} (c : ascii) (cases : list (list jstring * A))
  (default : A) :
  Forall (fun cs => Forall (fun l => (2 <= length l)%nat) (fst cs)) cases ->
  switch [c] cases default = default.
Proof.
  intros H. induction H as [|[labels body] rest H _ IH]; [reflexivity|].
  cbn [switch]. cbn [fst] in H.
  replace (existsb (JS.eqb [c]) labels) with false; [exact IH|].
  symmetry. induction H as [|l ls Hl _ IHl]; [reflexivity|].
  cbn [existsb]. rewrite (eqb_char_name c l Hl). exact IHl.
Qed.

Ltac named_keys :=
  unfold case_; cbn [map String.list_ascii_of_string];
  repeat constructor; cbn [length]; lia.

(** A character key in insert mode runs [insertText]. *)
Lemma insert_char_key (e : VimEngine) (ev : KeyboardEvent) (c : ascii) :
  mode (state e) = insert -> key ev = [c] -> ctrlKey ev = false ->
  handleKeyDown e ev = liftState e (break_ (insertText [c] (state e))).
Proof.
  intros Hm Hk Hc. unfold handleKeyDown. rewrite Hm.
  unfold handleInsertMode. rewrite Hk, Hc.
  rewrite switch_char by named_keys. reflexivity.
Qed.

Lemma state_eta (s : EditorState) :
  mkState (lines s) (cursor s) (mode s) (selection s) (commandBuffer s)
    (registers s) (lastSearch s) (message s) = s.
Proof. destruct s; reflexivity. Qed.

Lemma set_lines_col_same (s : EditorState) :
  set_col (col (cursor s)) (set_lines (lines s) s) = s.
Proof.
  unfold set_col, set_cursor, set_lines. sproj. rewrite cursor_eta.
  apply state_eta.
Qed.

(** The current line cut at the cursor, in terms of [substring]. *)
Lemma split_at_cursor_substring (s : EditorState) (p q : jstring) :
  split_at_cursor s p q ->
  JS.substring (getCurrentLine s) 0 (col (cursor s)) = p
  /\ JS.substringFrom (getCurrentLine s) (col (cursor s)) = q.
Proof.
  intros [H1 H2]. pose proof (len_nonneg p) as Hp.
  rewrite substring_0, substringFrom_skipn by lia.
  rewrite H1, <- H2. unfold JS.len. rewrite Nat2Z.id.
  rewrite firstn_app, firstn_all, Nat.sub_diag, skipn_app, skipn_all,
    Nat.sub_diag. simpl. rewrite app_nil_r. auto.
Qed.

Lemma split_at_cursor_exists (s : EditorState) :
  0 <= col (cursor s) -> loose s ->
  exists p q, split_at_cursor s p q.
Proof.
  intros H0 H1. unfold loose in H1.
  exists (firstn (Z.to_nat (col (cursor s))) (getCurrentLine s)),
    (skipn (Z.to_nat (col (cursor s))) (getCurrentLine s)).
  split; [symmetry; apply firstn_skipn|].
  unfold JS.len in *. rewrite length_firstn. lia.
Qed.

(** [insertText] puts the text between the two parts of the line and
    moves the cursor behind it. *)
Lemma insertText_at (t p q : jstring) (s : EditorState) :
  in_buffer s (cursor s) -> split_at_cursor s p q ->
  insertText t s
  = Some (set_col (col (cursor s) + JS.len t)
            (set_lines (JS.aset (lines s) (Z.to_nat (line (cursor s)))
                          (p ++ t ++ q)) s)).
Proof.
  intros Hb Hs. destruct (split_at_cursor_substring s p q Hs) as [E1 E2].
  unfold insertText. rewrite E1, E2.
  rewrite setCurrentLine_Some by exact Hb. reflexivity.
Qed.

Lemma getCurrentLine_set (s : EditorState) (t : jstring) (c : Z) :
  in_buffer s (cursor s) ->
  getCurrentLine
    (set_col c (set_lines (JS.aset (lines s) (Z.to_nat (line (cursor s))) t)
                  s)) = t.
Proof.
  intros H. unfold getCurrentLine. sproj.
  rewrite aget_aset_same by exact H. reflexivity.
Qed.

Lemma aset_current (s : EditorState) :
  in_buffer s (cursor s) ->
  JS.aset (lines s) (Z.to_nat (line (cursor s))) (getCurrentLine s)
  = lines s.
Proof.
  intros H. apply aset_same. rewrite <- aget_nth_error by (destruct H; lia).
  apply getCurrentLine_aget. exact H.
Qed.

Lemma engine_eta (e : VimEngine) :
  mkEngine (state e) (countBuffer e) (commandTimeout e) = e.
Proof. destruct e; reflexivity. Qed.

Lemma backspace_at (p q : jstring) (c : ascii) (s : EditorState) :
  in_buffer s (cursor s) -> split_at_cursor s (p ++ [c]) q ->
  backspace s
  = Some (set_col (col (cursor s) - 1)
            (set_lines (JS.aset (lines s) (Z.to_nat (line (cursor s)))
                          (p ++ q)) s)).
Proof.
  intros Hb [H1 H2]. rewrite len_app in H2. change (JS.len [c]) with 1 in H2.
  pose proof (len_nonneg p) as Hp.
  unfold backspace. replace (0 <? col (cursor s)) with true by lia.
  assert (E1 : JS.substring (getCurrentLine s) 0 (col (cursor s) - 1) = p).
  { rewrite substring_0 by lia. rewrite H1.
    replace (Z.to_nat (col (cursor s) - 1)) with (length p)
      by (unfold JS.len in *; lia).
    rewrite <- app_assoc, firstn_app, firstn_all, Nat.sub_diag. simpl.
    apply app_nil_r. }
  assert (E2 : JS.substringFrom (getCurrentLine s) (col (cursor s)) = q).
  { rewrite substringFrom_skipn by lia. rewrite H1.
    replace (Z.to_nat (col (cursor s))) with (length (p ++ [c]))
      by (rewrite length_app; simpl; unfold JS.len in *; lia).
    rewrite skipn_app, skipn_all, Nat.sub_diag. reflexivity. }
  rewrite E1, E2. rewrite setCurrentLine_Some by exact Hb. reflexivity.
Qed.

(** X1: in insert mode, with the cursor within the line or just behind it,
    a character key puts the character at the cursor and moves the cursor
    behind it, and [Backspace] right after takes the engine back to exactly
    the state it had before. *)
Theorem insert_backspace_round_trip (e : VimEngine) (ev : KeyboardEvent)
  (c : ascii) :
  mode (state e) = insert -> Inv (state e) -> loose (state e) ->
  key ev = [c] -> ctrlKey ev = false ->
  exists e1 p q,
    split_at_cursor (state e) p q
    /\ handleKeyDown e ev = Some (e1, true)
    /\ getCurrentLine (state e1) = p ++ [c] ++ q
    /\ cursor (state e1)
       = mkCursor (line (cursor (state e))) (col (cursor (state e)) + 1)
    /\ handleKeyDown e1 (press "Backspace") = Some (e, true).
Proof.
  intros Hm (I1 & I2 & I3) Hl Hk Hc.
  destruct (split_at_cursor_exists (state e) I3 Hl) as (p & q & Hs).
  rewrite (insert_char_key e ev c Hm Hk Hc).
  rewrite (insertText_at [c] p q (state e) I2 Hs).
  cbn [break_ liftState bind ret fst snd]. change (JS.len [c]) with 1.
  set (s1 := set_col _ _).
  assert (B1 : in_buffer s1 (cursor s1)).
  { subst s1. unfold in_buffer in *. sproj. rewrite alen_aset. exact I2. }
  assert (L1 : getCurrentLine s1 = p ++ [c] ++ q).
  { subst s1. apply getCurrentLine_set. exact I2. }
  exists (mkEngine s1 (countBuffer e) (commandTimeout e)), p, q.
  split; [exact Hs|]. split; [reflexivity|]. split; [exact L1|].
  split; [reflexivity|].
  unfold handleKeyDown. cbn [state]. 
  replace (mode s1) with insert by (subst s1; sproj; auto).
  assert (S1 : split_at_cursor s1 (p ++ [c]) q).
  { split; [rewrite L1, <- app_assoc; reflexivity|].
    destruct Hs as [_ Hp]. subst s1. sproj. rewrite len_app.
    change (JS.len [c]) with 1. lia. }
  change (handleInsertMode s1 (key (press "Backspace"))
            (ctrlKey (press "Backspace")))
    with (break_ (backspace s1)).
  rewrite (backspace_at p q c s1 B1 S1).
  cbn [break_ liftState bind ret fst snd countBuffer commandTimeout].
  unfold ret.
  match goal with |- Some (mkEngine ?x _ _, _) = _ =>
    assert (E : x = state e) end.
  { subst s1. sproj. rewrite aset_aset.
    destruct Hs as [Hs _]. rewrite <- Hs.
    rewrite aset_current by exact I2.
    replace (col (cursor (state e)) + 1 - 1) with (col (cursor (state e)))
      by lia.
    unfold set_col, set_cursor, set_lines, set_mode. sproj.
    rewrite cursor_eta. apply state_eta. }
  rewrite E, engine_eta. reflexivity.
Qed.

Lemma insert_backspace_round_trip_witness :
  let e := mkEngine (set_mode insert (state (engineAt ["ac"] (mkCursor 0 1))))
             [] false in
  mode (state e) = insert /\ Inv (state e) /\ loose (state e)
  /\ key (press "b") = ["b"%char] /\ ctrlKey (press "b") = false
  /\ exists e1 p q,
       split_at_cursor (state e) p q
       /\ handleKeyDown e (press "b") = Some (e1, true)
       /\ getCurrentLine (state e1) = p ++ ["b"%char] ++ q
       /\ cursor (state e1)
          = mkCursor (line (cursor (state e))) (col (cursor (state e)) + 1)
       /\ handleKeyDown e1 (press "Backspace") = Some (e, true).
Proof.
  assert (I : Inv (state (mkEngine
                            (set_mode insert
                               (state (engineAt ["ac"] (mkCursor 0 1))))
                            [] false))).
  { split; [discriminate|].
    split; [unfold in_buffer, alen; cbn; lia|cbn; lia]. }
  assert (L : loose (state (mkEngine
                              (set_mode insert
                                 (state (engineAt ["ac"] (mkCursor 0 1))))
                              [] false))).
  { unfold loose. cbn. lia. }
  split; [reflexivity|]. split; [exact I|]. split; [exact L|].
  split; [reflexivity|]. split; [reflexivity|].
  exact (insert_backspace_round_trip
           (mkEngine (set_mode insert
                        (state (engineAt ["ac"] (mkCursor 0 1)))) [] false)
           (press "b") "b"%char eq_refl I L eq_refl eq_refl).
Defined.

Lemma alen_cons {A} (x : A) (l : list A) : alen (x :: l) = 1 + alen l.
Proof. unfold alen. simpl length. lia. Qed.

Lemma aset_app_alen {A} (l1 l2 : list A) (x v : A) :
  JS.aset (l1 ++ x :: l2) (Z.to_nat (alen l1)) v = l1 ++ v :: l2.
Proof. unfold alen. rewrite Nat2Z.id. apply aset_app. Qed.

(** [Enter] in insert mode splits the current line at the cursor. *)
Lemma insertNewline_at (p q : jstring) (pre post : list jstring)
  (s : EditorState) :
  lines s = pre ++ (p ++ q) :: post -> line (cursor s) = alen pre ->
  JS.len p = col (cursor s) ->
  insertNewline s
  = Some (set_cursor (mkCursor (alen pre + 1) 0)
            (set_lines (pre ++ p :: q :: post) s)).
Proof.
  intros Hl Hc Hp. pose proof (alen_nonneg pre) as Hn.
  assert (Hb : in_buffer s (cursor s)).
  { unfold in_buffer. rewrite Hl, Hc, alen_app, alen_cons.
    pose proof (alen_nonneg post). lia. }
  assert (Hg : getCurrentLine s = p ++ q).
  { unfold getCurrentLine. rewrite Hl, Hc, aget_app_mid. reflexivity. }
  destruct (split_at_cursor_substring s p q (conj Hg Hp)) as [E1 E2].
  unfold insertNewline. rewrite E1, E2.
  rewrite setCurrentLine_Some by exact Hb. cbn [bind ret]. sproj.
  rewrite Hl, Hc, aset_app_alen.
  replace (pre ++ p :: post) with ((pre ++ [p]) ++ [] ++ post)
    by (rewrite <- app_assoc; reflexivity).
  replace (alen pre + 1) with (alen (pre ++ [p]))
    by (rewrite alen_app; reflexivity).
  change 0 with (alen (@nil jstring)) at 1.
  rewrite splice_app. cbn [fst]. rewrite <- app_assoc. cbn [app].
  rewrite alen_app. reflexivity.
Qed.

(** [Backspace] at the start of a line joins it to the line above. *)
Lemma backspace_join (p q : jstring) (pre post : list jstring)
  (s : EditorState) :
  lines s = pre ++ p :: q :: post -> cursor s = mkCursor (alen pre + 1) 0 ->
  backspace s
  = Some (set_cursor (mkCursor (alen pre) (JS.len p))
            (set_lines (pre ++ (p ++ q) :: post) s)).
Proof.
  destruct s as [ls cur m sel cb regs lsr msg]. cbn [lines cursor].
  intros -> ->. pose proof (alen_nonneg pre) as Hn.
  pose proof (alen_nonneg post) as Hn'.
  assert (E : forall y : jstring,
            pre ++ p :: y :: post = (pre ++ [p]) ++ [y] ++ post)
    by (intros y; rewrite <- app_assoc; reflexivity).
  assert (L : alen pre + 1 = alen (pre ++ [p]))
    by (rewrite alen_app; reflexivity).
  unfold backspace, getCurrentLine. sproj.
  replace (0 <? 0) with false by lia.
  replace (0 <? alen pre + 1) with true by lia.
  replace (alen pre + 1 - 1) with (alen pre) by lia.
  rewrite aget_app_mid. cbn [bind].
  rewrite E, L. cbn [app]. rewrite aget_app_mid.
  change (q :: post) with ([q] ++ post).
  change 1 with (alen [q]) at 1. rewrite splice_app. cbn [fst app].
  rewrite app_nil_r || idtac.
  rewrite <- app_assoc. cbn [app].
  unfold setCurrentLine, setLineAt. sproj.
  rewrite alen_app, alen_cons.
  replace ((0 <=? alen pre) && (alen pre <? alen pre + (1 + alen post)))
    with true by (symmetry; apply andb_true_iff; split; lia).
  rewrite aset_app_alen. reflexivity.
Qed.

(** X2: in insert mode, with the cursor within the line or just behind it,
    [Enter] cuts the line at the cursor into two lines and puts the cursor
    at the start of the second; [Backspace] right after joins them again
    and takes the engine back to exactly the state it had before. *)
Theorem enter_backspace_round_trip (e : VimEngine) :
  mode (state e) = insert -> Inv (state e) -> loose (state e) ->
  exists e1 p q pre post,
    split_at_cursor (state e) p q
    /\ lines (state e) = pre ++ (p ++ q) :: post
    /\ alen pre = line (cursor (state e))
    /\ handleKeyDown e (press "Enter") = Some (e1, true)
    /\ lines (state e1) = pre ++ p :: q :: post
    /\ cursor (state e1) = mkCursor (line (cursor (state e)) + 1) 0
    /\ handleKeyDown e1 (press "Backspace") = Some (e, true).
Proof.
  intros Hm (I1 & I2 & I3) Hl.
  destruct (split_at_cursor_exists (state e) I3 Hl) as (p & q & Hs).
  pose proof (getCurrentLine_aget (state e) I2) as Hg.
  destruct (aget_split _ _ _ Hg) as (pre & post & Hls & Hpre).
  destruct Hs as [Hpq Hp]. rewrite Hpq in Hls.
  pose proof (insertNewline_at p q pre post (state e) Hls (eq_sym Hpre) Hp)
    as HN.
  set (s1 := set_cursor (mkCursor (alen pre + 1) 0)
               (set_lines (pre ++ p :: q :: post) (state e))) in *.
  exists (mkEngine s1 (countBuffer e) (commandTimeout e)), p, q, pre, post.
  split; [split; assumption|]. split; [exact Hls|]. split; [exact Hpre|].
  split.
  { unfold handleKeyDown. rewrite Hm.
    change (handleInsertMode (state e) (key (press "Enter"))
              (ctrlKey (press "Enter")))
      with (break_ (insertNewline (state e))).
    rewrite HN. reflexivity. }
  split; [reflexivity|]. split; [subst s1; sproj; rewrite Hpre; reflexivity|].
  unfold handleKeyDown. cbn [state].
  replace (mode s1) with insert by (subst s1; sproj; auto).
  change (handleInsertMode s1 (key (press "Backspace"))
            (ctrlKey (press "Backspace")))
    with (break_ (backspace s1)).
  rewrite (backspace_join p q pre post s1) by reflexivity.
  cbn [break_ liftState bind ret fst snd countBuffer commandTimeout].
  unfold ret.
  match goal with |- Some (mkEngine ?x _ _, _) = _ =>
    assert (E : x = state e) end.
  { subst s1. unfold set_cursor, set_lines. sproj.
    rewrite <- (state_eta (state e)) at 7.
    f_equal; [symmetry; exact Hls|].
    rewrite Hpre, Hp. apply cursor_eta. }
  rewrite E, engine_eta. reflexivity.
Qed.

Lemma enter_backspace_round_trip_witness :
  let e := mkEngine (set_mode insert
                       (state (engineAt ["ab"; "c"] (mkCursor 0 1))))
             [] false in
  mode (state e) = insert /\ Inv (state e) /\ loose (state e)
  /\ exists e1 p q pre post,
       split_at_cursor (state e) p q
       /\ lines (state e) = pre ++ (p ++ q) :: post
       /\ alen pre = line (cursor (state e))
       /\ handleKeyDown e (press "Enter") = Some (e1, true)
       /\ lines (state e1) = pre ++ p :: q :: post
       /\ cursor (state e1) = mkCursor (line (cursor (state e)) + 1) 0
       /\ handleKeyDown e1 (press "Backspace") = Some (e, true).
Proof.
  assert (I : Inv (state (mkEngine
                            (set_mode insert
                               (state (engineAt ["ab"; "c"] (mkCursor 0 1))))
                            [] false))).
  { split; [discriminate|].
    split; [unfold in_buffer, alen; cbn; lia|cbn; lia]. }
  assert (L : loose (state (mkEngine
                              (set_mode insert
                                 (state (engineAt ["ab"; "c"]
                                           (mkCursor 0 1))))
                              [] false))).
  { unfold loose. cbn. lia. }
  split; [reflexivity|]. split; [exact I|]. split; [exact L|].
  exact (enter_backspace_round_trip
           (mkEngine (set_mode insert
                        (state (engineAt ["ab"; "c"] (mkCursor 0 1))))
              [] false) eq_refl I L).
Defined.

(** One more character typed in insert mode. *)
Lemma typed_cons (c : ascii) (t : jstring) :
  typed (c :: t) = String.String c String.EmptyString :: typed t.
Proof. reflexivity. Qed.

(** Typing a text in insert mode, key by key. *)
Lemma insert_typing (t p q : jstring) (e : VimEngine) :
  mode (state e) = insert -> in_buffer (state e) (cursor (state e)) ->
  split_at_cursor (state e) p q ->
  handleKeys e (typed t)
  = Some (mkEngine
            (set_col (col (cursor (state e)) + JS.len t)
               (set_lines
                  (JS.aset (lines (state e))
                     (Z.to_nat (line (cursor (state e)))) (p ++ t ++ q))
                  (state e)))
            (countBuffer e) (commandTimeout e)).
Proof.
  revert p e. induction t as [|c t IH]; intros p e Hm Hb Hs.
  - cbn [typed map handleKeys]. unfold ret.
    destruct Hs as [Hs _]. cbn [app]. rewrite <- Hs.
    rewrite aset_current by exact Hb.
    change (JS.len []) with 0. rewrite Z.add_0_r.
    rewrite set_lines_col_same, engine_eta. reflexivity.
  - rewrite typed_cons. cbn [handleKeys].
    rewrite (insert_char_key e (press (String.String c String.EmptyString)) c
               Hm eq_refl eq_refl).
    rewrite (insertText_at [c] p q (state e) Hb Hs).
    cbn [break_ liftState bind ret fst snd]. change (JS.len [c]) with 1.
    set (s1 := set_col _ _).
    assert (B1 : in_buffer s1 (cursor s1)).
    { subst s1. unfold in_buffer in *. sproj. rewrite alen_aset. exact Hb. }
    assert (S1 : split_at_cursor s1 (p ++ [c]) q).
    { split.
      - subst s1. rewrite getCurrentLine_set by exact Hb.
        rewrite <- app_assoc. reflexivity.
      - destruct Hs as [_ Hp]. subst s1. sproj. rewrite len_app.
        change (JS.len [c]) with 1. lia. }
    rewrite (IH (p ++ [c]) (mkEngine s1 (countBuffer e) (commandTimeout e)));
      [|subst s1; sproj; exact Hm|exact B1|exact S1].
    cbn [state countBuffer commandTimeout]. do 2 f_equal.
    subst s1. unfold set_col, set_cursor, set_lines. sproj.
    rewrite aset_aset, len_cons, <- !app_assoc. cbn [app].
    replace (col (cursor (state e)) + 1 + JS.len t)
      with (col (cursor (state e)) + (1 + JS.len t)) by lia.
    reflexivity.
Qed.

Lemma backspace_key (e : VimEngine) :
  mode (state e) = insert ->
  handleKeyDown e (press "Backspace")
  = liftState e (break_ (backspace (state e))).
Proof. intros Hm. unfold handleKeyDown. rewrite Hm. reflexivity. Qed.

(** Erasing a typed text again, key by key. *)
Lemma insert_erasing (t p q : jstring) (e : VimEngine) :
  mode (state e) = insert -> in_buffer (state e) (cursor (state e)) ->
  split_at_cursor (state e) p q ->
  handleKeys
    (mkEngine
       (set_col (col (cursor (state e)) + JS.len t)
          (set_lines
             (JS.aset (lines (state e))
                (Z.to_nat (line (cursor (state e)))) (p ++ t ++ q))
             (state e)))
       (countBuffer e) (commandTimeout e))
    (repeat ("Backspace" : String.string) (length t))
  = Some e.
Proof.
  intros Hm Hb Hs. induction t as [|c t IH] using rev_ind.
  - cbn [length repeat handleKeys]. unfold ret.
    destruct Hs as [Hs _]. cbn [app]. rewrite <- Hs.
    rewrite aset_current by exact Hb.
    change (JS.len []) with 0. rewrite Z.add_0_r.
    rewrite set_lines_col_same, engine_eta. reflexivity.
  - rewrite length_app. cbn [length]. rewrite Nat.add_1_r.
    cbn [repeat handleKeys].
    set (s1 := set_col _ _).
    assert (B1 : in_buffer s1 (cursor s1)).
    { subst s1. unfold in_buffer in *. sproj. rewrite alen_aset. exact Hb. }
    assert (S1 : split_at_cursor s1 ((p ++ t) ++ [c]) q).
    { split.
      - subst s1. rewrite getCurrentLine_set by exact Hb.
        rewrite <- !app_assoc. reflexivity.
      - destruct Hs as [_ Hp]. subst s1. sproj. rewrite !len_app.
        change (JS.len [c]) with 1. lia. }
    rewrite backspace_key by (subst s1; sproj; exact Hm).
    cbn [state]. rewrite (backspace_at (p ++ t) q c s1 B1 S1).
    cbn [break_ liftState bind ret fst snd countBuffer commandTimeout].
    rewrite <- IH. do 2 f_equal.
    subst s1. unfold set_col, set_cursor, set_lines. sproj.
    rewrite aset_aset, len_app, <- !app_assoc.
    change (JS.len [c]) with 1.
    replace (col (cursor (state e)) + (JS.len t + 1) - 1)
      with (col (cursor (state e)) + JS.len t) by lia.
    reflexivity.
Qed.

(** X3: in insert mode, typing the characters of a text one key at a time
    inserts the text at the cursor: the current line [p ++ q], with the
    cursor between [p] and [q], becomes [p ++ t ++ q], no other line
    changes, and the cursor ends behind the text.  As many [Backspace]
    keys as characters were typed then take the engine back to exactly the
    state it had before. *)
Theorem typing_inserts_text (t p q : jstring) (e : VimEngine) :
  mode (state e) = insert -> in_buffer (state e) (cursor (state e)) ->
  split_at_cursor (state e) p q ->
  handleKeys e (typed t)
  = Some (mkEngine
            (set_col (col (cursor (state e)) + JS.len t)
               (set_lines
                  (JS.aset (lines (state e))
                     (Z.to_nat (line (cursor (state e)))) (p ++ t ++ q))
                  (state e)))
            (countBuffer e) (commandTimeout e))
  /\ handleKeys e
       (typed t ++ repeat ("Backspace" : String.string) (length t))
     = Some e.
Proof.
  intros Hm Hb Hs. split; [apply insert_typing; assumption|].
  rewrite handleKeys_app, (insert_typing t p q e Hm Hb Hs). cbn [bind].
  apply insert_erasing; assumption.
Qed.

Lemma typing_inserts_text_witness :
  let e := mkEngine (set_mode insert
                       (state (engineAt ["ad"] (mkCursor 0 1))))
             [] false in
  mode (state e) = insert /\ in_buffer (state e) (cursor (state e))
  /\ split_at_cursor (state e) "a" "d"
  /\ handleKeys e (typed "bc")
     = Some (mkEngine
               (set_col (col (cursor (state e)) + JS.len "bc")
                  (set_lines
                     (JS.aset (lines (state e))
                        (Z.to_nat (line (cursor (state e))))
                        ("a" ++ "bc" ++ "d"))
                     (state e)))
               (countBuffer e) (commandTimeout e))
  /\ handleKeys e
       (typed "bc"
          ++ repeat ("Backspace" : String.string)
               (length ("bc" : jstring)))
     = Some e.
Proof.
  assert (B : in_buffer
                (state (mkEngine
                          (set_mode insert
                             (state (engineAt ["ad"] (mkCursor 0 1))))
                          [] false))
                (cursor (state (mkEngine
                                  (set_mode insert
                                     (state (engineAt ["ad"] (mkCursor 0 1))))
                                  [] false)))).
  { unfold in_buffer, alen; cbn; lia. }
  assert (S : split_at_cursor
                (state (mkEngine
                          (set_mode insert
                             (state (engineAt ["ad"] (mkCursor 0 1))))
                          [] false)) "a" "d").
  { split; reflexivity. }
  split; [reflexivity|]. split; [exact B|]. split; [exact S|].
  exact (typing_inserts_text "bc" "a" "d"
           (mkEngine (set_mode insert
                        (state (engineAt ["ad"] (mkCursor 0 1)))) [] false)
           eq_refl B S).
Defined.

(** ** Key dispatch in normal mode *)

(** A key that passes every test ahead of the [switch] of
    [handleNormalMode] runs the single-key command, with the count, on a
    cleared command buffer. *)
Lemma normal_default (e : VimEngine) (ev : KeyboardEvent) :
  mode (state e) = normal ->
  count_rule (countBuffer e) (key ev) = false ->
  is_command (commandBuffer (state e) ++ key ev) = false ->
  is_prefix_key (key ev)
  && JS.eqb (commandBuffer (state e) ++ key ev) (key ev) = false ->
  takes_argument (commandBuffer (state e)) (key ev) = false ->
  handleKeyDown e ev
  = (r <- normalSwitch (countOf (countBuffer e))
            (set_commandBuffer [] (state e)) (key ev) ;;
     ret (mkEngine (fst r) [] false, snd r)).
Proof.
  intros Hm Hc Hi Hp Ha. unfold handleKeyDown. rewrite Hm.
  unfold handleNormalMode. cbv zeta. sproj.
  unfold count_rule in Hc. rewrite Hc.
  unfold is_command, case_ in Hi.
  cbn [map app existsb String.list_ascii_of_string] in Hi.
  repeat (apply orb_false_iff in Hi; destruct Hi as [?E Hi]).
  unfold unnamed in *. cbn [app String.list_ascii_of_string] in *.
  repeat match goal with
         | H : JS.eqb _ _ = false |- _ => rewrite H; clear H
         end.
  cbn [orb].
  unfold is_prefix_key in Hp. rewrite Hp.
  unfold takes_argument, case_ in Ha.
  cbn [map existsb String.list_ascii_of_string] in Ha.
  rewrite orb_false_r in Ha.
  destruct (JS.len (key ev) =? 1).
  - rewrite andb_true_r in Ha.
    repeat (apply orb_false_iff in Ha; destruct Ha as [?F Ha]).
    cbn [String.list_ascii_of_string] in *.
    rewrite F, F0, Ha. reflexivity.
  - rewrite !andb_false_r. reflexivity.
Qed.

(** On an engine with no pending prefix, the first key of a multi-key
    command is kept as the pending prefix and the decay timer is armed. *)
Lemma normal_prefix (e : VimEngine) (ev : KeyboardEvent) :
  mode (state e) = normal -> commandBuffer (state e) = [] ->
  count_rule (countBuffer e) (key ev) = false ->
  is_command (key ev) = false ->
  is_prefix_key (key ev) = true ->
  handleKeyDown e ev
  = Some (mkEngine (set_commandBuffer (key ev) (state e)) [] true, true).
Proof.
  intros Hm Hb Hc Hi Hp. unfold handleKeyDown. rewrite Hm.
  unfold handleNormalMode. cbv zeta. sproj.
  unfold count_rule in Hc. rewrite Hc. rewrite Hb. cbn [app].
  change ([] ++ key ev) with (key ev).
  unfold is_command, case_ in Hi.
  cbn [map app existsb String.list_ascii_of_string] in Hi.
  repeat (apply orb_false_iff in Hi; destruct Hi as [?E Hi]).
  unfold unnamed in *. cbn [app String.list_ascii_of_string] in *.
  repeat match goal with
         | H : JS.eqb _ _ = false |- _ => rewrite H; clear H
         end.
  cbn [orb].
  unfold is_prefix_key in Hp. rewrite Hp, eqb_refl. reflexivity.
Qed.

(** ** Decimal digits: [toString] and [parseInt] *)

Lemma digits_of_uint (d : Decimal.uint) :
  forallb JS.is_digit
    (String.list_ascii_of_string (DecimalString.NilEmpty.string_of_uint d))
  = true.
Proof. induction d; simpl; auto. Qed.

Lemma fold_digits_acc (d : Decimal.uint) (acc : positive) :
  fold_left (fun a c => 10 * a + (JS.code c - 48))
    (String.list_ascii_of_string (DecimalString.NilEmpty.string_of_uint d))
    (Z.pos acc)
  = Z.pos (Pos.of_uint_acc d acc).
Proof.
  revert acc. induction d; intros acc;
    cbn [DecimalString.NilEmpty.string_of_uint String.list_ascii_of_string
         fold_left Pos.of_uint_acc];
    [reflexivity|..];
    match goal with
    | |- context [JS.code ?c] =>
        let v := eval vm_compute in (JS.code c) in
        change (JS.code c) with v
    end;
    rewrite <- IHd; f_equal; lia.
Qed.

Lemma fold_digits (d : Decimal.uint) :
  fold_left (fun a c => 10 * a + (JS.code c - 48))
    (String.list_ascii_of_string (DecimalString.NilEmpty.string_of_uint d)) 0
  = Z.of_N (Pos.of_uint d).
Proof.
  induction d;
    cbn [DecimalString.NilEmpty.string_of_uint String.list_ascii_of_string
         fold_left Pos.of_uint];
    [reflexivity|..];
    match goal with
    | |- context [JS.code ?c] =>
        let v := eval vm_compute in (JS.code c) in
        change (JS.code c) with v
    end;
    [exact IHd|..];
    cbn [Z.of_N]; rewrite <- fold_digits_acc; f_equal.
Qed.

Lemma toString_pos (p : positive) :
  JS.toString (Z.pos p)
  = String.list_ascii_of_string
      (DecimalString.NilEmpty.string_of_uint (Pos.to_uint p)).
Proof.
  unfold JS.toString. cbn [Z.to_int DecimalString.NilZero.string_of_int].
  pose proof (DecimalPos.Unsigned.to_uint_nonnil p) as H.
  destruct (Pos.to_uint p); [congruence|..]; reflexivity.
Qed.

(** Reading back the decimal digits of a number gives the number. *)
Lemma parseInt_toString (n : Z) :
  0 <= n -> JS.parseInt (JS.toString n) = Some n.
Proof.
  intros H. destruct n as [|p|p]; [reflexivity| |lia].
  rewrite toString_pos. unfold JS.parseInt.
  rewrite digits_of_uint, fold_digits, DecimalPos.Unsigned.of_to.
  pose proof (DecimalPos.Unsigned.to_uint_nonnil p) as Hn.
  destruct (Pos.to_uint p); [congruence|..]; reflexivity.
Qed.

Lemma nzhead_not_D0 (d : Decimal.uint) :
  match Decimal.nzhead d with Decimal.D0 _ => False | _ => True end.
Proof. induction d; simpl; auto. Qed.

(** The digits of a positive number start with one of 1 to 9. *)
Lemma toString_head (n : Z) :
  1 <= n ->
  exists c t,
    JS.toString n = c :: t /\ is_key_1_9 [c] = true
    /\ forallb JS.is_digit t = true.
Proof.
  intros H. destruct n as [|p|p]; try lia.
  rewrite toString_pos.
  pose proof (DecimalPos.Unsigned.to_of (Pos.to_uint p)) as E.
  rewrite DecimalPos.Unsigned.of_to in E. cbn [N.to_uint] in E.
  pose proof (DecimalPos.Unsigned.to_uint_nonzero p) as Hz.
  pose proof (nzhead_not_D0 (Pos.to_uint p)) as Hh.
  pose proof (digits_of_uint (Pos.to_uint p)) as Hd.
  unfold Decimal.unorm in E.
  destruct (Decimal.nzhead (Pos.to_uint p)) eqn:N;
    [rewrite <- E in Hz; congruence|contradiction|..];
    rewrite E in Hd |- *;
    cbn [DecimalString.NilEmpty.string_of_uint String.list_ascii_of_string]
      in Hd |- *;
    eexists; eexists; (split; [reflexivity|]);
    (split; [reflexivity|]);
    cbn [forallb] in Hd; apply andb_true_iff in Hd; apply Hd.
Qed.

Lemma countOf_toString (n : Z) : 1 <= n -> countOf (JS.toString n) = n.
Proof.
  intros H. unfold countOf. rewrite parseInt_toString by lia.
  replace (n =? 0) with false by lia. reflexivity.
Qed.

(** A digit differs from every character that is not a digit. *)
Lemma digit_neq (c x : ascii) :
  JS.is_digit c = true -> JS.is_digit x = false -> Ascii.eqb c x = false.
Proof.
  intros Hc Hx. destruct (Ascii.eqb c x) eqn:E; [|reflexivity].
  apply Ascii.eqb_eq in E. subst. congruence.
Qed.

Lemma eqb_digit_head (c x : ascii) (t l : jstring) :
  JS.is_digit c = true -> JS.is_digit x = false ->
  JS.eqb (c :: t) (x :: l) = false.
Proof. intros Hc Hx. cbn [JS.eqb]. now rewrite (digit_neq c x Hc Hx). Qed.

Lemma key_1_9_digit (c : ascii) : is_key_1_9 [c] = true -> JS.is_digit c = true.
Proof.
  unfold is_key_1_9, JS.is_digit. intros H.
  apply andb_true_iff in H. apply andb_true_iff. split; [|tauto].
  destruct H as [H _]. apply Z.leb_le in H. apply Z.leb_le. lia.
Qed.

(** ** Counts *)

Lemma count_key (e : VimEngine) (ev : KeyboardEvent) :
  mode (state e) = normal ->
  count_rule (countBuffer e) (key ev) = true ->
  handleKeyDown e ev
  = Some (mkEngine (set_commandBuffer (countBuffer e ++ key ev) (state e))
            (countBuffer e ++ key ev) false, true).
Proof.
  intros Hm Hc. unfold handleKeyDown. rewrite Hm.
  unfold handleNormalMode. cbv zeta. sproj.
  unfold count_rule in Hc. rewrite Hc. reflexivity.
Qed.

Lemma nonempty_app (a b : jstring) : b <> [] -> nonempty (a ++ b) = true.
Proof. destruct a, b; simpl; congruence. Qed.

(** Typing a digit that starts or continues a count, and more digits. *)
Lemma count_keys (t : jstring) (c : ascii) (e : VimEngine) :
  mode (state e) = normal ->
  count_rule (countBuffer e) [c] = true ->
  forallb JS.is_digit t = true ->
  handleKeys e (typed (c :: t))
  = Some (mkEngine
            (set_commandBuffer (countBuffer e ++ c :: t) (state e))
            (countBuffer e ++ c :: t) false).
Proof.
  revert c e. induction t as [|c' t IH]; intros c e Hm Hc Hd.
  - rewrite typed_cons. cbn [typed map handleKeys].
    rewrite (count_key e (press (String.String c String.EmptyString)) Hm Hc).
    reflexivity.
  - rewrite typed_cons. cbn [handleKeys].
    rewrite (count_key e (press (String.String c String.EmptyString)) Hm Hc).
    cbn [bind fst]. cbn [forallb] in Hd. apply andb_true_iff in Hd.
    destruct Hd as [Hd1 Hd2].
    rewrite IH; [| exact Hm | | exact Hd2].
    + cbn [state countBuffer key press String.list_ascii_of_string].
      rewrite <- app_assoc. reflexivity.
    + unfold count_rule.
      cbn [state countBuffer key press String.list_ascii_of_string].
      rewrite nonempty_app by discriminate.
      cbn [is_key_0_9]. rewrite Hd1. apply orb_true_r.
Qed.

Lemma eqb_app_longer (d k : jstring) : d <> [] -> JS.eqb (d ++ k) k = false.
Proof.
  intros H. apply eqb_neq. intros E. apply (f_equal (@length ascii)) in E.
  rewrite length_app in E. destruct d; [congruence|]. simpl in E. lia.
Qed.

Lemma key_0_9_of_1_9 (k : jstring) :
  is_key_0_9 k = false -> is_key_1_9 k = false.
Proof.
  destruct k as [|c [|? ?]]; try reflexivity.
  intros H. destruct (is_key_1_9 [c]) eqn:E; [|reflexivity].
  apply key_1_9_digit in E. cbn [is_key_0_9] in H. congruence.
Qed.

(** A buffer that starts with a digit is no multi-key command and no
    prefix that takes an argument. *)
Lemma digits_no_command (c : ascii) (t : jstring) :
  JS.is_digit c = true -> is_command (c :: t) = false.
Proof.
  intros H. unfold is_command, case_, unnamed.
  cbn [map app existsb String.list_ascii_of_string].
  rewrite !(eqb_digit_head c) by (exact H || reflexivity). reflexivity.
Qed.

Lemma digits_no_argument (c : ascii) (t k : jstring) :
  JS.is_digit c = true -> takes_argument (c :: t) k = false.
Proof.
  intros H. unfold takes_argument, case_.
  cbn [map existsb String.list_ascii_of_string].
  rewrite !(eqb_digit_head c) by (exact H || reflexivity). reflexivity.
Qed.

Lemma set_commandBuffer_idle (b : jstring) (s : EditorState) :
  commandBuffer s = [] -> set_commandBuffer [] (set_commandBuffer b s) = s.
Proof.
  intros H. unfold set_commandBuffer. sproj. rewrite <- H. apply state_eta.
Qed.

(** The decimal digits of [n] and then a key that is no digit: the
    single-key command runs with the count [n]. *)
Lemma counted_key (e : VimEngine) (n : Z) (k : String.string) :
  idle e -> 1 <= n -> is_key_0_9 k = false ->
  handleKeys e (typed (JS.toString n) ++ [k])
  = (r <- normalSwitch n (state e) k ;; ret (mkEngine (fst r) [] false)).
Proof.
  intros (Hm & Hb & Hc) Hn Hk.
  destruct (toString_head n Hn) as (c & t & Ht & H1 & Hd).
  pose proof (key_1_9_digit c H1) as Hc1.
  rewrite handleKeys_app, Ht.
  rewrite count_keys; [|exact Hm|unfold count_rule; rewrite H1; reflexivity
                       |exact Hd].
  rewrite Hc. cbn [app bind handleKeys].
  rewrite normal_default.
  - cbn [state countBuffer key press]. rewrite <- Ht.
    rewrite countOf_toString by exact Hn.
    rewrite set_commandBuffer_idle by exact Hb.
    destruct (normalSwitch n (state e) k) as [[s' b]|]; reflexivity.
  - exact Hm.
  - cbn [state countBuffer key press]. unfold count_rule.
    rewrite Hk, (key_0_9_of_1_9 _ Hk). reflexivity.
  - cbn [state key press]. sproj. cbn [app].
    apply digits_no_command. exact Hc1.
  - cbn [state key press]. sproj.
    rewrite eqb_app_longer by discriminate. apply andb_false_r.
  - cbn [state key press]. sproj. apply digits_no_argument. exact Hc1.
Qed.

Lemma set_col_set_col (a b : Z) (s : EditorState) :
  set_col a (set_col b s) = set_col a s.
Proof. reflexivity. Qed.

Lemma set_line_same (s : EditorState) : set_line (line (cursor s)) s = s.
Proof. destruct s as [? [? ?] ? ? ? ? ? ?]. reflexivity. Qed.

Lemma iter_left (m : nat) (s : EditorState) :
  0 <= col (cursor s) ->
  Nat.iter m (fun s => set_col (Z.max 0 (col (cursor s) - 1)) s) s
  = set_col (Z.max 0 (col (cursor s) - Z.of_nat m)) s.
Proof.
  intros H. induction m as [|m IH].
  - change (Nat.iter 0 ?f s) with s. replace (Z.max 0 _) with (col (cursor s)) by lia.
    symmetry. apply set_col_same.
  - rewrite Nat.iter_succ, IH. sproj. rewrite set_col_set_col.
    f_equal. lia.
Qed.

Lemma iter_right (m : nat) (s : EditorState) :
  tight s ->
  Nat.iter m
    (fun s => let maxCol := Z.max 0 (JS.len (getCurrentLine s) - 1) in
              set_col (Z.min maxCol (col (cursor s) + 1)) s) s
  = set_col (Z.min (col (cursor s) + Z.of_nat m)
               (Z.max 0 (JS.len (getCurrentLine s) - 1))) s.
Proof.
  unfold tight. intros H. induction m as [|m IH].
  - change (Nat.iter 0 ?f s) with s. replace (Z.min _ _) with (col (cursor s)) by lia.
    symmetry. apply set_col_same.
  - rewrite Nat.iter_succ, IH. cbv zeta.
    change (getCurrentLine (set_col ?c s)) with (getCurrentLine s).
    sproj. rewrite set_col_set_col. f_equal. lia.
Qed.

Lemma iter_down (m : nat) (s : EditorState) :
  line (cursor s) <= alen (lines s) - 1 ->
  Nat.iter m
    (fun s => set_line (Z.min (alen (lines s) - 1) (line (cursor s) + 1)) s)
    s
  = set_line (Z.min (line (cursor s) + Z.of_nat m) (alen (lines s) - 1)) s.
Proof.
  intros H. induction m as [|m IH].
  - change (Nat.iter 0 ?f s) with s. replace (Z.min _ _) with (line (cursor s)) by lia.
    symmetry. apply set_line_same.
  - rewrite Nat.iter_succ, IH. sproj.
    unfold set_line at 1 3. sproj. unfold set_cursor. sproj.
    do 2 f_equal. lia.
Qed.

Lemma iter_up (m : nat) (s : EditorState) :
  0 <= line (cursor s) ->
  Nat.iter m (fun s => set_line (Z.max 0 (line (cursor s) - 1)) s) s
  = set_line (Z.max 0 (line (cursor s) - Z.of_nat m)) s.
Proof.
  intros H. induction m as [|m IH].
  - change (Nat.iter 0 ?f s) with s. replace (Z.max 0 _) with (line (cursor s)) by lia.
    symmetry. apply set_line_same.
  - rewrite Nat.iter_succ, IH. sproj.
    unfold set_line at 1 3. sproj. unfold set_cursor. sproj.
    do 2 f_equal. lia.
Qed.

(** X4: the decimal digits of a count [n >= 1] followed by [h], [l], [j]
    or [k] move the cursor [n] columns or lines, stopping at the first
    column, at the last character of the line, at the last line or at the
    first line; [j] and [k] then bring the column within the new line.
    Nothing but the cursor changes, and the count is spent. *)
Theorem counted_motion (e : VimEngine) (n : Z) :
  idle e -> Inv (state e) -> tight (state e) -> 1 <= n ->
  let s := state e in
  let lands (k : String.string) (c : CursorPosition) :=
    handleKeys e (typed (JS.toString n) ++ [k])
    = Some (mkEngine (set_cursor c s) [] false) in
  lands "h" (mkCursor (line (cursor s)) (Z.max 0 (col (cursor s) - n)))
  /\ lands "l"
       (mkCursor (line (cursor s))
          (Z.min (col (cursor s) + n)
             (Z.max 0 (JS.len (getCurrentLine s) - 1))))
  /\ lands "j"
       (clampCursor s
          (mkCursor (Z.min (line (cursor s) + n) (alen (lines s) - 1))
             (col (cursor s))))
  /\ lands "k"
       (clampCursor s
          (mkCursor (Z.max 0 (line (cursor s) - n)) (col (cursor s)))).
Proof.
  intros Hi (I1 & I2 & I3) Ht Hn s lands. subst lands s. cbv beta.
  unfold in_buffer in I2.
  assert (Zn : Z.of_nat (Z.to_nat n) = n) by lia.
  split; [|split; [|split]].
  - rewrite (counted_key e n "h" Hi Hn eq_refl).
    change (normalSwitch n (state e) "h")
      with (break_ (ret (times n
              (fun s => set_col (Z.max 0 (col (cursor s) - 1)) s)
              (state e)))).
    unfold times. rewrite iter_left by exact I3. rewrite Zn. reflexivity.
  - rewrite (counted_key e n "l" Hi Hn eq_refl).
    change (normalSwitch n (state e) "l")
      with (break_ (ret (times n
              (fun s =>
                 let maxCol := Z.max 0 (JS.len (getCurrentLine s) - 1) in
                 set_col (Z.min maxCol (col (cursor s) + 1)) s)
              (state e)))).
    unfold times. rewrite iter_right by exact Ht. rewrite Zn. reflexivity.
  - rewrite (counted_key e n "j" Hi Hn eq_refl).
    change (normalSwitch n (state e) "j")
      with (let s1 := times n
              (fun s => set_line (Z.min (alen (lines s) - 1)
                                    (line (cursor s) + 1)) s)
              (state e) in
            break_ (ret (set_cursor (clampCursor s1 (cursor s1)) s1))).
    unfold times. rewrite iter_down by lia. rewrite Zn. reflexivity.
  - rewrite (counted_key e n "k" Hi Hn eq_refl).
    change (normalSwitch n (state e) "k")
      with (let s1 := times n
              (fun s => set_line (Z.max 0 (line (cursor s) - 1)) s)
              (state e) in
            break_ (ret (set_cursor (clampCursor s1 (cursor s1)) s1))).
    unfold times. rewrite iter_up by lia. rewrite Zn. reflexivity.
Qed.

Lemma counted_motion_witness :
  let e := engineAt ["abcdef"; "gh"; "ijk"; "l"] (mkCursor 1 1) in
  idle e /\ Inv (state e) /\ tight (state e) /\ 1 <= 12
  /\ (let s := state e in
      let lands (k : String.string) (c : CursorPosition) :=
        handleKeys e (typed (JS.toString 12) ++ [k])
        = Some (mkEngine (set_cursor c s) [] false) in
      lands "h" (mkCursor (line (cursor s)) (Z.max 0 (col (cursor s) - 12)))
      /\ lands "l"
           (mkCursor (line (cursor s))
              (Z.min (col (cursor s) + 12)
                 (Z.max 0 (JS.len (getCurrentLine s) - 1))))
      /\ lands "j"
           (clampCursor s
              (mkCursor (Z.min (line (cursor s) + 12) (alen (lines s) - 1))
                 (col (cursor s))))
      /\ lands "k"
           (clampCursor s
              (mkCursor (Z.max 0 (line (cursor s) - 12)) (col (cursor s))))).
Proof.
  assert (Hi : idle (engineAt ["abcdef"; "gh"; "ijk"; "l"] (mkCursor 1 1)))
    by (repeat split).
  assert (I : Inv (state (engineAt ["abcdef"; "gh"; "ijk"; "l"]
                            (mkCursor 1 1)))).
  { split; [discriminate|].
    split; [unfold in_buffer, alen; cbn; lia|cbn; lia]. }
  assert (T : tight (state (engineAt ["abcdef"; "gh"; "ijk"; "l"]
                              (mkCursor 1 1)))).
  { unfold tight. apply Z.leb_le. vm_compute. reflexivity. }
  assert (N : 1 <= 12) by lia.
  split; [exact Hi|]. split; [exact I|]. split; [exact T|].
  split; [exact N|].
  exact (counted_motion (engineAt ["abcdef"; "gh"; "ijk"; "l"] (mkCursor 1 1))
           12 Hi I T N).
Defined.

(** X5: a count typed before [dd], [yy], [cc] or [gg] is lost.  The digits
    replace the command buffer, so the first operator key finds a buffer
    that is neither a command nor the key alone: it clears the buffer and
    the count and does nothing else.  The second key then starts a new
    pending prefix.  After the digits of [n >= 1] and the key twice, the
    engine is where one press of the key would have taken it: no line is
    deleted, yanked or changed and the cursor has not moved. *)
Theorem count_lost_before_operator (e : VimEngine) (n : Z)
  (k : String.string) :
  idle e -> 1 <= n ->
  In (k : jstring) (case_ ["d"; "y"; "c"; "g"]) ->
  handleKeys e (typed (JS.toString n) ++ [k; k])
  = Some (mkEngine (set_commandBuffer k (state e)) [] true)
  /\ handleKeys e [k]
     = Some (mkEngine (set_commandBuffer k (state e)) [] true).
Proof.
  intros Hi Hn Hk. pose proof Hi as (Hm & Hb & Hc).
  assert (K : is_key_0_9 k = false /\ is_prefix_key k = true
              /\ is_command k = false
              /\ forall s, normalSwitch n s k = Some (s, false)).
  { unfold case_ in Hk. cbn [map In] in Hk.
    destruct Hk as [<-|[<-|[<-|[<-|[]]]]]; repeat split; reflexivity. }
  destruct K as (K1 & K2 & K3 & K4).
  assert (P : forall e0, mode (state e0) = normal ->
                commandBuffer (state e0) = [] -> countBuffer e0 = [] ->
                handleKeys e0 [k]
                = Some (mkEngine (set_commandBuffer k (state e0)) [] true)).
  { intros e0 M0 B0 C0. cbn [handleKeys].
    rewrite normal_prefix; try assumption; [reflexivity|].
    rewrite C0. unfold count_rule.
    cbn [key press]. rewrite K1, (key_0_9_of_1_9 _ K1). reflexivity. }
  split; [|apply P; assumption].
  change [k; k] with ([k] ++ [k]). rewrite app_assoc, handleKeys_app.
  rewrite (counted_key e n k Hi Hn K1), K4. cbn [bind fst ret].
  rewrite P by (cbn [state countBuffer]; first [assumption|reflexivity]).
  reflexivity.
Qed.

Lemma count_lost_before_operator_witness :
  let e := engineAt ["a"; "b"; "c"] (mkCursor 0 0) in
  idle e /\ 1 <= 2
  /\ In ("d" : jstring) (case_ ["d"; "y"; "c"; "g"])
  /\ handleKeys e (typed (JS.toString 2) ++ ["d"; "d"])
     = Some (mkEngine (set_commandBuffer "d" (state e)) [] true)
  /\ handleKeys e ["d"]
     = Some (mkEngine (set_commandBuffer "d" (state e)) [] true).
Proof.
  assert (Hi : idle (engineAt ["a"; "b"; "c"] (mkCursor 0 0)))
    by (repeat split).
  assert (N : 1 <= 2) by lia.
  assert (K : In ("d" : jstring) (case_ ["d"; "y"; "c"; "g"]))
    by (left; reflexivity).
  split; [exact Hi|]. split; [exact N|]. split; [exact K|].
  exact (count_lost_before_operator (engineAt ["a"; "b"; "c"] (mkCursor 0 0))
           2 "d" Hi N K).
Defined.

(** ** The command line *)

(** A character key on the command line is appended to the buffer. *)
Lemma command_char_key (e : VimEngine) (ev : KeyboardEvent) (c : ascii) :
  mode (state e) = command -> key ev = [c] ->
  handleKeyDown e ev
  = Some (mkEngine
            (set_commandBuffer (commandBuffer (state e) ++ [c]) (state e))
            (countBuffer e) (commandTimeout e), true).
Proof.
  intros Hm Hk. unfold handleKeyDown. rewrite Hm.
  unfold handleCommandMode. rewrite Hk.
  rewrite switch_char by named_keys. reflexivity.
Qed.

Lemma set_commandBuffer_same (s : EditorState) :
  set_commandBuffer (commandBuffer s) s = s.
Proof. destruct s; reflexivity. Qed.

Lemma command_typing (t : jstring) (e : VimEngine) :
  mode (state e) = command ->
  handleKeys e (typed t)
  = Some (mkEngine
            (set_commandBuffer (commandBuffer (state e) ++ t) (state e))
            (countBuffer e) (commandTimeout e)).
Proof.
  revert e. induction t as [|c t IH]; intros e Hm.
  - cbn [typed map handleKeys]. rewrite app_nil_r, set_commandBuffer_same,
      engine_eta. reflexivity.
  - rewrite typed_cons. cbn [handleKeys].
    rewrite (command_char_key e
               (press (String.String c String.EmptyString)) c Hm eq_refl).
    cbn [bind fst].
    rewrite IH by exact Hm. cbn [state countBuffer commandTimeout]. sproj.
    rewrite <- app_assoc. reflexivity.
Qed.

(** [:] and [/] open the command line. *)
Lemma open_command_line (e : VimEngine) :
  idle e ->
  handleKeys e [":"]
  = Some (mkEngine (set_commandBuffer ":" (set_mode command (state e)))
            [] false)
  /\ handleKeys e ["/"]
     = Some (mkEngine (set_commandBuffer "/" (set_mode command (state e)))
               [] false).
Proof.
  intros (Hm & Hb & Hc). cbn [handleKeys].
  split; rewrite normal_default;
    try (rewrite ?Hb, ?Hc; reflexivity); try exact Hm.
Qed.

Lemma toString_digits (n : Z) :
  0 <= n ->
  exists c t,
    JS.toString n = c :: t /\ JS.is_digit c = true
    /\ forallb JS.is_digit t = true.
Proof.
  intros H. destruct (Z.eq_dec n 0) as [->|N].
  - exists "0"%char, []. repeat split.
  - destruct (toString_head n ltac:(lia)) as (c & t & E & H1 & H2).
    exists c, t. split; [exact E|]. split; [|exact H2].
    apply key_1_9_digit. exact H1.
Qed.

(** X6: the line-number command.  From normal mode with nothing pending,
    [:], the decimal digits of [n] and [Enter] move the cursor to line
    [n - 1] counted from 0, or to the first line if [n] is 0 and to the
    last line if [n] exceeds the number of lines; the column is brought
    within the new line, the engine is back in normal mode with an empty
    command buffer, and nothing else changes. *)
Theorem goto_line (e : VimEngine) (n : Z) :
  idle e -> 0 <= n ->
  let s := state e in
  handleKeys e ([":"] ++ typed (JS.toString n) ++ ["Enter"])
  = Some (mkEngine
            (set_cursor
               (clampCursor s
                  (mkCursor (Z.max 0 (Z.min (n - 1) (alen (lines s) - 1)))
                     (col (cursor s)))) s)
            [] false).
Proof.
  intros Hi Hn s. subst s. pose proof Hi as (Hm & Hb & Hc).
  destruct (toString_digits n Hn) as (c & t & Ht & Hd & Hds).
  rewrite handleKeys_app, (proj1 (open_command_line e Hi)).
  cbn [bind]. rewrite handleKeys_app, command_typing by reflexivity.
  cbn [bind state countBuffer commandTimeout handleKeys]. sproj.
  unfold handleKeyDown. cbn [state]. sproj.
  change (handleCommandMode ?x (key (press "Enter")))
    with (s' <- executeCommand x ;; ret (s', true)).
  unfold executeCommand. cbv zeta. sproj.
  change (JS.startsWith (":" ++ JS.toString n) "/") with false.
  change (JS.startsWith (":" ++ JS.toString n) ":") with true.
  cbv iota. change (":" ++ JS.toString n) with (":"%char :: JS.toString n).
  rewrite sliceFrom_1, Ht. cbn [String.list_ascii_of_string].
  rewrite !(eqb_digit_head c) by (exact Hd || reflexivity). cbn [orb].
  unfold JS.test_digits. cbn [length Nat.eqb negb forallb andb].
  rewrite Hd, Hds. cbn [andb]. rewrite <- Ht.
  rewrite parseInt_toString by exact Hn.
  cbn [bind ret liftState fst snd]. unfold ret.
  match goal with
  | |- Some (mkEngine ?x _ _) = Some (mkEngine ?y _ _) =>
      assert (E : x = y); [|rewrite E; reflexivity]
  end.
  unfold clampCursor, set_line, set_cursor, set_commandBuffer, set_mode.
  sproj. rewrite ?Hm, ?Hb. reflexivity.
Qed.

Lemma goto_line_witness :
  let e := engineAt ["abc"; ""; "de"] (mkCursor 0 2) in
  idle e /\ 0 <= 3
  /\ (let s := state e in
      handleKeys e ([":"] ++ typed (JS.toString 3) ++ ["Enter"])
      = Some (mkEngine
                (set_cursor
                   (clampCursor s
                      (mkCursor
                         (Z.max 0 (Z.min (3 - 1) (alen (lines s) - 1)))
                         (col (cursor s)))) s)
                [] false)).
Proof.
  assert (Hi : idle (engineAt ["abc"; ""; "de"] (mkCursor 0 2)))
    by (repeat split).
  assert (N : 0 <= 3) by lia.
  split; [exact Hi|]. split; [exact N|].
  exact (goto_line (engineAt ["abc"; ""; "de"] (mkCursor 0 2)) 3 Hi N).
Defined.

(** ** Repeated search *)

Lemma aget_In {A} (l : list A) (i : Z) (x : A) :
  JS.aget l i = Some x -> In x l.
Proof.
  intros H. pose proof (aget_range _ _ _ H).
  rewrite aget_nth_error in H by lia. eapply nth_error_In; eauto.
Qed.

(** [indexOf] in terms of occurrences, for a start position that is not
    negative and a pattern that is not empty. *)
Lemma indexOf_none (s p : jstring) (from : Z) :
  0 <= from -> p <> [] ->
  (JS.indexOf s p from = -1
   <-> forall k, from <= Z.of_nat k -> ~ occurs_at p s k).
Proof.
  intros Hf Hp. pose proof (len_pos p Hp) as Lp.
  destruct (indexOf_spec s p from) as [[H1 H2]|(H0 & H1 & H2 & H3)];
    cbv zeta in *; split.
  - intros _ k Hk. apply H2. unfold JS.clamp. lia.
  - auto.
  - lia.
  - intros H. exfalso. apply (H (Z.to_nat (JS.indexOf s p from))); auto.
    pose proof (occurs_at_length _ _ _ H2).
    unfold JS.clamp, JS.len in *. lia.
Qed.

Lemma indexOf_first (s p : jstring) (from k : Z) :
  0 <= from -> p <> [] -> from <= k ->
  occurs_at p s (Z.to_nat k) ->
  (forall k', from <= Z.of_nat k' -> occurs_at p s k' -> k <= Z.of_nat k') ->
  JS.indexOf s p from = k.
Proof.
  intros Hf Hp Hk Ho Hmin. pose proof (len_pos p Hp) as Lp.
  destruct (indexOf_spec s p from) as [[H1 H2]|(H0 & H1 & H2 & H3)];
    cbv zeta in *.
  - exfalso. apply (H2 (Z.to_nat k)); auto. unfold JS.clamp. lia.
  - pose proof (occurs_at_length _ _ _ H2).
    assert (from <= JS.indexOf s p from)
      by (unfold JS.clamp, JS.len in *; lia).
    specialize (Hmin (Z.to_nat (JS.indexOf s p from)) ltac:(lia) H2).
    specialize (H3 (Z.to_nat k) ltac:(unfold JS.clamp; lia) Ho). lia.
Qed.

Lemma indexOf_occurs (s p : jstring) (from : Z) :
  JS.indexOf s p from <> -1 ->
  0 <= JS.indexOf s p from
  /\ occurs_at p s (Z.to_nat (JS.indexOf s p from)).
Proof.
  intros H.
  destruct (indexOf_spec s p from) as [[H1 H2]|(H0 & H1 & H2 & H3)];
    cbv zeta in *; [congruence|auto].
Qed.

Lemma lastIndexOf_occurs (s p : jstring) (from : Z) :
  JS.lastIndexOf s p from <> -1 ->
  0 <= JS.lastIndexOf s p from
  /\ occurs_at p s (Z.to_nat (JS.lastIndexOf s p from)).
Proof.
  intros H.
  destruct (lastIndexOf_spec s p from) as [[H1 H2]|(H0 & H1 & H2 & H3)];
    cbv zeta in *; [congruence|auto].
Qed.

(** The forward loop lands on an occurrence of the pattern or leaves the
    state alone. *)
Lemma searchNext_loop_sound (n : nat) (i : Z) (pattern : jstring)
  (startLine startCol : Z) (s : EditorState) :
  lines s <> [] -> 0 <= startLine + i ->
  exists s',
    searchNext_loop n i pattern startLine startCol s = Some s'
    /\ (s' = s
        \/ exists c l,
             s' = set_cursor c s /\ JS.aget (lines s) (line c) = Some l
             /\ 0 <= col c
             /\ occurs_at pattern (JS.toLowerCase l) (Z.to_nat (col c)))
    /\ ((forall l, In l (lines s) -> absent pattern (JS.toLowerCase l)) ->
        s' = s).
Proof.
  intros I1 Hs. revert i Hs. induction n as [|n IH]; intros i Hs; simpl.
  - exists s. split; [reflexivity|]. auto.
  - pose proof (alen_pos _ I1).
    pose proof (Z.rem_bound_pos (startLine + i) (alen (lines s))
                  ltac:(lia) ltac:(lia)) as Hr.
    destruct (aget_Some _ _ Hr) as [l Hl]. rewrite Hl. cbn [bind].
    match goal with |- context [JS.indexOf ?a ?b ?c] =>
      set (idx := JS.indexOf a b c) in * end.
    destruct (idx =? -1) eqn:E; cbn [negb]; [apply IH; lia|].
    apply Z.eqb_neq in E. destruct (indexOf_occurs _ _ _ E) as [O1 O2].
    eexists. split; [reflexivity|]. split.
    + right. eexists. exists l. split; [reflexivity|]. sproj. auto.
    + intros Ha. exfalso. apply (Ha l (aget_In _ _ _ Hl) _ O2).
Qed.

Lemma searchPrev_loop_sound (n : nat) (i : Z) (pattern : jstring)
  (startLine startCol : Z) (s : EditorState) :
  lines s <> [] -> 0 <= startLine -> 0 <= i ->
  Z.of_nat n + i <= alen (lines s) ->
  exists s',
    searchPrev_loop n i pattern startLine startCol s = Some s'
    /\ (s' = s
        \/ exists c l,
             s' = set_cursor c s /\ JS.aget (lines s) (line c) = Some l
             /\ 0 <= col c
             /\ occurs_at pattern (JS.toLowerCase l) (Z.to_nat (col c)))
    /\ ((forall l, In l (lines s) -> absent pattern (JS.toLowerCase l)) ->
        s' = s).
Proof.
  intros I1 Hs. revert i. induction n as [|n IH]; intros i Hi Hn; simpl.
  - exists s. split; [reflexivity|]. auto.
  - pose proof (alen_pos _ I1).
    pose proof (Z.rem_bound_pos (startLine - i + alen (lines s))
                  (alen (lines s)) ltac:(lia) ltac:(lia)) as Hr.
    destruct (aget_Some _ _ Hr) as [l Hl]. rewrite Hl. cbn [bind].
    match goal with |- context [JS.lastIndexOf ?a ?b ?c] =>
      set (idx := JS.lastIndexOf a b c) in * end.
    destruct (idx =? -1) eqn:E; cbn [negb]; [apply IH; lia|].
    apply Z.eqb_neq in E. destruct (lastIndexOf_occurs _ _ _ E) as [O1 O2].
    eexists. split; [reflexivity|]. split.
    + right. eexists. exists l. split; [reflexivity|]. sproj. auto.
    + intros Ha. exfalso. apply (Ha l (aget_In _ _ _ Hl) _ O2).
Qed.

(** X7: [n] and [N] ([searchNext], [searchPrev]) either leave the state as
    it is or move the cursor, and nothing but the cursor, to a position
    where the last search pattern occurs, compared without regard to case.
    When the pattern occurs on no line of the buffer, both leave the state
    as it is. *)
Theorem search_lands_on_match (s : EditorState) :
  Inv s ->
  (exists s',
     searchNext s = Some s'
     /\ (s' = s \/ exists c, s' = set_cursor c s /\ match_at s c))
  /\ (exists s',
        searchPrev s = Some s'
        /\ (s' = s \/ exists c, s' = set_cursor c s /\ match_at s c))
  /\ ((forall l, In l (lines s) ->
                 absent (JS.toLowerCase (lastSearch s)) (JS.toLowerCase l)) ->
      searchNext s = Some s /\ searchPrev s = Some s).
Proof.
  intros (I1 & I2 & I3). unfold in_buffer in I2.
  assert (N : exists s',
            searchNext s = Some s'
            /\ (s' = s \/ exists c, s' = set_cursor c s /\ match_at s c)
            /\ ((forall l, In l (lines s) ->
                   absent (JS.toLowerCase (lastSearch s))
                     (JS.toLowerCase l)) -> s' = s)).
  { unfold searchNext. destruct (lastSearch s) as [|a p] eqn:E.
    - exists s. split; [reflexivity|]. auto.
    - rewrite <- E.
      destruct (searchNext_loop_sound (length (lines s)) 0
                  (JS.toLowerCase (lastSearch s)) (line (cursor s))
                  (col (cursor s) + 1) s I1 ltac:(lia))
        as (s' & H1 & H2 & H3).
      exists s'. split; [exact H1|]. split; [|exact H3].
      destruct H2 as [H2|(c & l & H2 & H4 & H5 & H6)]; [auto|].
      right. exists c. split; [exact H2|]. exists l. auto. }
  assert (P : exists s',
            searchPrev s = Some s'
            /\ (s' = s \/ exists c, s' = set_cursor c s /\ match_at s c)
            /\ ((forall l, In l (lines s) ->
                   absent (JS.toLowerCase (lastSearch s))
                     (JS.toLowerCase l)) -> s' = s)).
  { unfold searchPrev. destruct (lastSearch s) as [|a p] eqn:E.
    - exists s. split; [reflexivity|]. auto.
    - rewrite <- E.
      destruct (searchPrev_loop_sound (length (lines s)) 0
                  (JS.toLowerCase (lastSearch s)) (line (cursor s))
                  (col (cursor s) - 1) s I1 ltac:(lia) ltac:(lia)
                  ltac:(unfold alen; lia))
        as (s' & H1 & H2 & H3).
      exists s'. split; [exact H1|]. split; [|exact H3].
      destruct H2 as [H2|(c & l & H2 & H4 & H5 & H6)]; [auto|].
      right. exists c. split; [exact H2|]. exists l. auto. }
  destruct N as (s1 & N1 & N2 & N3). destruct P as (s2 & P1 & P2 & P3).
  split; [exists s1; auto|]. split; [exists s2; auto|].
  intros Ha. rewrite N1, P1, (N3 Ha), (P3 Ha). auto.
Qed.

Lemma search_lands_on_match_witness :
  let s := state (searchEngine "a" ["xA"; "b"] (mkCursor 1 0)) in
  Inv s
  /\ (exists s',
        searchNext s = Some s'
        /\ (s' = s \/ exists c, s' = set_cursor c s /\ match_at s c))
  /\ (exists s',
        searchPrev s = Some s'
        /\ (s' = s \/ exists c, s' = set_cursor c s /\ match_at s c))
  /\ ((forall l, In l (lines s) ->
                 absent (JS.toLowerCase (lastSearch s)) (JS.toLowerCase l)) ->
      searchNext s = Some s /\ searchPrev s = Some s).
Proof.
  assert (I : Inv (state (searchEngine "a" ["xA"; "b"] (mkCursor 1 0)))).
  { split; [discriminate|].
    split; [unfold in_buffer, alen; cbn; lia|cbn; lia]. }
  split; [exact I|].
  exact (search_lands_on_match
           (state (searchEngine "a" ["xA"; "b"] (mkCursor 1 0))) I).
Defined.

(** The forward loop returns at the first round that finds the pattern. *)
Lemma searchNext_loop_hit (n : nat) (i0 i k : Z) (pattern l : jstring)
  (startLine startCol : Z) (s : EditorState) :
  lines s <> [] -> 0 <= startLine -> 0 <= i0 <= i -> i < i0 + Z.of_nat n ->
  (forall j lj, i0 <= j < i ->
     JS.aget (lines s) (Z.rem (startLine + j) (alen (lines s))) = Some lj ->
     JS.indexOf (JS.toLowerCase lj) pattern (if j =? 0 then startCol else 0)
     = -1) ->
  JS.aget (lines s) (Z.rem (startLine + i) (alen (lines s))) = Some l ->
  JS.indexOf (JS.toLowerCase l) pattern (if i =? 0 then startCol else 0)
  = k ->
  k <> -1 ->
  searchNext_loop n i0 pattern startLine startCol s
  = Some (set_cursor (mkCursor (Z.rem (startLine + i) (alen (lines s))) k) s).
Proof.
  intros I1 Hs. revert i0. induction n as [|n IH];
    intros i0 Hi Hn Hmiss Hl Hk Hne; [lia|].
  cbn [searchNext_loop]. cbv zeta.
  destruct (Z.eq_dec i0 i) as [->|Ni].
  - rewrite Hl. cbn [bind]. rewrite Hk.
    replace (k =? -1) with false by lia. reflexivity.
  - pose proof (alen_pos _ I1).
    pose proof (Z.rem_bound_pos (startLine + i0) (alen (lines s))
                  ltac:(lia) ltac:(lia)) as Hr.
    destruct (aget_Some _ _ Hr) as [l0 Hl0]. rewrite Hl0. cbn [bind].
    rewrite (Hmiss i0 l0 ltac:(lia) Hl0). cbn [Z.eqb negb].
    replace (-1 =? -1) with true by reflexivity. cbn [negb].
    apply IH; auto; try lia. intros j lj Hj. apply Hmiss. lia.
Qed.

(** X8: what [n] finds.  The search visits the lines in order, starting
    with the current line and wrapping past the last line, each line
    once; on the current line it looks only behind the cursor column, on
    every other line from column 0.  If round [i] is the first whose line
    holds the pattern in the part that is searched, the cursor moves to
    the leftmost occurrence in that part; nothing else changes. *)
Theorem search_next_first_match (s : EditorState) (i k : Z) (l : jstring) :
  Inv s -> lastSearch s <> [] -> 0 <= i < alen (lines s) ->
  let pattern := JS.toLowerCase (lastSearch s) in
  let lineOf j := Z.rem (line (cursor s) + j) (alen (lines s)) in
  let from j := if j =? 0 then col (cursor s) + 1 else 0 in
  (forall j lj k', 0 <= j < i ->
     JS.aget (lines s) (lineOf j) = Some lj -> from j <= Z.of_nat k' ->
     ~ occurs_at pattern (JS.toLowerCase lj) k') ->
  JS.aget (lines s) (lineOf i) = Some l ->
  from i <= k ->
  occurs_at pattern (JS.toLowerCase l) (Z.to_nat k) ->
  (forall k', from i <= Z.of_nat k' ->
     occurs_at pattern (JS.toLowerCase l) k' -> k <= Z.of_nat k') ->
  searchNext s = Some (set_cursor (mkCursor (lineOf i) k) s).
Proof.
  intros (I1 & I2 & I3) Hp.
  assert (SN : searchNext s
               = searchNext_loop (length (lines s)) 0
                   (JS.toLowerCase (lastSearch s)) (line (cursor s))
                   (col (cursor s) + 1) s).
  { unfold searchNext. destruct (lastSearch s); [congruence|reflexivity]. }
  intros Hi pattern lineOf from Hmiss Hl Hk Ho Hmin.
  unfold in_buffer in I2.
  assert (Pn : pattern <> []) by (apply toLowerCase_nonempty; exact Hp).
  assert (F0 : forall j, 0 <= from j)
    by (intros j; subst from; cbv beta; destruct (j =? 0); lia).
  rewrite SN. fold pattern.
  apply (searchNext_loop_hit (length (lines s)) 0 i k pattern l); auto;
    try lia; try (fold (alen (lines s)); lia).
  - intros j lj Hj Hlj. apply indexOf_none; auto; [apply (F0 j)|].
    intros k' Hk'. apply (Hmiss j lj k'); auto; lia.
  - apply indexOf_first; auto. apply (F0 i).
  - pose proof (F0 i). lia.
Qed.

Lemma search_next_first_match_witness :
  let s := state (searchEngine "a" ["b"; "xA"] (mkCursor 0 0)) in
  let i := 1 in
  let k := 1 in
  let l : jstring := "xA" in
  Inv s /\ lastSearch s <> [] /\ 0 <= i < alen (lines s)
  /\ (let pattern := JS.toLowerCase (lastSearch s) in
      let lineOf j := Z.rem (line (cursor s) + j) (alen (lines s)) in
      let from j := if j =? 0 then col (cursor s) + 1 else 0 in
      (forall j lj k', 0 <= j < i ->
         JS.aget (lines s) (lineOf j) = Some lj -> from j <= Z.of_nat k' ->
         ~ occurs_at pattern (JS.toLowerCase lj) k')
      /\ JS.aget (lines s) (lineOf i) = Some l
      /\ from i <= k
      /\ occurs_at pattern (JS.toLowerCase l) (Z.to_nat k)
      /\ (forall k', from i <= Z.of_nat k' ->
            occurs_at pattern (JS.toLowerCase l) k' -> k <= Z.of_nat k')
      /\ searchNext s = Some (set_cursor (mkCursor (lineOf i) k) s)).
Proof.
  assert (I : Inv (state (searchEngine "a" ["b"; "xA"] (mkCursor 0 0)))).
  { split; [discriminate|].
    split; [unfold in_buffer, alen; cbn; lia|cbn; lia]. }
  assert (P : lastSearch (state (searchEngine "a" ["b"; "xA"] (mkCursor 0 0)))
              <> []) by discriminate.
  assert (B : 0 <= 1 < alen (lines (state (searchEngine "a" ["b"; "xA"]
                                             (mkCursor 0 0)))))
    by (unfold alen; cbn; lia).
  assert (M : forall j lj k', 0 <= j < 1 ->
            JS.aget (lines (state (searchEngine "a" ["b"; "xA"]
                                     (mkCursor 0 0))))
              (Z.rem (line (cursor (state (searchEngine "a" ["b"; "xA"]
                                             (mkCursor 0 0)))) + j)
                 (alen (lines (state (searchEngine "a" ["b"; "xA"]
                                        (mkCursor 0 0)))))) = Some lj ->
            (if j =? 0
             then col (cursor (state (searchEngine "a" ["b"; "xA"]
                                        (mkCursor 0 0)))) + 1
             else 0) <= Z.of_nat k' ->
            ~ occurs_at
                (JS.toLowerCase
                   (lastSearch (state (searchEngine "a" ["b"; "xA"]
                                         (mkCursor 0 0)))))
                (JS.toLowerCase lj) k').
  { intros j lj k' Hj. assert (j = 0) by lia. subst j.
    intros [= <-] Hk' Ho. apply occurs_at_length in Ho.
    cbn in Ho, Hk'. lia. }
  assert (L : JS.aget (lines (state (searchEngine "a" ["b"; "xA"]
                                       (mkCursor 0 0))))
                (Z.rem (line (cursor (state (searchEngine "a" ["b"; "xA"]
                                               (mkCursor 0 0)))) + 1)
                   (alen (lines (state (searchEngine "a" ["b"; "xA"]
                                          (mkCursor 0 0))))))
              = Some ("xA" : jstring)) by reflexivity.
  assert (K : (if 1 =? 0
               then col (cursor (state (searchEngine "a" ["b"; "xA"]
                                          (mkCursor 0 0)))) + 1
               else 0) <= 1) by (cbn; lia).
  assert (O : occurs_at
                (JS.toLowerCase
                   (lastSearch (state (searchEngine "a" ["b"; "xA"]
                                         (mkCursor 0 0)))))
                (JS.toLowerCase "xA") (Z.to_nat 1)).
  { exists ["x"%char], []. split; reflexivity. }
  assert (Mn : forall k',
            (if 1 =? 0
             then col (cursor (state (searchEngine "a" ["b"; "xA"]
                                        (mkCursor 0 0)))) + 1
             else 0) <= Z.of_nat k' ->
            occurs_at
              (JS.toLowerCase
                 (lastSearch (state (searchEngine "a" ["b"; "xA"]
                                       (mkCursor 0 0)))))
              (JS.toLowerCase "xA") k' -> 1 <= Z.of_nat k').
  { intros k' _ Ho. destruct k' as [|k']; [|lia].
    apply occurs_at_prefixb in Ho. destruct Ho as [_ Ho]. discriminate. }
  split; [exact I|]. split; [exact P|]. split; [exact B|].
  split; [exact M|]. split; [exact L|]. split; [exact K|].
  split; [exact O|]. split; [exact Mn|].
  exact (search_next_first_match
           (state (searchEngine "a" ["b"; "xA"] (mkCursor 0 0))) 1 1 "xA"
           I P B M L K O Mn).
Defined.

(** The search reads the lines, the cursor and the pattern only: the mode
    and the command buffer ride along. *)
Lemma searchNext_loop_frame (n : nat) (i : Z) (pattern : jstring)
  (startLine startCol : Z) (m : VimMode) (b : jstring) (s : EditorState) :
  searchNext_loop n i pattern startLine startCol
    (set_commandBuffer b (set_mode m s))
  = (s' <- searchNext_loop n i pattern startLine startCol s ;;
     ret (set_commandBuffer b (set_mode m s'))).
Proof.
  revert i. induction n as [|n IH]; intros i; [reflexivity|].
  cbn [searchNext_loop]. cbv zeta. sproj.
  destruct (JS.aget (lines s) _) as [l|]; [|reflexivity]. cbn [bind].
  destruct (negb _); [reflexivity|]. apply IH.
Qed.

Lemma searchNext_frame (m : VimMode) (b : jstring) (s : EditorState) :
  searchNext (set_commandBuffer b (set_mode m s))
  = (s' <- searchNext s ;; ret (set_commandBuffer b (set_mode m s'))).
Proof.
  unfold searchNext. sproj.
  destruct (lastSearch s); [reflexivity|]. apply searchNext_loop_frame.
Qed.

Lemma searchNext_loop_keeps (n : nat) (i : Z) (pattern : jstring)
  (startLine startCol : Z) (s s' : EditorState) :
  searchNext_loop n i pattern startLine startCol s = Some s' ->
  mode s' = mode s /\ commandBuffer s' = commandBuffer s.
Proof.
  revert i. induction n as [|n IH]; intros i; cbn [searchNext_loop].
  - intros [= <-]. auto.
  - cbv zeta. destruct (JS.aget (lines s) _) as [l|]; [|discriminate].
    cbn [bind]. destruct (negb _); [|apply IH].
    intros [= <-]. auto.
Qed.

Lemma searchNext_keeps (s s' : EditorState) :
  searchNext s = Some s' ->
  mode s' = mode s /\ commandBuffer s' = commandBuffer s.
Proof.
  unfold searchNext. destruct (lastSearch s).
  - intros [= <-]. auto.
  - apply searchNext_loop_keeps.
Qed.

Lemma leave_command_line (b : jstring) (s : EditorState) :
  mode s = normal -> commandBuffer s = [] ->
  set_commandBuffer [] (set_mode normal (set_commandBuffer b (set_mode command s)))
  = s.
Proof.
  intros Hm Hb. unfold set_commandBuffer, set_mode. sproj.
  rewrite <- Hm, <- Hb. apply state_eta.
Qed.

(** X9: the search command.  From normal mode with nothing pending, [/],
    the characters of a non-empty pattern and [Enter] make the pattern the
    last search pattern and run the forward search from the cursor; the
    engine is back in normal mode with an empty command buffer.  With no
    pattern typed, [/] and [Enter] change nothing. *)
Theorem search_command (e : VimEngine) (pattern : jstring) :
  idle e -> pattern <> [] ->
  handleKeys e (["/"] ++ typed pattern ++ ["Enter"])
  = (s' <- searchNext (set_lastSearch pattern (state e)) ;;
     ret (mkEngine s' [] false))
  /\ handleKeys e ["/"; "Enter"] = Some (mkEngine (state e) [] false).
Proof.
  intros Hi Hp. pose proof Hi as (Hm & Hb & Hc). split.
  - rewrite handleKeys_app, (proj2 (open_command_line e Hi)).
    cbn [bind]. rewrite handleKeys_app, command_typing by reflexivity.
    cbn [bind state countBuffer commandTimeout handleKeys]. sproj.
    unfold handleKeyDown. cbn [state]. sproj.
    change (handleCommandMode ?x (key (press "Enter")))
      with (s' <- executeCommand x ;; ret (s', true)).
    unfold executeCommand. cbv zeta. sproj.
    change (JS.startsWith ("/" ++ pattern) "/") with true. cbv iota.
    change ("/" ++ pattern) with ("/"%char :: pattern).
    rewrite sliceFrom_1.
    destruct pattern as [|c t] eqn:E; [congruence|]. rewrite <- E.
    change (set_lastSearch pattern
              (set_commandBuffer ?b
                 (set_commandBuffer ?b' (set_mode command ?s))))
      with (set_commandBuffer b (set_mode command (set_lastSearch pattern s))).
    rewrite searchNext_frame.
    destruct (searchNext (set_lastSearch pattern (state e))) as [s1|] eqn:S;
      [|reflexivity].
    cbn [bind ret liftState fst snd]. unfold ret.
    destruct (searchNext_keeps _ _ S) as [K1 K2]. sproj.
    rewrite leave_command_line by congruence. reflexivity.
  - change ["/"; "Enter"] with (["/"] ++ ["Enter"]).
    rewrite handleKeys_app, (proj2 (open_command_line e Hi)).
    cbn [bind handleKeys]. unfold handleKeyDown. cbn [state]. sproj.
    change (handleCommandMode ?x (key (press "Enter")))
      with (s' <- executeCommand x ;; ret (s', true)).
    unfold executeCommand. cbv zeta. sproj.
    change (JS.startsWith "/" "/") with true. cbv iota.
    change (JS.sliceFrom "/" 1) with (@nil ascii). cbv iota.
    cbn [bind ret liftState fst snd]. unfold ret.
    rewrite leave_command_line by assumption. reflexivity.
Qed.

Lemma search_command_witness :
  let e := engineAt ["ab"; "cab"] (mkCursor 0 0) in
  idle e /\ ("ab" : jstring) <> []
  /\ handleKeys e (["/"] ++ typed "ab" ++ ["Enter"])
     = (s' <- searchNext (set_lastSearch "ab" (state e)) ;;
        ret (mkEngine s' [] false))
  /\ handleKeys e ["/"; "Enter"] = Some (mkEngine (state e) [] false).
Proof.
  assert (Hi : idle (engineAt ["ab"; "cab"] (mkCursor 0 0)))
    by (repeat split).
  assert (P : ("ab" : jstring) <> []) by discriminate.
  split; [exact Hi|]. split; [exact P|].
  exact (search_command (engineAt ["ab"; "cab"] (mkCursor 0 0)) "ab" Hi P).
Defined.

(** ** Motions *)

Lemma moved_refl (s : EditorState) : cursor_moved s s.
Proof. exists (cursor s). destruct s; reflexivity. Qed.

Lemma moved_cursor (s x : EditorState) (c : CursorPosition) :
  cursor_moved s x -> cursor_moved s (set_cursor c x).
Proof. intros [c0 ->]. exists c. reflexivity. Qed.

Lemma moved_col (s x : EditorState) (v : Z) :
  cursor_moved s x -> cursor_moved s (set_col v x).
Proof. apply moved_cursor. Qed.

Lemma moved_line (s x : EditorState) (v : Z) :
  cursor_moved s x -> cursor_moved s (set_line v x).
Proof. apply moved_cursor. Qed.

Lemma moved_times (s : EditorState) (n : Z)
  (f : EditorState -> EditorState) :
  (forall x, cursor_moved s x -> cursor_moved s (f x)) ->
  cursor_moved s (times n f s).
Proof. intros H. apply times_ind; [apply moved_refl|exact H]. Qed.

Lemma moved_wordForward (s x : EditorState) :
  cursor_moved s x -> cursor_moved s (moveWordForward x).
Proof.
  intros H. unfold moveWordForward. cbv zeta.
  destruct (_ && _); repeat first [apply moved_col | apply moved_line];
    exact H.
Qed.

Lemma moved_wordBackward (s x : EditorState) :
  cursor_moved s x -> cursor_moved s (moveWordBackward x).
Proof. intros H. unfold moveWordBackward. apply moved_col. exact H. Qed.

Lemma moved_endOfWord (s x : EditorState) :
  cursor_moved s x -> cursor_moved s (moveToEndOfWord x).
Proof. intros H. unfold moveToEndOfWord. apply moved_col. exact H. Qed.

Lemma moved_searchNext (s : EditorState) :
  Inv s -> exists x, searchNext s = Some x /\ cursor_moved s x.
Proof.
  intros (I1 & I2 & I3). unfold in_buffer in I2. unfold searchNext.
  destruct (lastSearch s) as [|a p] eqn:E.
  - exists s. split; [reflexivity|apply moved_refl].
  - destruct (searchNext_loop_sound (length (lines s)) 0
                (JS.toLowerCase (a :: p)) (line (cursor s))
                (col (cursor s) + 1) s I1 ltac:(lia))
      as (s' & H1 & [->|(c & l & -> & _)] & _);
      eexists; (split; [exact H1|]);
      [apply moved_refl|apply moved_cursor, moved_refl].
Qed.

Lemma moved_searchPrev (s : EditorState) :
  Inv s -> exists x, searchPrev s = Some x /\ cursor_moved s x.
Proof.
  intros (I1 & I2 & I3). unfold in_buffer in I2. unfold searchPrev.
  destruct (lastSearch s) as [|a p] eqn:E.
  - exists s. split; [reflexivity|apply moved_refl].
  - destruct (searchPrev_loop_sound (length (lines s)) 0
                (JS.toLowerCase (a :: p)) (line (cursor s))
                (col (cursor s) - 1) s I1 ltac:(lia) ltac:(lia)
                ltac:(unfold alen; lia))
      as (s' & H1 & [->|(c & l & -> & _)] & _);
      eexists; (split; [exact H1|]);
      [apply moved_refl|apply moved_cursor, moved_refl].
Qed.

Lemma set_commandBuffer_nil (s : EditorState) :
  commandBuffer s = [] -> set_commandBuffer [] s = s.
Proof. intros H. rewrite <- H. apply set_commandBuffer_same. Qed.

Ltac moved :=
  repeat first
    [ apply moved_refl
    | apply moved_cursor | apply moved_col | apply moved_line
    | apply moved_wordForward | apply moved_wordBackward
    | apply moved_endOfWord
    | assumption
    | (apply moved_times; intros ? ?) ].

(** The single-key command of a motion key changes nothing but the
    cursor. *)
Lemma motion_switch (n : Z) (s : EditorState) (k : jstring) :
  Inv s -> In k motion_keys ->
  exists x, normalSwitch n s k = Some (x, true) /\ cursor_moved s x.
Proof.
  intros I Hk. unfold motion_keys, case_ in Hk.
  cbn [map In String.list_ascii_of_string] in Hk.
  repeat (destruct Hk as [<-|Hk]); try contradiction;
    lazy beta iota zeta
      delta [normalSwitch switch case_ map existsb JS.eqb
             String.list_ascii_of_string Ascii.eqb Bool.eqb andb orb
             break_ bind ret fst snd];
    try (eexists; split; [reflexivity|]; moved).
  - destruct (moved_searchNext s I) as (x & -> & M). eauto.
  - destruct (moved_searchPrev s I) as (x & -> & M). eauto.
Qed.

(** X10: in normal mode with no prefix pending, the motion keys ([h], [j],
    [k], [l] and the arrow keys, [w], [b], [e], [0], [$], [^], [G], [n],
    [N]) change nothing but the cursor and the pending count.  The command
    buffer may be empty or show the digits of a count typed so far; the key
    is consumed, the count is spent, the command buffer is emptied and the
    cursor moves, while the lines, the registers, the mode, the selection,
    the last search pattern and the message stay as they are.  ([0] is a
    motion only when no count is pending.)  So, from normal mode with
    nothing pending, the digits of a count followed by a motion key lead to
    a state that differs from the first one in the cursor only. *)
Theorem motions_move_only_the_cursor (e : VimEngine) :
  mode (state e) = normal -> Inv (state e) ->
  (forall ev : KeyboardEvent,
     In (key ev) motion_keys ->
     commandBuffer (state e) = []
     \/ (commandBuffer (state e) = countBuffer e
         /\ forallb JS.is_digit (countBuffer e) = true) ->
     (key ev = "0" -> countBuffer e = []) ->
     exists c,
       handleKeyDown e ev
       = Some (mkEngine (set_cursor c (set_commandBuffer [] (state e)))
                 [] false, true))
  /\ (forall (n : Z) (k : String.string),
        idle e -> 1 <= n ->
        In (k : jstring) motion_keys -> (k : jstring) <> "0" ->
        exists c,
          handleKeys e (typed (JS.toString n) ++ [k])
          = Some (mkEngine (set_cursor c (state e)) [] false)).
Proof.
  intros Hm I. split.
  - intros ev Hk Hb H0.
    assert (K : count_rule (countBuffer e) (key ev) = false
                /\ is_command (key ev) = false
                /\ is_prefix_key (key ev) = false
                /\ takes_argument [] (key ev) = false).
    { unfold motion_keys, case_ in Hk.
      cbn [map In String.list_ascii_of_string] in Hk.
      repeat (destruct Hk as [Hk|Hk]); try contradiction;
        rewrite <- Hk in *; (split; [|repeat split; reflexivity]);
        unfold count_rule;
        (destruct (countBuffer e);
         [reflexivity
         |first [reflexivity | specialize (H0 eq_refl); discriminate]]). }
    destruct K as (K1 & K2 & K3 & K4).
    assert (I' : Inv (set_commandBuffer [] (state e))) by exact I.
    rewrite normal_default; auto.
    + destruct (motion_switch (countOf (countBuffer e))
                  (set_commandBuffer [] (state e)) (key ev) I' Hk)
        as (x & -> & c & ->).
      exists c. reflexivity.
    + destruct Hb as [->|[-> Hd]]; [exact K2|].
      destruct (countBuffer e) as [|d t]; [exact K2|].
      cbn [forallb] in Hd. apply andb_true_iff in Hd.
      cbn [app]. apply digits_no_command. tauto.
    + rewrite K3. reflexivity.
    + destruct Hb as [->|[-> Hd]]; [exact K4|].
      destruct (countBuffer e) as [|d t]; [exact K4|].
      cbn [forallb] in Hd. apply andb_true_iff in Hd.
      apply digits_no_argument. tauto.
  - intros n k Hi Hn Hk H0.
    assert (K0 : is_key_0_9 k = false).
    { unfold motion_keys, case_ in Hk.
      cbn [map In String.list_ascii_of_string] in Hk.
      repeat (destruct Hk as [Hk|Hk]); try contradiction;
        try (rewrite <- Hk; reflexivity).
      exfalso. apply H0. symmetry. exact Hk. }
    rewrite (counted_key e n k Hi Hn K0).
    destruct (motion_switch n (state e) k I Hk) as (x & -> & c & ->).
    exists c. reflexivity.
Qed.

Lemma motions_move_only_the_cursor_witness :
  let e := engineAt ["ab cd"; "ef"] (mkCursor 0 1) in
  mode (state e) = normal /\ Inv (state e)
  /\ idle e /\ 1 <= 2
  /\ In (("w" : String.string) : jstring) motion_keys
  /\ (("w" : String.string) : jstring) <> "0"
  /\ exists c,
       handleKeys e (typed (JS.toString 2) ++ ["w"])
       = Some (mkEngine (set_cursor c (state e)) [] false).
Proof.
  assert (I : Inv (state (engineAt ["ab cd"; "ef"] (mkCursor 0 1)))).
  { split; [discriminate|].
    split; [unfold in_buffer, alen; cbn; lia|cbn; lia]. }
  assert (Hi : idle (engineAt ["ab cd"; "ef"] (mkCursor 0 1)))
    by (repeat split).
  assert (Hn : 1 <= 2) by lia.
  assert (K : In (("w" : String.string) : jstring) motion_keys)
    by (do 8 right; left; reflexivity).
  assert (N0 : (("w" : String.string) : jstring) <> "0") by discriminate.
  split; [reflexivity|]. split; [exact I|]. split; [exact Hi|].
  split; [exact Hn|]. split; [exact K|]. split; [exact N0|].
  exact (proj2 (motions_move_only_the_cursor
                  (engineAt ["ab cd"; "ef"] (mkCursor 0 1)) eq_refl I)
           2 "w" Hi Hn K N0).
Defined.

(** ** Visual mode *)

Lemma updateSelection_moved (s x : EditorState) (sel : Selection) :
  selection s = Some sel -> cursor_moved s x ->
  updateSelection x
  = set_selection (Some (mkSelection (sel_start sel) (cursor x)))
      (set_cursor (cursor x) s).
Proof.
  intros Hs [c ->]. unfold updateSelection. sproj. rewrite Hs. reflexivity.
Qed.

(** X11: in visual mode the motion keys ([h], [j], [k], [l] and the arrow
    keys, [w], [b], [e], [0], [$]) move the cursor and make it the end of
    the selection; the start of the selection, where visual mode was
    entered, stays, and nothing else changes. *)
Theorem visual_motions_keep_anchor (e : VimEngine) (ev : KeyboardEvent)
  (sel : Selection) :
  mode (state e) = visual -> selection (state e) = Some sel ->
  In (key ev) visual_motion_keys ->
  exists c,
    handleKeyDown e ev
    = Some (mkEngine
              (set_selection (Some (mkSelection (sel_start sel) c))
                 (set_cursor c (state e)))
              (countBuffer e) (commandTimeout e), true).
Proof.
  intros Hm Hs Hk. unfold handleKeyDown. rewrite Hm.
  assert (U : exists x,
            handleVisualMode (state e) (key ev)
            = Some (updateSelection x, true)
            /\ cursor_moved (state e) x).
  { unfold visual_motion_keys, case_ in Hk.
    cbn [map In String.list_ascii_of_string] in Hk.
    repeat (destruct Hk as [<-|Hk]); try contradiction;
      lazy beta iota zeta
        delta [handleVisualMode switch case_ map existsb JS.eqb
               String.list_ascii_of_string Ascii.eqb Bool.eqb andb orb
               break_ bind ret fst snd];
      (eexists; split; [reflexivity|]; moved). }
  destruct U as (x & -> & M).
  rewrite (updateSelection_moved (state e) x sel Hs M).
  exists (cursor x). reflexivity.
Qed.

Lemma visual_motions_keep_anchor_witness :
  let e := mkEngine
             (set_selection
                (Some (mkSelection (mkCursor 0 1) (mkCursor 0 1)))
                (set_mode visual
                   (state (engineAt ["ab cd"; "ef"] (mkCursor 0 1)))))
             [] false in
  let sel := mkSelection (mkCursor 0 1) (mkCursor 0 1) in
  mode (state e) = visual /\ selection (state e) = Some sel
  /\ In (key (press "j")) visual_motion_keys
  /\ exists c,
       handleKeyDown e (press "j")
       = Some (mkEngine
                 (set_selection (Some (mkSelection (sel_start sel) c))
                    (set_cursor c (state e)))
                 (countBuffer e) (commandTimeout e), true).
Proof.
  assert (K : In (key (press "j")) visual_motion_keys)
    by (do 2 right; left; reflexivity).
  split; [reflexivity|]. split; [reflexivity|]. split; [exact K|].
  exact (visual_motions_keep_anchor
           (mkEngine
              (set_selection
                 (Some (mkSelection (mkCursor 0 1) (mkCursor 0 1)))
                 (set_mode visual
                    (state (engineAt ["ab cd"; "ef"] (mkCursor 0 1)))))
              [] false)
           (press "j") (mkSelection (mkCursor 0 1) (mkCursor 0 1))
           eq_refl eq_refl K).
Defined.

Lemma WF_normal_no_selection (s : EditorState) :
  WF s -> mode s <> visual -> selection s = None.
Proof.
  intros [_ S] Hm. unfold SelOK in S.
  destruct (selection s); [destruct S; contradiction|reflexivity].
Qed.

Lemma substring_all (l : jstring) (b : Z) :
  JS.len l <= b -> JS.substring l 0 b = l.
Proof.
  intros H. pose proof (len_nonneg l). rewrite substring_0 by lia.
  apply firstn_all2. unfold JS.len in *. lia.
Qed.

Lemma substringFrom_end (l : jstring) (a : Z) :
  JS.len l <= a -> JS.substringFrom l a = [].
Proof.
  intros H. pose proof (len_nonneg l). rewrite substringFrom_skipn by lia.
  apply skipn_all2. unfold JS.len in *. lia.
Qed.

Lemma key_V (e : VimEngine) :
  idle e ->
  handleKeys e ["V"]
  = Some (mkEngine
            (set_selection
               (Some (mkSelection
                        (mkCursor (line (cursor (state e))) 0)
                        (mkCursor (line (cursor (state e)))
                           (JS.len (getCurrentLine (state e))))))
               (set_mode visual (state e))) [] false).
Proof.
  intros (Hm & Hb & Hc).
  cbn [handleKeys]. rewrite normal_default;
    try (rewrite ?Hb, ?Hc; reflexivity); try exact Hm.
  cbn [key press]. rewrite set_commandBuffer_nil by exact Hb.
  reflexivity.
Qed.

(** Deleting a selection that lies within one line. *)
Lemma deleteSelection_in_line (s : EditorState) (a b : CursorPosition)
  (ln : jstring) :
  selection s = Some (mkSelection a b) -> line a = line b -> col a <= col b ->
  JS.aget (lines s) (line a) = Some ln ->
  deleteSelection s
  = Some (let s2 :=
            set_selection None
              (set_cursor a
                 (set_lines
                    (JS.aset (lines s) (Z.to_nat (line a))
                       (JS.substring ln 0 (col a)
                          ++ JS.substringFrom ln (col b + 1)))
                    (set_register
                       (Some (JS.substring ln (col a) (col b + 1))) s))) in
          set_cursor (clampCursor s2 (cursor s2)) s2).
Proof.
  intros Hs Hl Hc Hg. pose proof (aget_range _ _ _ Hg) as Hr.
  unfold deleteSelection. rewrite Hs. cbv zeta.
  unfold normalizeSelection. sproj.
  replace (line b <? line a) with false by lia.
  replace (col b <? col a) with false by lia.
  rewrite andb_false_r. cbn [orb]. sproj.
  replace (line a =? line b) with true by lia. rewrite Hg. cbn [bind].
  rewrite setLineAt_Some by exact Hr. reflexivity.
Qed.

Lemma visual_d (s : EditorState) :
  handleVisualMode s "d"
  = break_ (s' <- deleteSelection s ;; ret (set_mode normal s')).
Proof. reflexivity. Qed.


(** [d] on the selection that [V] makes. *)
Lemma cut_whole_line (s : EditorState) :
  in_buffer s (cursor s) ->
  let s1 := set_selection
              (Some (mkSelection (mkCursor (line (cursor s)) 0)
                       (mkCursor (line (cursor s))
                          (JS.len (getCurrentLine s)))))
              (set_mode visual s) in
  deleteSelection s1
  = Some (set_selection None
            (set_cursor (mkCursor (line (cursor s)) 0)
               (set_lines (JS.aset (lines s) (Z.to_nat (line (cursor s))) [])
                  (set_register (Some (getCurrentLine s)) s1)))).
Proof.
  intros I2 s1.
  pose proof (getCurrentLine_aget _ I2) as Hg.
  pose proof (len_nonneg (getCurrentLine s)) as Hl.
  rewrite (deleteSelection_in_line s1
             (mkCursor (line (cursor s)) 0)
             (mkCursor (line (cursor s)) (JS.len (getCurrentLine s)))
             (getCurrentLine s) eq_refl eq_refl Hl Hg).
  sproj.
  rewrite (substring_all (getCurrentLine s)
             (JS.len (getCurrentLine s) + 1)) by lia.
  rewrite (substring_0 (getCurrentLine s) 0) by lia.
  rewrite substringFrom_end by lia.
  cbn [Z.to_nat firstn app]. cbv zeta. f_equal.
  unfold clampCursor. sproj. subst s1. sproj. cbn [mode_eqb].
  rewrite alen_aset. unfold in_buffer in I2.
  replace (Z.max 0 (Z.min (line (cursor s)) (alen (lines s) - 1)))
    with (line (cursor s)) by lia.
  rewrite aget_aset_same by exact I2. change (JS.len []) with 0.
  reflexivity.
Qed.

(** X12: [V] selects the current line from column 0 to one past its end,
    and [d] right after cuts that text out of the line: the line stays in
    the buffer as an empty line, the register holds its text with no
    newline at the end (so that [p] will paste it inside a line), the
    cursor is at column 0 and the engine is back in normal mode. *)
Theorem linewise_visual_delete (e : VimEngine) :
  idle e -> WF (state e) ->
  let s := state e in
  handleKeys e ["V"; "d"]
  = Some (mkEngine
            (set_cursor (mkCursor (line (cursor s)) 0)
               (set_lines
                  (JS.aset (lines s) (Z.to_nat (line (cursor s))) [])
                  (set_register (Some (getCurrentLine s)) s)))
            [] false).
Proof.
  intros Hi W s. subst s. pose proof Hi as (Hm & Hb & Hc).
  pose proof (WF_normal_no_selection _ W ltac:(congruence)) as Hs.
  destruct W as [(I1 & I2 & I3) _].
  change ["V"; "d"] with (["V"] ++ ["d"]).
  rewrite handleKeys_app, (key_V e Hi). cbn [bind handleKeys].
  unfold handleKeyDown. cbn [state mode set_selection set_mode].
  change (key (press "d")) with ("d" : jstring).
  rewrite visual_d.
  rewrite (cut_whole_line (state e) I2).
  cbn [bind ret break_ liftState fst snd countBuffer commandTimeout]. unfold ret.
  match goal with
  | |- Some (mkEngine ?x _ _) = Some (mkEngine ?y _ _) =>
      assert (E : x = y); [|rewrite E; reflexivity]
  end.
  unfold set_cursor, set_selection, set_mode, set_lines,
    set_register, set_registers. sproj.
  rewrite Hm, Hs, Hb. 
  reflexivity.
Qed.

Lemma linewise_visual_delete_witness :
  let e := engineAt ["ab"; "cd"] (mkCursor 1 1) in
  idle e /\ WF (state e)
  /\ (let s := state e in
      handleKeys e ["V"; "d"]
      = Some (mkEngine
                (set_cursor (mkCursor (line (cursor s)) 0)
                   (set_lines
                      (JS.aset (lines s) (Z.to_nat (line (cursor s))) [])
                      (set_register (Some (getCurrentLine s)) s)))
                [] false)).
Proof.
  assert (Hi : idle (engineAt ["ab"; "cd"] (mkCursor 1 1)))
    by (repeat split).
  assert (W : WF (state (engineAt ["ab"; "cd"] (mkCursor 1 1)))).
  { unfold WF, Inv, SelOK, in_buffer, alen; cbn.
    repeat split; try lia; discriminate. }
  split; [exact Hi|]. split; [exact W|].
  exact (linewise_visual_delete (engineAt ["ab"; "cd"] (mkCursor 1 1)) Hi W).
Defined.

(** ** Leaving a mode *)

Lemma escape_in_normal (e : VimEngine) :
  mode (state e) = normal ->
  handleKeyDown e (press "Escape")
  = Some (mkEngine (set_commandBuffer [] (set_selection None (state e)))
            [] false, true).
Proof.
  intros Hm. rewrite normal_default; try exact Hm.
  - reflexivity.
  - unfold count_rule. cbn [key press].
    change (is_key_1_9 "Escape") with false.
    change (is_key_0_9 "Escape") with false.
    rewrite andb_false_r. reflexivity.
  - unfold is_command, case_, unnamed. cbn [key press].
    cbn [map app existsb String.list_ascii_of_string].
    repeat match goal with
      |- context [JS.eqb (commandBuffer (state e) ++ ?k) ?t] =>
        replace (JS.eqb (commandBuffer (state e) ++ k) t) with false
          by (symmetry; neq_last) end.
    reflexivity.
  - cbn [key press]. change (is_prefix_key "Escape") with false.
    reflexivity.
  - unfold takes_argument. cbn [key press].
    change (JS.len "Escape" =? 1) with false. apply andb_false_r.
Qed.

(** X13: [Escape] is consumed in every mode and leaves the engine in
    normal mode with no selection; the lines, the registers and the line
    of the cursor stay as they are.  From insert mode the cursor steps one
    column to the left if it can; from the other modes it does not move.
    From normal mode and from the command line the command buffer is
    cleared. *)
Theorem escape_returns_to_normal (e : VimEngine) :
  WF (state e) ->
  exists e',
    handleKeyDown e (press "Escape") = Some (e', true)
    /\ mode (state e') = normal
    /\ selection (state e') = None
    /\ lines (state e') = lines (state e)
    /\ registers (state e') = registers (state e)
    /\ cursor (state e')
       = (if mode_eqb (mode (state e)) insert
          then mkCursor (line (cursor (state e)))
                 (Z.max 0 (col (cursor (state e)) - 1))
          else cursor (state e))
    /\ (mode (state e) = normal \/ mode (state e) = command ->
        commandBuffer (state e') = []).
Proof.
  intros W. destruct (mode (state e)) eqn:Hm.
  - rewrite (escape_in_normal e Hm). eexists. split; [reflexivity|].
    sproj. repeat split; auto.
  - pose proof (WF_normal_no_selection _ W ltac:(congruence)) as Hs.
    unfold handleKeyDown. rewrite Hm.
    change (handleInsertMode (state e) (key (press "Escape"))
              (ctrlKey (press "Escape")))
      with (Some (set_col (Z.max 0 (col (cursor (state e)) - 1))
                    (set_mode normal (state e)), true)).
    eexists. split; [reflexivity|]. sproj. cbn [mode_eqb].
    repeat split; auto. intros [H|H]; discriminate.
  - unfold handleKeyDown. rewrite Hm.
    change (handleVisualMode (state e) (key (press "Escape")))
      with (Some (set_selection None (set_mode normal (state e)), true)).
    eexists. split; [reflexivity|]. sproj. cbn [mode_eqb].
    repeat split; auto. intros [H|H]; discriminate.
  - pose proof (WF_normal_no_selection _ W ltac:(congruence)) as Hs.
    unfold handleKeyDown. rewrite Hm.
    change (handleCommandMode (state e) (key (press "Escape")))
      with (Some (set_commandBuffer [] (set_mode normal (state e)), true)).
    eexists. split; [reflexivity|]. sproj. cbn [mode_eqb].
    repeat split; auto.
Qed.

Lemma escape_returns_to_normal_witness :
  let e := mkEngine (set_mode insert
                       (state (engineAt ["ab"] (mkCursor 0 2))))
             [] false in
  WF (state e)
  /\ exists e',
       handleKeyDown e (press "Escape") = Some (e', true)
       /\ mode (state e') = normal
       /\ selection (state e') = None
       /\ lines (state e') = lines (state e)
       /\ registers (state e') = registers (state e)
       /\ cursor (state e')
          = (if mode_eqb (mode (state e)) insert
             then mkCursor (line (cursor (state e)))
                    (Z.max 0 (col (cursor (state e)) - 1))
             else cursor (state e))
       /\ (mode (state e) = normal \/ mode (state e) = command ->
           commandBuffer (state e') = []).
Proof.
  assert (W : WF (state (mkEngine
                           (set_mode insert
                              (state (engineAt ["ab"] (mkCursor 0 2))))
                           [] false))).
  { unfold WF, Inv, SelOK, in_buffer, alen; cbn.
    repeat split; try lia; discriminate. }
  split; [exact W|].
  exact (escape_returns_to_normal
           (mkEngine (set_mode insert
                        (state (engineAt ["ab"] (mkCursor 0 2)))) [] false)
           W).
Defined.

(** ** Single keys on an idle engine *)

Lemma idle_single (e : VimEngine) (k : String.string) :
  idle e ->
  count_rule [] k = false -> is_command k = false ->
  is_prefix_key k = false ->
  handleKeys e [k]
  = (r <- normalSwitch 1 (state e) k ;; ret (mkEngine (fst r) [] false)).
Proof.
  intros (Hm & Hb & Hc) K1 K2 K3. cbn [handleKeys].
  rewrite normal_default; cbn [key press]; rewrite ?Hb, ?Hc; auto;
    [|rewrite K3; reflexivity].
  rewrite set_commandBuffer_nil by exact Hb.
  change (countOf []) with 1.
  destruct (normalSwitch 1 (state e) k) as [[s' b]|]; reflexivity.
Qed.

Lemma clampCursor_on_line (s : EditorState) (c : CursorPosition)
  (l : jstring) :
  in_buffer s c -> JS.aget (lines s) (line c) = Some l ->
  mode s <> insert ->
  clampCursor s c
  = mkCursor (line c) (Z.max 0 (Z.min (col c) (Z.max 0 (JS.len l - 1)))).
Proof.
  intros Hb Hl Hm. unfold clampCursor, in_buffer in *.
  replace (Z.max 0 (Z.min (line c) (alen (lines s) - 1))) with (line c)
    by lia.
  rewrite Hl. destruct (mode s); cbn [mode_eqb]; congruence.
Qed.

(** [D] with the line cut at the cursor into [p] and [q]. *)
Lemma deleteToEnd_at (s : EditorState) (p q : jstring) :
  in_buffer s (cursor s) -> split_at_cursor s p q -> mode s <> insert ->
  deleteToEnd s
  = Some (set_col (Z.max 0 (col (cursor s) - 1))
            (set_lines (JS.aset (lines s) (Z.to_nat (line (cursor s))) p)
               (set_register (Some q) s))).
Proof.
  intros Hb Hs Hm. destruct (split_at_cursor_substring s p q Hs) as [E1 E2].
  destruct Hs as [_ Hp]. pose proof (len_nonneg p).
  unfold deleteToEnd. rewrite E1, E2.
  rewrite setCurrentLine_reg by exact Hb. cbn [bind ret].
  set (s2 := set_lines _ _).
  assert (C : clampCursor s2 (cursor s2)
              = mkCursor (line (cursor s))
                  (Z.max 0 (Z.min (col (cursor s))
                              (Z.max 0 (JS.len p - 1))))).
  { apply (clampCursor_on_line s2 (cursor s2) p); subst s2; sproj.
    - unfold in_buffer in *. sproj. rewrite alen_aset. exact Hb.
    - apply aget_aset_same. exact Hb.
    - exact Hm. }
  rewrite C. unfold set_col. subst s2. sproj.
  replace (Z.max 0 (Z.min (col (cursor s)) (Z.max 0 (JS.len p - 1))))
    with (Z.max 0 (col (cursor s) - 1)) by lia.
  reflexivity.
Qed.

(** X14: [D] then [p] is a round trip on the text.  [D] cuts the line at
    the cursor and stores the rest; the cursor steps back onto the last
    character that is left, and [p] pastes the stored text right behind
    it.  The lines are again what they were; the register holds the text
    from the cursor to the end of the line.  (A text that ends in a
    newline character would be pasted as lines; it is excluded.) *)
Theorem delete_to_end_then_paste (e : VimEngine) :
  idle e -> Inv (state e) -> loose (state e) ->
  JS.endsWith
    (JS.substringFrom (getCurrentLine (state e)) (col (cursor (state e))))
    nl = false ->
  exists e',
    handleKeys e ["D"; "p"] = Some e'
    /\ lines (state e') = lines (state e)
    /\ unnamedReg (state e')
       = Some (JS.substringFrom (getCurrentLine (state e))
                 (col (cursor (state e))))
    /\ mode (state e') = normal
    /\ line (cursor (state e')) = line (cursor (state e)).
Proof.
  intros Hi (I1 & I2 & I3) Hl He. pose proof Hi as (Hm & Hb & Hc).
  destruct (split_at_cursor_exists (state e) I3 Hl) as (p & q & Hs).
  destruct (split_at_cursor_substring _ _ _ Hs) as [E1 E2].
  rewrite E2 in *. pose proof Hs as [Hpq Hp]. pose proof (len_nonneg p).
  change ["D"; "p"] with (["D"] ++ ["p"]). rewrite handleKeys_app.
  rewrite (idle_single e "D" Hi) by reflexivity.
  change (normalSwitch 1 (state e) "D") with (break_ (deleteToEnd (state e))).
  rewrite (deleteToEnd_at (state e) p q I2 Hs) by congruence.
  cbn [break_ bind ret fst]. set (s1 := set_col _ _).
  assert (B1 : in_buffer s1 (cursor s1)).
  { subst s1. unfold in_buffer in *. sproj. rewrite alen_aset. exact I2. }
  assert (G1 : getCurrentLine s1 = p).
  { subst s1. unfold getCurrentLine. sproj.
    rewrite aget_aset_same by exact I2. reflexivity. }
  assert (R1 : unnamedReg s1 = Some q).
  { subst s1. unfold unnamedReg. sproj. apply reg_get_set. }
  assert (L1 : JS.aset (lines s1) (Z.to_nat (line (cursor s1))) (p ++ q)
               = lines (state e)).
  { subst s1. sproj. rewrite aset_aset, <- Hpq. apply aset_current.
    exact I2. }
  rewrite (idle_single (mkEngine s1 [] false) "p") by
    (first [reflexivity | subst s1; repeat split; assumption]).
  change (normalSwitch 1 (state (mkEngine s1 [] false)) "p")
    with (break_ (paste after s1)).
  unfold paste. fold (unnamedReg s1). rewrite R1.
  destruct q as [|c t] eqn:Eq.
  - cbn [break_ bind ret fst]. eexists. split; [reflexivity|].
    cbn [state]. split; [|split; [exact R1|split; [exact Hm|reflexivity]]].
    rewrite <- L1. rewrite app_nil_r, <- G1. rewrite aset_current by exact B1.
    reflexivity.
  - rewrite <- Eq in *. rewrite He.
    destruct q as [|c' t'] eqn:Eq'; [discriminate|]. rewrite <- Eq' in *.
    rewrite G1.
    assert (C1 : JS.len p <= col (cursor s1) + 1)
      by (subst s1; sproj; lia).
    rewrite substring_all, substringFrom_end by exact C1.
    rewrite app_nil_r.
    rewrite setCurrentLine_Some by exact B1.
    cbn [break_ bind ret fst]. eexists. split; [reflexivity|].
    cbn [state]. sproj. split; [exact L1|].
    split; [exact R1|]. split; [exact Hm|reflexivity].
Qed.

Lemma delete_to_end_then_paste_witness :
  let e := engineAt ["abcd"; "ef"] (mkCursor 0 2) in
  idle e /\ Inv (state e) /\ loose (state e)
  /\ JS.endsWith
       (JS.substringFrom (getCurrentLine (state e))
          (col (cursor (state e)))) nl = false
  /\ exists e',
       handleKeys e ["D"; "p"] = Some e'
       /\ lines (state e') = lines (state e)
       /\ unnamedReg (state e')
          = Some (JS.substringFrom (getCurrentLine (state e))
                    (col (cursor (state e))))
       /\ mode (state e') = normal
       /\ line (cursor (state e')) = line (cursor (state e)).
Proof.
  assert (Hi : idle (engineAt ["abcd"; "ef"] (mkCursor 0 2)))
    by (repeat split).
  assert (I : Inv (state (engineAt ["abcd"; "ef"] (mkCursor 0 2)))).
  { split; [discriminate|].
    split; [unfold in_buffer, alen; cbn; lia|cbn; lia]. }
  assert (L : loose (state (engineAt ["abcd"; "ef"] (mkCursor 0 2)))).
  { unfold loose. apply Z.leb_le. vm_compute. reflexivity. }
  assert (E : JS.endsWith
                (JS.substringFrom
                   (getCurrentLine
                      (state (engineAt ["abcd"; "ef"] (mkCursor 0 2))))
                   (col (cursor
                           (state (engineAt ["abcd"; "ef"] (mkCursor 0 2))))))
                nl = false) by (vm_compute; reflexivity).
  split; [exact Hi|]. split; [exact I|]. split; [exact L|].
  split; [exact E|].
  exact (delete_to_end_then_paste (engineAt ["abcd"; "ef"] (mkCursor 0 2))
           Hi I L E).
Defined.

(** ** Joining lines *)

Lemma trimStart_spec (b : jstring) :
  exists w,
    b = w ++ JS.trimStart b /\ forallb JS.is_space w = true
    /\ match JS.trimStart b with
       | c :: _ => JS.is_space c = false
       | [] => True
       end.
Proof.
  induction b as [|c b IH].
  - exists []. repeat split.
  - cbn [JS.trimStart]. destruct (JS.is_space c) eqn:E.
    + destruct IH as (w & H1 & H2 & H3). exists (c :: w).
      split; [cbn [app]; f_equal; exact H1|].
      split; [cbn [forallb]; rewrite E, H2; reflexivity|exact H3].
    + exists []. repeat split. exact E.
Qed.

Lemma joinLines_at (s : EditorState) (pre post : list jstring)
  (a b : jstring) :
  lines s = pre ++ a :: b :: post -> line (cursor s) = alen pre ->
  joinLines s
  = Some (set_lines (pre ++ (a ++ " " ++ JS.trimStart b) :: post) s).
Proof.
  intros Hl Hc. pose proof (alen_nonneg pre) as Hp.
  pose proof (alen_nonneg post) as Hq.
  assert (E : forall x y : jstring,
            pre ++ x :: y :: post = (pre ++ [x]) ++ [y] ++ post)
    by (intros x y; rewrite <- app_assoc; reflexivity).
  assert (L : forall x : jstring, alen pre + 1 = alen (pre ++ [x]))
    by (intros x; rewrite alen_app; reflexivity).
  assert (Hb : in_buffer s (cursor s)).
  { unfold in_buffer. rewrite Hl, Hc, alen_app, !alen_cons. lia. }
  unfold joinLines.
  replace (line (cursor s) <? alen (lines s) - 1) with true
    by (rewrite Hl, Hc, alen_app, !alen_cons; lia).
  assert (G : getCurrentLine s = a).
  { unfold getCurrentLine. rewrite Hl, Hc, aget_app_mid. reflexivity. }
  rewrite G, Hc.
  assert (N : JS.aget (lines s) (alen pre + 1) = Some b).
  { rewrite Hl, E, (L a). cbn [app]. apply aget_app_mid. }
  rewrite N. cbn [bind].
  rewrite setCurrentLine_Some by exact Hb. cbn [bind ret]. sproj.
  rewrite Hl, Hc, aset_app_alen, E, (L (a ++ " " ++ JS.trimStart b)).
  change 1 with (alen [b]) at 1. rewrite splice_app. cbn [fst app].
  rewrite <- app_assoc. reflexivity.
Qed.

(** X15: [J] on a line that is not the last joins the next line to it:
    the next line loses its leading white space and is appended after one
    space; the line count drops by one, the other lines and the cursor
    stay.  A count typed before [J] makes no difference: the lines are
    joined once. *)
Theorem join_lines (e : VimEngine) (n : Z) (pre post : list jstring)
  (a b : jstring) :
  idle e -> lines (state e) = pre ++ a :: b :: post ->
  line (cursor (state e)) = alen pre -> 1 <= n ->
  exists w rest,
    b = w ++ rest /\ forallb JS.is_space w = true
    /\ match rest with c :: _ => JS.is_space c = false | [] => True end
    /\ handleKeys e ["J"]
       = Some (mkEngine
                 (set_lines (pre ++ (a ++ " " ++ rest) :: post) (state e))
                 [] false)
    /\ handleKeys e (typed (JS.toString n) ++ ["J"])
       = handleKeys e ["J"].
Proof.
  intros Hi Hl Hc Hn.
  destruct (trimStart_spec b) as (w & H1 & H2 & H3).
  exists w, (JS.trimStart b). split; [exact H1|]. split; [exact H2|].
  split; [exact H3|].
  assert (J : forall m, normalSwitch m (state e) "J"
                        = break_ (joinLines (state e))) by reflexivity.
  rewrite (idle_single e "J" Hi) by reflexivity.
  rewrite (counted_key e n "J" Hi Hn) by reflexivity.
  rewrite !J, (joinLines_at (state e) pre post a b Hl Hc). split; reflexivity.
Qed.

Lemma join_lines_witness :
  let e := engineAt ["ab"; "  cd"; "e"] (mkCursor 0 0) in
  idle e
  /\ lines (state e)
     = (@nil jstring) ++ ("ab" : jstring) :: ("  cd" : jstring)
         :: [("e" : jstring)]
  /\ line (cursor (state e)) = alen (@nil jstring) /\ 1 <= 3
  /\ exists w rest,
       ("  cd" : jstring) = w ++ rest /\ forallb JS.is_space w = true
       /\ match rest with c :: _ => JS.is_space c = false | [] => True end
       /\ handleKeys e ["J"]
          = Some (mkEngine
                    (set_lines
                       ((@nil jstring) ++ ("ab" ++ " " ++ rest)
                          :: [("e" : jstring)])
                       (state e))
                    [] false)
       /\ handleKeys e (typed (JS.toString 3) ++ ["J"])
          = handleKeys e ["J"].
Proof.
  assert (Hi : idle (engineAt ["ab"; "  cd"; "e"] (mkCursor 0 0)))
    by (repeat split).
  assert (N : 1 <= 3) by lia.
  split; [exact Hi|]. split; [reflexivity|]. split; [reflexivity|].
  split; [exact N|].
  exact (join_lines (engineAt ["ab"; "  cd"; "e"] (mkCursor 0 0)) 3
           [] [("e" : jstring)] "ab" "  cd" Hi eq_refl eq_refl N).
Defined.

(** ** Opening a line *)

Lemma escape_key_insert (e : VimEngine) :
  mode (state e) = insert ->
  handleKeyDown e (press "Escape")
  = Some (mkEngine
            (set_col (Z.max 0 (col (cursor (state e)) - 1))
               (set_mode normal (state e)))
            (countBuffer e) (commandTimeout e), true).
Proof. intros Hm. unfold handleKeyDown. rewrite Hm. reflexivity. Qed.

(** X16: opening a line.  From normal mode with nothing pending, [o], the
    characters of a text and [Escape] put the text on a new line below the
    current line; with [O] the new line goes above it.  The other lines
    keep their content and order, the cursor ends on the last character of
    the new line (column 0 if the text is empty), the engine is back in
    normal mode and nothing else has changed. *)
Theorem open_line_and_type (e : VimEngine) (t l : jstring)
  (pre post : list jstring) :
  idle e -> lines (state e) = pre ++ l :: post ->
  line (cursor (state e)) = alen pre ->
  handleKeys e (["o"] ++ typed t ++ ["Escape"])
  = Some (mkEngine
            (set_cursor (mkCursor (alen pre + 1) (Z.max 0 (JS.len t - 1)))
               (set_lines (pre ++ l :: t :: post) (state e)))
            [] false)
  /\ handleKeys e (["O"] ++ typed t ++ ["Escape"])
     = Some (mkEngine
               (set_cursor (mkCursor (alen pre) (Z.max 0 (JS.len t - 1)))
                  (set_lines (pre ++ t :: l :: post) (state e)))
               [] false).
Proof.
  intros Hi Hl Hc. pose proof Hi as (Hm & Hb & Hcb).
  pose proof (alen_nonneg pre) as Hp. pose proof (alen_nonneg post) as Hq.
  assert (F : forall s1 ls,
            mode s1 = insert -> lines s1 = ls ->
            in_buffer s1 (cursor s1) -> getCurrentLine s1 = [] ->
            col (cursor s1) = 0 ->
            handleKeys (mkEngine s1 [] false) (typed t ++ ["Escape"])
            = Some (mkEngine
                      (set_col (Z.max 0 (JS.len t - 1))
                         (set_mode normal
                            (set_lines
                               (JS.aset ls (Z.to_nat (line (cursor s1))) t)
                               s1)))
                      [] false)).
  { intros s1 ls M1 L1 B1 G1 C1.
    rewrite handleKeys_app.
    rewrite (insert_typing t [] [] (mkEngine s1 [] false) M1 B1)
      by (split; [exact G1|symmetry; exact C1]).
    cbn [bind handleKeys state countBuffer commandTimeout].
    rewrite escape_key_insert by (sproj; exact M1).
    cbn [bind ret fst state countBuffer commandTimeout]. unfold ret.
    do 2 f_equal. rewrite app_nil_r, C1, L1. cbn [app].
    unfold set_col, set_cursor, set_mode, set_lines. sproj.
    replace (0 + JS.len t - 1) with (JS.len t - 1) by lia. reflexivity. }
  split.
  - rewrite handleKeys_app, (idle_single e "o" Hi) by reflexivity.
    change (normalSwitch 1 (state e) "o")
      with (Some (set_mode insert
                    (set_col 0
                       (set_line (line (cursor (state e)) + 1)
                          (set_lines
                             (fst (JS.splice (lines (state e))
                                     (line (cursor (state e)) + 1) 0 [[]]))
                             (state e)))), true)).
    cbn [bind ret fst].
    assert (Sp : fst (JS.splice (lines (state e))
                        (line (cursor (state e)) + 1) 0 [[]])
                 = (pre ++ [l]) ++ [] :: post).
    { rewrite Hl, Hc.
      replace (pre ++ l :: post) with ((pre ++ [l]) ++ [] ++ post)
        by (rewrite <- app_assoc; reflexivity).
      replace (alen pre + 1) with (alen (pre ++ [l]))
        by (rewrite alen_app; reflexivity).
      change 0 with (alen (@nil jstring)) at 1.
      rewrite splice_app. reflexivity. }
    rewrite Sp, Hc.
    replace (alen pre + 1) with (alen (pre ++ [l]))
      by (rewrite alen_app; reflexivity).
    rewrite (F _ ((pre ++ [l]) ++ [] :: post));
      try reflexivity.
    + sproj. rewrite aset_app_alen. do 2 f_equal.
      unfold set_col, set_line, set_cursor, set_mode, set_lines. sproj.
      rewrite Hm, <- app_assoc. reflexivity.
    + unfold in_buffer. sproj. rewrite !alen_app, !alen_cons.
      change (alen (@nil jstring)) with 0. lia.
    + unfold getCurrentLine. sproj. rewrite aget_app_mid. reflexivity.
  - rewrite handleKeys_app, (idle_single e "O" Hi) by reflexivity.
    change (normalSwitch 1 (state e) "O")
      with (Some (set_mode insert
                    (set_col 0
                       (set_lines
                          (fst (JS.splice (lines (state e))
                                  (line (cursor (state e))) 0 [[]]))
                          (state e))), true)).
    cbn [bind ret fst].
    assert (Sp : fst (JS.splice (lines (state e))
                        (line (cursor (state e))) 0 [[]])
                 = pre ++ [] :: l :: post).
    { rewrite Hl, Hc.
      change (pre ++ l :: post) with (pre ++ [] ++ l :: post).
      change 0 with (alen (@nil jstring)) at 1.
      rewrite splice_app. reflexivity. }
    rewrite Sp.
    rewrite (F _ (pre ++ [] :: l :: post));
      try reflexivity.
    + sproj. rewrite Hc, aset_app_alen. do 2 f_equal.
      unfold set_col, set_line, set_cursor, set_mode, set_lines. sproj.
      rewrite Hm, Hc. reflexivity.
    + unfold in_buffer. sproj. rewrite Hc, !alen_app, !alen_cons. lia.
    + unfold getCurrentLine. sproj. rewrite Hc, aget_app_mid. reflexivity.
Qed.

Lemma open_line_and_type_witness :
  let e := engineAt ["ab"; "cd"] (mkCursor 0 1) in
  idle e
  /\ lines (state e) = (@nil jstring) ++ ("ab" : jstring) :: [("cd" : jstring)]
  /\ line (cursor (state e)) = alen (@nil jstring)
  /\ handleKeys e (["o"] ++ typed "xy" ++ ["Escape"])
     = Some (mkEngine
               (set_cursor
                  (mkCursor (alen (@nil jstring) + 1)
                     (Z.max 0 (JS.len "xy" - 1)))
                  (set_lines
                     ((@nil jstring) ++ ("ab" : jstring) :: ("xy" : jstring)
                        :: [("cd" : jstring)])
                     (state e)))
               [] false)
  /\ handleKeys e (["O"] ++ typed "xy" ++ ["Escape"])
     = Some (mkEngine
               (set_cursor
                  (mkCursor (alen (@nil jstring)) (Z.max 0 (JS.len "xy" - 1)))
                  (set_lines
                     ((@nil jstring) ++ ("xy" : jstring) :: ("ab" : jstring)
                        :: [("cd" : jstring)])
                     (state e)))
               [] false).
Proof.
  assert (Hi : idle (engineAt ["ab"; "cd"] (mkCursor 0 1)))
    by (repeat split).
  split; [exact Hi|]. split; [reflexivity|]. split; [reflexivity|].
  exact (open_line_and_type (engineAt ["ab"; "cd"] (mkCursor 0 1)) "xy" "ab"
           [] [("cd" : jstring)] Hi eq_refl eq_refl).
Defined.

(** ** The renderer's selection test and the engine's normal form *)

(** X17: the renderer and the engine agree on what a selection covers.
    [isCharSelected] marks a position exactly when a selection exists and
    the position lies between the two ends of the engine's
    [normalizeSelection] of it, both ends included, in the order of the
    buffer (by line, then by column).  So the test does not depend on the
    direction in which the selection was made: exchanging its start and its
    end gives the same answer. *)
Theorem selected_iff_between (st : EditorState) (l c : Z) :
  (isCharSelected st l c = true <->
   exists sel,
     selection st = Some sel
     /\ pos_le (sel_start (normalizeSelection sel)) (mkCursor l c)
     /\ pos_le (mkCursor l c) (sel_end (normalizeSelection sel)))
  /\ (forall a b,
        isCharSelected (set_selection (Some (mkSelection a b)) st) l c
        = isCharSelected (set_selection (Some (mkSelection b a)) st) l c).
Proof.
  assert (K : forall sel,
            isCharSelected (set_selection (Some sel) st) l c = true <->
            pos_le (sel_start (normalizeSelection sel)) (mkCursor l c)
            /\ pos_le (mkCursor l c) (sel_end (normalizeSelection sel))).
  { intros [[l1 c1] [l2 c2]].
    unfold isCharSelected, normalizeSelection, pos_le, set_selection. sproj.
    destruct (Z.ltb_spec l1 l2), (Z.ltb_spec l2 l1), (Z.eqb_spec l1 l2),
      (Z.leb_spec c1 c2), (Z.ltb_spec c2 c1);
      cbn [orb andb]; sproj; try lia;
      repeat match goal with
        | |- context [?x <? ?y] => destruct (Z.ltb_spec x y)
        | |- context [?x =? ?y] => destruct (Z.eqb_spec x y)
        end; cbn [orb andb]; split; intros; try discriminate; try lia;
      try reflexivity. }
  split.
  - split.
    + intros H. destruct (selection st) as [sel|] eqn:E.
      * exists sel. split; [reflexivity|]. apply K.
        unfold isCharSelected, set_selection in *. sproj.
        rewrite E in H. exact H.
      * unfold isCharSelected in H. rewrite E in H. discriminate.
    + intros (sel & E & H). apply K in H.
      unfold isCharSelected, set_selection in *. sproj.
      rewrite E. exact H.
  - intros a b.
    destruct (isCharSelected (set_selection (Some (mkSelection b a)) st) l c)
      eqn:E2.
    + apply K. apply K in E2. revert E2.
      destruct a as [l1 c1], b as [l2 c2].
      unfold normalizeSelection, pos_le. sproj.
      destruct (Z.ltb_spec l1 l2), (Z.ltb_spec l2 l1), (Z.eqb_spec l1 l2),
        (Z.eqb_spec l2 l1), (Z.ltb_spec c1 c2), (Z.ltb_spec c2 c1);
        cbn [orb andb]; sproj; lia.
    + destruct (isCharSelected (set_selection (Some (mkSelection a b)) st) l c)
        eqn:E1; [|reflexivity].
      apply K in E1.
      assert (E : isCharSelected (set_selection (Some (mkSelection b a)) st)
                    l c = true); [|congruence].
      apply K. revert E1.
      destruct a as [l1 c1], b as [l2 c2].
      unfold normalizeSelection, pos_le. sproj.
      destruct (Z.ltb_spec l1 l2), (Z.ltb_spec l2 l1), (Z.eqb_spec l1 l2),
        (Z.eqb_spec l2 l1), (Z.ltb_spec c1 c2), (Z.ltb_spec c2 c1);
        cbn [orb andb]; sproj; lia.
Qed.

(** ** The word motions *)

Lemma loop_up_run (bound : Z) (cond : Z -> bool) (c r : Z) :
  c <= r <= bound ->
  (forall k, c <= k < r -> cond k = true) ->
  (r < bound -> cond r = false) ->
  loop_up bound cond c = r.
Proof.
  intros Hr Hrun Hstop. unfold loop_up.
  remember (Z.to_nat (bound - c)) as fuel eqn:F.
  assert (H : bound - c <= Z.of_nat fuel) by lia. clear F.
  revert c Hr Hrun H; induction fuel as [|f IH]; intros c Hr Hrun H;
    cbn [while_up].
  - lia.
  - destruct (Z.ltb_spec c bound) as [Lt|Ge]; cbn [andb]; [|lia].
    destruct (Z.eq_dec c r) as [->|Ne].
    + rewrite Hstop by lia. reflexivity.
    + rewrite Hrun by lia. apply IH; [lia| |lia].
      intros k Hk. apply Hrun. lia.
Qed.

Lemma loop_down_run (cond : Z -> bool) (c r : Z) :
  0 <= r <= c ->
  (forall k, r < k <= c -> cond k = true) ->
  (0 < r -> cond r = false) ->
  loop_down cond c = r.
Proof.
  intros Hr Hrun Hstop. unfold loop_down.
  remember (Z.to_nat c) as fuel eqn:F.
  assert (H : c <= Z.of_nat fuel) by lia. clear F.
  revert c Hr Hrun H; induction fuel as [|f IH]; intros c Hr Hrun H;
    cbn [while_down].
  - replace (0 <? c) with false by lia. cbn [andb]. lia.
  - destruct (Z.ltb_spec 0 c) as [Lt|Ge]; cbn [andb]; [|lia].
    destruct (Z.eq_dec c r) as [->|Ne].
    + rewrite Hstop by lia. reflexivity.
    + rewrite Hrun by lia. apply IH; [lia| |lia].
      intros k Hk. apply Hrun. lia.
Qed.

Lemma charAt_app_right (p q : jstring) (i : Z) :
  0 <= i -> JS.charAt (p ++ q) (JS.len p + i) = JS.charAt q i.
Proof.
  intros H. pose proof (len_nonneg p) as Hp. unfold JS.charAt.
  replace (JS.len p + i <? 0) with false by lia.
  replace (i <? 0) with false by lia.
  unfold JS.len in *.
  replace (Z.to_nat (Z.of_nat (length p) + i))
    with (length p + Z.to_nat i)%nat by lia.
  rewrite nth_error_app2 by lia. f_equal. lia.
Qed.

Lemma charAt_app_left (p q : jstring) (i : Z) :
  i < JS.len p -> JS.charAt (p ++ q) i = JS.charAt p i.
Proof.
  intros H. unfold JS.charAt. destruct (Z.ltb_spec i 0); [reflexivity|].
  unfold JS.len in H. apply nth_error_app1. lia.
Qed.

Lemma charAt_head (c : ascii) (q : jstring) : JS.charAt (c :: q) 0 = Some c.
Proof. reflexivity. Qed.

Lemma charAt_end (p : jstring) : JS.charAt p (JS.len p) = None.
Proof.
  pose proof (len_nonneg p) as H. unfold JS.charAt.
  destruct (Z.ltb_spec (JS.len p) 0); [reflexivity|].
  apply nth_error_None. unfold JS.len. lia.
Qed.

Lemma charAt_forallb (f : ascii -> bool) (w : jstring) (i : Z) :
  forallb f w = true -> 0 <= i < JS.len w ->
  exists x, JS.charAt w i = Some x /\ f x = true.
Proof.
  intros Hf Hi. destruct (charAt_Some w i Hi) as (x & Hx).
  exists x. split; [exact Hx|].
  unfold JS.charAt in Hx. replace (i <? 0) with false in Hx by lia.
  apply nth_error_In in Hx. rewrite forallb_forall in Hf. auto.
Qed.

(** The character at position [k] of a run [w] inside [p ++ w ++ q]. *)
Lemma charAt_run (f : ascii -> bool) (p w q : jstring) (k : Z) :
  forallb f w = true -> JS.len p <= k < JS.len p + JS.len w ->
  exists x, JS.charAt (p ++ w ++ q) k = Some x /\ f x = true.
Proof.
  intros Hf Hk.
  destruct (charAt_forallb f w (k - JS.len p) Hf) as (x & Hx & Fx); [lia|].
  exists x. split; [|exact Fx].
  replace k with (JS.len p + (k - JS.len p)) by lia.
  rewrite charAt_app_right by lia. rewrite charAt_app_left by lia. exact Hx.
Qed.

Lemma charAt_after (p w : jstring) (c : ascii) (q : jstring) :
  JS.charAt (p ++ w ++ c :: q) (JS.len p + JS.len w) = Some c.
Proof.
  rewrite charAt_app_right by apply len_nonneg.
  replace (JS.len w) with (JS.len w + 0) by lia.
  rewrite charAt_app_right by lia. reflexivity.
Qed.

Lemma space_not_word (c : ascii) : JS.is_space c = true -> JS.is_word c = false.
Proof.
  unfold JS.is_space, JS.is_word, JS.is_digit.
  generalize (JS.code c). intros n H.
  repeat match goal with
    | |- context [?x <=? ?y] => destruct (Z.leb_spec x y)
    | |- context [?x =? ?y] => destruct (Z.eqb_spec x y)
    | H : context [?x <=? ?y] |- _ => destruct (Z.leb_spec x y)
    | H : context [?x =? ?y] |- _ => destruct (Z.eqb_spec x y)
    end; cbn [andb orb] in *; try reflexivity; try discriminate; lia.
Qed.

Lemma word_not_space (c : ascii) : JS.is_word c = true -> JS.is_space c = false.
Proof.
  intros H. destruct (JS.is_space c) eqn:E; [|reflexivity].
  apply space_not_word in E. congruence.
Qed.

(** [moveWordForward] inside a line: over the rest of the word under the
    cursor and the white space behind it. *)
Lemma moveWordForward_at (s : EditorState) (p w sp rest : jstring)
  (c : ascii) :
  getCurrentLine s = p ++ w ++ sp ++ c :: rest ->
  col (cursor s) = JS.len p ->
  forallb JS.is_word w = true -> forallb JS.is_space sp = true ->
  JS.is_space c = false -> (sp = [] -> JS.is_word c = false) ->
  moveWordForward s = set_col (JS.len p + JS.len w + JS.len sp) s.
Proof.
  intros Hl Hc Hw Hs Hcs Hcw. unfold moveWordForward. rewrite Hl, Hc.
  pose proof (len_nonneg p). pose proof (len_nonneg w).
  pose proof (len_nonneg sp). pose proof (len_nonneg rest).
  set (ln := p ++ w ++ sp ++ c :: rest).
  assert (Ln : JS.len ln = JS.len p + JS.len w + JS.len sp + 1 + JS.len rest).
  { subst ln. rewrite !len_app, len_cons. lia. }
  assert (L1 : loop_up (JS.len ln) (fun k => JS.test_w (JS.charAt ln k))
                 (JS.len p) = JS.len p + JS.len w).
  { apply loop_up_run; [lia| |].
    - intros k Hk. subst ln.
      destruct (charAt_run JS.is_word p w (sp ++ c :: rest) k Hw)
        as (x & -> & Fx); [lia|]. exact Fx.
    - intros _. subst ln. destruct sp as [|y sp'].
      + cbn [app]. rewrite charAt_after. cbn [JS.test_w]. auto.
      + change (p ++ w ++ (y :: sp') ++ c :: rest)
          with (p ++ w ++ y :: sp' ++ c :: rest).
        rewrite charAt_after. cbn [JS.test_w].
        cbn [forallb] in Hs. apply andb_true_iff in Hs.
        apply space_not_word. tauto. }
  rewrite L1.
  assert (L2 : loop_up (JS.len ln) (fun k => JS.test_s (JS.charAt ln k))
                 (JS.len p + JS.len w) = JS.len p + JS.len w + JS.len sp).
  { apply loop_up_run; [lia| |].
    - intros k Hk. subst ln. rewrite (app_assoc p w).
      destruct (charAt_run JS.is_space (p ++ w) sp (c :: rest) k Hs)
        as (x & -> & Fx); [rewrite len_app; lia|]. exact Fx.
    - intros _. subst ln. rewrite (app_assoc p w).
      replace (JS.len p + JS.len w) with (JS.len (p ++ w))
        by apply len_app.
      rewrite charAt_after. exact Hcs. }
  rewrite L2.
  replace (JS.len ln <=? JS.len p + JS.len w + JS.len sp) with false by lia.
  cbn [andb]. f_equal. lia.
Qed.

(** [moveWordBackward] from behind a word and the white space after it:
    to the first character of the word. *)
Lemma moveWordBackward_at (s : EditorState) (p w sp rest : jstring) :
  getCurrentLine s = p ++ w ++ sp ++ rest ->
  col (cursor s) = JS.len p + JS.len w + JS.len sp ->
  w <> [] ->
  forallb JS.is_word w = true -> forallb JS.is_space sp = true ->
  (forall x, JS.charAt p (JS.len p - 1) = Some x -> JS.is_word x = false) ->
  moveWordBackward s = set_col (JS.len p) s.
Proof.
  intros Hl Hc Hne Hw Hs Hp. unfold moveWordBackward. rewrite Hl, Hc.
  pose proof (len_nonneg p). pose proof (len_pos w Hne).
  pose proof (len_nonneg sp).
  set (ln := p ++ w ++ sp ++ rest).
  replace (0 <? JS.len p + JS.len w + JS.len sp) with true by lia.
  assert (L1 : loop_down (fun k => JS.test_s (JS.charAt ln k))
                 (JS.len p + JS.len w + JS.len sp - 1)
               = JS.len p + JS.len w - 1).
  { apply loop_down_run; [lia| |].
    - intros k Hk. subst ln. rewrite (app_assoc p w).
      destruct (charAt_run JS.is_space (p ++ w) sp rest k Hs)
        as (x & -> & Fx); [rewrite len_app; lia|]. exact Fx.
    - intros _. subst ln.
      destruct (charAt_run JS.is_word p w (sp ++ rest)
                  (JS.len p + JS.len w - 1) Hw) as (x & -> & Fx); [lia|].
      cbn [JS.test_s]. apply word_not_space. exact Fx. }
  rewrite L1.
  assert (L2 : loop_down (fun k => JS.test_w (JS.charAt ln (k - 1)))
                 (JS.len p + JS.len w - 1) = JS.len p).
  { apply loop_down_run; [lia| |].
    - intros k Hk. subst ln.
      destruct (charAt_run JS.is_word p w (sp ++ rest) (k - 1) Hw)
        as (x & -> & Fx); [lia|]. exact Fx.
    - intros Hpos. subst ln. rewrite charAt_app_left by lia.
      destruct (charAt_Some p (JS.len p - 1)) as (x & Hx); [lia|].
      rewrite Hx. cbn [JS.test_w]. apply Hp. exact Hx. }
  rewrite L2. reflexivity.
Qed.

Lemma iter_fixed {A} (f : A -> A) (a : A) (n : nat) :
  f a = a -> Nat.iter n f a = a.
Proof.
  intros H. induction n as [|n IH]; [reflexivity|].
  rewrite Nat.iter_succ, IH. exact H.
Qed.

(** X18: the word motion [w] inside a line.  With the cursor at the start
    of a run [w] of word characters that is followed by white space [sp] and
    then by a character that is not white space, the key [w] puts the cursor
    on that character, and nothing else changes.  If the run is not empty
    and is not preceded by a word character, [b] then brings the cursor back
    to where it was.  On a character that is neither a word character nor
    white space, such as a full stop before a word, [w] does not move the
    cursor at all, with or without a count. *)
Theorem word_forward_in_line (e : VimEngine) (p w sp rest : jstring)
  (c : ascii) :
  idle e ->
  getCurrentLine (state e) = p ++ w ++ sp ++ c :: rest ->
  col (cursor (state e)) = JS.len p ->
  forallb JS.is_word w = true -> forallb JS.is_space sp = true ->
  JS.is_space c = false -> (sp = [] -> JS.is_word c = false) ->
  handleKeys e ["w"]
  = Some (mkEngine (set_col (JS.len p + JS.len w + JS.len sp) (state e))
            [] false)
  /\ (w <> [] ->
      (forall x, JS.charAt p (JS.len p - 1) = Some x -> JS.is_word x = false) ->
      handleKeys e ["w"; "b"] = Some (mkEngine (state e) [] false))
  /\ (w = [] -> sp = [] ->
      forall n, 1 <= n ->
        handleKeys e (typed (JS.toString n) ++ ["w"])
        = Some (mkEngine (state e) [] false)).
Proof.
  intros Hi Hl Hc Hw Hs Hcs Hcw.
  pose proof (moveWordForward_at (state e) p w sp rest c Hl Hc Hw Hs Hcs Hcw)
    as F.
  assert (W : handleKeys e ["w"]
              = Some (mkEngine
                        (set_col (JS.len p + JS.len w + JS.len sp) (state e))
                        [] false)).
  { rewrite (idle_single e "w" Hi) by reflexivity.
    change (normalSwitch 1 (state e) "w")
      with (break_ (ret (times 1 moveWordForward (state e)))).
    unfold times. change (Z.to_nat 1) with 1%nat.
    rewrite Nat.iter_succ. change (Nat.iter 0 ?f ?x) with x.
    rewrite F. reflexivity. }
  split; [exact W|]. split.
  - intros Hne Hp.
    change ["w"; "b"] with (["w"] ++ ["b"]).
    rewrite handleKeys_app, W. cbn [bind].
    destruct Hi as (Hm & Hb & Hcb).
    assert (B : forall e2, idle e2 ->
              handleKeys e2 ["b"]
              = Some (mkEngine (moveWordBackward (state e2)) [] false)).
    { intros e2 H2. rewrite (idle_single e2 "b" H2) by reflexivity.
      reflexivity. }
    rewrite B by (repeat split; sproj; assumption). cbn [state].
    rewrite (moveWordBackward_at _ p w sp (c :: rest)); try assumption;
      [|reflexivity].
    do 2 f_equal.
    rewrite set_col_set_col, <- Hc. apply set_col_same.
  - intros -> -> n Hn.
    rewrite (counted_key e n "w" Hi Hn eq_refl).
    change (normalSwitch n (state e) "w")
      with (break_ (ret (times n moveWordForward (state e)))).
    unfold times. rewrite iter_fixed; [reflexivity|].
    rewrite F. rewrite len_nil, !Z.add_0_r, <- Hc.
    apply set_col_same.
Qed.

Lemma word_forward_in_line_witness :
  let e := engineAt ["ab  .cd"] (mkCursor 0 0) in
  idle e
  /\ getCurrentLine (state e)
     = (@nil ascii) ++ ("ab" : jstring) ++ ("  " : jstring)
         ++ "."%char :: ("cd" : jstring)
  /\ col (cursor (state e)) = JS.len []
  /\ forallb JS.is_word ("ab" : jstring) = true
  /\ forallb JS.is_space ("  " : jstring) = true
  /\ JS.is_space "."%char = false
  /\ handleKeys e ["w"]
     = Some (mkEngine
               (set_col (JS.len [] + JS.len "ab" + JS.len "  ") (state e))
               [] false).
Proof.
  assert (Hi : idle (engineAt ["ab  .cd"] (mkCursor 0 0)))
    by (repeat split).
  split; [exact Hi|]. do 5 (split; [reflexivity|]).
  refine (proj1 (word_forward_in_line (engineAt ["ab  .cd"] (mkCursor 0 0))
                   [] "ab" "  " "cd" "."%char Hi eq_refl eq_refl eq_refl
                   eq_refl eq_refl _)).
  discriminate.
Defined.

(** [moveWordForward] from the last word of a line, or from the white
    space that ends it: both loops run to the end of the line. *)
Lemma moveWordForward_scan_end (p w sp : jstring) :
  forallb JS.is_word w = true -> forallb JS.is_space sp = true ->
  let ln := p ++ w ++ sp in
  loop_up (JS.len ln) (fun k => JS.test_s (JS.charAt ln k))
    (loop_up (JS.len ln) (fun k => JS.test_w (JS.charAt ln k)) (JS.len p))
  = JS.len ln.
Proof.
  intros Hw Hs ln.
  pose proof (len_nonneg p). pose proof (len_nonneg w).
  pose proof (len_nonneg sp).
  assert (Ln : JS.len ln = JS.len p + JS.len w + JS.len sp).
  { subst ln. rewrite !len_app. lia. }
  assert (L1 : loop_up (JS.len ln) (fun k => JS.test_w (JS.charAt ln k))
                 (JS.len p) = JS.len p + JS.len w).
  { apply loop_up_run; [lia| |].
    - intros k Hk. subst ln.
      destruct (charAt_run JS.is_word p w sp k Hw) as (x & -> & Fx); [lia|].
      exact Fx.
    - intros Hlt. subst ln. destruct sp as [|y sp']; [rewrite len_nil in *; lia|].
      rewrite charAt_after. cbn [JS.test_w].
      cbn [forallb] in Hs. apply andb_true_iff in Hs.
      apply space_not_word. tauto. }
  rewrite L1.
  apply loop_up_run; [lia| |lia].
  intros k Hk. subst ln. rewrite (app_assoc p w), <- (app_nil_r sp).
  destruct (charAt_run JS.is_space (p ++ w) sp [] k Hs) as (x & -> & Fx);
    [rewrite len_app; lia|]. exact Fx.
Qed.

(** X19: the word motion [w] at the end of a line.  With nothing but the
    rest of a word and white space between the cursor and the end of its
    line, [w] goes to the next line and stops on its first character that is
    not white space; if that line holds white space only, the cursor stops
    behind its last character.  On the last line of the buffer the cursor
    stops on the last character of the line instead. *)
Theorem word_forward_line_end (e : VimEngine) (p w sp : jstring) :
  idle e ->
  getCurrentLine (state e) = p ++ w ++ sp ->
  col (cursor (state e)) = JS.len p ->
  forallb JS.is_word w = true -> forallb JS.is_space sp = true ->
  let s := state e in
  (forall sp' rest' : jstring,
     line (cursor s) < alen (lines s) - 1 ->
     JS.aget (lines s) (line (cursor s) + 1) = Some (sp' ++ rest') ->
     forallb JS.is_space sp' = true ->
     (forall x, JS.charAt rest' 0 = Some x -> JS.is_space x = false) ->
     handleKeys e ["w"]
     = Some (mkEngine
               (set_cursor (mkCursor (line (cursor s) + 1) (JS.len sp')) s)
               [] false))
  /\ (alen (lines s) - 1 <= line (cursor s) ->
      handleKeys e ["w"]
      = Some (mkEngine
                (set_col (Z.max 0 (JS.len (getCurrentLine s) - 1)) s)
                [] false)).
Proof.
  intros Hi Hl Hc Hw Hs s. subst s.
  pose proof (moveWordForward_scan_end p w sp Hw Hs) as Sc. cbv zeta in Sc.
  assert (W : handleKeys e ["w"]
              = Some (mkEngine (moveWordForward (state e)) [] false)).
  { rewrite (idle_single e "w" Hi) by reflexivity. reflexivity. }
  rewrite W. split.
  - intros sp' rest' Hlast Hn Hs' Hr.
    do 2 f_equal. unfold moveWordForward. rewrite Hl, Hc, Sc.
    rewrite Z.leb_refl.
    replace (line (cursor (state e)) <? alen (lines (state e)) - 1)
      with true by lia.
    cbn [andb]. cbv zeta. unfold getCurrentLine. sproj. rewrite Hn.
    pose proof (len_nonneg sp'). pose proof (len_nonneg rest').
    rewrite (loop_up_run _ _ 0 (JS.len sp')).
    + reflexivity.
    + rewrite len_app. lia.
    + intros k Hk. rewrite <- (app_nil_l (sp' ++ rest')).
      destruct (charAt_run JS.is_space [] sp' rest' k Hs') as (x & -> & Fx);
        [rewrite len_nil; lia|]. exact Fx.
    + intros Hlt. rewrite len_app in Hlt.
      replace (JS.len sp') with (JS.len sp' + 0) at 1 by lia.
      rewrite charAt_app_right by lia.
      destruct (charAt_Some rest' 0) as (x & Hx); [lia|].
      rewrite Hx. cbn [JS.test_s]. apply Hr. exact Hx.
  - intros Hlast. do 2 f_equal. unfold moveWordForward.
    rewrite Hl, Hc, Sc.
    replace (line (cursor (state e)) <? alen (lines (state e)) - 1)
      with false by lia.
    rewrite andb_false_r. f_equal.
    pose proof (len_nonneg (p ++ w ++ sp)). lia.
Qed.

Lemma word_forward_line_end_witness :
  let e := engineAt ["ab cd "; "  "] (mkCursor 0 4) in
  idle e
  /\ getCurrentLine (state e)
     = ("ab c" : jstring) ++ ("d" : jstring) ++ (" " : jstring)
  /\ col (cursor (state e)) = JS.len "ab c"
  /\ forallb JS.is_word ("d" : jstring) = true
  /\ forallb JS.is_space (" " : jstring) = true
  /\ line (cursor (state e)) < alen (lines (state e)) - 1
  /\ JS.aget (lines (state e)) (line (cursor (state e)) + 1)
     = Some (("  " : jstring) ++ [])
  /\ forallb JS.is_space ("  " : jstring) = true
  /\ handleKeys e ["w"]
     = Some (mkEngine
               (set_cursor
                  (mkCursor (line (cursor (state e)) + 1) (JS.len "  "))
                  (state e))
               [] false).
Proof.
  assert (Hi : idle (engineAt ["ab cd "; "  "] (mkCursor 0 4)))
    by (repeat split).
  split; [exact Hi|]. do 4 (split; [reflexivity|]).
  split; [vm_compute; reflexivity|]. do 2 (split; [reflexivity|]).
  refine (proj1 (word_forward_line_end (engineAt ["ab cd "; "  "]
                                          (mkCursor 0 4))
                   "ab c" "d" " " Hi eq_refl eq_refl eq_refl eq_refl)
            "  " [] _ eq_refl eq_refl _).
  - vm_compute. reflexivity.
  - intros x Hx. discriminate Hx.
Defined.

(** [moveToEndOfWord] inside a line. *)
Lemma moveToEndOfWord_at (s : EditorState) (p sp v rest : jstring)
  (x y : ascii) :
  getCurrentLine s = p ++ x :: sp ++ y :: v ++ rest ->
  col (cursor s) = JS.len p ->
  forallb JS.is_space sp = true -> JS.is_space y = false ->
  forallb JS.is_word v = true ->
  (forall z, JS.charAt rest 0 = Some z -> JS.is_word z = false) ->
  moveToEndOfWord s = set_col (JS.len p + 1 + JS.len sp + JS.len v) s.
Proof.
  intros Hl Hc Hs Hy Hv Hr. unfold moveToEndOfWord. rewrite Hl, Hc.
  pose proof (len_nonneg p). pose proof (len_nonneg sp).
  pose proof (len_nonneg v). pose proof (len_nonneg rest).
  set (ln := p ++ x :: sp ++ y :: v ++ rest).
  assert (Ln : JS.len ln
               = JS.len p + 1 + JS.len sp + 1 + JS.len v + JS.len rest).
  { subst ln. rewrite !len_app, !len_cons, !len_app, !len_cons, !len_app. lia. }
  replace (JS.len p <? JS.len ln - 1) with true by lia.
  assert (E1 : ln = (p ++ [x]) ++ sp ++ y :: v ++ rest).
  { subst ln. rewrite <- app_assoc. reflexivity. }
  assert (P1 : JS.len (p ++ [x]) = JS.len p + 1).
  { rewrite len_app, len_cons, len_nil. lia. }
  assert (L1 : loop_up (JS.len ln) (fun k => JS.test_s (JS.charAt ln k))
                 (JS.len p + 1) = JS.len p + 1 + JS.len sp).
  { apply loop_up_run; [lia| |].
    - intros k Hk. rewrite E1.
      destruct (charAt_run JS.is_space (p ++ [x]) sp (y :: v ++ rest) k Hs)
        as (c & -> & Fc); [lia|]. exact Fc.
    - intros _. rewrite E1, <- P1, charAt_after. exact Hy. }
  rewrite L1.
  assert (E2 : ln = (p ++ x :: sp ++ [y]) ++ v ++ rest).
  { subst ln. rewrite <- app_assoc. cbn [app]. rewrite <- app_assoc.
    reflexivity. }
  assert (P2 : JS.len (p ++ x :: sp ++ [y]) = JS.len p + 1 + JS.len sp + 1).
  { rewrite len_app, len_cons, len_app, len_cons, len_nil. lia. }
  assert (L2 : loop_up (JS.len ln - 1)
                 (fun k => JS.test_w (JS.charAt ln (k + 1)))
                 (JS.len p + 1 + JS.len sp)
               = JS.len p + 1 + JS.len sp + JS.len v).
  { apply loop_up_run; [lia| |].
    - intros k Hk. rewrite E2.
      destruct (charAt_run JS.is_word (p ++ x :: sp ++ [y]) v rest (k + 1) Hv)
        as (c & -> & Fc); [lia|]. exact Fc.
    - intros Hlt. rewrite E2.
      replace (JS.len p + 1 + JS.len sp + JS.len v + 1)
        with (JS.len ((p ++ x :: sp ++ [y]) ++ v) + 0)
        by (rewrite len_app; lia).
      rewrite app_assoc, charAt_app_right by lia.
      destruct (charAt_Some rest 0) as (z & Hz); [lia|].
      rewrite Hz. cbn [JS.test_w]. apply Hr. exact Hz. }
  rewrite L2. f_equal. lia.
Qed.

(** [moveToEndOfWord] on the last character of a line. *)
Lemma moveToEndOfWord_last (s : EditorState) :
  col (cursor s) = Z.max 0 (JS.len (getCurrentLine s) - 1) ->
  moveToEndOfWord s = s.
Proof.
  intros Hc. unfold moveToEndOfWord.
  set (ln := getCurrentLine s) in *. pose proof (len_nonneg ln).
  replace (col (cursor s) <? JS.len ln - 1) with false by lia.
  match goal with |- context [loop_up ?b ?f (loop_up ?b' ?g ?c)] =>
    pose proof (loop_up_bounds b' g c);
    pose proof (loop_up_bounds b f (loop_up b' g c));
    set (c2 := loop_up b f (loop_up b' g c)) in * end.
  replace (Z.min c2 (Z.max 0 (JS.len ln - 1))) with (col (cursor s)) by lia.
  apply set_col_same.
Qed.

(** X20: the word motion [e].  From any character, with white space [sp]
    and then a character [y] that is not white space further on in the
    line, [e] skips the white space and the word characters [v] that follow
    [y], and stops on the last of them.  On the last character of a line
    [e] stays where it is, with or without a count: unlike [w] it never
    goes to the next line. *)
Theorem word_end_motion (e : VimEngine) :
  idle e ->
  let s := state e in
  (forall (p sp v rest : jstring) (x y : ascii),
     getCurrentLine s = p ++ x :: sp ++ y :: v ++ rest ->
     col (cursor s) = JS.len p ->
     forallb JS.is_space sp = true -> JS.is_space y = false ->
     forallb JS.is_word v = true ->
     (forall z, JS.charAt rest 0 = Some z -> JS.is_word z = false) ->
     handleKeys e ["e"]
     = Some (mkEngine (set_col (JS.len p + 1 + JS.len sp + JS.len v) s)
               [] false))
  /\ (col (cursor s) = Z.max 0 (JS.len (getCurrentLine s) - 1) ->
      forall n, 1 <= n ->
        handleKeys e ["e"] = Some (mkEngine s [] false)
        /\ handleKeys e (typed (JS.toString n) ++ ["e"])
           = Some (mkEngine s [] false)).
Proof.
  intros Hi s. subst s.
  assert (W : handleKeys e ["e"]
              = Some (mkEngine (moveToEndOfWord (state e)) [] false)).
  { rewrite (idle_single e "e" Hi) by reflexivity. reflexivity. }
  split.
  - intros p sp v rest x y Hl Hc Hs Hy Hv Hr. rewrite W.
    rewrite (moveToEndOfWord_at (state e) p sp v rest x y); auto.
  - intros Hc n Hn. split.
    + rewrite W, moveToEndOfWord_last by exact Hc. reflexivity.
    + rewrite (counted_key e n "e" Hi Hn eq_refl).
      change (normalSwitch n (state e) "e")
        with (break_ (ret (times n moveToEndOfWord (state e)))).
      unfold times. rewrite iter_fixed; [reflexivity|].
      apply moveToEndOfWord_last. exact Hc.
Qed.

Lemma word_end_motion_witness :
  let e := engineAt ["a  .bc d"] (mkCursor 0 0) in
  idle e
  /\ handleKeys e ["e"]
     = Some (mkEngine
               (set_col (JS.len [] + 1 + JS.len "  " + JS.len "bc") (state e))
               [] false).
Proof.
  assert (Hi : idle (engineAt ["a  .bc d"] (mkCursor 0 0)))
    by (repeat split).
  split; [exact Hi|].
  refine (proj1 (word_end_motion (engineAt ["a  .bc d"] (mkCursor 0 0)) Hi)
            [] "  " "bc" " d" "a"%char "."%char eq_refl eq_refl eq_refl
            eq_refl eq_refl _).
  intros z Hz. injection Hz as <-. reflexivity.
Defined.

(** ** Editing the command line *)

Lemma command_backspace_key (e : VimEngine) :
  mode (state e) = command ->
  handleKeyDown e (press "Backspace")
  = Some (mkEngine
            (if 1 <? JS.len (commandBuffer (state e))
             then set_commandBuffer (JS.slice (commandBuffer (state e)) 0 (-1))
                    (state e)
             else set_commandBuffer [] (set_mode normal (state e)))
            (countBuffer e) (commandTimeout e), true).
Proof.
  intros Hm. unfold handleKeyDown. rewrite Hm.
  unfold handleCommandMode. cbn [key press].
  change (switch ("Backspace" : jstring) ?cs ?d)
    with (if 1 <? JS.len (commandBuffer (state e))
          then ret (set_commandBuffer
                      (JS.slice (commandBuffer (state e)) 0 (-1)) (state e))
          else ret (set_commandBuffer [] (set_mode normal (state e)))).
  destruct (1 <? JS.len (commandBuffer (state e))); reflexivity.
Qed.

Lemma command_erasing (t b : jstring) (e : VimEngine) :
  mode (state e) = command -> b <> [] ->
  commandBuffer (state e) = b ++ t ->
  handleKeys e (repeat ("Backspace" : String.string) (length t))
  = Some (mkEngine (set_commandBuffer b (state e))
            (countBuffer e) (commandTimeout e)).
Proof.
  revert e. induction t as [|c t IH] using rev_ind; intros e Hm Hb Hc.
  - cbn [length repeat handleKeys]. rewrite app_nil_r in Hc.
    rewrite <- Hc, set_commandBuffer_same, engine_eta. reflexivity.
  - rewrite length_app. cbn [length]. rewrite Nat.add_comm.
    cbn [Nat.add repeat handleKeys].
    rewrite command_backspace_key by exact Hm. cbn [bind fst].
    pose proof (len_pos b Hb). pose proof (len_nonneg t).
    rewrite Hc. rewrite app_assoc.
    replace (1 <? JS.len ((b ++ t) ++ [c])) with true
      by (rewrite !len_app, len_cons, len_nil; lia).
    rewrite slice_drop_last.
    rewrite (IH (mkEngine (set_commandBuffer (b ++ t) (state e))
                   (countBuffer e) (commandTimeout e)));
      [reflexivity|exact Hm|exact Hb|reflexivity].
Qed.

Lemma command_escape_key (e : VimEngine) :
  mode (state e) = command ->
  handleKeyDown e (press "Escape")
  = Some (mkEngine (set_commandBuffer [] (set_mode normal (state e)))
            (countBuffer e) (commandTimeout e), true).
Proof. intros Hm. unfold handleKeyDown. rewrite Hm. reflexivity. Qed.

(** X21: an abandoned command line leaves no trace.  From normal mode with
    nothing pending, [:] or [/] followed by any text puts the text behind
    the prompt character in the command buffer; erasing it with as many
    [Backspace] keys as characters typed gives the bare prompt back, one
    more [Backspace] (or [Escape] at any point) leaves the command line,
    and the state is then the state before the prompt was opened. *)
Theorem command_line_abandoned (e : VimEngine) (t : jstring) :
  idle e ->
  let open (k : String.string) := [k] ++ typed t in
  let erase := repeat ("Backspace" : String.string) (length t) in
  let back := Some (mkEngine (state e) [] false) in
  handleKeys e (open ":")
  = Some (mkEngine
            (set_commandBuffer (":" ++ t) (set_mode command (state e)))
            [] false)
  /\ handleKeys e (open ":" ++ erase) = handleKeys e [":"]
  /\ handleKeys e (open ":" ++ erase ++ ["Backspace"]) = back
  /\ handleKeys e (open "/" ++ erase ++ ["Backspace"]) = back
  /\ handleKeys e (open ":" ++ ["Escape"]) = back
  /\ handleKeys e (open "/" ++ ["Escape"]) = back.
Proof.
  intros Hi open erase back. subst open erase back. cbv beta.
  destruct (open_command_line e Hi) as [O1 O2].
  pose proof Hi as (Hm & Hb & Hcb).
  assert (T : forall (k : String.string) (b : jstring),
            handleKeys e [k]
            = Some (mkEngine (set_commandBuffer b (set_mode command (state e)))
                      [] false) ->
            handleKeys e ([k] ++ typed t)
            = Some (mkEngine
                      (set_commandBuffer (b ++ t) (set_mode command (state e)))
                      [] false)).
  { intros k b Hk. rewrite handleKeys_app, Hk. cbn [bind].
    rewrite command_typing by reflexivity. reflexivity. }
  assert (Er : forall (k : String.string) (b : jstring),
            b <> [] ->
            handleKeys e [k]
            = Some (mkEngine (set_commandBuffer b (set_mode command (state e)))
                      [] false) ->
            handleKeys e (([k] ++ typed t)
                            ++ repeat ("Backspace" : String.string) (length t))
            = handleKeys e [k]).
  { intros k b Hne Hk. rewrite handleKeys_app, (T k b Hk), Hk. cbn [bind].
    rewrite (command_erasing t b) by (try reflexivity; exact Hne).
    reflexivity. }
  assert (Bs : forall (k : String.string) (c : ascii),
            handleKeys e [k]
            = Some (mkEngine
                      (set_commandBuffer [c] (set_mode command (state e)))
                      [] false) ->
            handleKeys e (([k] ++ typed t)
                            ++ repeat ("Backspace" : String.string) (length t)
                            ++ ["Backspace"])
            = Some (mkEngine (state e) [] false)).
  { intros k c Hk. rewrite app_assoc, handleKeys_app.
    rewrite (Er k [c]) by (try discriminate; exact Hk).
    rewrite Hk. cbn [bind handleKeys].
    rewrite command_backspace_key by reflexivity.
    cbn [bind fst state countBuffer commandTimeout]. sproj.
    change (1 <? JS.len [c]) with false. cbv iota.
    unfold ret. do 2 f_equal.
    apply (leave_command_line [c] (state e) Hm Hb). }
  assert (Es : forall (k : String.string) (b : jstring),
            handleKeys e [k]
            = Some (mkEngine (set_commandBuffer b (set_mode command (state e)))
                      [] false) ->
            handleKeys e (([k] ++ typed t) ++ ["Escape"])
            = Some (mkEngine (state e) [] false)).
  { intros k b Hk. rewrite handleKeys_app, (T k b Hk). cbn [bind handleKeys].
    rewrite command_escape_key by reflexivity.
    cbn [bind fst state countBuffer commandTimeout]. sproj.
    unfold ret. do 2 f_equal.
    apply (leave_command_line (b ++ t) (state e) Hm Hb). }
  split; [exact (T ":" ":" O1)|].
  split; [exact (Er ":" ":" ltac:(discriminate) O1)|].
  split; [exact (Bs ":" ":"%char O1)|].
  split; [exact (Bs "/" "/"%char O2)|].
  split; [exact (Es ":" ":" O1)|exact (Es "/" "/" O2)].
Qed.

Lemma command_line_abandoned_witness :
  let e := engineAt ["ab"; "cd"] (mkCursor 1 1) in
  idle e
  /\ handleKeys e ([":"] ++ typed "s/a/b" ++ ["Escape"])
     = Some (mkEngine (state e) [] false).
Proof.
  assert (Hi : idle (engineAt ["ab"; "cd"] (mkCursor 1 1)))
    by (repeat split).
  split; [exact Hi|].
  rewrite app_assoc.
  exact (proj1 (proj2 (proj2 (proj2 (proj2
           (command_line_abandoned (engineAt ["ab"; "cd"] (mkCursor 1 1))
              "s/a/b" Hi)))))).
Defined.

(** ** A count before [x] *)

Lemma reg_set_set (r : list (jstring * option jstring)) (name : jstring)
  (a b : option jstring) :
  reg_set (reg_set r name a) name b = reg_set r name b.
Proof.
  induction r as [|[k w] r IH]; cbn [reg_set].
  - rewrite eqb_refl. reflexivity.
  - destruct (JS.eqb k name) eqn:E; cbn [reg_set]; rewrite E;
      [reflexivity|]. rewrite IH. reflexivity.
Qed.

Lemma timesM_nat_fixed {A} (f : A -> M A) (a : A) (n : nat) :
  f a = Some a -> timesM_nat n f a = Some a.
Proof.
  intros H. induction n as [|n IH]; [reflexivity|].
  cbn [timesM_nat]. rewrite H. cbn [bind]. exact IH.
Qed.

(** [x] on the character [c], with [p] before it and [q] behind it. *)
Lemma deleteChar_at (s : EditorState) (p q : jstring) (c : ascii) :
  in_buffer s (cursor s) -> mode s <> insert ->
  split_at_cursor s p (c :: q) ->
  deleteChar s
  = Some (set_col (Z.min (JS.len p) (Z.max 0 (JS.len p + JS.len q - 1)))
            (set_lines (JS.aset (lines s) (Z.to_nat (line (cursor s)))
                          (p ++ q))
               (set_register (Some [c]) s))).
Proof.
  intros Hb Hm [Hl Hc]. pose proof (len_nonneg p). pose proof (len_nonneg q).
  unfold deleteChar. rewrite Hl, <- Hc.
  replace (JS.len p <? JS.len (p ++ c :: q)) with true
    by (rewrite len_app, len_cons; lia).
  assert (C : JS.charStr (p ++ c :: q) (JS.len p) = Some [c]).
  { unfold JS.charStr. replace (JS.len p) with (JS.len p + 0) at 1 by lia.
    rewrite charAt_app_right by lia. reflexivity. }
  rewrite C.
  assert (S1 : JS.substring (p ++ c :: q) 0 (JS.len p) = p).
  { rewrite substring_0 by lia. unfold JS.len. rewrite Nat2Z.id.
    rewrite firstn_app, firstn_all, Nat.sub_diag. apply app_nil_r. }
  assert (S2 : JS.substringFrom (p ++ c :: q) (JS.len p + 1) = q).
  { rewrite substringFrom_skipn by lia.
    change (p ++ c :: q) with (p ++ [c] ++ q). rewrite app_assoc.
    replace (Z.to_nat (JS.len p + 1)) with (length (p ++ [c]))
      by (rewrite length_app; unfold JS.len; cbn [length]; lia).
    apply skipn_prefix. }
  rewrite S1, S2.
  rewrite setCurrentLine_reg by exact Hb. cbn [bind ret].
  set (s2 := set_lines _ _).
  assert (K : clampCursor s2 (cursor s2)
              = mkCursor (line (cursor s))
                  (Z.max 0 (Z.min (col (cursor s))
                              (Z.max 0 (JS.len (p ++ q) - 1))))).
  { apply (clampCursor_on_line s2 (cursor s2) (p ++ q)); subst s2; sproj.
    - unfold in_buffer in *. sproj. rewrite alen_aset. exact Hb.
    - apply aget_aset_same. exact Hb.
    - exact Hm. }
  rewrite K. unfold set_col. subst s2. sproj. rewrite len_app, <- Hc.
  replace (Z.max 0 (Z.min (JS.len p) (Z.max 0 (JS.len p + JS.len q - 1))))
    with (Z.min (JS.len p) (Z.max 0 (JS.len p + JS.len q - 1))) by lia.
  reflexivity.
Qed.

Lemma deleteChar_times (m : nat) :
  forall (s : EditorState) (p q : jstring),
    in_buffer s (cursor s) -> mode s <> insert ->
    split_at_cursor s p q -> q <> [] ->
    exists c,
      In c (p ++ q)
      /\ timesM_nat (S m) deleteChar s
         = Some (set_col
                   (Z.min (JS.len p)
                      (Z.max 0 (JS.len p + JS.len q - Z.of_nat (S m) - 1)))
                   (set_lines
                      (JS.aset (lines s) (Z.to_nat (line (cursor s)))
                         (firstn (Z.to_nat (JS.len p + JS.len q
                                            - Z.of_nat (S m))) p
                          ++ skipn (S m) q))
                      (set_register (Some [c]) s))).
Proof.
  induction m as [|m IH]; intros s p q Hb Hm Hs Hq;
    destruct q as [|c q]; try congruence;
    pose proof (len_nonneg p) as Lp; pose proof (len_nonneg q) as Lq;
    pose proof (deleteChar_at s p q c Hb Hm Hs) as D.
  - exists c. split; [apply in_or_app; right; left; reflexivity|].
    cbn [timesM_nat]. rewrite D. cbn [bind ret skipn]. unfold ret.
    rewrite len_cons.
    replace (Z.to_nat (JS.len p + (1 + JS.len q) - Z.of_nat 1))
      with (length p + Z.to_nat (JS.len q))%nat by (unfold JS.len; lia).
    rewrite firstn_all2 by lia.
    do 2 f_equal. lia.
  - change (timesM_nat (S (S m)) deleteChar s)
      with (a' <- deleteChar s ;; timesM_nat (S m) deleteChar a').
    rewrite D. cbn [bind].
    set (s1 := set_col _ _).
    assert (B1 : in_buffer s1 (cursor s1)).
    { subst s1. unfold in_buffer in *. sproj. rewrite alen_aset. exact Hb. }
    assert (M1 : mode s1 <> insert) by exact Hm.
    assert (G1 : getCurrentLine s1 = p ++ q).
    { subst s1. unfold getCurrentLine. sproj.
      rewrite aget_aset_same by exact Hb. reflexivity. }
    assert (Fin : forall (t : jstring) (d : ascii) (k : Z),
              set_col k
                (set_lines (JS.aset (lines s1) (Z.to_nat (line (cursor s1))) t)
                   (set_register (Some [d]) s1))
              = set_col k
                  (set_lines (JS.aset (lines s) (Z.to_nat (line (cursor s))) t)
                     (set_register (Some [d]) s))).
    { intros t d k. subst s1.
      unfold set_col, set_cursor, set_lines, set_register, set_registers.
      sproj. rewrite aset_aset, reg_set_set. reflexivity. }
    destruct q as [|c2 q2].
    + (* the cursor was on the last character of the line *)
      assert (Hp : p = [] \/ exists p' d, p = p' ++ [d]).
      { destruct p as [|a p0]; [left; reflexivity|right].
        destruct (@exists_last _ (a :: p0)) as (p' & d & E); [discriminate|].
        exists p', d. exact E. }
      destruct Hp as [->|(p' & d & ->)].
      * exists c. split; [left; reflexivity|].
        rewrite timesM_nat_fixed.
        -- subst s1. cbn [app firstn skipn JS.len length]. unfold ret.
           rewrite firstn_nil. cbn [app]. do 2 f_equal.
           rewrite len_cons, !len_nil. lia.
        -- unfold deleteChar. rewrite G1. subst s1. sproj. reflexivity.
      * pose proof (len_nonneg p') as Lp'.
        assert (Lpd : JS.len (p' ++ [d]) = JS.len p' + 1)
          by (rewrite len_app, len_cons, len_nil; lia).
        destruct (IH s1 p' [d] B1 M1) as (c' & Hin & T); [|discriminate|].
        { split; [rewrite G1, app_nil_r; reflexivity|].
          subst s1. sproj. rewrite Lpd, len_nil. lia. }
        exists c'. split.
        { apply in_or_app. left. exact Hin. }
        rewrite T, Fin. unfold ret. rewrite Lpd, !len_cons, !len_nil.
        f_equal. f_equal; [lia|]. do 2 f_equal.
        replace (skipn (S (S m)) [c]) with (@nil ascii)
          by (destruct m; reflexivity).
        replace (skipn (S m) [d]) with (@nil ascii)
          by (destruct m; reflexivity).
        rewrite !app_nil_r.
        replace (Z.to_nat (JS.len p' + 1 + (1 + 0) - Z.of_nat (S (S m))))
          with (Z.to_nat (JS.len p' + (1 + 0) - Z.of_nat (S m))) by lia.
        rewrite firstn_app.
        replace (Z.to_nat (JS.len p' + (1 + 0) - Z.of_nat (S m)) - length p')%nat
          with 0%nat by (unfold JS.len; lia).
        cbn [firstn]. symmetry. apply app_nil_r.
    + destruct (IH s1 p (c2 :: q2) B1 M1) as (c' & Hin & T); [|discriminate|].
      { split; [exact G1|]. subst s1. sproj. rewrite len_cons.
        pose proof (len_nonneg q2). lia. }
      exists c'. split.
      { apply in_app_or in Hin. apply in_or_app.
        destruct Hin as [Hin|Hin]; [left; exact Hin|right; right; exact Hin]. }
      rewrite T, Fin. unfold ret. rewrite !len_cons.
      pose proof (len_nonneg q2).
      f_equal. f_equal; [lia|]. do 2 f_equal.
      cbn [skipn]. f_equal. f_equal. lia.
Qed.

(** X22: a count before [x].  With the cursor on a character, [p] before
    it on the line and [q] from it to the end of the line, the digits of a
    count [n >= 1] and [x] remove the first [n] characters of [q]; once [q]
    is used up the cursor has stepped back onto the last character left, so
    the rest of the count goes on removing characters from the end of [p],
    until the line is empty.  The cursor ends on column [len p], or on the
    last character left if that lies before it; the unnamed register holds
    a single character of the line, and nothing else changes. *)
Theorem counted_x (e : VimEngine) (p q : jstring) (n : Z) :
  idle e -> in_buffer (state e) (cursor (state e)) ->
  split_at_cursor (state e) p q -> q <> [] -> 1 <= n ->
  exists c,
    In c (p ++ q)
    /\ handleKeys e (typed (JS.toString n) ++ ["x"])
       = Some (mkEngine
                 (set_col
                    (Z.min (JS.len p) (Z.max 0 (JS.len p + JS.len q - n - 1)))
                    (set_lines
                       (JS.aset (lines (state e))
                          (Z.to_nat (line (cursor (state e))))
                          (firstn (Z.to_nat (JS.len p + JS.len q - n)) p
                           ++ skipn (Z.to_nat n) q))
                       (set_register (Some [c]) (state e))))
                 [] false).
Proof.
  intros Hi Hb Hs Hq Hn. pose proof Hi as (Hm & _).
  assert (Hm' : mode (state e) <> insert) by (rewrite Hm; discriminate).
  destruct (Z.to_nat n) as [|m] eqn:En; [lia|].
  destruct (deleteChar_times m (state e) p q Hb Hm' Hs Hq) as (c & Hin & T).
  exists c. split; [exact Hin|].
  rewrite (counted_key e n "x" Hi Hn eq_refl).
  change (normalSwitch n (state e) "x")
    with (break_ (timesM n deleteChar (state e))).
  unfold timesM. rewrite En, T. cbn [break_ bind ret fst]. unfold ret.
  replace (Z.of_nat (S m)) with n by lia. reflexivity.
Qed.

Lemma counted_x_witness :
  let e := engineAt ["abcd"] (mkCursor 0 2) in
  idle e /\ in_buffer (state e) (cursor (state e))
  /\ split_at_cursor (state e) "ab" "cd" /\ ("cd" : jstring) <> [] /\ 1 <= 3
  /\ exists c,
       In c (("ab" : jstring) ++ ("cd" : jstring))
       /\ handleKeys e (typed (JS.toString 3) ++ ["x"])
          = Some (mkEngine
                    (set_col
                       (Z.min (JS.len "ab")
                          (Z.max 0 (JS.len "ab" + JS.len "cd" - 3 - 1)))
                       (set_lines
                          (JS.aset (lines (state e))
                             (Z.to_nat (line (cursor (state e))))
                             (firstn (Z.to_nat (JS.len "ab" + JS.len "cd" - 3))
                                ("ab" : jstring)
                              ++ skipn (Z.to_nat 3) ("cd" : jstring)))
                          (set_register (Some [c]) (state e))))
                    [] false).
Proof.
  assert (Hi : idle (engineAt ["abcd"] (mkCursor 0 2))) by (repeat split).
  assert (Hb : in_buffer (state (engineAt ["abcd"] (mkCursor 0 2)))
                 (cursor (state (engineAt ["abcd"] (mkCursor 0 2)))))
    by (vm_compute; split; [discriminate|reflexivity]).
  assert (Hs : split_at_cursor (state (engineAt ["abcd"] (mkCursor 0 2)))
                 "ab" "cd") by (split; reflexivity).
  assert (Hq : ("cd" : jstring) <> []) by discriminate.
  assert (Hn : 1 <= 3) by lia.
  split; [exact Hi|]. split; [exact Hb|]. split; [exact Hs|].
  split; [exact Hq|]. split; [exact Hn|].
  exact (counted_x (engineAt ["abcd"] (mkCursor 0 2)) "ab" "cd" 3
           Hi Hb Hs Hq Hn).
Defined.

(** ** A prefix key that is not completed *)

(** X23: a pending prefix.  From normal mode with nothing pending, each of
    the keys [d], [c], [y], [g], [t] and [T] is kept in the command buffer
    and arms the decay timer.  When the timer fires the engine is as it was
    before the key.  When a key follows instead that is not a digit of a
    count, does not complete a command and is not a prefix key itself, the
    prefix is dropped and the key acts as if it had been pressed alone: [d]
    followed by [x] deletes one character, [d] followed by [j] moves down. *)
Theorem unfinished_prefix_dropped (e : VimEngine) (k1 k2 : String.string) :
  idle e ->
  In k1 ["d"; "c"; "y"; "g"; "t"; "T"] ->
  count_rule [] k2 = false -> is_prefix_key k2 = false ->
  is_command k2 = false -> is_command ((k1 : jstring) ++ k2) = false ->
  let e1 := mkEngine (set_commandBuffer k1 (state e)) [] true in
  handleKeys e [k1] = Some e1
  /\ timeoutFires e1 = mkEngine (state e) [] false
  /\ handleKeys e [k1; k2] = handleKeys e [k2].
Proof.
  intros Hi Hk1 C2 P2 I2 I12 e1. pose proof Hi as (Hm & Hb & Hcb).
  assert (K1 : handleKeys e [k1] = Some e1
               /\ takes_argument k1 k2 = false).
  { subst e1. cbn [handleKeys].
    repeat (destruct Hk1 as [<-|Hk1]; [
      split; [rewrite normal_prefix; cbn [key press]; rewrite ?Hcb;
              try reflexivity; assumption|reflexivity]|]).
    destruct Hk1. }
  destruct K1 as [K1 A].
  assert (Q : set_commandBuffer [] (set_commandBuffer k1 (state e))
              = state e).
  { unfold set_commandBuffer. sproj. rewrite <- Hb at 1. apply state_eta. }
  split; [exact K1|]. split.
  - subst e1. unfold timeoutFires. sproj. rewrite Q. reflexivity.
  - change [k1; k2] with ([k1] ++ [k2]).
    rewrite handleKeys_app, K1. cbn [bind].
    rewrite (idle_single e k2 Hi C2 I2 P2).
    subst e1. cbn [handleKeys].
    rewrite normal_default; cbn [key press state countBuffer]; sproj;
      try assumption; [|rewrite P2; reflexivity].
    change (countOf []) with 1.
    rewrite Q.
    destruct (normalSwitch 1 (state e) k2) as [[s' b]|]; reflexivity.
Qed.

Lemma unfinished_prefix_dropped_witness :
  let e := engineAt ["ab"; "cd"] (mkCursor 0 0) in
  idle e
  /\ handleKeys e ["d"; "x"] = handleKeys e ["x"].
Proof.
  assert (Hi : idle (engineAt ["ab"; "cd"] (mkCursor 0 0)))
    by (repeat split).
  split; [exact Hi|].
  refine (proj2 (proj2 (unfinished_prefix_dropped
                          (engineAt ["ab"; "cd"] (mkCursor 0 0)) "d" "x" Hi _
                          eq_refl eq_refl eq_refl eq_refl))).
  left. reflexivity.
Defined.

(** ** Changing text: [C] and [s] followed by typing *)

(** X24: [C] and [s] followed by typed text.  [C] stores the text from the
    cursor to the end of the line and removes it; as the cursor is brought
    back onto the last character that is left before insert mode is
    entered, the text typed next goes in front of that character, not
    behind it.  [s] replaces the character under the cursor by the typed
    text when a character follows it on the line; on the last character of
    a line the typed text likewise goes in front of the character before
    it. *)
Theorem change_then_type (e : VimEngine) (p q t : jstring) (d : ascii) :
  idle e -> in_buffer (state e) (cursor (state e)) ->
  let s := state e in
  let result (text reg : jstring) :=
    Some (mkEngine
            (set_col (JS.len p + JS.len t)
               (set_lines
                  (JS.aset (lines s) (Z.to_nat (line (cursor s))) text)
                  (set_mode insert (set_register (Some reg) s))))
            [] false) in
  (split_at_cursor s (p ++ [d]) q ->
   handleKeys e (["C"] ++ typed t) = result (p ++ t ++ [d]) q)
  /\ (forall c, split_at_cursor s p (c :: d :: q) ->
      handleKeys e (["s"] ++ typed t) = result (p ++ t ++ d :: q) [c])
  /\ (forall c, split_at_cursor s (p ++ [d]) [c] ->
      handleKeys e (["s"] ++ typed t) = result (p ++ t ++ [d]) [c]).
Proof.
  intros Hi Hb s result. subst s result. cbv beta.
  pose proof Hi as (Hm & Hcb & Hc).
  assert (Hm' : mode (state e) <> insert) by (rewrite Hm; discriminate).
  pose proof (len_nonneg p) as Lp. pose proof (len_nonneg q) as Lq.
  assert (Lpd : JS.len (p ++ [d]) = JS.len p + 1)
    by (rewrite len_app, len_cons, len_nil; lia).
  (* typing after a change command that left the line [b ++ a], the cursor
     at column [len b], and the register [r] *)
  assert (Ty : forall (k : Z) (ln b a r : jstring),
            k = JS.len b -> ln = b ++ a ->
            handleKeys
              (mkEngine
                 (set_mode insert
                    (set_col k
                       (set_lines
                          (JS.aset (lines (state e))
                             (Z.to_nat (line (cursor (state e)))) ln)
                          (set_register (Some r) (state e)))))
                 [] false)
              (typed t)
            = Some (mkEngine
                      (set_col (JS.len b + JS.len t)
                         (set_lines
                            (JS.aset (lines (state e))
                               (Z.to_nat (line (cursor (state e))))
                               (b ++ t ++ a))
                            (set_mode insert
                               (set_register (Some r) (state e)))))
                      [] false)).
  { intros k ln b a r -> ->.
    rewrite (insert_typing t b a).
    - cbn [state countBuffer commandTimeout]. unfold ret. do 2 f_equal.
      unfold set_col, set_cursor, set_lines, set_mode, set_register,
        set_registers. sproj. rewrite aset_aset. reflexivity.
    - reflexivity.
    - unfold in_buffer in *. sproj. rewrite alen_aset. exact Hb.
    - split; [|reflexivity]. unfold getCurrentLine. sproj.
      rewrite aget_aset_same by exact Hb. reflexivity. }
  split; [|split].
  - intros Hs. rewrite handleKeys_app, (idle_single e "C" Hi) by reflexivity.
    change (normalSwitch 1 (state e) "C")
      with (break_ (s <- deleteToEnd (state e) ;; ret (set_mode insert s))).
    rewrite (deleteToEnd_at (state e) (p ++ [d]) q Hb Hs Hm').
    cbn [break_ bind ret fst].
    destruct Hs as [_ Hs]. rewrite <- Hs, Lpd.
    apply Ty; [lia|reflexivity].
  - intros c Hs. rewrite handleKeys_app, (idle_single e "s" Hi) by reflexivity.
    change (normalSwitch 1 (state e) "s")
      with (break_ (s <- deleteChar (state e) ;; ret (set_mode insert s))).
    rewrite (deleteChar_at (state e) p (d :: q) c Hb Hm' Hs).
    cbn [break_ bind ret fst].
    apply Ty; [rewrite len_cons; lia|reflexivity].
  - intros c Hs. rewrite handleKeys_app, (idle_single e "s" Hi) by reflexivity.
    change (normalSwitch 1 (state e) "s")
      with (break_ (s <- deleteChar (state e) ;; ret (set_mode insert s))).
    rewrite (deleteChar_at (state e) (p ++ [d]) [] c Hb Hm' Hs).
    cbn [break_ bind ret fst]. rewrite app_nil_r.
    apply Ty; [rewrite Lpd, len_nil; lia|reflexivity].
Qed.

Lemma change_then_type_witness :
  let e := engineAt ["abcd"] (mkCursor 0 2) in
  idle e /\ in_buffer (state e) (cursor (state e))
  /\ split_at_cursor (state e) (("a" : jstring) ++ ["b"%char]) "cd"
  /\ handleKeys e (["C"] ++ typed "X")
     = Some (mkEngine
               (set_col (JS.len "a" + JS.len "X")
                  (set_lines
                     (JS.aset (lines (state e))
                        (Z.to_nat (line (cursor (state e))))
                        (("a" : jstring) ++ ("X" : jstring) ++ ["b"%char]))
                     (set_mode insert
                        (set_register (Some ("cd" : jstring)) (state e)))))
               [] false).
Proof.
  assert (Hi : idle (engineAt ["abcd"] (mkCursor 0 2))) by (repeat split).
  assert (Hb : in_buffer (state (engineAt ["abcd"] (mkCursor 0 2)))
                 (cursor (state (engineAt ["abcd"] (mkCursor 0 2)))))
    by (vm_compute; split; [discriminate|reflexivity]).
  assert (Hs : split_at_cursor (state (engineAt ["abcd"] (mkCursor 0 2)))
                 (("a" : jstring) ++ ["b"%char]) "cd")
    by (split; reflexivity).
  split; [exact Hi|]. split; [exact Hb|]. split; [exact Hs|].
  exact (proj1 (change_then_type (engineAt ["abcd"] (mkCursor 0 2))
                  "a" "cd" "X" "b"%char Hi Hb) Hs).
Defined.

(** ** Entering insert mode *)

Lemma search_S_run (sp rest : jstring) (x : ascii) :
  forallb JS.is_space sp = true -> JS.is_space x = false ->
  JS.search_S (sp ++ x :: rest) = JS.len sp.
Proof.
  intros Hs Hx. induction sp as [|y sp IH]; cbn [app JS.search_S].
  - rewrite Hx. reflexivity.
  - cbn [forallb] in Hs. apply andb_true_iff in Hs. destruct Hs as [Hy Hs].
    rewrite Hy, (IH Hs), len_cons. pose proof (len_nonneg sp).
    replace (JS.len sp =? -1) with false by lia. lia.
Qed.

Lemma search_S_blank (sp : jstring) :
  forallb JS.is_space sp = true -> JS.search_S sp = -1.
Proof.
  intros Hs. induction sp as [|y sp IH]; [reflexivity|].
  cbn [forallb] in Hs. apply andb_true_iff in Hs. destruct Hs as [Hy Hs].
  cbn [JS.search_S]. rewrite Hy, (IH Hs). reflexivity.
Qed.

(** X25: the keys that enter insert mode, followed by typed text.  With
    the cursor on a character [c], [p] before it and [q] behind it on the
    line: after [i] the text goes in front of [c], after [a] behind [c],
    after [A] at the end of the line, after [I] in front of the first
    character of the line that is not white space; on a line of white space
    only, [I] puts the text at the start of the line.  The cursor ends
    behind the text, in insert mode; nothing else changes. *)
Theorem enter_insert_and_type (e : VimEngine) (p q t : jstring) (c : ascii) :
  idle e -> in_buffer (state e) (cursor (state e)) ->
  split_at_cursor (state e) p (c :: q) ->
  let s := state e in
  let result (text : jstring) (k : Z) :=
    Some (mkEngine
            (set_col k
               (set_lines
                  (JS.aset (lines s) (Z.to_nat (line (cursor s))) text)
                  (set_mode insert s)))
            [] false) in
  handleKeys e (["i"] ++ typed t)
  = result (p ++ t ++ c :: q) (JS.len p + JS.len t)
  /\ handleKeys e (["a"] ++ typed t)
     = result (p ++ [c] ++ t ++ q) (JS.len p + 1 + JS.len t)
  /\ handleKeys e (["A"] ++ typed t)
     = result (p ++ c :: q ++ t) (JS.len p + 1 + JS.len q + JS.len t)
  /\ (forall (sp rest : jstring) (x : ascii),
        p ++ c :: q = sp ++ x :: rest ->
        forallb JS.is_space sp = true -> JS.is_space x = false ->
        handleKeys e (["I"] ++ typed t)
        = result (sp ++ t ++ x :: rest) (JS.len sp + JS.len t))
  /\ (forallb JS.is_space (p ++ c :: q) = true ->
      handleKeys e (["I"] ++ typed t)
      = result (t ++ p ++ c :: q) (JS.len t)).
Proof.
  intros Hi Hb [Hl Hc] s result. subst s result. cbv beta.
  pose proof (len_nonneg p) as Lp. pose proof (len_nonneg q) as Lq.
  assert (Ty : forall (k : Z) (b a : jstring),
            k = JS.len b -> p ++ c :: q = b ++ a ->
            handleKeys
              (mkEngine (set_col k (set_mode insert (state e))) [] false)
              (typed t)
            = Some (mkEngine
                      (set_col (JS.len b + JS.len t)
                         (set_lines
                            (JS.aset (lines (state e))
                               (Z.to_nat (line (cursor (state e))))
                               (b ++ t ++ a))
                            (set_mode insert (state e))))
                      [] false)).
  { intros k b a -> E.
    rewrite (insert_typing t b a).
    - reflexivity.
    - reflexivity.
    - exact Hb.
    - split; [|reflexivity].
      change (getCurrentLine (state (mkEngine
                (set_col (JS.len b) (set_mode insert (state e))) [] false)))
        with (getCurrentLine (state e)).
      rewrite Hl. exact E. }
  assert (G : forall m, getCurrentLine (set_mode m (state e)) = p ++ c :: q)
    by (intros m; exact Hl).
  split; [|split; [|split; [|split]]].
  - rewrite handleKeys_app, (idle_single e "i" Hi) by reflexivity.
    change (normalSwitch 1 (state e) "i")
      with (break_ (ret (set_mode insert (state e)))).
    cbn [break_ bind ret fst].
    rewrite <- (set_col_same (set_mode insert (state e))).
    apply Ty; [sproj; lia|reflexivity].
  - rewrite handleKeys_app, (idle_single e "a" Hi) by reflexivity.
    change (normalSwitch 1 (state e) "a")
      with (break_ (ret (set_col
                           (Z.min (JS.len (getCurrentLine
                                             (set_mode insert (state e))))
                              (col (cursor (set_mode insert (state e))) + 1))
                           (set_mode insert (state e))))).
    cbn [break_ bind ret fst]. rewrite G.
    replace (p ++ [c] ++ t ++ q) with ((p ++ [c]) ++ t ++ q)
      by (rewrite <- app_assoc; reflexivity).
    replace (JS.len p + 1 + JS.len t) with (JS.len (p ++ [c]) + JS.len t)
      by (rewrite len_app, len_cons, len_nil; lia).
    apply Ty; [|rewrite <- app_assoc; reflexivity].
    sproj. rewrite !len_app, !len_cons, len_nil. lia.
  - rewrite handleKeys_app, (idle_single e "A" Hi) by reflexivity.
    change (normalSwitch 1 (state e) "A")
      with (break_ (ret (set_col
                           (JS.len (getCurrentLine
                                      (set_mode insert (state e))))
                           (set_mode insert (state e))))).
    cbn [break_ bind ret fst]. rewrite G.
    replace (p ++ c :: q ++ t) with ((p ++ c :: q) ++ t ++ [])
      by (rewrite app_nil_r, <- app_assoc; reflexivity).
    replace (JS.len p + 1 + JS.len q + JS.len t)
      with (JS.len (p ++ c :: q) + JS.len t)
      by (rewrite len_app, len_cons; lia).
    apply Ty; [reflexivity|rewrite app_nil_r; reflexivity].
  - intros sp rest x E Hs Hx.
    rewrite handleKeys_app, (idle_single e "I" Hi) by reflexivity.
    change (normalSwitch 1 (state e) "I")
      with (break_ (ret (set_col
                           (if JS.search_S (getCurrentLine
                                              (set_mode insert (state e)))
                               =? -1
                            then 0
                            else JS.search_S (getCurrentLine
                                                (set_mode insert (state e))))
                           (set_mode insert (state e))))).
    cbn [break_ bind ret fst]. rewrite G, E, (search_S_run sp rest x Hs Hx).
    pose proof (len_nonneg sp).
    replace (JS.len sp =? -1) with false by lia.
    apply Ty; [reflexivity|exact E].
  - intros Hs.
    rewrite handleKeys_app, (idle_single e "I" Hi) by reflexivity.
    change (normalSwitch 1 (state e) "I")
      with (break_ (ret (set_col
                           (if JS.search_S (getCurrentLine
                                              (set_mode insert (state e)))
                               =? -1
                            then 0
                            else JS.search_S (getCurrentLine
                                                (set_mode insert (state e))))
                           (set_mode insert (state e))))).
    cbn [break_ bind ret fst]. rewrite G, (search_S_blank _ Hs).
    change (-1 =? -1) with true. cbv iota.
    change (t ++ p ++ c :: q) with ([] ++ t ++ p ++ c :: q).
    change (JS.len t) with (JS.len [] + JS.len t).
    apply Ty; reflexivity.
Qed.

Lemma enter_insert_and_type_witness :
  let e := engineAt ["  abc"] (mkCursor 0 3) in
  idle e /\ in_buffer (state e) (cursor (state e))
  /\ split_at_cursor (state e) "  a" ("b"%char :: ("c" : jstring))
  /\ handleKeys e (["a"] ++ typed "xy")
     = Some (mkEngine
               (set_col (JS.len "  a" + 1 + JS.len "xy")
                  (set_lines
                     (JS.aset (lines (state e))
                        (Z.to_nat (line (cursor (state e))))
                        (("  a" : jstring) ++ ["b"%char] ++ ("xy" : jstring)
                           ++ ("c" : jstring)))
                     (set_mode insert (state e))))
               [] false).
Proof.
  assert (Hi : idle (engineAt ["  abc"] (mkCursor 0 3))) by (repeat split).
  assert (Hb : in_buffer (state (engineAt ["  abc"] (mkCursor 0 3)))
                 (cursor (state (engineAt ["  abc"] (mkCursor 0 3)))))
    by (vm_compute; split; [discriminate|reflexivity]).
  assert (Hs : split_at_cursor (state (engineAt ["  abc"] (mkCursor 0 3)))
                 "  a" ("b"%char :: ("c" : jstring)))
    by (split; reflexivity).
  split; [exact Hi|]. split; [exact Hb|]. split; [exact Hs|].
  exact (proj1 (proj2 (enter_insert_and_type
                         (engineAt ["  abc"] (mkCursor 0 3))
                         "  a" "c" "xy" "b"%char Hi Hb Hs))).
Defined.

(** ** Loading content *)

(** X26: loading content.  [setContent] with a non-empty array followed by
    [setCursor] leaves a well-formed state in normal mode, with nothing
    selected, an empty command buffer, the new lines, and the cursor on the
    requested position if that is a character of the new content (otherwise
    on the nearest line and column).  The registers, the last search pattern
    and the message are kept; so is the count buffer: a count typed before
    the content was loaded applies to the first command typed after it,
    exactly as if it had been typed after loading. *)
Theorem load_content (e : VimEngine) (ls : list jstring)
  (c : CursorPosition) :
  ls <> [] ->
  let loaded (e0 : VimEngine) :=
    Engine.setCursor (Engine.setContent e0 ls) c in
  let s' := state (loaded e) in
  (WF s' /\ tight s' /\ mode s' = normal /\ selection s' = None
   /\ commandBuffer s' = [] /\ lines s' = ls
   /\ registers s' = registers (state e)
   /\ lastSearch s' = lastSearch (state e)
   /\ message s' = message (state e)
   /\ (forall l, JS.aget ls (line c) = Some l ->
       0 <= col c <= Z.max 0 (JS.len l - 1) -> cursor s' = c))
  /\ (forall (n : Z) (k : String.string) (e1 : VimEngine),
        idle e -> 1 <= n ->
        is_key_0_9 k = false -> is_command k = false ->
        is_prefix_key k = false ->
        handleKeys e (typed (JS.toString n)) = Some e1 ->
        handleKeys (loaded e1) [k]
        = handleKeys (loaded e) (typed (JS.toString n) ++ [k])).
Proof.
  intros Hne loaded s'.
  set (s0 := setContent (state e) ls).
  assert (L0 : lines s0 = ls) by reflexivity.
  assert (N0 : lines s0 <> []) by (rewrite L0; exact Hne).
  assert (S' : s' = set_cursor (clampCursor s0 c) s0) by reflexivity.
  destruct (clampCursor_spec s0 c N0)
    as (H1 & H2 & H3 & _ & l & Hl & Hb & Hin).
  change (mode_eqb (mode s0) insert) with false in Hb, Hin.
  cbv iota in Hb, Hin.
  split.
  - rewrite S'. split; [|split; [|repeat split]].
    + split; [|unfold SelOK; sproj; discriminate].
      unfold Inv, in_buffer in *. sproj. tauto.
    + unfold tight, getCurrentLine. sproj. rewrite Hl. exact Hb.
    + intros l' Hl' Hc.
      assert (B : in_buffer s0 c).
      { unfold in_buffer. rewrite L0.
        exact (aget_range _ _ _ Hl'). }
      specialize (H3 B). rewrite H3, L0, Hl' in Hl. injection Hl as <-.
      specialize (Hin Hc).
      destruct (clampCursor s0 c) as [a b], c as [a' b']. sproj.
      congruence.
  - intros n k e1 Hi Hn K0 KC KP T.
    pose proof Hi as (Hm & Hcb & Hc).
    destruct (toString_head n Hn) as (d & t & Ht & D1 & Dt).
    pose proof (key_1_9_digit d D1) as Dd.
    rewrite Ht in T.
    rewrite count_keys in T;
      [|exact Hm|unfold count_rule; rewrite D1; reflexivity|exact Dt].
    injection T as <-. rewrite Hc. cbn [app]. rewrite <- Ht.
    assert (Il : idle (loaded e)) by (repeat split; exact Hc).
    rewrite (counted_key (loaded e) n k Il Hn K0).
    cbn [handleKeys].
    rewrite normal_default.
    + cbn [key press]. subst loaded. cbv beta.
      unfold Engine.setCursor, Engine.setContent. sproj.
      rewrite countOf_toString by exact Hn.
      change (setContent (set_commandBuffer (JS.toString n) (state e)) ls)
        with s0.
      rewrite (set_commandBuffer_nil (setCursor s0 c)) by reflexivity.
      subst s0.
      destruct (normalSwitch n (setCursor (setContent (state e) ls) c) k)
        as [[x b]|]; reflexivity.
    + reflexivity.
    + cbn [key press]. subst loaded. cbv beta.
      unfold Engine.setCursor, Engine.setContent. sproj.
      unfold count_rule. rewrite K0, (key_0_9_of_1_9 _ K0).
      rewrite andb_false_r. reflexivity.
    + exact KC.
    + cbn [key press]. rewrite KP. reflexivity.
    + reflexivity.
Qed.

Lemma load_content_witness :
  let e := engineAt ["old"] (mkCursor 0 0) in
  let ls : list jstring := [("abcd" : jstring); ("ef" : jstring)] in
  ls <> []
  /\ lines (state (Engine.setCursor (Engine.setContent e ls) (mkCursor 1 7)))
     = ls.
Proof.
  assert (Hne : [("abcd" : jstring); ("ef" : jstring)] <> [])
    by discriminate.
  split; [exact Hne|].
  pose proof (load_content (engineAt ["old"] (mkCursor 0 0))
                [("abcd" : jstring); ("ef" : jstring)] (mkCursor 1 7) Hne)
    as H.
  cbv zeta in H. exact (proj1 (proj2 (proj2 (proj2 (proj2 (proj2 (proj1 H))))))).
Defined.

(** ** The command buffer is touched by the dispatcher only *)

Ltac cb_crush :=
  intros;
  repeat match goal with
    | H : Some _ = Some _ |- _ => injection H as <-
    | H : None = Some _ |- _ => discriminate H
    | H : (_, _) = (_, _) |- _ => injection H as <- <-
    | H : context [setCurrentLine] |- _ =>
        unfold setCurrentLine, setLineAt in H
    | H : context [setLineAt] |- _ => unfold setLineAt in H
    | H : context [if ?b then _ else _] |- _ =>
        destruct b; cbn [bind ret] in H
    | H : context [match ?x with _ => _ end] |- _ =>
        destruct x; cbn [bind ret] in H
    | H : ret _ = Some _ |- _ => unfold ret in H
    | H : context [bind ?m _] |- _ =>
        lazymatch m with
        | bind _ _ => fail
        | (if _ then _ else _) => fail
        | _ => destruct m; cbn [bind] in H
        end
    end;
  sproj; try reflexivity.

Lemma times_cb (n : Z) (f : EditorState -> EditorState) (s : EditorState) :
  (forall x, commandBuffer (f x) = commandBuffer x) ->
  commandBuffer (times n f s) = commandBuffer s.
Proof.
  intros H. apply times_ind with (P := fun x => commandBuffer x = commandBuffer s);
    [reflexivity|]. intros x Hx. rewrite H. exact Hx.
Qed.

Lemma timesM_cb (n : Z) (f : EditorState -> M EditorState)
  (s s' : EditorState) :
  (forall x y, f x = Some y -> commandBuffer y = commandBuffer x) ->
  timesM n f s = Some s' -> commandBuffer s' = commandBuffer s.
Proof.
  intros H. unfold timesM. revert s.
  induction (Z.to_nat n) as [|m IH]; intros s T; cbn [timesM_nat] in T.
  - injection T as <-. reflexivity.
  - destruct (f s) as [y|] eqn:E; cbn [bind] in T; [|discriminate].
    rewrite (IH y T). apply (H s y E).
Qed.

Lemma moved_cb (s x : EditorState) :
  cursor_moved s x -> commandBuffer x = commandBuffer s.
Proof. intros (c & ->). reflexivity. Qed.

Lemma deleteChar_cb (s s' : EditorState) :
  deleteChar s = Some s' -> commandBuffer s' = commandBuffer s.
Proof. unfold deleteChar. cbv zeta. cb_crush. Qed.

Lemma deleteCharBefore_cb (s s' : EditorState) :
  deleteCharBefore s = Some s' -> commandBuffer s' = commandBuffer s.
Proof. unfold deleteCharBefore. cbv zeta. cb_crush. Qed.

Lemma deleteToEnd_cb (s s' : EditorState) :
  deleteToEnd s = Some s' -> commandBuffer s' = commandBuffer s.
Proof. unfold deleteToEnd. cbv zeta. cb_crush. Qed.

Lemma paste_cb (pos : PastePosition) (s s' : EditorState) :
  paste pos s = Some s' -> commandBuffer s' = commandBuffer s.
Proof. unfold paste. cbv zeta. cb_crush. Qed.

Lemma joinLines_cb (s s' : EditorState) :
  joinLines s = Some s' -> commandBuffer s' = commandBuffer s.
Proof. unfold joinLines. cbv zeta. cb_crush. Qed.

Lemma insertText_cb (t : jstring) (s s' : EditorState) :
  insertText t s = Some s' -> commandBuffer s' = commandBuffer s.
Proof. unfold insertText. cbv zeta. cb_crush. Qed.

Lemma insertNewline_cb (s s' : EditorState) :
  insertNewline s = Some s' -> commandBuffer s' = commandBuffer s.
Proof. unfold insertNewline. cbv zeta. cb_crush. Qed.

Lemma backspace_cb (s s' : EditorState) :
  backspace s = Some s' -> commandBuffer s' = commandBuffer s.
Proof. unfold backspace. cbv zeta. cb_crush. Qed.

Lemma deleteSelection_cb (s s' : EditorState) :
  deleteSelection s = Some s' -> commandBuffer s' = commandBuffer s.
Proof. unfold deleteSelection. cbv zeta. cb_crush. Qed.

Lemma yankSelection_cb (s s' : EditorState) :
  yankSelection s = Some s' -> commandBuffer s' = commandBuffer s.
Proof. unfold yankSelection. cbv zeta. cb_crush. Qed.

Lemma searchNext_loop_cb (n : nat) (i : Z) (p : jstring) (a b : Z)
  (s s' : EditorState) :
  searchNext_loop n i p a b s = Some s' -> commandBuffer s' = commandBuffer s.
Proof.
  revert i. induction n as [|n IH]; intros i H; cbn [searchNext_loop] in H.
  - injection H as <-. reflexivity.
  - destruct (JS.aget _ _); cbn [bind] in H; [|discriminate].
    destruct (negb _); [injection H as <-; reflexivity|]. eapply IH, H.
Qed.

Lemma searchPrev_loop_cb (n : nat) (i : Z) (p : jstring) (a b : Z)
  (s s' : EditorState) :
  searchPrev_loop n i p a b s = Some s' -> commandBuffer s' = commandBuffer s.
Proof.
  revert i. induction n as [|n IH]; intros i H; cbn [searchPrev_loop] in H.
  - injection H as <-. reflexivity.
  - destruct (JS.aget _ _); cbn [bind] in H; [|discriminate].
    destruct (negb _); [injection H as <-; reflexivity|]. eapply IH, H.
Qed.

Lemma searchNext_cb (s s' : EditorState) :
  searchNext s = Some s' -> commandBuffer s' = commandBuffer s.
Proof.
  unfold searchNext. destruct (lastSearch s).
  - intros [= <-]. reflexivity.
  - apply searchNext_loop_cb.
Qed.

Lemma searchPrev_cb (s s' : EditorState) :
  searchPrev s = Some s' -> commandBuffer s' = commandBuffer s.
Proof.
  unfold searchPrev. destruct (lastSearch s).
  - intros [= <-]. reflexivity.
  - apply searchPrev_loop_cb.
Qed.

Lemma searchWordUnderCursor_cb (s s' : EditorState) :
  searchWordUnderCursor s = Some s' -> commandBuffer s' = commandBuffer s.
Proof.
  unfold searchWordUnderCursor. cbv zeta.
  destruct (JS.substring _ _ _).
  - intros [= <-]. reflexivity.
  - intros H. apply searchNext_cb in H. exact H.
Qed.

Lemma moveWordForward_cb (s : EditorState) :
  commandBuffer (moveWordForward s) = commandBuffer s.
Proof. apply moved_cb, moved_wordForward, moved_refl. Qed.

Lemma moveWordBackward_cb (s : EditorState) :
  commandBuffer (moveWordBackward s) = commandBuffer s.
Proof. reflexivity. Qed.

Lemma moveToEndOfWord_cb (s : EditorState) :
  commandBuffer (moveToEndOfWord s) = commandBuffer s.
Proof. reflexivity. Qed.

Lemma updateSelection_cb (s : EditorState) :
  commandBuffer (updateSelection s) = commandBuffer s.
Proof. unfold updateSelection. destruct (selection s); reflexivity. Qed.

Ltac cb_calls H :=
  repeat match type of H with
    | context [timesM ?n ?f ?x] =>
        let E := fresh "E" in
        destruct (timesM n f x) eqn:E;
        [apply timesM_cb in E;
         [|first [exact deleteChar_cb|exact deleteCharBefore_cb]]|];
        cbn [bind] in H
    | context [deleteChar ?x] =>
        let E := fresh "E" in
        destruct (deleteChar x) eqn:E; [apply deleteChar_cb in E|];
        cbn [bind] in H
    | context [deleteToEnd ?x] =>
        let E := fresh "E" in
        destruct (deleteToEnd x) eqn:E; [apply deleteToEnd_cb in E|];
        cbn [bind] in H
    | context [paste ?p ?x] =>
        let E := fresh "E" in
        destruct (paste p x) eqn:E; [apply paste_cb in E|];
        cbn [bind] in H
    | context [joinLines ?x] =>
        let E := fresh "E" in
        destruct (joinLines x) eqn:E; [apply joinLines_cb in E|];
        cbn [bind] in H
    | context [insertText ?t ?x] =>
        let E := fresh "E" in
        destruct (insertText t x) eqn:E; [apply insertText_cb in E|];
        cbn [bind] in H
    | context [insertNewline ?x] =>
        let E := fresh "E" in
        destruct (insertNewline x) eqn:E; [apply insertNewline_cb in E|];
        cbn [bind] in H
    | context [backspace ?x] =>
        let E := fresh "E" in
        destruct (backspace x) eqn:E; [apply backspace_cb in E|];
        cbn [bind] in H
    | context [deleteSelection ?x] =>
        let E := fresh "E" in
        destruct (deleteSelection x) eqn:E; [apply deleteSelection_cb in E|];
        cbn [bind] in H
    | context [yankSelection ?x] =>
        let E := fresh "E" in
        destruct (yankSelection x) eqn:E; [apply yankSelection_cb in E|];
        cbn [bind] in H
    | context [searchNext ?x] =>
        let E := fresh "E" in
        destruct (searchNext x) eqn:E; [apply searchNext_cb in E|];
        cbn [bind] in H
    | context [searchPrev ?x] =>
        let E := fresh "E" in
        destruct (searchPrev x) eqn:E; [apply searchPrev_cb in E|];
        cbn [bind] in H
    | context [searchWordUnderCursor ?x] =>
        let E := fresh "E" in
        destruct (searchWordUnderCursor x) eqn:E;
        [apply searchWordUnderCursor_cb in E|];
        cbn [bind] in H
    end.

Ltac cb_case :=
  let H := fresh "H" in
  intros _ ? ? H; cbv zeta in H; unfold break_ in H;
  cb_calls H; cbn [bind ret] in H; unfold ret in H;
  try discriminate H;
  try (destruct (setCurrentLine _ _) eqn:?E0 in H;
       [unfold setCurrentLine, setLineAt in E0;
        destruct (_ && _) in E0; [|discriminate E0];
        injection E0 as <-; cbn [bind] in H|discriminate H]);
  try (injection H as <- <-);
  sproj;
  rewrite ?updateSelection_cb, ?moveWordForward_cb; sproj;
  rewrite ?times_cb
    by (intros; first [reflexivity|apply moveWordForward_cb]);
  first [reflexivity | assumption | congruence | idtac].

Lemma handleInsertMode_cb (s : EditorState) (k : jstring) (ctrl : bool)
  (s' : EditorState) (b : bool) :
  handleInsertMode s k ctrl = Some (s', b) ->
  commandBuffer s' = commandBuffer s.
Proof.
  revert s' b. unfold handleInsertMode.
  apply switch_ind with
    (P := fun m => forall s' b, m = Some (s', b) ->
                   commandBuffer s' = commandBuffer s).
  - repeat (apply Forall_cons; [cb_case|]). apply Forall_nil.
  - destruct ((JS.len k =? 1) && negb ctrl); [|intros ? ? [= <- <-]; reflexivity].
    generalize I. cb_case.
Qed.

Lemma handleVisualMode_cb (s : EditorState) (k : jstring)
  (s' : EditorState) (b : bool) :
  handleVisualMode s k = Some (s', b) ->
  commandBuffer s' = commandBuffer s.
Proof.
  revert s' b. unfold handleVisualMode.
  apply switch_ind with
    (P := fun m => forall s' b, m = Some (s', b) ->
                   commandBuffer s' = commandBuffer s).
  - repeat (apply Forall_cons; [cb_case|]). apply Forall_nil.
  - intros ? ? [= <- <-]. reflexivity.
Qed.

Lemma normalSwitch_cb (n : Z) (s : EditorState) (k : jstring)
  (s' : EditorState) (b : bool) :
  normalSwitch n s k = Some (s', b) ->
  commandBuffer s' = commandBuffer s \/ commandBuffer s' = []
  \/ mode s' = command.
Proof.
  revert s' b. unfold normalSwitch.
  apply switch_ind with
    (P := fun m => forall s' b, m = Some (s', b) ->
                   commandBuffer s' = commandBuffer s
                   \/ commandBuffer s' = [] \/ mode s' = command).
  - repeat (apply Forall_cons;
            [first [ solve [cb_case; left;
                            first [reflexivity|assumption|congruence]]
                   | solve [cb_case; right; right; reflexivity]
                   | solve [cb_case; right; left; reflexivity]
                   | cb_case ]|]).
    apply Forall_nil.
  - intros ? ? [= <- <-]. left. reflexivity.
Qed.

Lemma executeCommand_cb (s s' : EditorState) :
  executeCommand s = Some s' -> commandBuffer s' = [] /\ mode s' = normal.
Proof.
  unfold executeCommand. cbv zeta.
  match goal with |- bind ?m _ = _ -> _ => destruct m end;
    cbn [bind]; [|discriminate].
  intros [= <-]. split; reflexivity.
Qed.

Lemma handleCommandMode_cb (s : EditorState) (k : jstring)
  (s' : EditorState) (b : bool) :
  mode s = command ->
  handleCommandMode s k = Some (s', b) ->
  mode s' = command \/ commandBuffer s' = [].
Proof.
  intros Hm. unfold handleCommandMode.
  match goal with |- bind ?m _ = _ -> _ =>
    assert (H : forall x, m = Some x ->
                mode x = command \/ commandBuffer x = []) end.
  { apply switch_ind with
      (P := fun m => forall x, m = Some x ->
                     mode x = command \/ commandBuffer x = []).
    - repeat (apply Forall_cons; [intros _ x Hx|]); [| | |apply Forall_nil].
      + injection Hx as <-. right. reflexivity.
      + right. apply (executeCommand_cb s x Hx).
      + destruct (1 <? JS.len (commandBuffer s)); injection Hx as <-;
          [left; exact Hm|right; reflexivity].
    - intros x Hx. destruct (JS.len k =? 1); injection Hx as <-;
        left; exact Hm. }
  match goal with |- bind ?m _ = _ -> _ => destruct m as [x|] end;
    cbn [bind]; [|discriminate].
  intros [= <- <-]. apply H. reflexivity.
Qed.

Lemma count_rule_digit (cb k : jstring) :
  count_rule cb k = true -> forallb JS.is_digit k = true.
Proof.
  unfold count_rule. destruct k as [|c [|? ?]];
    cbn [is_key_1_9 is_key_0_9]; rewrite ?andb_false_r; try discriminate.
  intros H. cbn [forallb]. rewrite andb_true_r.
  apply orb_true_iff in H. destruct H as [H|H].
  - apply (key_1_9_digit c). exact H.
  - apply andb_true_iff in H. tauto.
Qed.

Lemma handleNormalMode_pending (e : VimEngine) (k : jstring)
  (e' : VimEngine) (b : bool) :
  forallb JS.is_digit (countBuffer e) = true ->
  handleNormalMode e k = Some (e', b) -> pending_ok e'.
Proof.
  intros Hd. unfold handleNormalMode. cbv zeta. sproj.
  fold (count_rule (countBuffer e) k).
  destruct (count_rule (countBuffer e) k) eqn:C.
  { intros [= <- <-]. split; sproj.
    - rewrite forallb_app, Hd. apply (count_rule_digit _ _ C).
    - right. right. right. reflexivity. }
  assert (Fin : forall m, finish m = Some (e', b) -> pending_ok e').
  { intros m. unfold finish. destruct m; cbn [bind]; [|discriminate].
    intros [= <- <-]. split; [reflexivity|]. right. left. reflexivity. }
  repeat match goal with
    | |- (if ?c then finish ?m else _) = _ -> _ =>
        destruct c; [apply Fin|]
    end.
  destruct (existsb (JS.eqb k) _ && _) eqn:P.
  { intros [= <- <-]. split; [reflexivity|]. right. right. left.
    sproj. apply andb_true_iff in P. exact (proj1 P). }
  repeat match goal with
    | |- (if ?c then _ else _) = _ -> _ =>
        destruct c; [cbv zeta; apply Fin|]
    end.
  destruct (normalSwitch _ _ k) as [[s' b']|] eqn:N; cbn [bind];
    [|discriminate].
  intros [= <- <-]. split; [reflexivity|]. sproj. cbn [fst].
  destruct (normalSwitch_cb _ _ _ _ _ N) as [H|[H|H]]; sproj; auto.
Qed.

Lemma handleKeyDown_pending (e : VimEngine) (ev : KeyboardEvent)
  (e' : VimEngine) (b : bool) :
  pending_ok e -> handleKeyDown e ev = Some (e', b) -> pending_ok e'.
Proof.
  intros [Hd Hp]. unfold handleKeyDown.
  destruct (mode (state e)) eqn:Hm.
  - apply handleNormalMode_pending. exact Hd.
  - unfold liftState.
    destruct (handleInsertMode _ _ _) as [[s' b']|] eqn:E; cbn [bind];
      [|discriminate].
    intros [= <- <-]. apply handleInsertMode_cb in E.
    split; [exact Hd|]. sproj. cbn [fst]. rewrite E.
    destruct Hp as [Hp|Hp]; [discriminate|]. right. exact Hp.
  - unfold liftState.
    destruct (handleVisualMode _ _) as [[s' b']|] eqn:E; cbn [bind];
      [|discriminate].
    intros [= <- <-]. apply handleVisualMode_cb in E.
    split; [exact Hd|]. sproj. cbn [fst]. rewrite E.
    destruct Hp as [Hp|Hp]; [discriminate|]. right. exact Hp.
  - unfold liftState.
    destruct (handleCommandMode _ _) as [[s' b']|] eqn:E; cbn [bind];
      [|discriminate].
    intros [= <- <-]. apply (handleCommandMode_cb _ _ _ _ Hm) in E.
    split; [exact Hd|]. sproj. cbn [fst]. tauto.
Qed.

Lemma reachable_pending (e : VimEngine) : reachable e -> pending_ok e.
Proof.
  induction 1 as [ls|e ev e' b _ IH _ H|e _ IH|e ls _ IH|e c _ IH].
  - split; [reflexivity|]. right. left. reflexivity.
  - exact (handleKeyDown_pending e ev e' b IH H).
  - destruct IH as [Hd Hp]. unfold timeoutFires.
    destruct (commandTimeout e); [|split; assumption].
    split; [exact Hd|]. right. left. reflexivity.
  - destruct IH as [Hd Hp]. split; [exact Hd|]. right. left. reflexivity.
  - destruct IH as [Hd Hp]. split; [exact Hd|exact Hp].
Qed.

(** No plain key completes a quote text object behind an empty buffer or
    behind a prefix key. *)
Lemma plain_key_no_quote_object (b k target : jstring) :
  b = [] \/ is_prefix_key b = true ->
  plain_key k = true ->
  In target [("di" ++ unnamed : jstring); ("di'" : jstring);
                 ("ci" ++ unnamed : jstring); ("ci'" : jstring)] ->
  JS.eqb (b ++ k) target = false.
Proof.
  intros Hb Hk Ht.
  destruct (JS.eqb (b ++ k) target) eqn:E; [|reflexivity].
  apply eqb_eq in E. exfalso.
  assert (Hb' : In b ([] :: case_ ["d"; "c"; "y"; "g"; "f"; "F"; "t"; "T"; "r"])).
  { destruct Hb as [->|Hb]; [left; reflexivity|right].
    unfold is_prefix_key in Hb. apply existsb_exists in Hb.
    destruct Hb as (x & Hx & Ex). apply eqb_eq in Ex. subst. exact Hx. }
  unfold case_, unnamed in *.
  cbn [map In app String.list_ascii_of_string] in Hb', Ht.
  repeat (destruct Ht as [<-|Ht]); try contradiction;
    repeat (destruct Hb' as [<-|Hb']); try contradiction;
    cbn [app] in E; try discriminate E;
    try (injection E as ->); try (subst k); discriminate Hk.
Qed.

(** X27: the quote text objects cannot be reached from the keyboard.  In
    every engine that the constructor, key events, the decay timer,
    [setContent] and [setCursor] lead to, and for every key that is one
    character or a key name without a quote character, the two tests of
    [handleNormalMode] that guard [deleteInQuotes] and [changeInQuotes]
    fail: the command buffer never holds the two characters [di] or [ci]
    when a key arrives, because [i] after [d] or [c] drops the prefix and
    enters insert mode. *)
Theorem quote_objects_unreachable (e : VimEngine) (k : jstring) :
  reachable e -> plain_key k = true -> mode (state e) = normal ->
  let buffer := commandBuffer (state e) ++ k in
  JS.eqb buffer ("di" ++ unnamed) || JS.eqb buffer "di'" = false
  /\ JS.eqb buffer ("ci" ++ unnamed) || JS.eqb buffer "ci'" = false.
Proof.
  intros Hr Hk Hm buffer. subst buffer.
  destruct (reachable_pending e Hr) as [Hd Hp].
  assert (G : forall target,
            In target [("di" ++ unnamed : jstring); ("di'" : jstring);
                 ("ci" ++ unnamed : jstring); ("ci'" : jstring)] ->
            JS.eqb (commandBuffer (state e) ++ k) target = false).
  { intros target Ht.
    destruct Hp as [Hp|[Hp|[Hp|Hp]]].
    - congruence.
    - apply plain_key_no_quote_object; auto.
    - apply plain_key_no_quote_object; auto.
    - rewrite Hp. destruct (countBuffer e) as [|c t] eqn:Ec.
      + apply plain_key_no_quote_object; auto.
      + cbn [forallb] in Hd. apply andb_true_iff in Hd. destruct Hd as [Hc _].
        unfold unnamed in Ht. cbn [In app String.list_ascii_of_string] in Ht.
        repeat (destruct Ht as [<-|Ht]); try contradiction;
          cbn [app String.list_ascii_of_string];
          apply eqb_digit_head; (exact Hc || reflexivity). }
  split; apply orb_false_iff; split; apply G; cbn [In]; auto.
Qed.

Lemma quote_objects_unreachable_witness :
  let e := mkEngine (set_commandBuffer "d" (state (newEngine [("a'b'c" : jstring)])))
             [] true in
  reachable e /\ plain_key "i" = true /\ mode (state e) = normal
  /\ JS.eqb (commandBuffer (state e) ++ "i") ("di" ++ unnamed)
     || JS.eqb (commandBuffer (state e) ++ "i") "di'" = false
  /\ JS.eqb (commandBuffer (state e) ++ "i") ("ci" ++ unnamed)
     || JS.eqb (commandBuffer (state e) ++ "i") "ci'" = false.
Proof.
  assert (Hr : reachable
                 (mkEngine (set_commandBuffer "d"
                              (state (newEngine [("a'b'c" : jstring)]))) [] true)).
  { apply (reach_key (newEngine [("a'b'c" : jstring)]) (press "d") _ true).
    - apply reach_new.
    - reflexivity.
    - reflexivity. }
  split; [exact Hr|]. split; [reflexivity|]. split; [reflexivity|].
  exact (quote_objects_unreachable _ "i" Hr eq_refl eq_refl).
Defined.

(** ** Replacing a character *)

Lemma replace_key (e : VimEngine) (x : ascii) :
  mode (state e) = normal -> commandBuffer (state e) = "r" ->
  countBuffer e = [] -> is_key_1_9 [x] = false ->
  handleKeyDown e (press (String.String x String.EmptyString))
  = finish (setCurrentLine
              (JS.substring (getCurrentLine (state e)) 0
                 (col (cursor (state e)))
               ++ [x]
               ++ JS.substringFrom (getCurrentLine (state e))
                    (col (cursor (state e)) + 1))
              (state e)).
Proof.
  intros Hm Hb Hc Hx. unfold handleKeyDown. rewrite Hm.
  unfold handleNormalMode. cbv zeta. sproj. rewrite Hc, Hb.
  cbn [key press String.list_ascii_of_string nonempty andb app].
  rewrite Hx. cbn [orb].
  unfold unnamed, case_.
  cbn [map existsb String.list_ascii_of_string app JS.eqb Ascii.eqb Bool.eqb
       andb orb JS.len length].
  rewrite !andb_false_r. cbn [orb andb].
  change (Z.of_nat 1 =? 1) with true. cbn [andb]. reflexivity.
Qed.

(** X28: replacing a character.  With the cursor on a character [c], [r]
    followed by a character [x] that is not one of the digits 1 to 9 puts
    [x] in the place of [c] and changes nothing else; [r] and [c] then
    restore the line.  Behind the last character of a line (on an empty
    line, say) there is nothing to replace, and [r] appends [x] to the
    line. *)
Theorem replace_char (e : VimEngine) (p q : jstring) (x : ascii) :
  idle e -> in_buffer (state e) (cursor (state e)) ->
  is_key_1_9 [x] = false ->
  let s := state e in
  let key_of (a : ascii) := String.String a String.EmptyString in
  let result (text : jstring) :=
    Some (mkEngine
            (set_lines (JS.aset (lines s) (Z.to_nat (line (cursor s))) text) s)
            [] false) in
  (forall c, split_at_cursor s p (c :: q) ->
     handleKeys e ["r"; key_of x] = result (p ++ x :: q)
     /\ (is_key_1_9 [c] = false ->
         handleKeys e ["r"; key_of x; "r"; key_of c]
         = Some (mkEngine s [] false)))
  /\ (split_at_cursor s p [] ->
      handleKeys e ["r"; key_of x] = result (p ++ [x])).
Proof.
  intros Hi Hb Hx s key_of result. subst s key_of result. cbv beta.
  pose proof Hi as (Hm & Hcb & Hc).
  assert (R : forall (s0 : EditorState) (a : ascii) (u v : jstring),
            mode s0 = normal -> commandBuffer s0 = [] ->
            in_buffer s0 (cursor s0) -> is_key_1_9 [a] = false ->
            getCurrentLine s0 = u ++ v -> JS.len u = col (cursor s0) ->
            handleKeys (mkEngine s0 [] false)
              ["r"; String.String a String.EmptyString]
            = Some (mkEngine
                      (set_lines
                         (JS.aset (lines s0) (Z.to_nat (line (cursor s0)))
                            (u ++ a :: skipn 1 v)) s0)
                      [] false)).
  { intros s0 a u v M0 B0 I0 A0 L0 C0.
    cbn [handleKeys].
    rewrite normal_prefix; try reflexivity; try assumption.
    cbn [bind fst key press].
    rewrite replace_key; try reflexivity; try assumption.
    cbn [state]. sproj.
    change (getCurrentLine (set_commandBuffer "r" s0))
      with (getCurrentLine s0).
    rewrite L0, <- C0. pose proof (len_nonneg u).
    rewrite substring_0 by lia.
    rewrite substringFrom_skipn by lia.
    unfold JS.len. rewrite Nat2Z.id.
    rewrite firstn_app, firstn_all, Nat.sub_diag. cbn [firstn].
    rewrite app_nil_r.
    replace (Z.to_nat (Z.of_nat (length u) + 1)) with (length u + 1)%nat
      by lia.
    rewrite skipn_app, skipn_all2 by lia.
    replace (length u + 1 - length u)%nat with 1%nat by lia.
    cbn [app]. unfold finish, setCurrentLine, setLineAt. sproj.
    unfold in_buffer in I0.
    replace ((0 <=? line (cursor s0)) && (line (cursor s0) <? alen (lines s0)))
      with true by (symmetry; apply andb_true_iff; split; lia).
    cbn [bind ret]. unfold ret. do 2 f_equal.
    unfold set_commandBuffer, set_lines. sproj. rewrite B0. reflexivity. }
  split.
  - intros c [Hl Hcol].
    assert (R1 : handleKeys e ["r"; String.String x String.EmptyString]
                 = Some (mkEngine
                           (set_lines
                              (JS.aset (lines (state e))
                                 (Z.to_nat (line (cursor (state e))))
                                 (p ++ x :: q)) (state e)) [] false)).
    { assert (E0 : handleKeys e ["r"; String.String x String.EmptyString]
                   = handleKeys (mkEngine (state e) [] false)
                       ["r"; String.String x String.EmptyString]).
      { cbn [handleKeys]. rewrite !normal_prefix; try reflexivity;
          try assumption; rewrite ?Hc; reflexivity. }
      rewrite E0.
      rewrite (R (state e) x p (c :: q)); auto. }
    split; [exact R1|]. intros Hcd.
    change ["r"; String.String x String.EmptyString; "r";
            String.String c String.EmptyString]
      with (["r"; String.String x String.EmptyString]
              ++ ["r"; String.String c String.EmptyString]).
    rewrite handleKeys_app, R1. cbn [bind].
    rewrite (R _ c p (x :: q)); auto.
    + do 2 f_equal. unfold set_lines. sproj. rewrite aset_aset.
      cbn [skipn]. rewrite <- Hl, aset_current by exact Hb.
      apply state_eta.
    + unfold in_buffer in *. sproj. rewrite alen_aset. exact Hb.
    + unfold getCurrentLine. sproj. rewrite aget_aset_same by exact Hb.
      reflexivity.
  - intros [Hl Hcol].
    assert (E0 : handleKeys e ["r"; String.String x String.EmptyString]
                 = handleKeys (mkEngine (state e) [] false)
                     ["r"; String.String x String.EmptyString]).
    { cbn [handleKeys]. rewrite !normal_prefix; try reflexivity;
        try assumption; rewrite ?Hc; reflexivity. }
    rewrite E0. rewrite (R (state e) x p []); auto.
Qed.

Lemma replace_char_witness :
  let e := engineAt ["abc"] (mkCursor 0 1) in
  idle e /\ in_buffer (state e) (cursor (state e))
  /\ is_key_1_9 ["x"%char] = false
  /\ split_at_cursor (state e) "a" ("b"%char :: ("c" : jstring))
  /\ is_key_1_9 ["b"%char] = false
  /\ handleKeys e ["r"; "x"; "r"; "b"] = Some (mkEngine (state e) [] false).
Proof.
  assert (Hi : idle (engineAt ["abc"] (mkCursor 0 1))) by (repeat split).
  assert (Hb : in_buffer (state (engineAt ["abc"] (mkCursor 0 1)))
                 (cursor (state (engineAt ["abc"] (mkCursor 0 1)))))
    by (vm_compute; split; [discriminate|reflexivity]).
  assert (Hs : split_at_cursor (state (engineAt ["abc"] (mkCursor 0 1)))
                 "a" ("b"%char :: ("c" : jstring)))
    by (split; reflexivity).
  split; [exact Hi|]. split; [exact Hb|]. split; [reflexivity|].
  split; [exact Hs|]. split; [reflexivity|].
  exact (proj2 (proj1 (replace_char (engineAt ["abc"] (mkCursor 0 1))
                         "a" "c" "x"%char Hi Hb eq_refl) "b"%char Hs)
           eq_refl).
Defined.

(** ** Searching for the word under the cursor *)

(** The word that [searchWordUnderCursor] picks: the run of word characters
    around the cursor. *)
Lemma word_under_cursor (p w q : jstring) (c : Z) :
  JS.len p <= c <= JS.len p + JS.len w ->
  forallb JS.is_word w = true ->
  (forall x, JS.charAt p (JS.len p - 1) = Some x -> JS.is_word x = false) ->
  (forall x, JS.charAt q 0 = Some x -> JS.is_word x = false) ->
  let ln := p ++ w ++ q in
  JS.substring ln
    (loop_down (fun k => JS.test_w (JS.charAt ln (k - 1))) c)
    (loop_up (JS.len ln) (fun k => JS.test_w (JS.charAt ln k)) c)
  = w.
Proof.
  intros Hc Hw Hp Hq ln.
  pose proof (len_nonneg p). pose proof (len_nonneg w).
  pose proof (len_nonneg q).
  assert (Ln : JS.len ln = JS.len p + JS.len w + JS.len q)
    by (subst ln; rewrite !len_app; lia).
  assert (L1 : loop_down (fun k => JS.test_w (JS.charAt ln (k - 1))) c
               = JS.len p).
  { apply loop_down_run; [lia| |].
    - intros k Hk. subst ln.
      destruct (charAt_run JS.is_word p w q (k - 1) Hw) as (x & -> & Fx);
        [lia|]. exact Fx.
    - intros Hpos. subst ln. rewrite charAt_app_left by lia.
      destruct (charAt_Some p (JS.len p - 1)) as (x & Hx); [lia|].
      rewrite Hx. cbn [JS.test_w]. apply Hp. exact Hx. }
  assert (L2 : loop_up (JS.len ln) (fun k => JS.test_w (JS.charAt ln k)) c
               = JS.len p + JS.len w).
  { apply loop_up_run; [lia| |].
    - intros k Hk. subst ln.
      destruct (charAt_run JS.is_word p w q k Hw) as (x & -> & Fx); [lia|].
      exact Fx.
    - intros Hlt. subst ln. rewrite app_assoc.
      replace (JS.len p + JS.len w) with (JS.len (p ++ w) + 0)
        by (rewrite len_app; lia).
      rewrite charAt_app_right by lia.
      destruct (charAt_Some q 0) as (x & Hx); [lia|].
      rewrite Hx. cbn [JS.test_w]. apply Hq. exact Hx. }
  rewrite L1, L2. subst ln.
  rewrite substring_mid by lia.
  replace (Z.to_nat (JS.len p)) with (length p) by (unfold JS.len; lia).
  rewrite skipn_prefix.
  replace (Z.to_nat (JS.len p + JS.len w - JS.len p)) with (length w)
    by (unfold JS.len; lia).
  rewrite firstn_app, firstn_all, Nat.sub_diag. apply app_nil_r.
Qed.

(** X29: [*] searches for the word under the cursor.  With the cursor in
    or right behind a run [w] of word characters that is bounded by other
    characters or by the ends of the line, [*] makes [w] the last search
    pattern and runs the forward search from the cursor.  With no word
    character under or right before the cursor, [*] changes nothing. *)
Theorem star_searches_word (e : VimEngine) (p w q : jstring) :
  idle e ->
  getCurrentLine (state e) = p ++ w ++ q ->
  JS.len p <= col (cursor (state e)) <= JS.len p + JS.len w ->
  forallb JS.is_word w = true ->
  (forall x, JS.charAt p (JS.len p - 1) = Some x -> JS.is_word x = false) ->
  (forall x, JS.charAt q 0 = Some x -> JS.is_word x = false) ->
  (w <> [] ->
   handleKeys e ["*"]
   = (s' <- searchNext (set_lastSearch w (state e)) ;;
      ret (mkEngine s' [] false)))
  /\ (w = [] -> handleKeys e ["*"] = Some (mkEngine (state e) [] false)).
Proof.
  intros Hi Hl Hc Hw Hp Hq.
  pose proof (word_under_cursor p w q (col (cursor (state e))) Hc Hw Hp Hq)
    as W. cbv zeta in W.
  assert (K : handleKeys e ["*"]
              = (s' <- searchWordUnderCursor (state e) ;;
                 ret (mkEngine s' [] false))).
  { rewrite (idle_single e "*" Hi) by reflexivity.
    change (normalSwitch 1 (state e) "*")
      with (break_ (searchWordUnderCursor (state e))).
    unfold break_. destruct (searchWordUnderCursor (state e)); reflexivity. }
  rewrite K. unfold searchWordUnderCursor. cbv zeta. rewrite Hl, W.
  split.
  - intros Hne. destruct w; [congruence|reflexivity].
  - intros ->. reflexivity.
Qed.

Lemma star_searches_word_witness :
  let e := engineAt ["foo bar foo"] (mkCursor 0 1) in
  idle e
  /\ getCurrentLine (state e)
     = (@nil ascii) ++ ("foo" : jstring) ++ (" bar foo" : jstring)
  /\ JS.len [] <= col (cursor (state e)) <= JS.len [] + JS.len "foo"
  /\ forallb JS.is_word ("foo" : jstring) = true
  /\ ("foo" : jstring) <> []
  /\ handleKeys e ["*"]
     = (s' <- searchNext (set_lastSearch "foo" (state e)) ;;
        ret (mkEngine s' [] false)).
Proof.
  assert (Hi : idle (engineAt ["foo bar foo"] (mkCursor 0 1)))
    by (repeat split).
  assert (Hc : JS.len []
               <= col (cursor (state (engineAt ["foo bar foo"] (mkCursor 0 1))))
               <= JS.len [] + JS.len "foo")
    by (vm_compute; split; discriminate).
  assert (Hne : ("foo" : jstring) <> []) by discriminate.
  split; [exact Hi|]. split; [reflexivity|]. split; [exact Hc|].
  split; [reflexivity|]. split; [exact Hne|].
  refine (proj1 (star_searches_word (engineAt ["foo bar foo"] (mkCursor 0 1))
                   [] "foo" " bar foo" Hi eq_refl Hc eq_refl _ _) Hne).
  - intros x Hx. discriminate Hx.
  - intros x Hx. injection Hx as <-. reflexivity.
Defined.

(** ** Deleting and changing a word *)

Lemma idle_dw (e : VimEngine) :
  idle e ->
  handleKeys e ["d"; "w"]
  = (s' <- deleteWord 1 (set_commandBuffer "d" (state e)) ;;
     ret (mkEngine (set_commandBuffer [] s') [] false)).
Proof.
  destruct e as [[ls cur m sel cb regs lsr msg] cnt tmo].
  unfold idle. cbn [state mode commandBuffer countBuffer].
  intros (-> & -> & ->).
  lazy -[deleteWord]. destruct (deleteWord _ _); reflexivity.
Qed.

Lemma idle_cw (e : VimEngine) :
  idle e ->
  handleKeys e ["c"; "w"]
  = (s' <- changeWord (set_commandBuffer "c" (state e)) ;;
     ret (mkEngine (set_commandBuffer [] s') [] false)).
Proof.
  destruct e as [[ls cur m sel cb regs lsr msg] cnt tmo].
  unfold idle. cbn [state mode commandBuffer countBuffer].
  intros (-> & -> & ->).
  lazy -[changeWord]. destruct (changeWord _); reflexivity.
Qed.

(** The scan over the word characters from the cursor on. *)
Lemma scan_word (p w rest : jstring) :
  forallb JS.is_word w = true ->
  (forall x, JS.charAt rest 0 = Some x -> JS.is_word x = false) ->
  let ln := p ++ w ++ rest in
  loop_up (JS.len ln) (fun k => JS.test_w (JS.charAt ln k)) (JS.len p)
  = JS.len p + JS.len w.
Proof.
  intros Hw Hr ln.
  pose proof (len_nonneg p). pose proof (len_nonneg w).
  pose proof (len_nonneg rest).
  assert (Ln : JS.len ln = JS.len p + JS.len w + JS.len rest)
    by (subst ln; rewrite !len_app; lia).
  apply loop_up_run; [lia| |].
  - intros k Hk. subst ln.
    destruct (charAt_run JS.is_word p w rest k Hw) as (x & -> & Fx); [lia|].
    exact Fx.
  - intros Hlt. subst ln. rewrite app_assoc.
    replace (JS.len p + JS.len w) with (JS.len (p ++ w) + 0)
      by (rewrite len_app; lia).
    rewrite charAt_app_right by lia.
    destruct (charAt_Some rest 0) as (x & Hx); [lia|].
    rewrite Hx. cbn [JS.test_w]. apply Hr. exact Hx.
Qed.

(** The scan over the white space behind the word. *)
Lemma scan_space (p sp rest : jstring) :
  forallb JS.is_space sp = true ->
  (forall x, JS.charAt rest 0 = Some x -> JS.is_space x = false) ->
  let ln := p ++ sp ++ rest in
  loop_up (JS.len ln) (fun k => JS.test_s (JS.charAt ln k)) (JS.len p)
  = JS.len p + JS.len sp.
Proof.
  intros Hs Hr ln.
  pose proof (len_nonneg p). pose proof (len_nonneg sp).
  pose proof (len_nonneg rest).
  assert (Ln : JS.len ln = JS.len p + JS.len sp + JS.len rest)
    by (subst ln; rewrite !len_app; lia).
  apply loop_up_run; [lia| |].
  - intros k Hk. subst ln.
    destruct (charAt_run JS.is_space p sp rest k Hs) as (x & -> & Fx); [lia|].
    exact Fx.
  - intros Hlt. subst ln. rewrite app_assoc.
    replace (JS.len p + JS.len sp) with (JS.len (p ++ sp) + 0)
      by (rewrite len_app; lia).
    rewrite charAt_app_right by lia.
    destruct (charAt_Some rest 0) as (x & Hx); [lia|].
    rewrite Hx. cbn [JS.test_s]. apply Hr. exact Hx.
Qed.

Lemma substring_span (p r q : jstring) :
  JS.substring (p ++ r ++ q) 0 (JS.len p) = p
  /\ JS.substring (p ++ r ++ q) (JS.len p) (JS.len p + JS.len r) = r
  /\ JS.substringFrom (p ++ r ++ q) (JS.len p + JS.len r) = q.
Proof.
  pose proof (len_nonneg p). pose proof (len_nonneg r).
  split; [|split].
  - rewrite substring_0 by lia. unfold JS.len. rewrite Nat2Z.id.
    rewrite firstn_app, firstn_all, Nat.sub_diag. apply app_nil_r.
  - rewrite substring_mid by lia.
    replace (Z.to_nat (JS.len p)) with (length p) by (unfold JS.len; lia).
    rewrite skipn_prefix.
    replace (Z.to_nat (JS.len p + JS.len r - JS.len p)) with (length r)
      by (unfold JS.len; lia).
    rewrite firstn_app, firstn_all, Nat.sub_diag. apply app_nil_r.
  - rewrite substringFrom_skipn by lia. rewrite app_assoc.
    replace (Z.to_nat (JS.len p + JS.len r)) with (length (p ++ r))
      by (rewrite length_app; unfold JS.len; lia).
    apply skipn_prefix.
Qed.

(** X30: deleting and changing a word.  With the cursor at the start of a
    run [w] of word characters followed by white space [sp], [dw] removes
    the word and the white space, stores both in the unnamed register and
    brings the cursor within the line; on a character that is neither, [dw]
    changes nothing.  [cw] removes the word characters only, stores them
    and enters insert mode, so that the text typed next takes the place of
    the word. *)
Theorem delete_and_change_word (e : VimEngine) (p w sp rest t : jstring) :
  idle e -> in_buffer (state e) (cursor (state e)) ->
  getCurrentLine (state e) = p ++ w ++ sp ++ rest ->
  col (cursor (state e)) = JS.len p ->
  forallb JS.is_word w = true -> forallb JS.is_space sp = true ->
  (forall x, JS.charAt (sp ++ rest) 0 = Some x -> JS.is_word x = false) ->
  (forall x, JS.charAt rest 0 = Some x -> JS.is_space x = false) ->
  let s := state e in
  let line_set (text : jstring) (s0 : EditorState) :=
    set_lines (JS.aset (lines s) (Z.to_nat (line (cursor s))) text) s0 in
  (w ++ sp <> [] ->
   handleKeys e ["d"; "w"]
   = Some (mkEngine
             (set_col
                (Z.min (JS.len p) (Z.max 0 (JS.len p + JS.len rest - 1)))
                (line_set (p ++ rest) (set_register (Some (w ++ sp)) s)))
             [] false))
  /\ (w ++ sp = [] -> rest <> [] ->
      handleKeys e ["d"; "w"] = Some (mkEngine s [] false))
  /\ handleKeys e (["c"; "w"] ++ typed t)
     = Some (mkEngine
               (set_col (JS.len p + JS.len t)
                  (line_set (p ++ t ++ sp ++ rest)
                     (set_mode insert (set_register (Some w) s))))
               [] false).
Proof.
  intros Hi Hb Hl Hc Hw Hs Hr1 Hr2 s line_set. subst s line_set. cbv beta.
  pose proof Hi as (Hm & Hcb & Hcn).
  pose proof (len_nonneg p) as Lp. pose proof (len_nonneg w) as Lw.
  pose proof (len_nonneg sp) as Lsp. pose proof (len_nonneg rest) as Lr.
  pose proof (scan_word p w (sp ++ rest) Hw Hr1) as S1. cbv zeta in S1.
  assert (S2 : loop_up (JS.len (p ++ w ++ sp ++ rest))
                 (fun k => JS.test_s (JS.charAt (p ++ w ++ sp ++ rest) k))
                 (JS.len p + JS.len w)
               = JS.len p + JS.len w + JS.len sp).
  { rewrite (app_assoc p w), <- (len_app p w).
    apply (scan_space (p ++ w) sp rest Hs Hr2). }
  assert (G : forall b, getCurrentLine (set_commandBuffer b (state e))
                        = p ++ w ++ sp ++ rest) by (intros b; exact Hl).
  assert (Q : forall b, in_buffer (set_commandBuffer b (state e))
                          (cursor (set_commandBuffer b (state e))))
    by (intros b; exact Hb).
  assert (D : deleteWord 1 (set_commandBuffer "d" (state e))
              = (if JS.len p <? JS.len p + JS.len w + JS.len sp
                 then
                   let s1 := set_lines
                               (JS.aset (lines (state e))
                                  (Z.to_nat (line (cursor (state e))))
                                  (p ++ rest))
                               (set_register (Some (w ++ sp))
                                  (set_commandBuffer "d" (state e))) in
                   Some (set_cursor (clampCursor s1 (cursor s1)) s1)
                 else
                   let s1 := set_commandBuffer "d" (state e) in
                   Some (set_cursor (clampCursor s1 (cursor s1)) s1))).
  { unfold deleteWord. rewrite timesM_one. cbv zeta.
    rewrite G. sproj. rewrite Hc, S1, S2.
    destruct (JS.len p <? JS.len p + JS.len w + JS.len sp) eqn:E.
    - destruct (substring_span p (w ++ sp) rest) as (E1 & E2 & E3).
      rewrite len_app, <- !app_assoc, Z.add_assoc in E2, E3.
      rewrite <- !app_assoc in E1.
      rewrite E1, E2, E3.
      rewrite setCurrentLine_reg by apply Q. reflexivity.
    - reflexivity. }
  split; [|split].
  - intros Hne. rewrite (idle_dw e Hi), D.
    assert (Lne : 0 < JS.len w + JS.len sp).
    { rewrite <- len_app. destruct (w ++ sp); [congruence|].
      rewrite len_cons. pose proof (len_nonneg l). lia. }
    replace (JS.len p <? JS.len p + JS.len w + JS.len sp) with true by lia.
    cbv zeta. cbn [bind ret]. unfold ret. do 2 f_equal.
    match goal with |- context [clampCursor ?s1 ?c] =>
      rewrite (clampCursor_on_line s1 c (p ++ rest)) end.
    + unfold set_col, set_cursor, set_lines, set_register, set_registers,
        set_commandBuffer. sproj. rewrite Hc, len_app, Hcb.
      replace (Z.max 0 (Z.min (JS.len p)
                          (Z.max 0 (JS.len p + JS.len rest - 1))))
        with (Z.min (JS.len p) (Z.max 0 (JS.len p + JS.len rest - 1)))
        by lia.
      reflexivity.
    + unfold in_buffer in *. sproj. rewrite alen_aset. exact Hb.
    + sproj. apply aget_aset_same. exact Hb.
    + sproj. rewrite Hm. discriminate.
  - intros He Hne. rewrite (idle_dw e Hi), D.
    apply app_eq_nil in He. destruct He as [-> ->]. cbn [app] in Hl.
    rewrite len_nil, !Z.add_0_r. rewrite Z.ltb_irrefl.
    cbv zeta. cbn [bind ret]. unfold ret. do 2 f_equal.
    match goal with |- context [clampCursor ?s1 ?c] =>
      rewrite (clampCursor_on_line s1 c (p ++ rest)) end.
    + destruct rest as [|c rest0]; [congruence|].
      unfold set_cursor, set_commandBuffer. sproj.
      rewrite Hc, len_app, len_cons. pose proof (len_nonneg rest0).
      replace (Z.max 0 (Z.min (JS.len p)
                          (Z.max 0 (JS.len p + (1 + JS.len rest0) - 1))))
        with (col (cursor (state e))) by lia.
      rewrite cursor_eta, <- Hcb at 1. apply state_eta.
    + exact Hb.
    + sproj. rewrite <- Hl. apply getCurrentLine_aget. exact Hb.
    + sproj. rewrite Hm. discriminate.
  - rewrite handleKeys_app, (idle_cw e Hi).
    unfold changeWord. cbv zeta. rewrite G. sproj. rewrite Hc, S1.
    destruct (substring_span p w (sp ++ rest)) as (E1 & E2 & E3).
    rewrite E1, E2, E3.
    rewrite setCurrentLine_reg by apply Q. cbn [bind ret].
    rewrite (insert_typing t p (sp ++ rest)).
    + cbn [state countBuffer commandTimeout]. unfold ret. do 2 f_equal.
      unfold set_col, set_cursor, set_lines, set_mode, set_register,
        set_registers, set_commandBuffer. sproj.
      rewrite aset_aset, Hc, Hcb. reflexivity.
    + reflexivity.
    + unfold in_buffer in *. sproj. rewrite alen_aset. exact Hb.
    + split; [|sproj; symmetry; exact Hc].
      unfold getCurrentLine. sproj. rewrite aget_aset_same by exact Hb.
      reflexivity.
Qed.

Lemma delete_and_change_word_witness :
  let e := engineAt ["ab cd  ef"] (mkCursor 0 3) in
  idle e /\ in_buffer (state e) (cursor (state e))
  /\ getCurrentLine (state e)
     = ("ab " : jstring) ++ ("cd" : jstring) ++ ("  " : jstring)
         ++ ("ef" : jstring)
  /\ col (cursor (state e)) = JS.len "ab "
  /\ forallb JS.is_word ("cd" : jstring) = true
  /\ forallb JS.is_space ("  " : jstring) = true
  /\ handleKeys e (["c"; "w"] ++ typed "X")
     = Some (mkEngine
               (set_col (JS.len "ab " + JS.len "X")
                  (set_lines
                     (JS.aset (lines (state e))
                        (Z.to_nat (line (cursor (state e))))
                        (("ab " : jstring) ++ ("X" : jstring)
                           ++ ("  " : jstring) ++ ("ef" : jstring)))
                     (set_mode insert
                        (set_register (Some ("cd" : jstring)) (state e)))))
               [] false).
Proof.
  assert (Hi : idle (engineAt ["ab cd  ef"] (mkCursor 0 3)))
    by (repeat split).
  assert (Hb : in_buffer (state (engineAt ["ab cd  ef"] (mkCursor 0 3)))
                 (cursor (state (engineAt ["ab cd  ef"] (mkCursor 0 3)))))
    by (vm_compute; split; [discriminate|reflexivity]).
  split; [exact Hi|]. split; [exact Hb|]. do 4 (split; [reflexivity|]).
  refine (proj2 (proj2 (delete_and_change_word
                          (engineAt ["ab cd  ef"] (mkCursor 0 3))
                          "ab " "cd" "  " "ef" "X" Hi Hb eq_refl eq_refl
                          eq_refl eq_refl _ _))).
  - intros x Hx. injection Hx as <-. reflexivity.
  - intros x Hx. injection Hx as <-. reflexivity.
Defined.
